(** * Signal-generation core of the binary-options trading bot

    A shallow embedding of the TypeScript engine
    ([components/TradingBotEngine.ts], its earlier revision without the
    sentiment term, and [components/MLModelTraining.ts]) and the
    properties of it that the specification states, followed by further
    properties of the code: what the scorer, the networks, the training
    loop, the prediction log and the model store do on every input.

    Numbers.  A JavaScript [number] is an IEEE 754 binary64 value, which is
    exactly Rocq's primitive [float]: [+ - * /], [sqrt], [abs] and the
    comparisons below are the operations the engine executes, NaN and
    infinities included.  [undefined] read from an array in a numeric
    position behaves as NaN in every use the engine makes of it
    (arithmetic, comparison, [x || 0]) and is modelled as [nan].

    Ranges.  Where a property bounds a result, the magnitudes of the
    doubles involved are followed as real numbers through the
    specification of binary64 ([SpecFloat]): each operation rounds the
    exact result to the nearest double, and rounding never carries a value
    across a double. *)

From Stdlib Require Import String ZArith Reals List Bool Lia Lra.
From Stdlib Require Import Floats.
From Stdlib Require Uint63.
Import ListNotations.

Set Warnings "-inexact-float".
Local Open Scope float_scope.

(** ** The JavaScript runtime used by the engine *)

Module JS.

(** A small non-negative integer as a double (exact below 2^53). *)
Definition ofnat (n : nat) : float :=
  of_uint63 (Uint63.of_Z (Z.of_nat n)).

(** [x > y] *)
Definition gtb (x y : float) : bool := y <? x.
(** [x >= y] *)
Definition geb (x y : float) : bool := y <=? x.

(** The sign bit of a zero: [true] for [-0]. *)
Definition is_neg_zero (x : float) : bool :=
  (x =? 0) && (1 / x <? 0).

(** [Math.max(...xs)]: NaN if any argument is NaN, [-Infinity] for no
    argument, [+0] above [-0]. *)
Definition max2 (highest number : float) : float :=
  if is_nan highest || is_nan number then nan
  else if number =? highest
       then (if is_neg_zero highest then number else highest)
       else if highest <? number then number else highest.

Definition Math_max (xs : list float) : float :=
  fold_left max2 xs neg_infinity.

(** [Math.min(...xs)]: NaN if any argument is NaN, [+Infinity] for no
    argument, [-0] below [+0]. *)
Definition min2 (lowest number : float) : float :=
  if is_nan lowest || is_nan number then nan
  else if number =? lowest
       then (if is_neg_zero number then number else lowest)
       else if number <? lowest then number else lowest.

Definition Math_min (xs : list float) : float :=
  fold_left min2 xs infinity.

(** [Math.abs], [Math.sqrt] are correctly rounded / exact in ECMAScript. *)
Definition Math_abs (x : float) : float := PrimFloat.abs x.
Definition Math_sqrt (x : float) : float := PrimFloat.sqrt x.

(** [Math.pow(x, 2)].  The engine only ever raises to the power 2; the
    runtimes return the correctly rounded square. *)
Definition Math_pow_2 (x : float) : float := x * x.

(** [xs[i]] in a numeric position. *)
Definition get (xs : list float) (i : nat) : float := nth i xs nan.

(** [xs[xs.length - 1]] *)
Definition last_elt (xs : list float) : float := last xs nan.

(** [xs.slice(-n)]: the last [n] elements; [slice(-0)] is the whole
    array. *)
Definition slice_last {A : Type} (n : nat) (xs : list A) : list A :=
  match n with
  | O => xs
  | _ => skipn (length xs - n) xs
  end.

(** [x || d] on numbers: [0], [-0] and NaN are falsy. *)
Definition or_else (x d : float) : float :=
  if (x =? 0) || is_nan x then d else x.

(** [xs.reduce((sum, x) => sum + f(x), 0)] *)
Definition sum_by {A : Type} (f : A -> float) (xs : list A) : float :=
  fold_left (fun sum x => sum + f x) xs 0.

End JS.

(** ** Indicator engine *)

(** First loop of [calculateRSI]: [for (i = 1; i <= period; i++)]. *)
Definition rsi_seed_step (prices : list float) (acc : float * float) (i : nat)
  : float * float :=
  let '(gains, losses) := acc in
  let change := JS.get prices i - JS.get prices (i - 1) in
  if JS.gtb change 0 then (gains + change, losses)
  else (gains, losses - change).

(** Second loop: [for (i = period + 1; i < prices.length; i++)]. *)
Definition rsi_smooth_step (prices : list float) (period : nat)
           (acc : float * float) (i : nat) : float * float :=
  let '(avgGain, avgLoss) := acc in
  let change := JS.get prices i - JS.get prices (i - 1) in
  let gain := if JS.gtb change 0 then change else 0 in
  let loss := if change <? 0 then - change else 0 in
  ((avgGain * JS.ofnat (period - 1) + gain) / JS.ofnat period,
   (avgLoss * JS.ofnat (period - 1) + loss) / JS.ofnat period).

(** The smoothed [(avgGain, avgLoss)] after both loops. *)
Definition rsi_averages (prices : list float) (period : nat) : float * float :=
  let '(gains, losses) :=
    fold_left (rsi_seed_step prices) (seq 1 period) (0, 0) in
  fold_left (rsi_smooth_step prices period)
            (seq (period + 1) (length prices - (period + 1)))
            (gains / JS.ofnat period, losses / JS.ofnat period).

Definition calculateRSI (prices : list float) (period : nat) : float :=
  if (length prices <? period + 1)%nat then 50
  else
    let '(avgGain, avgLoss) := rsi_averages prices period in
    if avgLoss =? 0 then 100
    else
      let rs := avgGain / avgLoss in
      100 - (100 / (1 + rs)).

(** ** Data model *)

Record MarketData := {
  symbol_of : string;
  price : float;
  change : float;
  changePercent : float;
  volume : float;
  high : float;
  low : float;
  open : float;
  timestamp : float
}.

Record MACD := { macd : float; signal : float; histogram : float }.
Record BollingerBands := { upper : float; middle : float; lower : float }.
Record Stochastic := { k : float; d : float }.
Record SupportResistance := { sr_support : float; sr_resistance : float }.

Record TechnicalIndicators := {
  rsi : float;
  ti_macd : MACD;
  bollingerBands : BollingerBands;
  sma20 : float;
  sma50 : float;
  ema12 : float;
  ema26 : float;
  stochastic : Stochastic;
  volatility : float;
  support : float;
  resistance : float
}.

Inductive Direction := CALL | PUT.

Definition Direction_eqb (a b : Direction) : bool :=
  match a, b with
  | CALL, CALL | PUT, PUT => true
  | _, _ => false
  end.

(** ** Indicator engine, continued *)

Section Indicators.

(** [Math.log] is implementation-approximated in ECMAScript: it stays a
    parameter. *)
Variable Math_log : float -> float.

Definition calculateEMA (prices : list float) (period : nat) : float :=
  match prices with
  | [] => 0
  | [p] => p
  | p0 :: rest =>
      let multiplier := 2 / (JS.ofnat period + 1) in
      fold_left (fun ema p => (p * multiplier) + (ema * (1 - multiplier)))
                rest p0
  end.

Definition calculateMACD (prices : list float) : MACD :=
  let ema12 := calculateEMA prices 12 in
  let ema26 := calculateEMA prices 26 in
  let macd := ema12 - ema26 in
  let macdArray := [macd] in
  let signal := calculateEMA macdArray 9 in
  let histogram := macd - signal in
  {| macd := macd; signal := signal; histogram := histogram |}.

Definition calculateBollingerBands (prices : list float)
           (period : nat) (stdDev : float) : BollingerBands :=
  if (length prices <? period)%nat then
    let lastPrice := JS.last_elt prices in
    {| upper := lastPrice; middle := lastPrice; lower := lastPrice |}
  else
    let recentPrices := JS.slice_last period prices in
    let sma := JS.sum_by (fun price => price) recentPrices / JS.ofnat period in
    let variance :=
      JS.sum_by (fun price => JS.Math_pow_2 (price - sma)) recentPrices
      / JS.ofnat period in
    let standardDeviation := JS.Math_sqrt variance in
    {| upper := sma + (standardDeviation * stdDev);
       middle := sma;
       lower := sma - (standardDeviation * stdDev) |}.

Definition calculateSMA (prices : list float) (period : nat) : float :=
  if (length prices <? period)%nat then JS.or_else (JS.last_elt prices) 0
  else
    let recentPrices := JS.slice_last period prices in
    JS.sum_by (fun price => price) recentPrices / JS.ofnat period.

Definition calculateStochastic (highs lows closes : list float)
           (period : nat) : Stochastic :=
  if (length closes <? period)%nat then {| k := 50; d := 50 |}
  else
    let recentHighs := JS.slice_last period highs in
    let recentLows := JS.slice_last period lows in
    let currentClose := JS.last_elt closes in
    let highestHigh := JS.Math_max recentHighs in
    let lowestLow := JS.Math_min recentLows in
    let k := ((currentClose - lowestLow) / (highestHigh - lowestLow)) * 100 in
    let d := k in
    {| k := k; d := d |}.

Definition calculateVolatility (prices : list float) (period : nat) : float :=
  if (length prices <? period)%nat then 0
  else
    let returns :=
      map (fun i => Math_log (JS.get prices i / JS.get prices (i - 1)))
          (seq 1 (Nat.min (length prices) (period + 1) - 1)) in
    let mean := JS.sum_by (fun ret => ret) returns / JS.ofnat (length returns) in
    let variance :=
      JS.sum_by (fun ret => JS.Math_pow_2 (ret - mean)) returns
      / JS.ofnat (length returns) in
    JS.Math_sqrt variance * JS.Math_sqrt 252.

Definition calculateSupportResistance (highs lows : list float)
           (period : nat) : SupportResistance :=
  if (length highs <? period)%nat || (length lows <? period)%nat then
    let lastHigh := JS.or_else (JS.last_elt highs) 0 in
    let lastLow := JS.or_else (JS.last_elt lows) 0 in
    {| sr_support := lastLow; sr_resistance := lastHigh |}
  else
    let recentHighs := JS.slice_last period highs in
    let recentLows := JS.slice_last period lows in
    let resistance := JS.Math_max recentHighs in
    let support := JS.Math_min recentLows in
    {| sr_support := support; sr_resistance := resistance |}.

(** Default arguments: RSI and stochastic period 14, Bollinger (20, 2),
    volatility and support/resistance period 20. *)
Definition calculateTechnicalIndicators (marketData : list MarketData)
  : TechnicalIndicators :=
  match marketData with
  | [] =>
      {| rsi := 50;
         ti_macd := {| macd := 0; signal := 0; histogram := 0 |};
         bollingerBands := {| upper := 0; middle := 0; lower := 0 |};
         sma20 := 0; sma50 := 0; ema12 := 0; ema26 := 0;
         stochastic := {| k := 50; d := 50 |};
         volatility := 0; support := 0; resistance := 0 |}
  | _ =>
      let prices := map price marketData in
      let highs := map high marketData in
      let lows := map low marketData in
      let closes := map price marketData in
      {| rsi := calculateRSI prices 14;
         ti_macd := calculateMACD prices;
         bollingerBands := calculateBollingerBands prices 20 2;
         sma20 := calculateSMA prices 20;
         sma50 := calculateSMA prices 50;
         ema12 := calculateEMA prices 12;
         ema26 := calculateEMA prices 26;
         stochastic := calculateStochastic highs lows closes 14;
         volatility := calculateVolatility prices 20;
         support := sr_support (calculateSupportResistance highs lows 20);
         resistance := sr_resistance (calculateSupportResistance highs lows 20) |}
  end.

End Indicators.

(** ** Rule-based scorer *)

Record RuleBasedSignals := { confidence : float; reasoning_of : list string }.

(** One [if / else if] check of [analyzeRuleBasedSignals]: bump the bullish
    or the bearish counter and push the matching reason. *)
Definition rule_check (bull bear : bool) (bullMsg bearMsg : string)
           (acc : float * float * list string) : float * float * list string :=
  let '(bullishSignals, bearishSignals, reasoning) := acc in
  if bull then (bullishSignals + 1, bearishSignals, reasoning ++ [bullMsg])
  else if bear then (bullishSignals, bearishSignals + 1, reasoning ++ [bearMsg])
  else acc.

Definition analyzeRuleBasedSignals (indicators : TechnicalIndicators)
           (currentData : MarketData) : RuleBasedSignals :=
  let s0 : float * float * list string := (0, 0, []) in
  (* RSI Analysis *)
  let s1 := rule_check (rsi indicators <? 30) (JS.gtb (rsi indicators) 70)
              "RSI oversold (< 30) - bullish signal"
              "RSI overbought (> 70) - bearish signal" s0 in
  (* MACD Analysis *)
  let m := ti_macd indicators in
  let s2 := rule_check (JS.gtb (macd m) (signal m) && JS.gtb (histogram m) 0)
                       ((macd m <? signal m) && (histogram m <? 0))
              "MACD bullish crossover" "MACD bearish crossover" s1 in
  (* Bollinger Bands Analysis *)
  let bb := bollingerBands indicators in
  let s3 := rule_check (price currentData <=? lower bb)
                       (JS.geb (price currentData) (upper bb))
              "Price at lower Bollinger Band - oversold"
              "Price at upper Bollinger Band - overbought" s2 in
  (* Moving Average Analysis *)
  let s4 := rule_check
              (JS.gtb (ema12 indicators) (ema26 indicators)
               && JS.gtb (price currentData) (sma20 indicators))
              ((ema12 indicators <? ema26 indicators)
               && (price currentData <? sma20 indicators))
              "Price above SMA20 with EMA12 > EMA26 - bullish trend"
              "Price below SMA20 with EMA12 < EMA26 - bearish trend" s3 in
  (* Stochastic Analysis *)
  let st := stochastic indicators in
  let s5 := rule_check ((k st <? 20) && (d st <? 20))
                       (JS.gtb (k st) 80 && JS.gtb (d st) 80)
              "Stochastic oversold - bullish signal"
              "Stochastic overbought - bearish signal" s4 in
  (* Support/Resistance Analysis *)
  let priceNearSupport :=
    JS.Math_abs (price currentData - support indicators) / price currentData
    <? 0.01 in
  let priceNearResistance :=
    JS.Math_abs (price currentData - resistance indicators) / price currentData
    <? 0.01 in
  let s6 := rule_check priceNearSupport priceNearResistance
              "Price near support level - potential bounce"
              "Price near resistance level - potential rejection" s5 in
  let '(bullishSignals, bearishSignals, reasoning) := s6 in
  let totalSignals := bullishSignals + bearishSignals in
  let confidence :=
    if totalSignals =? 0 then 0.5 else bullishSignals / totalSignals in
  {| confidence := confidence; reasoning_of := reasoning |}.

(** ** Feature extraction *)

Definition normalizeData (data : list float) : list float :=
  let min := JS.Math_min data in
  let max := JS.Math_max data in
  let range := max - min in
  if range =? 0 then map (fun _ => 0.5) data
  else map (fun value => (value - min) / range) data.

Definition extractFeatures (marketData : list MarketData)
           (indicators : TechnicalIndicators) : list float :=
  match marketData with
  | [] => repeat 0 15
  | b :: rest =>
      let latest := last rest b in
      let normalized := normalizeData
        [ rsi indicators;
          macd (ti_macd indicators) * 1000;
          upper (bollingerBands indicators);
          middle (bollingerBands indicators);
          lower (bollingerBands indicators);
          sma20 indicators;
          sma50 indicators;
          ema12 indicators;
          ema26 indicators;
          k (stochastic indicators);
          d (stochastic indicators);
          volatility indicators * 100;
          changePercent latest;
          (price latest - support indicators) / support indicators;
          (resistance indicators - price latest) / price latest ] in
      normalized
  end.

(** ** Neural networks *)

Record ModelArchitecture := {
  inputSize : nat;
  hiddenLayers : list nat;
  outputSize : nat;
  activationFunction : string;
  learningRate : float;
  epochs : nat;
  batchSize : nat
}.

Record TrainingMetrics := {
  epoch : nat;
  loss : float;
  accuracy : float;
  validationLoss : float;
  validationAccuracy : float;
  tm_learningRate : float
}.

Record TrainingData := {
  td_features : list float;
  td_label : float;
  td_timestamp : float
}.

(** The mutable fields of an [MLModelTraining] object. *)
Record MLModelTraining := {
  m_symbol : string;
  architecture : ModelArchitecture;
  weights : list (list float);
  biases : list (list float);
  trainingHistory : list TrainingMetrics
}.

Section NeuralNetwork.

(** [Math.exp] and [Math.tanh] are implementation-approximated in
    ECMAScript: they stay parameters. *)
Variable Math_exp : float -> float.
Variable Math_tanh : float -> float.

Definition sigmoid (x : float) : float := 1 / (1 + Math_exp (- x)).

Definition relu (x : float) : float := JS.Math_max [0; x].

(** *** The fallback network of the engine: 15 inputs, 32 hidden
    units, one output, all parameters in one flat array. *)
Definition neuralNetworkPredict (features : list float)
           (weights : option (list float)) : float :=
  match weights with
  | None => 0.5
  | Some weights =>
      let inputSize := 15%nat in
      let hiddenSize := 32%nat in
      let hidden :=
        map (fun h =>
               let sum :=
                 fold_left
                   (fun sum i =>
                      sum + JS.get features i * JS.get weights (h * inputSize + i))
                   (seq 0 inputSize) 0 in
               let sum := sum + JS.get weights (inputSize * hiddenSize + h) in
               relu sum)
            (seq 0 hiddenSize) in
      let output :=
        fold_left
          (fun output h =>
             output + JS.get hidden h
                      * JS.get weights (inputSize * hiddenSize + hiddenSize + h))
          (seq 0 hiddenSize) 0 in
      let output := output + JS.get weights (length weights - 1) in
      sigmoid output
  end.

(** *** [MLModelTraining] *)

Definition activate (x : float) (function_name : string) : float :=
  if String.eqb function_name "relu" then JS.Math_max [0; x]
  else if String.eqb function_name "sigmoid" then 1 / (1 + Math_exp (- x))
  else if String.eqb function_name "tanh" then Math_tanh x
  else x.

(** One neuron: [sum = bias; sum += previousOutput[j] * w[neuron * n + j]]. *)
Definition neuron_sum (previousOutput layerWeights : list float)
           (bias : float) (neuron : nat) : float :=
  let prevLayerSize := length previousOutput in
  fold_left
    (fun sum prevNeuron =>
       sum + JS.get previousOutput prevNeuron
             * JS.get layerWeights (neuron * prevLayerSize + prevNeuron))
    (seq 0 prevLayerSize) bias.

(** The body of the layer loop.  It reads [this.biases[layer]], which
    throws when the bias array is shorter than the weight array
    ([None]).  The next layer is fed the weighted sums [outputs[layer]],
    as the source does. *)
Fixpoint forward_layers (m : MLModelTraining) (remaining : list (list float))
         (layer : nat) (outputs activations : list (list float))
  : option (list (list float) * list (list float)) :=
  match remaining with
  | [] => Some (outputs, activations)
  | layerWeights :: remaining' =>
      match nth_error (biases m) layer with
      | None => None
      | Some layerBiases =>
          let previousOutput := nth layer outputs [] in
          let layerSize := length layerBiases in
          let layerOutput :=
            map (fun neuron =>
                   neuron_sum previousOutput layerWeights
                              (JS.get layerBiases neuron) neuron)
                (seq 0 layerSize) in
          let activationFunc :=
            if (layer =? length (weights m) - 1)%nat then "sigmoid"%string
            else activationFunction (architecture m) in
          let layerActivation :=
            map (fun sum => activate sum activationFunc) layerOutput in
          forward_layers m remaining' (S layer)
                         (outputs ++ [layerOutput])
                         (activations ++ [layerActivation])
      end
  end.

Definition forwardPropagate (m : MLModelTraining) (input : list float)
  : option (list (list float) * list (list float)) :=
  forward_layers m (weights m) 0 [input] [input].

(** [predict]: [None] when [forwardPropagate] throws. *)
Definition predict (m : MLModelTraining) (features : list float)
  : option float :=
  match forwardPropagate m features with
  | None => None
  | Some (_, activations) => Some (JS.get (last activations []) 0)
  end.

End NeuralNetwork.

(** ** Exceptions and the persistence collaborator *)

(** An operation either returns or throws. *)
Inductive result (A : Type) : Type :=
| Ok (a : A)
| Throw (message : string).
Arguments Ok {A} a.
Arguments Throw {A} message.

(** [JSON.stringify] writes a finite number as itself ([-0] as [0]) and
    NaN and the infinities as [null]; [JSON.parse] reads it back. *)
Definition JSON_number (x : float) : option float :=
  if is_finite x then Some (if x =? 0 then 0 else x) else None.

(** [null] in a numeric position converts to [+0] ([ToNumber]). *)
Definition ToNumber (x : option float) : float :=
  match x with
  | Some v => v
  | None => 0
  end.

(** An entry of the prediction log as it sits in storage.  [None] is
    [null]. *)
Record StoredPrediction := {
  sp_timestamp : option float;
  sp_prediction : Direction;
  sp_confidence : option float;
  sp_features : list (option float);
  actualOutcome : option Direction
}.

Record StoredArchitecture := {
  sa_inputSize : nat;
  sa_hiddenLayers : list nat;
  sa_outputSize : nat;
  sa_activationFunction : string;
  sa_learningRate : option float;
  sa_epochs : nat;
  sa_batchSize : nat
}.

Record StoredMetrics := {
  sm_epoch : nat;
  sm_loss : option float;
  sm_accuracy : option float;
  sm_validationLoss : option float;
  sm_validationAccuracy : option float;
  sm_learningRate : option float
}.

(** The object [saveModel] serialises. *)
Record ModelData := {
  md_architecture : StoredArchitecture;
  md_weights : list (list (option float));
  md_biases : list (list (option float));
  md_trainingHistory : list StoredMetrics;
  md_timestamp : option float
}.

(** What a key of the store holds, after [JSON.parse]: a model record, a
    prediction log, or text that does not parse.  The engine writes model
    records under [ml_model_] keys only and prediction logs under
    [predictions_] keys only; a blob of the other kind under a key, which
    the engine never produces, is read like text that does not parse. *)
Inductive Blob :=
| BlobModel (md : ModelData)
| BlobPredictions (log : list StoredPrediction)
| BlobOther.

(** [AsyncStorage]: a key-value store whose reads and writes may reject. *)
Record AsyncStorage := {
  items : string -> option Blob;
  readFails : bool;
  writeFails : bool
}.

Definition getItem (key : string) (st : AsyncStorage) : result (option Blob) :=
  if readFails st then Throw "AsyncStorage.getItem failed"
  else Ok (items st key).

Definition setItem (key : string) (value : Blob) (st : AsyncStorage)
  : result AsyncStorage :=
  if writeFails st then Throw "AsyncStorage.setItem failed"
  else Ok {| items := fun k' => if String.eqb k' key then Some value else items st k';
             readFails := readFails st;
             writeFails := writeFails st |}.

Definition emptyStorage : AsyncStorage :=
  {| items := fun _ => None; readFails := false; writeFails := false |}.

(** [existing ? JSON.parse(existing) : []] for a prediction log.  A blob
    of another shape makes the caller's array operations throw. *)
Definition parse_predictions (existing : option Blob)
  : result (list StoredPrediction) :=
  match existing with
  | None => Ok []
  | Some (BlobPredictions log) => Ok log
  | Some _ => Throw "not a prediction log"
  end.

(** ** Signals and the prediction log *)

Record TradingSignal := {
  sig_symbol : string;
  direction : Direction;
  sig_confidence : float;
  duration : nat;
  entryPrice : float;
  stopLoss : float;
  takeProfit : float;
  sig_timestamp : float;
  sig_reasoning : list string;
  technicalIndicators : TechnicalIndicators
}.

Record ModelMetrics := {
  mm_accuracy : float;
  precision : float;
  recall : float;
  f1Score : float;
  sharpeRatio : float;
  winRate : float;
  totalTrades : float;
  profitableTrades : float
}.

(** The in-memory fields of [TradingBotEngine]. *)
Record Engine := {
  modelWeights : string -> option (list float);
  mlModels : string -> option MLModelTraining;
  historicalPredictions : string -> option (list StoredPrediction);
  isTraining : bool
}.

Definition set_historicalPredictions (e : Engine) (symbol : string)
           (predictions : list StoredPrediction) : Engine :=
  {| modelWeights := modelWeights e;
     mlModels := mlModels e;
     historicalPredictions :=
       fun s => if String.eqb s symbol then Some predictions
                else historicalPredictions e s;
     isTraining := isTraining e |}.

Definition predictions_key (symbol : string) : string :=
  ("predictions_" ++ symbol)%string.

(** The [try] block of [storePrediction]. *)
Definition storePrediction_try (e : Engine) (st : AsyncStorage)
           (symbol : string) (signal : TradingSignal) (features : list float)
  : result (Engine * AsyncStorage) :=
  let key := predictions_key symbol in
  match getItem key st with
  | Throw err => Throw err
  | Ok existing =>
      match parse_predictions existing with
      | Throw err => Throw err
      | Ok predictions =>
          let predictions := predictions ++
            [ {| sp_timestamp := JSON_number (sig_timestamp signal);
                 sp_prediction := direction signal;
                 sp_confidence := JSON_number (sig_confidence signal);
                 sp_features := map JSON_number features;
                 actualOutcome := None |} ] in
          (* Keep only last 1000 predictions *)
          let predictions :=
            if (1000 <? length predictions)%nat
            then JS.slice_last 1000 predictions
            else predictions in
          match setItem key (BlobPredictions predictions) st with
          | Throw err => Throw err
          | Ok st' => Ok (set_historicalPredictions e symbol predictions, st')
          end
      end
  end.

(** [storePrediction]: the [catch] logs and swallows the exception. *)
Definition storePrediction (e : Engine) (st : AsyncStorage)
           (symbol : string) (signal : TradingSignal) (features : list float)
  : Engine * AsyncStorage :=
  match storePrediction_try e st symbol signal features with
  | Ok r => r
  | Throw _ => (e, st)
  end.

(** ** Model evaluation *)

Definition zeroMetrics : ModelMetrics :=
  {| mm_accuracy := 0; precision := 0; recall := 0; f1Score := 0;
     sharpeRatio := 0; winRate := 0; totalTrades := 0; profitableTrades := 0 |}.

Definition wasCorrect (pred : StoredPrediction) : bool :=
  match actualOutcome pred with
  | Some o => Direction_eqb (sp_prediction pred) o
  | None => false
  end.

(** The counters after [completedPredictions.forEach]:
    [(correct, truePositives, falsePositives, falseNegatives, profitable)]. *)
Definition tally (acc : float * float * float * float * float)
           (pred : StoredPrediction) : float * float * float * float * float :=
  let '(correct, truePositives, falsePositives, falseNegatives, profitable) := acc in
  let '(correct, profitable) :=
    if wasCorrect pred then (correct + 1, profitable + 1)
    else (correct, profitable) in
  match sp_prediction pred, actualOutcome pred with
  | CALL, Some CALL =>
      (correct, truePositives + 1, falsePositives, falseNegatives, profitable)
  | CALL, Some PUT =>
      (correct, truePositives, falsePositives + 1, falseNegatives, profitable)
  | PUT, Some CALL =>
      (correct, truePositives, falsePositives, falseNegatives + 1, profitable)
  | _, _ => (correct, truePositives, falsePositives, falseNegatives, profitable)
  end.

(** The [try] block of [evaluateModel]. *)
Definition evaluateModel_try (st : AsyncStorage) (symbol : string)
  : result ModelMetrics :=
  let key := predictions_key symbol in
  match getItem key st with
  | Throw err => Throw err
  | Ok stored =>
      match parse_predictions stored with
      | Throw err => Throw err
      | Ok predictions =>
          if (length predictions =? 0)%nat then Ok zeroMetrics
          else
            let completedPredictions :=
              filter (fun p => match actualOutcome p with
                               | Some _ => true
                               | None => false
                               end) predictions in
            if (length completedPredictions =? 0)%nat then Ok zeroMetrics
            else
              let '(correct, truePositives, falsePositives, falseNegatives,
                    profitable) :=
                fold_left tally completedPredictions (0, 0, 0, 0, 0) in
              let n := JS.ofnat (length completedPredictions) in
              let accuracy := correct / n in
              let precision :=
                JS.or_else (truePositives / (truePositives + falsePositives)) 0 in
              let recall :=
                JS.or_else (truePositives / (truePositives + falseNegatives)) 0 in
              let f1Score :=
                JS.or_else (2 * (precision * recall) / (precision + recall)) 0 in
              let winRate := profitable / n in
              let returns :=
                map (fun pred => if wasCorrect pred then 0.8 else -1.0)
                    completedPredictions in
              let avgReturn :=
                JS.sum_by (fun ret => ret) returns / JS.ofnat (length returns) in
              let variance :=
                JS.sum_by (fun ret => JS.Math_pow_2 (ret - avgReturn)) returns
                / JS.ofnat (length returns) in
              let sharpeRatio :=
                if JS.gtb variance 0 then avgReturn / JS.Math_sqrt variance
                else 0 in
              Ok {| mm_accuracy := accuracy;
                    precision := precision;
                    recall := recall;
                    f1Score := f1Score;
                    sharpeRatio := sharpeRatio;
                    winRate := winRate;
                    totalTrades := n;
                    profitableTrades := profitable |}
      end
  end.

(** [evaluateModel]: the [catch] returns the all-zero record. *)
Definition evaluateModel (st : AsyncStorage) (symbol : string) : ModelMetrics :=
  match evaluateModel_try st symbol with
  | Ok metrics => metrics
  | Throw _ => zeroMetrics
  end.

(** ** Signal generator, first revision

    The engine without sentiment and without [MLModelTraining]: the model
    term has weight 0.6, the rule term 0.4, and the dead zone is
    [[0.4, 0.6]]. *)

Module Basic.

(** The value bound to [combinedConfidence]. *)
Definition combinedConfidence (mlPrediction : float)
           (ruleBasedSignals : RuleBasedSignals) : float :=
  (mlPrediction * 0.6) + (confidence ruleBasedSignals * 0.4).

Section SignalGenerator.

Variable Math_exp : float -> float.
Variable Math_log : float -> float.
(** [x.toFixed(1)] *)
Variable toFixed1 : float -> string.

(** [generateTradingSignal] from the combination step to the [return]. *)
Definition combineSignals (e : Engine) (st : AsyncStorage)
           (symbol : string) (duration : nat) (now : float)
           (currentData : MarketData) (indicators : TechnicalIndicators)
           (features : list float) (mlPrediction : float)
           (ruleBasedSignals : RuleBasedSignals)
  : option TradingSignal * (Engine * AsyncStorage) :=
  (* Combine ML and rule-based analysis *)
  let combinedConfidence := combinedConfidence mlPrediction ruleBasedSignals in
  (* Determine direction *)
  let decision : option (Direction * list string) :=
    if JS.gtb combinedConfidence 0.6 then
      Some (CALL,
            [("Strong bullish signal ("
               ++ toFixed1 (combinedConfidence * 100)
               ++ "% confidence)")%string])
    else if combinedConfidence <? 0.4 then
      Some (PUT,
            [("Strong bearish signal ("
               ++ toFixed1 ((1 - combinedConfidence) * 100)
               ++ "% confidence)")%string])
    else None in
  match decision with
  | None => (None, (e, st))       (* No clear signal *)
  | Some (direction, reasoning) =>
      (* Add technical analysis reasoning *)
      let reasoning := reasoning ++ reasoning_of ruleBasedSignals in
      (* Calculate stop loss and take profit *)
      let volatilityAdjustment :=
        volatility indicators * price currentData * 0.01 in
      let stopLoss :=
        match direction with
        | CALL => price currentData - volatilityAdjustment
        | PUT => price currentData + volatilityAdjustment
        end in
      let takeProfit :=
        match direction with
        | CALL => price currentData + (volatilityAdjustment * 2)
        | PUT => price currentData - (volatilityAdjustment * 2)
        end in
      let signal :=
        {| sig_symbol := symbol_of currentData;
           direction := direction;
           sig_confidence := JS.Math_abs (combinedConfidence - 0.5) * 2;
           duration := duration;
           entryPrice := price currentData;
           stopLoss := stopLoss;
           takeProfit := takeProfit;
           sig_timestamp := now;
           sig_reasoning := reasoning;
           technicalIndicators := indicators |} in
      (* Store prediction for continuous learning *)
      (Some signal, storePrediction e st symbol signal features)
  end.

(** [historicalData] and [currentData] are what [fetchHistoricalData]
    and [fetchRealTimeData] returned, [now] is [Date.now()]. *)
Definition generateTradingSignal (e : Engine) (st : AsyncStorage)
           (symbol : string) (duration : nat)
           (historicalData : list MarketData)
           (currentData : option MarketData) (now : float)
  : option TradingSignal * (Engine * AsyncStorage) :=
  if (length historicalData =? 0)%nat then (None, (e, st))
  else
    match currentData with
    | None => (None, (e, st))
    | Some currentData =>
        let indicators :=
          calculateTechnicalIndicators Math_log (historicalData ++ [currentData]) in
        let features :=
          extractFeatures (historicalData ++ [currentData]) indicators in
        let mlPrediction :=
          neuralNetworkPredict Math_exp features (modelWeights e symbol) in
        let ruleBasedSignals := analyzeRuleBasedSignals indicators currentData in
        combineSignals e st symbol duration now currentData indicators
                       features mlPrediction ruleBasedSignals
    end.

End SignalGenerator.
End Basic.

(** ** Signal generator with sentiment ([components/TradingBotEngine.ts]) *)

(** What the [DataCollection] collaborator hands back. *)
Record SentimentAnalysis := {
  overallSentiment : float;      (* -1 to 1 *)
  newsCount : float;
  socialMediaMentions : float;
  fearGreedIndex : float
}.

Inductive Impact := low_impact | medium_impact | high_impact.

Record EconomicData := {
  impact : Impact;
  ev_timestamp : float
}.

Module Enhanced.

(** The value bound to [combinedConfidence]. *)
Definition combinedConfidence (mlPrediction : float)
           (sentiment : SentimentAnalysis)
           (ruleBasedSignals : RuleBasedSignals) : float :=
  let sentimentWeight := JS.Math_abs (overallSentiment sentiment) * 0.1 in
  let mlWeight := 0.6 - sentimentWeight in
  let ruleWeight := 0.4 in
  (mlPrediction * mlWeight)
  + (confidence ruleBasedSignals * ruleWeight)
  + (if JS.gtb (overallSentiment sentiment) 0
     then sentimentWeight else - sentimentWeight).

Section SignalGenerator.

Variable Math_exp : float -> float.
Variable Math_tanh : float -> float.
Variable Math_log : float -> float.
Variable toFixed1 : float -> string.
(** [n.toString()] for an array length *)
Variable toString : nat -> string.

Definition calculateEconomicImpact (now : float) (events : list EconomicData)
  : float :=
  fold_left
    (fun totalImpact event =>
       let impact :=
         match impact event with
         | high_impact => 3
         | medium_impact => 2
         | low_impact => 1
         end in
       (* Weight by how soon the event is *)
       let daysUntil := (ev_timestamp event - now) / (24 * 60 * 60 * 1000) in
       let timeWeight := JS.Math_max [0; 1 - daysUntil / 7] in
       totalImpact + impact * timeWeight)
    events 0.

(** [sentiment], [upcomingEvents1], [upcomingEvents2] are what
    [calculateSentimentAnalysis(symbol)] and [getUpcomingEvents(currency, 3)]
    returned. *)
Definition extractEnhancedFeatures (marketData : list MarketData)
           (indicators : TechnicalIndicators) (now : float)
           (sentiment : SentimentAnalysis)
           (upcomingEvents1 upcomingEvents2 : list EconomicData)
  : list float :=
  match marketData with
  | [] => repeat 0 18
  | b :: rest =>
      let latest := last rest b in
      let economicImpact1 := calculateEconomicImpact now upcomingEvents1 in
      let economicImpact2 := calculateEconomicImpact now upcomingEvents2 in
      let technicalFeatures := normalizeData
        [ rsi indicators;
          macd (ti_macd indicators) * 1000;
          upper (bollingerBands indicators);
          middle (bollingerBands indicators);
          lower (bollingerBands indicators);
          sma20 indicators;
          sma50 indicators;
          ema12 indicators;
          ema26 indicators;
          k (stochastic indicators);
          d (stochastic indicators);
          volatility indicators * 100;
          changePercent latest;
          (price latest - support indicators) / support indicators;
          (resistance indicators - price latest) / price latest ] in
      technicalFeatures ++
        [ (overallSentiment sentiment + 1) / 2;
          fearGreedIndex sentiment / 100;
          economicImpact1 / 10;
          economicImpact2 / 10 ]
  end.

(** [generateTradingSignal] from the combination step to the [return];
    [upcomingEvents] are the events of both currencies in the next 24h. *)
Definition combineSignals (e : Engine) (st : AsyncStorage)
           (symbol : string) (duration : nat) (now : float)
           (currentData : MarketData) (indicators : TechnicalIndicators)
           (features : list float) (mlPrediction : float)
           (sentiment : SentimentAnalysis)
           (ruleBasedSignals : RuleBasedSignals)
           (upcomingEvents : list EconomicData)
  : option TradingSignal * (Engine * AsyncStorage) :=
  (* Enhanced signal combination with sentiment *)
  let combinedConfidence :=
    combinedConfidence mlPrediction sentiment ruleBasedSignals in
  (* Determine direction with higher threshold *)
  let decision : option (Direction * list string) :=
    if JS.gtb combinedConfidence 0.65 then
      Some (CALL,
            [("Strong bullish signal ("
               ++ toFixed1 (combinedConfidence * 100)
               ++ "% confidence)")%string])
    else if combinedConfidence <? 0.35 then
      Some (PUT,
            [("Strong bearish signal ("
               ++ toFixed1 ((1 - combinedConfidence) * 100)
               ++ "% confidence)")%string])
    else None in
  match decision with
  | None => (None, (e, st))       (* No clear signal *)
  | Some (direction, reasoning) =>
      (* Add sentiment reasoning *)
      let reasoning :=
        if JS.gtb (JS.Math_abs (overallSentiment sentiment)) 0.3 then
          reasoning ++
            [("Market sentiment: "
               ++ (if JS.gtb (overallSentiment sentiment) 0
                   then "Positive" else "Negative")
               ++ " ("
               ++ toFixed1 (JS.Math_abs (overallSentiment sentiment) * 100)
               ++ "%)")%string]
        else reasoning in
      (* Add technical analysis reasoning *)
      let reasoning := reasoning ++ reasoning_of ruleBasedSignals in
      (* Add economic calendar impact *)
      let reasoning :=
        if (0 <? length upcomingEvents)%nat then
          reasoning ++
            [(toString (length upcomingEvents)
               ++ " economic event(s) in next 24h may impact price")%string]
        else reasoning in
      (* Enhanced risk calculations *)
      let volatilityAdjustment :=
        volatility indicators * price currentData * 0.015 in
      let sentimentAdjustment :=
        JS.Math_abs (overallSentiment sentiment) * price currentData * 0.005 in
      let stopLoss :=
        match direction with
        | CALL => price currentData - (volatilityAdjustment + sentimentAdjustment)
        | PUT => price currentData + (volatilityAdjustment + sentimentAdjustment)
        end in
      let takeProfit :=
        match direction with
        | CALL => price currentData + (volatilityAdjustment * 2.5)
        | PUT => price currentData - (volatilityAdjustment * 2.5)
        end in
      let signal :=
        {| sig_symbol := symbol_of currentData;
           direction := direction;
           sig_confidence := JS.Math_abs (combinedConfidence - 0.5) * 2;
           duration := duration;
           entryPrice := price currentData;
           stopLoss := stopLoss;
           takeProfit := takeProfit;
           sig_timestamp := now;
           sig_reasoning := reasoning;
           technicalIndicators := indicators |} in
      (* Store prediction for continuous learning *)
      (Some signal, storePrediction e st symbol signal features)
  end.

(** [historicalData], [currentData]: the two fetches.  [sentiment]:
    [calculateSentimentAnalysis(symbol)] (cached between its two calls).
    [events1_3d], [events2_3d], [events1_1d], [events2_1d]:
    [getUpcomingEvents] for the two currencies over 3 days and 1 day.
    A throwing [predict] lands in the [catch], which returns [null]. *)
Definition generateTradingSignal (e : Engine) (st : AsyncStorage)
           (symbol : string) (duration : nat)
           (historicalData : list MarketData)
           (currentData : option MarketData)
           (sentiment : SentimentAnalysis)
           (events1_3d events2_3d events1_1d events2_1d : list EconomicData)
           (now : float)
  : option TradingSignal * (Engine * AsyncStorage) :=
  if (length historicalData =? 0)%nat then (None, (e, st))
  else
    match currentData with
    | None => (None, (e, st))
    | Some currentData =>
        let indicators :=
          calculateTechnicalIndicators Math_log (historicalData ++ [currentData]) in
        match mlModels e symbol with
        | None => (None, (e, st))
        | Some mlModel =>
            let features :=
              extractEnhancedFeatures (historicalData ++ [currentData])
                                      indicators now sentiment
                                      events1_3d events2_3d in
            match predict Math_exp Math_tanh mlModel features with
            | None => (None, (e, st))
            | Some mlPrediction =>
                let ruleBasedSignals :=
                  analyzeRuleBasedSignals indicators currentData in
                combineSignals e st symbol duration now currentData indicators
                               features mlPrediction sentiment ruleBasedSignals
                               (events1_1d ++ events2_1d)
            end
        end
    end.

End SignalGenerator.
End Enhanced.

(** ** Saving and loading a model *)

Definition model_key (symbol : string) : string := ("ml_model_" ++ symbol)%string.

Definition stringify_architecture (a : ModelArchitecture) : StoredArchitecture :=
  {| sa_inputSize := inputSize a;
     sa_hiddenLayers := hiddenLayers a;
     sa_outputSize := outputSize a;
     sa_activationFunction := activationFunction a;
     sa_learningRate := JSON_number (learningRate a);
     sa_epochs := epochs a;
     sa_batchSize := batchSize a |}.

Definition stringify_metrics (t : TrainingMetrics) : StoredMetrics :=
  {| sm_epoch := epoch t;
     sm_loss := JSON_number (loss t);
     sm_accuracy := JSON_number (accuracy t);
     sm_validationLoss := JSON_number (validationLoss t);
     sm_validationAccuracy := JSON_number (validationAccuracy t);
     sm_learningRate := JSON_number (tm_learningRate t) |}.

(** The stored fields are kept as numbers in the model: a [null] is
    converted where it is read back, which is what every later arithmetic
    use of the field does to it. *)
Definition parse_architecture (a : StoredArchitecture) : ModelArchitecture :=
  {| inputSize := sa_inputSize a;
     hiddenLayers := sa_hiddenLayers a;
     outputSize := sa_outputSize a;
     activationFunction := sa_activationFunction a;
     learningRate := ToNumber (sa_learningRate a);
     epochs := sa_epochs a;
     batchSize := sa_batchSize a |}.

Definition parse_metrics (t : StoredMetrics) : TrainingMetrics :=
  {| epoch := sm_epoch t;
     loss := ToNumber (sm_loss t);
     accuracy := ToNumber (sm_accuracy t);
     validationLoss := ToNumber (sm_validationLoss t);
     validationAccuracy := ToNumber (sm_validationAccuracy t);
     tm_learningRate := ToNumber (sm_learningRate t) |}.

(** [saveModel]: the [catch] logs and swallows a rejected write. *)
Definition saveModel (m : MLModelTraining) (now : float) (st : AsyncStorage)
  : AsyncStorage :=
  let modelData :=
    {| md_architecture := stringify_architecture (architecture m);
       md_weights := map (map JSON_number) (weights m);
       md_biases := map (map JSON_number) (biases m);
       md_trainingHistory := map stringify_metrics (trainingHistory m);
       md_timestamp := JSON_number now |} in
  match setItem (model_key (m_symbol m)) (BlobModel modelData) st with
  | Ok st' => st'
  | Throw _ => st
  end.

(** [loadModel]: [false] when nothing is stored, or on any exception. *)
Definition loadModel (m : MLModelTraining) (st : AsyncStorage)
  : bool * MLModelTraining :=
  match getItem (model_key (m_symbol m)) st with
  | Throw _ => (false, m)
  | Ok None => (false, m)
  | Ok (Some (BlobModel modelData)) =>
      (true,
       {| m_symbol := m_symbol m;
          architecture := parse_architecture (md_architecture modelData);
          weights := map (map ToNumber) (md_weights modelData);
          biases := map (map ToNumber) (md_biases modelData);
          trainingHistory := map parse_metrics (md_trainingHistory modelData) |})
  | Ok (Some _) => (false, m)
  end.

(** ** Training *)

Definition set_isTraining (e : Engine) (b : bool) : Engine :=
  {| modelWeights := modelWeights e;
     mlModels := mlModels e;
     historicalPredictions := historicalPredictions e;
     isTraining := b |}.

Definition set_mlModel (e : Engine) (symbol : string) (m : MLModelTraining)
  : Engine :=
  {| modelWeights := modelWeights e;
     mlModels := fun s => if String.eqb s symbol then Some m else mlModels e s;
     historicalPredictions := historicalPredictions e;
     isTraining := isTraining e |}.

Definition isModelTraining (e : Engine) : bool := isTraining e.

Definition getSupportedSymbols : list string :=
  ["EURUSD"; "EURJPY"; "USDCHF"]%string.

Section Training.

Variable Math_log : float -> float.
Variable Math_tanh : float -> float.

(** The market-data collaborator: [fetchHistoricalData(symbol, period)]. *)
Variable fetchHistoricalData : string -> string -> list MarketData.

(** [mlModel.trainModel(trainingData)]: shuffling, mini-batch descent,
    early stopping and the final [saveModel].  It mutates the model and
    the store, and returns the metrics or throws.  The training flag
    does not depend on how. *)
Variable trainModel :
  MLModelTraining -> list TrainingData -> AsyncStorage ->
  result (list TrainingMetrics) * MLModelTraining * AsyncStorage.

Definition prepareTrainingData (marketDataHistory : list MarketData)
           (indicatorsHistory : list TechnicalIndicators)
  : list TrainingData :=
  flat_map
    (fun i =>
       match nth_error marketDataHistory i,
             nth_error marketDataHistory (i + 1),
             nth_error indicatorsHistory i with
       | Some currentData, Some nextData, Some indicators =>
           let features :=
             [ rsi indicators / 100;
               Math_tanh (macd (ti_macd indicators) * 1000);
               (upper (bollingerBands indicators) - price currentData)
               / price currentData;
               (middle (bollingerBands indicators) - price currentData)
               / price currentData;
               (lower (bollingerBands indicators) - price currentData)
               / price currentData;
               (sma20 indicators - price currentData) / price currentData;
               (sma50 indicators - price currentData) / price currentData;
               (ema12 indicators - price currentData) / price currentData;
               (ema26 indicators - price currentData) / price currentData;
               k (stochastic indicators) / 100;
               d (stochastic indicators) / 100;
               Math_tanh (volatility indicators * 10);
               Math_tanh (changePercent currentData / 10);
               (price currentData - support indicators) / support indicators;
               (resistance indicators - price currentData) / price currentData ] in
           let label := if JS.gtb (price nextData) (price currentData)
                        then 1 else 0 in
           [ {| td_features := features;
                td_label := label;
                td_timestamp := timestamp currentData |} ]
       | _, _, _ => []
       end)
    (seq 0 (length marketDataHistory - 1)).

(** The [for (const sym of symbolsToTrain)] loop inside the [try].  The
    first component is the exception that left the loop, if any. *)
Fixpoint train_loop (symbolsToTrain : list string)
         (results : list (string * list TrainingMetrics))
         (e : Engine) (st : AsyncStorage)
  : option string * list (string * list TrainingMetrics) * Engine * AsyncStorage :=
  match symbolsToTrain with
  | [] => (None, results, e, st)
  | sym :: rest =>
      (* Get extended historical data for training *)
      let historicalData := fetchHistoricalData (sym ++ "=X") "1y" in
      if (length historicalData <? 100)%nat then train_loop rest results e st
      else
        (* Calculate indicators for all historical data *)
        let indicatorsHistory :=
          map (fun i =>
                 calculateTechnicalIndicators Math_log
                                              (firstn (i + 1) historicalData))
              (seq 20 (length historicalData - 20)) in
        (* Prepare training data *)
        let trainingData :=
          prepareTrainingData (skipn 20 historicalData) indicatorsHistory in
        (* Get ML model and train *)
        match mlModels e sym with
        | Some mlModel =>
            if (50 <? length trainingData)%nat then
              match trainModel mlModel trainingData st with
              | (Ok metrics, mlModel', st') =>
                  train_loop rest (results ++ [(sym, metrics)])
                             (set_mlModel e sym mlModel') st'
              | (Throw err, mlModel', st') =>
                  (Some err, results, set_mlModel e sym mlModel', st')
              end
            else train_loop rest results e st
        | None => train_loop rest results e st
        end
  end.

(** [trainModels(symbol?)].  The guard throws before the [try]; the
    [catch] logs whatever the loop threw; the [finally] clears the
    flag. *)
Definition trainModels (e : Engine) (st : AsyncStorage) (symbol : option string)
  : result (list (string * list TrainingMetrics)) * (Engine * AsyncStorage) :=
  if isTraining e then (Throw "Training already in progress", (e, st))
  else
    let e := set_isTraining e true in
    let symbolsToTrain :=
      match symbol with
      | Some s => if String.eqb s "" then getSupportedSymbols else [s]
      | None => getSupportedSymbols
      end in
    let '(_, results, e, st) := train_loop symbolsToTrain [] e st in
    let e := set_isTraining e false in
    (Ok results, (e, st)).

End Training.

(** ** Constructing the networks *)

(** [Math.random()].  The values it returns, in the order of the calls, are
    given by [random : nat -> float]; the number of calls made so far is
    threaded through the code that draws. *)

(** The [Partial<ModelArchitecture>] a caller hands to the constructor: the
    fields it sets. *)
Record PartialArchitecture := {
  p_inputSize : option nat;
  p_hiddenLayers : option (list nat);
  p_outputSize : option nat;
  p_activationFunction : option string;
  p_learningRate : option float;
  p_epochs : option nat;
  p_batchSize : option nat
}.

(** [{ inputSize: 15, hiddenLayers: [32, 16], ..., ...architecture }] *)
Definition merge_architecture (architecture : option PartialArchitecture)
  : ModelArchitecture :=
  let given {A : Type} (field : PartialArchitecture -> option A) (default : A) :=
    match architecture with
    | Some a => match field a with Some v => v | None => default end
    | None => default
    end in
  {| inputSize := given p_inputSize 15%nat;
     hiddenLayers := given p_hiddenLayers [32; 16]%nat;
     outputSize := given p_outputSize 1%nat;
     activationFunction := given p_activationFunction "relu"%string;
     learningRate := given p_learningRate 0.001;
     epochs := given p_epochs 100%nat;
     batchSize := given p_batchSize 32%nat |}.

(** The layer loop of [initializeWeights] over
    [layers = [inputSize, ...hiddenLayers, outputSize]]: Xavier-uniform
    weights, zero biases.  Returns the weights, the biases and the number
    of draws made. *)
Fixpoint initializeWeights_layers (random : nat -> float) (layers : list nat)
         (drawn : nat) : list (list float) * list (list float) * nat :=
  match layers with
  | currentLayerSize :: ((nextLayerSize :: _) as rest) =>
      (* Xavier initialization *)
      let limit :=
        JS.Math_sqrt (6 / (JS.ofnat currentLayerSize + JS.ofnat nextLayerSize)) in
      let layerWeights :=
        map (fun j => (random (drawn + j)%nat * 2 - 1) * limit)
            (seq 0 (currentLayerSize * nextLayerSize)) in
      let layerBiases := repeat 0 nextLayerSize in
      let '(weights, biases, drawn') :=
        initializeWeights_layers random rest
                                 (drawn + currentLayerSize * nextLayerSize) in
      (layerWeights :: weights, layerBiases :: biases, drawn')
  | _ => ([], [], drawn)
  end.

(** [new MLModelTraining(symbol, architecture)] *)
Definition new_MLModelTraining (symbol : string)
           (architecture : option PartialArchitecture)
           (random : nat -> float) (drawn : nat) : MLModelTraining * nat :=
  let architecture := merge_architecture architecture in
  let layers :=
    inputSize architecture :: hiddenLayers architecture
    ++ [outputSize architecture] in
  let '(weights, biases, drawn') :=
    initializeWeights_layers random layers drawn in
  ({| m_symbol := symbol; architecture := architecture;
      weights := weights; biases := biases; trainingHistory := [] |},
   drawn').

(** [getPerformanceMetrics]: the metrics of the last epoch, [null] before
    any training. *)
Definition getPerformanceMetrics (m : MLModelTraining) : option TrainingMetrics :=
  match trainingHistory m with
  | [] => None
  | t :: rest => Some (last rest t)
  end.

(** [getMLModelPerformance] of the engine. *)
Definition getMLModelPerformance (e : Engine) (symbol : string)
  : option TrainingMetrics :=
  match mlModels e symbol with
  | Some model => getPerformanceMetrics model
  | None => None
  end.

(** The architecture [initializeMLModels] asks for. *)
Definition engine_architecture : PartialArchitecture :=
  {| p_inputSize := Some 18%nat;   (* to include sentiment and economic data *)
     p_hiddenLayers := Some [64; 32; 16]%nat;
     p_outputSize := None;
     p_activationFunction := None;
     p_learningRate := Some 0.001;
     p_epochs := Some 150%nat;
     p_batchSize := Some 64%nat |}.

(** [initializeMLModels]: one model per supported symbol, replaced by the
    stored one when [loadModel] finds it. *)
Definition initializeMLModels (e : Engine) (st : AsyncStorage)
           (random : nat -> float) (drawn : nat) : Engine * nat :=
  fold_left
    (fun (acc : Engine * nat) symbol =>
       let '(e, drawn) := acc in
       let '(mlModel, drawn) :=
         new_MLModelTraining symbol (Some engine_architecture) random drawn in
       (* Try to load existing model *)
       let '(_, mlModel) := loadModel mlModel st in
       (set_mlModel e symbol mlModel, drawn))
    getSupportedSymbols (e, drawn).

(** [this.symbols] *)
Definition symbols : list string := ["EURUSD=X"; "EURJPY=X"; "USDCHF=X"]%string.

Definition set_modelWeights (e : Engine) (symbol : string) (w : list float)
  : Engine :=
  {| modelWeights := fun s => if String.eqb s symbol then Some w else modelWeights e s;
     mlModels := mlModels e;
     historicalPredictions := historicalPredictions e;
     isTraining := isTraining e |}.

(** [initializeModels]: the flat weight array of the fallback network,
    stored under each entry of [this.symbols]. *)
Definition initializeModels (e : Engine) (random : nat -> float) (drawn : nat)
  : Engine * nat :=
  fold_left
    (fun (acc : Engine * nat) symbol =>
       let '(e, drawn) := acc in
       let inputSize := 15%nat in
       let hiddenSize := 32%nat in
       let outputSize := 1%nat in
       let draw (from count : nat) :=
         map (fun i => (random (from + i)%nat - 0.5) * 2) (seq 0 count) in
       (* Input to hidden layer weights *)
       let weights := draw drawn (inputSize * hiddenSize)%nat in
       let drawn := (drawn + inputSize * hiddenSize)%nat in
       (* Hidden layer bias *)
       let weights := weights ++ draw drawn hiddenSize in
       let drawn := (drawn + hiddenSize)%nat in
       (* Hidden to output layer weights *)
       let weights := weights ++ draw drawn (hiddenSize * outputSize)%nat in
       let drawn := (drawn + hiddenSize * outputSize)%nat in
       (* Output bias *)
       let weights := weights ++ draw drawn 1%nat in
       let drawn := (drawn + 1)%nat in
       (set_modelWeights e symbol weights, drawn))
    symbols (e, drawn).

(** ** Cleaning old data *)

(** [saveCachedData] of the data collector: it writes its three caches,
    which the engine never reads; the [catch] swallows a rejected write. *)
Definition saveCachedData (st : AsyncStorage) : AsyncStorage :=
  match setItem "cached_news_data" BlobOther st with
  | Throw _ => st
  | Ok st =>
      match setItem "cached_economic_data" BlobOther st with
      | Throw _ => st
      | Ok st =>
          match setItem "cached_sentiment_data" BlobOther st with
          | Throw _ => st
          | Ok st => st
          end
      end
  end.

(** The loop of the engine's [cleanOldData] over the supported symbols.
    [now symbol] is [Date.now()] when the log of [symbol] is filtered.
    [p.timestamp > cutoffTime] converts a [null] timestamp to 0.  An
    exception leaves the loop for the [catch], with the store as the
    earlier rounds left it. *)
Fixpoint cleanOldPredictions (symbols : list string) (days : float)
         (now : string -> float) (st : AsyncStorage) : AsyncStorage :=
  match symbols with
  | [] => st
  | symbol :: symbols' =>
      let key := predictions_key symbol in
      match getItem key st with
      | Throw _ => st
      | Ok None => cleanOldPredictions symbols' days now st
      | Ok (Some existing) =>
          match parse_predictions (Some existing) with
          | Throw _ => st
          | Ok predictions =>
              let cutoffTime := now symbol - days * 24 * 60 * 60 * 1000 in
              let filteredPredictions :=
                filter (fun p => JS.gtb (ToNumber (sp_timestamp p)) cutoffTime)
                       predictions in
              match setItem key (BlobPredictions filteredPredictions) st with
              | Throw _ => st
              | Ok st' => cleanOldPredictions symbols' days now st'
              end
          end
      end
  end.

(** [cleanOldData(days)] of the engine: the collector's cleaning, then the
    prediction logs.  The in-memory copy [historicalPredictions] is not
    touched. *)
Definition cleanOldData (days : float) (now : string -> float)
           (st : AsyncStorage) : AsyncStorage :=
  cleanOldPredictions getSupportedSymbols days now (saveCachedData st).

(** * Vocabulary of the statements *)

(** ** The prediction log *)

(** The log stored for [symbol]; nothing stored reads as the empty log. *)
Definition stored_log (st : AsyncStorage) (symbol : string)
  : list StoredPrediction :=
  match items st (predictions_key symbol) with
  | Some (BlobPredictions log) => log
  | _ => []
  end.

(** The entry [storePrediction] pushes. *)
Definition log_entry (signal : TradingSignal) (features : list float)
  : StoredPrediction :=
  {| sp_timestamp := JSON_number (sig_timestamp signal);
     sp_prediction := direction signal;
     sp_confidence := JSON_number (sig_confidence signal);
     sp_features := map JSON_number features;
     actualOutcome := None |}.

(** Whether a call gets as far as the write and the write is accepted. *)
Definition stores (st : AsyncStorage) (symbol : string) : bool :=
  negb (readFails st) && negb (writeFails st) &&
  match items st (predictions_key symbol) with
  | None | Some (BlobPredictions _) => true
  | Some _ => false
  end.

(** ** Models that JSON can carry *)

(** The numbers JSON text carries unchanged: finite and not [-0]. *)
Definition json_exact (x : float) : Prop := JSON_number x = Some x.

Definition metrics_exact (t : TrainingMetrics) : Prop :=
  json_exact (loss t) /\ json_exact (accuracy t)
  /\ json_exact (validationLoss t) /\ json_exact (validationAccuracy t)
  /\ json_exact (tm_learningRate t).

(** A model all of whose numbers JSON carries unchanged. *)
Definition storable (m : MLModelTraining) : Prop :=
  json_exact (learningRate (architecture m))
  /\ Forall (Forall json_exact) (weights m)
  /\ Forall (Forall json_exact) (biases m)
  /\ Forall metrics_exact (trainingHistory m).

(** ** Price series *)

(** A strictly increasing series. *)
Definition rising (prices : list float) : Prop :=
  forall i, (1 <= i < length prices)%nat ->
            (JS.get prices (i - 1) <? JS.get prices i) = true.

(** An ordinary price: a number between 0 and 1e300. *)
Definition ordinary_price (p : float) : bool := (0 <=? p) && (p <=? 1e300).

(** A bar is consistent when its close lies between its low and its
    high, as the quotes of a market feed are. *)
Definition consistent (bar : MarketData) : Prop :=
  (low bar <=? price bar) = true /\ (price bar <=? high bar) = true.

(** ** Shapes of doubles, through their specification *)

(** Two doubles that compare equal: two zeros, the same infinity, or the
    same finite number. *)
Inductive SFeq_shape : spec_float -> spec_float -> Prop :=
| eq_zero s s' : SFeq_shape (S754_zero s) (S754_zero s')
| eq_inf s : SFeq_shape (S754_infinity s) (S754_infinity s)
| eq_fin s m e : SFeq_shape (S754_finite s m e) (S754_finite s m e).

Definition SF_zero_or_nan (x : spec_float) : Prop :=
  x = S754_nan \/ exists s, x = S754_zero s.

Definition SF_inf_or_nan (x : spec_float) : Prop :=
  x = S754_nan \/ exists s, x = S754_infinity s.

Inductive SF_is_finite : spec_float -> Prop :=
| fin_zero s : SF_is_finite (S754_zero s)
| fin_finite s m e : SF_is_finite (S754_finite s m e).

(** ** Doubles as real numbers

    The specification of binary64 gives a finite double a sign, a mantissa
    [m] and an exponent [e]; its magnitude is [m * 2^e]. *)

Definition pow2 (e : Z) : R := powerRZ 2 e.

Definition dyadic (m e : Z) : R := (IZR m * pow2 e)%R.

(** The mantissa of the record is the integer part of [v] at exponent
    [e]. *)
Definition truncates (v : R) (mrs : shr_record) (e : Z) : Prop :=
  (0 <= shr_m mrs)%Z
  /\ (dyadic (shr_m mrs) e <= v < dyadic (shr_m mrs + 1) e)%R.

(** When [v] is on the grid of exponent [e], the round and sticky bits of
    the record are clear. *)
Definition flags_exact (v : R) (mrs : shr_record) (e : Z) : Prop :=
  v = dyadic (shr_m mrs) e -> shr_r mrs = false /\ shr_s mrs = false.

(** Not negative: a zero, a positive number, [+Infinity] -- or NaN. *)
Definition not_negative (x : spec_float) : Prop :=
  match x with
  | S754_zero _ | S754_finite false _ _ | S754_infinity false | S754_nan => True
  | _ => False
  end.

(** Not positive: a zero, a negative number, [-Infinity] -- or NaN. *)
Definition not_positive (x : spec_float) : Prop :=
  match x with
  | S754_zero _ | S754_finite true _ _ | S754_infinity true | S754_nan => True
  | _ => False
  end.

(** Mantissa and exponent of a double: the mantissa has 53 bits, or fewer
    at the least exponent, and the exponent is in range. *)
Definition canonical (m : positive) (e : Z) : Prop :=
  SpecFloat.bounded prec emax m e = true.

(** A real number that is the value of a positive double. *)
Definition is_double (B : R) : Prop :=
  exists mb eb, canonical mb eb /\ B = dyadic (Z.pos mb) eb.

(** A zero or a positive number at most [G]. *)
Definition at_most (G : R) (x : spec_float) : Prop :=
  match x with
  | S754_zero _ => True
  | S754_finite false m e => (dyadic (Z.pos m) e <= G)%R
  | _ => False
  end.

(** A zero or a number of magnitude at most [G]. *)
Definition within (G : R) (x : spec_float) : Prop :=
  match x with
  | S754_zero _ => True
  | S754_finite _ m e => (dyadic (Z.pos m) e <= G)%R
  | _ => False
  end.

Definition at_most2 (G : R) (acc : float * float) : Prop :=
  at_most G (Prim2SF (fst acc)) /\ at_most G (Prim2SF (snd acc)).

Definition not_negative2 (acc : float * float) : Prop :=
  not_negative (Prim2SF (fst acc)) /\ not_negative (Prim2SF (snd acc)).

(** ** The reasons of the rule-based scorer *)

(** The six reasons that count as bullish. *)
Definition bullish_reasons : list string :=
  [ "RSI oversold (< 30) - bullish signal";
    "MACD bullish crossover";
    "Price at lower Bollinger Band - oversold";
    "Price above SMA20 with EMA12 > EMA26 - bullish trend";
    "Stochastic oversold - bullish signal";
    "Price near support level - potential bounce" ]%string.

(** How many of the reasons given are bullish ones. *)
Definition count_bullish (reasoning : list string) : nat :=
  length (filter (fun r => existsb (String.eqb r) bullish_reasons) reasoning).

(** The counters of the scorer after [n] checks: they count the bullish and
    the bearish reasons given so far, at most one reason per check. *)
Definition counted (n : nat) (acc : float * float * list string) : Prop :=
  let '(bullishSignals, bearishSignals, reasoning) := acc in
  exists nb nr : nat,
    (nb + nr = length reasoning)%nat /\ (nb + nr <= n)%nat
    /\ bullishSignals = JS.ofnat nb /\ bearishSignals = JS.ofnat nr
    /\ count_bullish reasoning = nb.

(** ** Numbers that are not negative *)

(** A zero, a positive number or [+Infinity]: what [0 <= x] says of a
    double. *)
Definition nonneg_number (x : spec_float) : Prop :=
  match x with
  | S754_zero _ | S754_finite false _ _ | S754_infinity false => True
  | _ => False
  end.

(** ** What the engine writes *)

(** No logged prediction of the store has a resolved outcome. *)
Definition unresolved_logs (st : AsyncStorage) : Prop :=
  forall symbol,
    Forall (fun p => actualOutcome p = None) (stored_log st symbol).

(** One operation of the engine on the store: a signal request of either
    revision, a stored prediction, a cleaning, a saved model; or the
    store becoming available or unavailable. *)
Inductive engine_step : AsyncStorage -> AsyncStorage -> Prop :=
| step_storePrediction e st symbol signal features :
    engine_step st (snd (storePrediction e st symbol signal features))
| step_basic_signal Math_exp Math_log toFixed1 e st symbol duration
                    historicalData currentData now :
    engine_step st
      (snd (snd (Basic.generateTradingSignal Math_exp Math_log toFixed1
                   e st symbol duration historicalData currentData now)))
| step_enhanced_signal Math_exp Math_tanh Math_log toFixed1 toString e st
                       symbol duration historicalData currentData sentiment
                       events1_3d events2_3d events1_1d events2_1d now :
    engine_step st
      (snd (snd (Enhanced.generateTradingSignal
                   Math_exp Math_tanh Math_log toFixed1 toString e st symbol
                   duration historicalData currentData sentiment
                   events1_3d events2_3d events1_1d events2_1d now)))
| step_cleanOldData days now st :
    engine_step st (cleanOldData days now st)
| step_saveModel m now st :
    engine_step st (saveModel m now st)
| step_availability st readFails' writeFails' :
    engine_step st {| items := items st;
                      readFails := readFails';
                      writeFails := writeFails' |}.

(** Any number of operations, one after the other. *)
Inductive engine_run : AsyncStorage -> AsyncStorage -> Prop :=
| run_done st : engine_run st st
| run_step st st' st'' :
    engine_run st st' -> engine_step st' st'' -> engine_run st st''.

(** ** The round trip of a model *)

(** The model [loadModel] builds from what [saveModel] wrote. *)
Definition reloaded (symbol : string) (m : MLModelTraining) : MLModelTraining :=
  {| m_symbol := symbol;
     architecture := parse_architecture (stringify_architecture (architecture m));
     weights := map (map ToNumber) (map (map JSON_number) (weights m));
     biases := map (map ToNumber) (map (map JSON_number) (biases m));
     trainingHistory :=
       map parse_metrics (map stringify_metrics (trainingHistory m)) |}.


(** ** Rounding to nearest, through the round and sticky bits *)

(** The record locates [v] in the interval of its mantissa at exponent
    [e]: on its lower end, below its middle, on the middle, or above it. *)
Definition located (v : R) (mrs : shr_record) (e : Z) : Prop :=
  truncates v mrs e
  /\ match shr_r mrs, shr_s mrs with
     | false, false => v = dyadic (shr_m mrs) e
     | false, true =>
         (dyadic (shr_m mrs) e < v < (IZR (shr_m mrs) + / 2) * pow2 e)%R
     | true, false => v = ((IZR (shr_m mrs) + / 2) * pow2 e)%R
     | true, true => ((IZR (shr_m mrs) + / 2) * pow2 e < v)%R
     end.

(** The value of a finite double. *)
Definition value_of (x : spec_float) : R :=
  match x with
  | S754_finite false m e => dyadic (Z.pos m) e
  | S754_finite true m e => (- dyadic (Z.pos m) e)%R
  | _ => 0%R
  end.

(** ** Ranges *)

(** NaN, or a number between [lo] and [hi]. *)
Definition nan_or_between (lo hi x : float) : Prop :=
  is_nan x = true \/ (lo <=? x) && (x <=? hi) = true.

(** ** Signals and their log entries *)


(** * Sample data *)

Definition sampleSignal : TradingSignal :=
  {| sig_symbol := "EURUSD"; direction := CALL; sig_confidence := 0.5;
     duration := 1; entryPrice := 1.1; stopLoss := 1.0; takeProfit := 1.2;
     sig_timestamp := 1700000000000; sig_reasoning := [];
     technicalIndicators := calculateTechnicalIndicators (fun x => x) [] |}.

Definition emptyEngine : Engine :=
  {| modelWeights := fun _ => None; mlModels := fun _ => None;
     historicalPredictions := fun _ => None; isTraining := false |}.

(** A store already holding 1000 entries for EURUSD. *)
Definition fullStorage : AsyncStorage :=
  {| items := fun key =>
       if String.eqb key (predictions_key "EURUSD")
       then Some (BlobPredictions (repeat (log_entry sampleSignal []) 1000))
       else None;
     readFails := false; writeFails := false |}.

(** A store whose EURUSD log holds three predictions, none resolved. *)
Definition pendingStorage : AsyncStorage :=
  {| items := fun key =>
       if String.eqb key (predictions_key "EURUSD")
       then Some (BlobPredictions (repeat (log_entry sampleSignal []) 3))
       else None;
     readFails := false; writeFails := false |}.

(** The flat series: thirty bars whose close, high and low are 1.10000. *)
Definition flatBar : MarketData :=
  {| symbol_of := "EURUSD"; price := 1.1; change := 0; changePercent := 0;
     volume := 0; high := 1.1; low := 1.1; open := 1.1; timestamp := 0 |}.

Definition flat30 : list MarketData := repeat flatBar 30.

(** A bar as the market-data fetch builds it from two consecutive closes. *)
Definition spikeBar (previous close : float) : MarketData :=
  {| symbol_of := "EURUSD"; price := close; change := close - previous;
     changePercent := ((close - previous) / previous) * 100; volume := 0;
     high := close; low := close; open := close; timestamp := 0 |}.

(** Twenty-one closes at 1.5, then twenty-six at 1.0; the current bar
    jumps to 1.2. *)
Definition spikeHistory : list MarketData :=
  repeat (spikeBar 1.5 1.5) 21 ++ [spikeBar 1.5 1.0]
  ++ repeat (spikeBar 1.0 1.0) 25.

Definition spikeCurrent : MarketData := spikeBar 1.0 1.2.

(** A model of one layer: nineteen zero weights and bias -4.  Its
    prediction is [1 / (1 + Math.exp(4))] on every finite input. *)
Definition biasedModel : MLModelTraining :=
  {| m_symbol := "EURUSD";
     architecture :=
       {| inputSize := 19; hiddenLayers := []; outputSize := 1;
          activationFunction := "relu"; learningRate := 0.001;
          epochs := 150; batchSize := 64 |};
     weights := [repeat 0 19]; biases := [[-4]]; trainingHistory := [] |}.

Definition biasedEngine : Engine :=
  {| modelWeights := fun _ => None;
     mlModels := fun s => if String.eqb s "EURUSD" then Some biasedModel else None;
     historicalPredictions := fun _ => None;
     isTraining := false |}.

(** A small trained-looking model: 2 inputs, 2 hidden units, 1 output. *)
Definition smallModel : MLModelTraining :=
  {| m_symbol := "EURUSD";
     architecture :=
       {| inputSize := 2; hiddenLayers := [2%nat]; outputSize := 1;
          activationFunction := "relu"; learningRate := 0.001;
          epochs := 100; batchSize := 32 |};
     weights := [[0.5; -0.25; 0.125; 1]; [0.75; -1.5]];
     biases := [[0; 0.1]; [-0.2]];
     trainingHistory :=
       [ {| epoch := 1; loss := 0.69; accuracy := 0.5; validationLoss := 0.7;
            validationAccuracy := 0.5; tm_learningRate := 0.001 |} ] |}.

(** A model with a NaN weight: what a gradient step on a NaN feature
    leaves behind. *)
Definition nanModel : MLModelTraining :=
  {| m_symbol := "EURUSD";
     architecture :=
       {| inputSize := 1; hiddenLayers := []; outputSize := 1;
          activationFunction := "relu"; learningRate := 0.001;
          epochs := 100; batchSize := 32 |};
     weights := [[nan]]; biases := [[0]]; trainingHistory := [] |}.

(** Sixteen prices rising by 0.01 from 1.10. *)
Definition risingPrices : list float :=
  [1.10; 1.11; 1.12; 1.13; 1.14; 1.15; 1.16; 1.17;
   1.18; 1.19; 1.20; 1.21; 1.22; 1.23; 1.24; 1.25].

(** Sixteen prices with rises and falls. *)
Definition mixedPrices : list float :=
  [1.5; 1; 1.25; 1; 2; 1; 3; 1; 4; 1; 5; 1; 6; 1; 7; 1].

(** Sixteen finite, non-negative prices that swing between 0 and
    1.7e308. *)
Definition swingPrices : list float :=
  [0; 1.7e308; 0; 1.7e308; 0; 1.7e308; 0; 1.7e308;
   0; 1.7e308; 0; 1.7e308; 0; 1.7e308; 0; 1.7e308].

(** * Properties *)

(** ** The prediction log stays bounded *)

Lemma slice_last_length {A : Type} (n : nat) (xs : list A) :
  (0 < n)%nat -> (length (JS.slice_last n xs) <= n)%nat.
Proof.
  intros Hn. unfold JS.slice_last.
  destruct n as [|n]; [lia|].
  rewrite length_skipn. lia.
Qed.

Lemma slice_last_app_one {A : Type} (n : nat) (xs : list A) (x : A) :
  (n <= length xs)%nat ->
  JS.slice_last (S n) (xs ++ [x]) = skipn (length xs - n) xs ++ [x].
Proof.
  intros Hle. unfold JS.slice_last.
  rewrite length_app. cbn [length].
  replace (length xs + 1 - S n)%nat with (length xs - n)%nat by lia.
  rewrite skipn_app.
  replace (length xs - n - length xs)%nat with 0%nat by lia.
  reflexivity.
Qed.

Lemma string_eqb_refl (s : string) : String.eqb s s = true.
Proof. apply String.eqb_refl. Qed.

Lemma stored_log_setItem (st st' : AsyncStorage) (symbol : string)
      (log : list StoredPrediction) :
  setItem (predictions_key symbol) (BlobPredictions log) st = Ok st' ->
  stored_log st' symbol = log.
Proof.
  unfold setItem. destruct (writeFails st); [discriminate|].
  intros H. injection H as <-. unfold stored_log. cbn.
  now rewrite string_eqb_refl.
Qed.

Lemma storePrediction_try_spec (e : Engine) (st : AsyncStorage)
      (symbol : string) (signal : TradingSignal) (features : list float) :
  let appended := stored_log st symbol ++ [log_entry signal features] in
  let kept := if (1000 <? length appended)%nat
              then JS.slice_last 1000 appended else appended in
  if stores st symbol then
    exists st',
      storePrediction_try e st symbol signal features
      = Ok (set_historicalPredictions e symbol kept, st')
      /\ setItem (predictions_key symbol) (BlobPredictions kept) st = Ok st'
  else
    exists err, storePrediction_try e st symbol signal features = Throw err.
Proof.
  unfold stores, storePrediction_try, stored_log, getItem, setItem, log_entry.
  destruct (readFails st); cbn [negb andb]; [eexists; reflexivity|].
  destruct (writeFails st); cbn [negb andb];
    destruct (items st (predictions_key symbol)) as [[md|log|]|];
    cbn [parse_predictions];
    first [ eexists; split; reflexivity | eexists; reflexivity ].
Qed.

(** C10.  [storePrediction] either stores the most recent 1000 entries of
    the old log followed by the new entry, or (an exception on the way)
    leaves the store as it was.  So a log of at most 1000 entries stays
    one, an accepted write leaves at most 1000 entries whatever was stored
    before, and once 1000 entries are there the oldest one goes for each
    one that comes. *)
Theorem storePrediction_log_bounded :
  forall (e : Engine) (st : AsyncStorage) (symbol : string)
         (signal : TradingSignal) (features : list float),
    let old := stored_log st symbol in
    let entry := log_entry signal features in
    let st' := snd (storePrediction e st symbol signal features) in
    (if stores st symbol
     then stored_log st' symbol = JS.slice_last 1000 (old ++ [entry])
          /\ (length (stored_log st' symbol) <= 1000)%nat
     else st' = st)
    /\ ((length old <= 1000)%nat -> (length (stored_log st' symbol) <= 1000)%nat)
    /\ (stores st symbol = true -> (1000 <= length old)%nat ->
        stored_log st' symbol = skipn (length old - 999) old ++ [entry]).
Proof.
  intros e st symbol signal features old entry st'.
  pose proof (storePrediction_try_spec e st symbol signal features) as Hspec.
  cbv zeta in Hspec. fold old entry in Hspec.
  assert (Hkept :
    (if (1000 <? length (old ++ [entry]))%nat
     then JS.slice_last 1000 (old ++ [entry]) else old ++ [entry])
    = JS.slice_last 1000 (old ++ [entry])).
  { destruct (1000 <? length (old ++ [entry]))%nat eqn:Hlt; [reflexivity|].
    apply Nat.ltb_ge in Hlt. unfold JS.slice_last.
    replace (length (old ++ [entry]) - 1000)%nat with 0%nat by lia.
    reflexivity. }
  rewrite Hkept in Hspec.
  subst st'. unfold storePrediction.
  destruct (stores st symbol) eqn:Hst.
  - destruct Hspec as (st1 & -> & Hset). cbn [snd].
    apply stored_log_setItem in Hset.
    assert (Hlen : (length (stored_log st1 symbol) <= 1000)%nat).
    { rewrite Hset. apply slice_last_length. lia. }
    repeat split; auto.
    intros _ Hfull. rewrite Hset.
    rewrite (slice_last_app_one 999 old entry) by lia. reflexivity.
  - destruct Hspec as (err & ->). cbn [snd].
    repeat split; auto. discriminate.
Qed.

Lemma storePrediction_log_bounded_witness :
  (length (stored_log fullStorage "EURUSD") <= 1000)%nat
  /\ (length (stored_log
                (snd (storePrediction emptyEngine fullStorage "EURUSD"
                                      sampleSignal [0.25%float]))
                "EURUSD") <= 1000)%nat.
Proof.
  assert (H : (length (stored_log fullStorage "EURUSD") <= 1000)%nat).
  { vm_compute. apply Nat.le_refl. }
  split; [exact H|].
  exact (proj1 (proj2 (storePrediction_log_bounded
                         emptyEngine fullStorage "EURUSD" sampleSignal [0.25%float])) H).
Defined.

(** ** Evaluation without resolved outcomes *)

Lemma filter_unresolved (log : list StoredPrediction) :
  Forall (fun p => actualOutcome p = None) log ->
  filter (fun p => match actualOutcome p with
                   | Some _ => true
                   | None => false
                   end) log = [].
Proof.
  induction 1 as [|p log Hp _ IH]; [reflexivity|].
  cbn [filter]. now rewrite Hp.
Qed.

(** Whatever the [try] block of [evaluateModel] throws (a rejected read, a
    blob that is not a prediction log) is caught: the caller gets the
    all-zero record, never an exception. *)
Lemma evaluateModel_catches (st : AsyncStorage) (symbol : string) (err : string) :
  evaluateModel_try st symbol = Throw err ->
  evaluateModel st symbol = zeroMetrics.
Proof. unfold evaluateModel. now intros ->. Qed.

(** C7.  When no stored entry of the symbol has a resolved
    [actualOutcome] (in particular when nothing is stored) [evaluateModel]
    returns the all-zero record; being a total function into
    [ModelMetrics], it returns on every path. *)
Theorem evaluateModel_unresolved_is_zero :
  forall (st : AsyncStorage) (symbol : string),
    Forall (fun p => actualOutcome p = None) (stored_log st symbol) ->
    evaluateModel st symbol = zeroMetrics.
Proof.
  intros st symbol Hall.
  unfold evaluateModel, evaluateModel_try, getItem.
  unfold stored_log in Hall.
  destruct (readFails st); [reflexivity|].
  destruct (items st (predictions_key symbol)) as [[md|log|]|];
    cbn [parse_predictions]; try reflexivity.
  destruct (length log =? 0)%nat; [reflexivity|].
  rewrite (filter_unresolved log Hall). reflexivity.
Qed.

Lemma evaluateModel_unresolved_is_zero_witness :
  evaluateModel pendingStorage "EURUSD" = zeroMetrics
  /\ evaluateModel emptyStorage "EURUSD" = zeroMetrics.
Proof.
  split.
  - apply (evaluateModel_unresolved_is_zero pendingStorage "EURUSD").
    vm_compute. repeat constructor.
  - apply (evaluateModel_unresolved_is_zero emptyStorage "EURUSD").
    vm_compute. constructor.
Defined.

(** With resolved outcomes the record is not zero: the zero case is not
    all the function can do. *)
Example evaluateModel_resolved :
  let resolved :=
    {| sp_timestamp := Some 1; sp_prediction := CALL; sp_confidence := Some 0.5;
       sp_features := []; actualOutcome := Some CALL |} in
  let st :=
    {| items := fun _ => Some (BlobPredictions [resolved]);
       readFails := false; writeFails := false |} in
  evaluateModel st "EURUSD"
  = {| mm_accuracy := 1; precision := 1; recall := 1; f1Score := 1;
       sharpeRatio := 0; winRate := 1; totalTrades := 1;
       profitableTrades := 1 |}.
Proof. vm_compute. reflexivity. Qed.

(** ** Exclusive training *)

Section TrainingFlag.

Variable Math_log : float -> float.
Variable Math_tanh : float -> float.
Variable fetchHistoricalData : string -> string -> list MarketData.
Variable trainModel :
  MLModelTraining -> list TrainingData -> AsyncStorage ->
  result (list TrainingMetrics) * MLModelTraining * AsyncStorage.

Let loop := train_loop Math_log Math_tanh fetchHistoricalData trainModel.

(** The loop never touches the flag: whatever state a call is suspended
    in, [isTraining] is what it was set to on entry. *)
Lemma train_loop_keeps_flag (symbols : list string) :
  forall results e st,
    isTraining (snd (fst (loop symbols results e st))) = isTraining e.
Proof.
  unfold loop.
  induction symbols as [|sym rest IH]; intros results e st; [reflexivity|].
  cbn [train_loop].
  destruct (length (fetchHistoricalData (sym ++ "=X") "1y") <? 100)%nat;
    [apply IH|].
  destruct (mlModels e sym) as [mlModel|]; [|apply IH].
  match goal with |- context [(50 <? ?n)%nat] => destruct (50 <? n)%nat end;
    [|apply IH].
  match goal with |- context [trainModel ?a ?b ?c] =>
    destruct (trainModel a b c) as [[[metrics|err] mlModel'] st']
  end.
  - rewrite IH. reflexivity.
  - reflexivity.
Qed.

(** C6.  A call made while [isModelTraining()] is true throws
    ["Training already in progress"] and changes nothing.  A call that is
    let in returns its results with the flag cleared, whether the loop ran
    to its end or threw; and at every point where that call can be
    suspended the flag is up, so that a call arriving then is the rejected
    kind. *)
Theorem trainModels_exclusive :
  forall (e : Engine) (st : AsyncStorage) (symbol : option string),
    let call := trainModels Math_log Math_tanh fetchHistoricalData trainModel in
    (if isModelTraining e
     then call e st symbol = (Throw "Training already in progress", (e, st))
     else exists results e' st',
         call e st symbol = (Ok results, (e', st'))
         /\ isModelTraining e' = false)
    /\ (forall symbols results,
           let suspended :=
             snd (fst (loop symbols results (set_isTraining e true) st)) in
           isModelTraining suspended = true
           /\ forall st2 symbol2,
               call suspended st2 symbol2
               = (Throw "Training already in progress", (suspended, st2))).
Proof.
  intros e st symbol call. split.
  - unfold call, trainModels, isModelTraining.
    destruct (isTraining e); [reflexivity|].
    match goal with |- context [train_loop ?a ?b ?c ?d ?l ?r ?e0 ?s0] =>
      destruct (train_loop a b c d l r e0 s0) as [[[thrown results] e1] st1]
    end.
    exists results, (set_isTraining e1 false), st1. split; reflexivity.
  - intros symbols results suspended.
    assert (Hflag : isTraining suspended = true).
    { unfold suspended. rewrite train_loop_keeps_flag. reflexivity. }
    split; [exact Hflag|].
    intros st2 symbol2. unfold call, trainModels. now rewrite Hflag.
Qed.

End TrainingFlag.

(** An accepted call during which training throws: the exception is
    swallowed, the partial results are returned and the flag is down. *)
Example trainModels_internal_error :
  let bar :=
    {| symbol_of := "EURUSD"; price := 1.1; change := 0; changePercent := 0;
       volume := 0; high := 1.1; low := 1.1; open := 1.1; timestamp := 0 |} in
  let model :=
    {| m_symbol := "EURUSD";
       architecture :=
         {| inputSize := 1; hiddenLayers := []; outputSize := 1;
            activationFunction := "relu"; learningRate := 0.001;
            epochs := 1; batchSize := 1 |};
       weights := [[0]]; biases := [[0]]; trainingHistory := [] |} in
  let e :=
    {| modelWeights := fun _ => None;
       mlModels := fun s => if String.eqb s "EURUSD" then Some model else None;
       historicalPredictions := fun _ => None;
       isTraining := false |} in
  let r :=
    trainModels (fun x => x) (fun x => x)
                (fun _ _ => repeat bar 120)
                (fun m _ st => (Throw "training failed"%string, m, st))
                e emptyStorage (Some "EURUSD"%string) in
  fst r = Ok [] /\ isModelTraining (fst (snd r)) = false.
Proof. vm_compute. split; reflexivity. Qed.

(** ** The flat 30-bar scenario *)

(** The RSI of the flat series is 100, not 50: with no change at all the
    average loss is 0 and the [avgLoss === 0] branch answers.  No run of
    the scorer on the snapshot can then return an empty reasoning list. *)
Lemma flat_series_rsi_is_100_not_50 :
  calculateRSI (map price flat30) 14 = 100
  /\ (100 =? 50) = false
  /\ ~ (forall Math_log : float -> float,
          let indicators := calculateTechnicalIndicators Math_log flat30 in
          rsi indicators = 50
          /\ confidence (analyzeRuleBasedSignals indicators flatBar) = 0.5
          /\ reasoning_of (analyzeRuleBasedSignals indicators flatBar) = []).
Proof.
  split; [vm_compute; reflexivity|].
  split; [vm_compute; reflexivity|].
  intros H. specialize (H (fun x => x)). cbv zeta in H.
  destruct H as (_ & _ & H). vm_compute in H. discriminate H.
Qed.

(** C3, as the engine computes it.  On the 30-bar series whose closes,
    highs and lows all equal 1.10000, and whatever [Math.log] returns: the
    RSI is 100; the Bollinger bands, SMA20, both EMAs, support and
    resistance all sit on the price; the stochastic is NaN; and the scorer
    fires three checks (RSI overbought, price at the lower band, price near
    support), which gives confidence 2/3 and those three reasons. *)
Theorem flat_series_scenario :
  forall Math_log : float -> float,
    let indicators := calculateTechnicalIndicators Math_log flat30 in
    rsi indicators = 100
    /\ bollingerBands indicators = {| upper := 1.1; middle := 1.1; lower := 1.1 |}
    /\ (sma20 indicators, ema12 indicators, ema26 indicators) = (1.1, 1.1, 1.1)
    /\ (support indicators, resistance indicators) = (1.1, 1.1)
    /\ stochastic indicators = {| k := nan; d := nan |}
    /\ analyzeRuleBasedSignals indicators flatBar
       = {| confidence := 2 / 3;
            reasoning_of :=
              [ "RSI overbought (> 70) - bearish signal";
                "Price at lower Bollinger Band - oversold";
                "Price near support level - potential bounce" ]%string |}.
Proof.
  intros Math_log indicators. subst indicators.
  repeat split; vm_compute; reflexivity.
Qed.

(** ** Facts about doubles

    Comparisons of doubles, read through their specification
    ([Prim2SF], [SFcompare]). *)

Lemma SFltb_trans (a b c : spec_float) :
  SFltb a b = true -> SFltb b c = true -> SFltb a c = true.
Proof.
  unfold SFltb.
  destruct a as [sa|sa| |sa ma ea], b as [sb|sb| |sb mb eb],
           c as [sc|sc| |sc mc ec];
    cbn [SFcompare]; try discriminate; try reflexivity;
    try (destruct sa; try discriminate; try reflexivity);
    try (destruct sb; try discriminate; try reflexivity);
    try (destruct sc; try discriminate; try reflexivity).
  all: change (Pos.compare_cont Eq ?a ?b) with (Pos.compare a b).
  all: destruct (Z.compare_spec ea eb), (Z.compare_spec eb ec),
         (Z.compare_spec ea ec);
    destruct (Pos.compare_spec ma mb), (Pos.compare_spec mb mc),
      (Pos.compare_spec ma mc);
    cbn [CompOpp]; try discriminate; try reflexivity; intros; lia.
Qed.

Lemma SFltb_irrefl (a : spec_float) : SFltb a a = false.
Proof.
  unfold SFltb. destruct a as [s|s| |s m e]; cbn [SFcompare]; try reflexivity.
  - destruct s; reflexivity.
  - rewrite Z.compare_refl.
    change (Pos.compare_cont Eq m m) with (Pos.compare m m).
    rewrite Pos.compare_refl. destruct s; reflexivity.
Qed.

Lemma flt_trans (x y z : float) :
  (x <? y) = true -> (y <? z) = true -> (x <? z) = true.
Proof. rewrite !FloatAxioms.ltb_spec. apply SFltb_trans. Qed.

Lemma flt_irrefl (x : float) : (x <? x) = false.
Proof. rewrite FloatAxioms.ltb_spec. apply SFltb_irrefl. Qed.

Lemma flt_asym (x y : float) : (x <? y) = true -> (y <? x) = false.
Proof.
  intros H. destruct (y <? x) eqn:E; [|reflexivity].
  pose proof (flt_trans _ _ _ H E) as F.
  rewrite flt_irrefl in F. discriminate.
Qed.

(** [x < a] and [b < x] cannot both hold when [b < a] does not. *)
Lemma flt_between (a b x : float) :
  (b <? a) = false -> (x <? a) = true -> (b <? x) = false.
Proof.
  intros Hba Hxa. destruct (b <? x) eqn:E; [|reflexivity].
  rewrite (flt_trans _ _ _ E Hxa) in Hba. discriminate.
Qed.

(** ** Rounding, through the specification of binary64

    Every operation of a double rounds the exact result to the nearest
    double.  Rounding is monotone against doubles: an exact result below a
    double rounds to at most that double, and one above it to at least that
    double.  This is what lets magnitudes be followed through a
    computation. *)

Local Open Scope R_scope.

(** *** Powers of two and dyadic values *)

Lemma pow2_pos (e : Z) : 0 < pow2 e.
Proof. apply powerRZ_lt. lra. Qed.

Lemma pow2_add (a b : Z) : pow2 (a + b) = pow2 a * pow2 b.
Proof. apply powerRZ_add. lra. Qed.

(** A natural exponent gives the integer power. *)
Lemma pow2_IZR (k : Z) : (0 <= k)%Z -> pow2 k = IZR (2 ^ k).
Proof.
  intros Hk. unfold pow2. rewrite <- (Z2Nat.id k Hk) at 1.
  rewrite <- pow_powerRZ. rewrite <- (Z2Nat.id k Hk) at 2.
  rewrite <- pow_IZR. reflexivity.
Qed.

Lemma pow2_ge_1 (k : Z) : (0 <= k)%Z -> 1 <= pow2 k.
Proof.
  intros Hk. rewrite pow2_IZR by assumption. apply IZR_le.
  pose proof (Z.pow_pos_nonneg 2 k ltac:(lia) Hk). lia.
Qed.

Lemma pow2_le (a b : Z) : (a <= b)%Z -> pow2 a <= pow2 b.
Proof.
  intros H. replace b with (a + (b - a))%Z by lia. rewrite pow2_add.
  pose proof (pow2_ge_1 (b - a) ltac:(lia)). pose proof (pow2_pos a). nra.
Qed.

Lemma pow2_lt (a b : Z) : (a < b)%Z -> pow2 a < pow2 b.
Proof.
  intros H. replace b with (a + (1 + (b - a - 1)))%Z by lia.
  rewrite !pow2_add.
  pose proof (pow2_ge_1 (b - a - 1) ltac:(lia)). pose proof (pow2_pos a).
  change (pow2 1) with (2 * 1). nra.
Qed.

Lemma pow2_lt_inv (a b : Z) : pow2 a < pow2 b -> (a < b)%Z.
Proof.
  intros H. destruct (Z_lt_le_dec a b) as [|Hle]; [assumption|].
  apply pow2_le in Hle. lra.
Qed.

(** A factor [2^k] moves between mantissa and exponent. *)
Lemma dyadic_shift (m e k : Z) :
  (0 <= k)%Z -> dyadic (m * 2 ^ k) e = dyadic m (e + k).
Proof.
  intros Hk. unfold dyadic. rewrite mult_IZR, <- pow2_IZR, pow2_add by assumption.
  ring.
Qed.

Lemma dyadic_le (m1 m2 e : Z) : (m1 <= m2)%Z -> dyadic m1 e <= dyadic m2 e.
Proof.
  intros H. unfold dyadic. apply IZR_le in H. pose proof (pow2_pos e). nra.
Qed.

Lemma dyadic_le_inv (m1 m2 e : Z) : dyadic m1 e <= dyadic m2 e -> (m1 <= m2)%Z.
Proof.
  unfold dyadic. intros H. apply le_IZR. pose proof (pow2_pos e). nra.
Qed.

Lemma dyadic_lt_inv (m1 m2 e : Z) : dyadic m1 e < dyadic m2 e -> (m1 < m2)%Z.
Proof.
  unfold dyadic. intros H. apply lt_IZR. pose proof (pow2_pos e). nra.
Qed.

Lemma dyadic_plus (a b e : Z) : dyadic (a + b) e = dyadic a e + dyadic b e.
Proof. unfold dyadic. rewrite plus_IZR. ring. Qed.

Lemma dyadic_neg (d : positive) (e : Z) : dyadic (Z.neg d) e = - dyadic (Z.pos d) e.
Proof.
  unfold dyadic. change (Z.neg d) with (- Z.pos d)%Z. rewrite opp_IZR. ring.
Qed.

Lemma dyadic_0 (e : Z) : dyadic 0 e = 0.
Proof. unfold dyadic. ring. Qed.

Lemma dyadic_1 (e : Z) : dyadic 1 e = pow2 e.
Proof. unfold dyadic. ring. Qed.

Lemma dyadic_pos (p : positive) (e : Z) : 0 < dyadic (Z.pos p) e.
Proof.
  unfold dyadic. pose proof (pow2_pos e).
  assert (0 < IZR (Z.pos p)) by (apply IZR_lt; lia).
  nra.
Qed.

Lemma dyadic_nonneg_inv (m e : Z) : 0 < dyadic m e -> (0 < m)%Z.
Proof.
  unfold dyadic. intros H. apply lt_IZR. pose proof (pow2_pos e). nra.
Qed.

(** A number on a grid is on every finer grid. *)
Lemma dyadic_grid (m e e' : Z) :
  (e' <= e)%Z -> dyadic m e = dyadic (m * 2 ^ (e - e')) e'.
Proof.
  intros H. rewrite dyadic_shift by lia. f_equal. lia.
Qed.

(** A mantissa of [d] binary digits lies in [[2^(d-1), 2^d)], *)
Lemma digits2_size (p : positive) : digits2_pos p = Pos.size p.
Proof. induction p; cbn; congruence. Qed.

Lemma digits_bounds (p : positive) :
  (2 ^ (Z.pos (digits2_pos p) - 1) <= Z.pos p < 2 ^ Z.pos (digits2_pos p))%Z.
Proof.
  rewrite digits2_size.
  pose proof (Pos.size_gt p) as Hgt. pose proof (Pos.size_le p) as Hle.
  split.
  - assert (H2 : (2 ^ Z.pos (Pos.size p) <= 2 * Z.pos p)%Z).
    { change (2 * Z.pos p)%Z with (Z.pos p~0).
      rewrite <- Pos2Z.inj_pow. apply Pos2Z.pos_le_pos. exact Hle. }
    replace (Z.pos (Pos.size p)) with (1 + (Z.pos (Pos.size p) - 1))%Z in H2 by lia.
    rewrite Z.pow_add_r in H2 by lia. change (2 ^ 1)%Z with 2%Z in H2. lia.
  - rewrite <- Pos2Z.inj_pow. apply Pos2Z.pos_lt_pos. exact Hgt.
Qed.

(** so that the value lies in [[2^(d+e-1), 2^(d+e))]: [d + e] is its
    magnitude. *)
Lemma dyadic_digits (p : positive) (e : Z) :
  pow2 (Z.pos (digits2_pos p) + e - 1) <= dyadic (Z.pos p) e
  /\ dyadic (Z.pos p) e < pow2 (Z.pos (digits2_pos p) + e).
Proof.
  destruct (digits_bounds p) as [Hlo Hhi].
  unfold dyadic. pose proof (pow2_pos e).
  apply IZR_le in Hlo. apply IZR_lt in Hhi.
  rewrite <- pow2_IZR in Hlo, Hhi by lia.
  replace (Z.pos (digits2_pos p) + e - 1)%Z
    with ((Z.pos (digits2_pos p) - 1) + e)%Z by lia.
  rewrite !pow2_add. split; nra.
Qed.

(** Magnitudes are monotone. *)
Lemma mag_le (p1 p2 : positive) (e1 e2 : Z) :
  dyadic (Z.pos p1) e1 <= dyadic (Z.pos p2) e2 ->
  (Z.pos (digits2_pos p1) + e1 <= Z.pos (digits2_pos p2) + e2)%Z.
Proof.
  intros H.
  destruct (dyadic_digits p1 e1) as [H1 _]. destruct (dyadic_digits p2 e2) as [_ H2].
  assert (Hlt : pow2 (Z.pos (digits2_pos p1) + e1 - 1)
                < pow2 (Z.pos (digits2_pos p2) + e2)) by lra.
  apply pow2_lt_inv in Hlt. lia.
Qed.

(** The exponent of a double of magnitude [e]: 53 bits of mantissa, down
    to the least exponent. *)
Lemma fexp_eq (e : Z) : fexp prec emax e = Z.max (e - 53) (-1074).
Proof. reflexivity. Qed.

Lemma fexp_mono (a b : Z) :
  (a <= b)%Z -> (fexp prec emax a <= fexp prec emax b)%Z.
Proof. rewrite !fexp_eq. lia. Qed.

(** *** Shifting right keeps the integer part and remembers exactness *)

(** One shift to the right halves the scale; the bit that leaves becomes
    the round bit and the old round bit goes into the sticky bit. *)
Lemma IZR_xO (p : positive) : IZR (Z.pos p~0) = 2 * IZR (Z.pos p).
Proof. rewrite Pos2Z.inj_xO, mult_IZR. reflexivity. Qed.

Lemma IZR_xI (p : positive) : IZR (Z.pos p~1) = 2 * IZR (Z.pos p) + 1.
Proof. rewrite Pos2Z.inj_xI, plus_IZR, mult_IZR. reflexivity. Qed.

Lemma shr_1_truncates (v : R) (mrs : shr_record) (e : Z) :
  truncates v mrs e ->
  truncates v (shr_1 mrs) (e + 1)
  /\ (flags_exact v mrs e -> flags_exact v (shr_1 mrs) (e + 1)).
Proof.
  destruct mrs as [m r s]. unfold truncates, flags_exact, dyadic.
  cbn [shr_m shr_r shr_s].
  intros [Hm [Hlo Hhi]]. pose proof (pow2_pos e) as Hb.
  rewrite plus_IZR in Hhi. rewrite pow2_add. change (pow2 1) with (2 * 1).
  set (b := pow2 e) in *. clearbody b.
  destruct m as [|p|p]; [| |lia].
  - cbn [shr_1 shr_m shr_r shr_s]. rewrite plus_IZR.
    split; [split; [lia|split; lra]|]. intros Hex Hv.
    destruct Hex as [-> ->]; [lra|]. split; reflexivity.
  - destruct p as [p|p|]; cbn [shr_1 shr_m shr_r shr_s]; rewrite ?plus_IZR.
    + rewrite IZR_xI in *.
      split; [split; [lia|split; lra]|]. intros Hex Hv. exfalso. lra.
    + rewrite IZR_xO in *.
      split; [split; [lia|split; lra]|]. intros Hex Hv.
      rewrite (IZR_xO p) in Hex. destruct Hex as [-> ->]; [lra|]. split; reflexivity.
    + split; [split; [lia|split; lra]|]. intros Hex Hv. exfalso. lra.
Qed.

(** So do [p] shifts. *)
Lemma iter_shr_1_truncates (v : R) (p : positive) :
  forall (mrs : shr_record) (e : Z),
    truncates v mrs e ->
    truncates v (SpecFloat.iter_pos shr_1 p mrs) (e + Z.pos p)
    /\ (flags_exact v mrs e ->
        flags_exact v (SpecFloat.iter_pos shr_1 p mrs) (e + Z.pos p)).
Proof.
  induction p as [p IH|p IH|]; intros mrs e H; cbn [SpecFloat.iter_pos].
  - destruct (shr_1_truncates v mrs e H) as [H1 F1].
    destruct (IH _ _ H1) as [H2 F2]. destruct (IH _ _ H2) as [H3 F3].
    replace (e + Z.pos p~1)%Z with (e + 1 + Z.pos p + Z.pos p)%Z by lia.
    split; [exact H3|]. intros F. apply F3, F2, F1, F.
  - destruct (IH _ _ H) as [H2 F2]. destruct (IH _ _ H2) as [H3 F3].
    replace (e + Z.pos p~0)%Z with (e + Z.pos p + Z.pos p)%Z by lia.
    split; [exact H3|]. intros F. apply F3, F2, F.
  - apply shr_1_truncates, H.
Qed.

(** Shifting to the exponent of the format. *)
Lemma shr_fexp_spec (v : R) (m e : Z) (l : location) :
  (0 <= m)%Z -> dyadic m e <= v < dyadic (m + 1) e ->
  let e' := Z.max e (fexp prec emax (Zdigits2 m + e)) in
  exists mrs',
    shr_fexp prec emax m e l = (mrs', e')
    /\ truncates v mrs' e'
    /\ ((v = dyadic m e -> l = loc_Exact) -> flags_exact v mrs' e').
Proof.
  intros Hm Hv e'. unfold shr_fexp, shr.
  assert (H0 : truncates v (shr_record_of_loc m l) e).
  { unfold truncates. destruct l as [|[| |]]; cbn [shr_record_of_loc shr_m]; auto. }
  assert (F0 : (v = dyadic m e -> l = loc_Exact) ->
               flags_exact v (shr_record_of_loc m l) e).
  { intros Hx. unfold flags_exact.
    replace (shr_m (shr_record_of_loc m l)) with m
      by (destruct l as [|[| |]]; reflexivity).
    intros Hv'. rewrite (Hx Hv'). split; reflexivity. }
  destruct (fexp prec emax (Zdigits2 m + e) - e)%Z as [|p|p] eqn:En.
  - exists (shr_record_of_loc m l). replace e' with e by lia. auto.
  - exists (SpecFloat.iter_pos shr_1 p (shr_record_of_loc m l)).
    replace e' with (e + Z.pos p)%Z by lia.
    destruct (iter_shr_1_truncates v p _ _ H0) as [H1 F1]. auto.
  - exists (shr_record_of_loc m l). replace e' with e by lia. auto.
Qed.

(** Rounding keeps the truncated mantissa or takes the next one, and moves
    only when the record says the value is off the grid. *)
Lemma round_nearest_even_cases (mrs : shr_record) :
  let r := round_nearest_even (shr_m mrs) (loc_of_shr_record mrs) in
  r = shr_m mrs
  \/ (r = (shr_m mrs + 1)%Z /\ ~ (shr_r mrs = false /\ shr_s mrs = false)).
Proof.
  destruct mrs as [m [|] [|]];
    cbn [round_nearest_even loc_of_shr_record shr_m shr_r shr_s];
    try (left; reflexivity);
    try (right; split; [reflexivity|intros [? ?]; discriminate]).
  destruct (Z.even m); [left; reflexivity|].
  right; split; [reflexivity|intros [? ?]; discriminate].
Qed.

(** *** Rounding to nearest is monotone against doubles *)

Lemma canonical_spec (m : positive) (e : Z) :
  canonical m e ->
  fexp prec emax (Z.pos (digits2_pos m) + e) = e
  /\ (e <= 971)%Z /\ (-1074 <= e)%Z.
Proof.
  unfold canonical, SpecFloat.bounded, canonical_mantissa.
  rewrite andb_true_iff, Z.eqb_eq, Z.leb_le.
  change (emax - prec)%Z with 971%Z. intros [H1 H2].
  split; [exact H1|]. split; [exact H2|]. rewrite fexp_eq in H1. lia.
Qed.

(** Truncating to the grid of the format keeps a value above every double
    below it. *)
Lemma trunc_lower (p mb : positive) (e eb : Z) (mrs : shr_record) :
  canonical mb eb ->
  dyadic (Z.pos mb) eb <= dyadic (Z.pos p) e ->
  let e' := Z.max e (fexp prec emax (Z.pos (digits2_pos p) + e)) in
  truncates (dyadic (Z.pos p) e) mrs e' ->
  dyadic (Z.pos mb) eb <= dyadic (shr_m mrs) e'.
Proof.
  intros Hb HB e' [Hm [Hlo Hhi]]. subst e'.
  destruct (canonical_spec _ _ Hb) as [Hc [_ Hmin]].
  set (mu := (Z.pos (digits2_pos p) + e)%Z) in *.
  destruct (Z_le_gt_dec (fexp prec emax mu) e) as [Hle|Hgt].
  - rewrite Z.max_l in * by lia.
    assert (shr_m mrs = Z.pos p).
    { apply dyadic_lt_inv in Hhi. apply dyadic_le_inv in Hlo. lia. }
    rewrite H. exact HB.
  - rewrite Z.max_r in * by lia.
    pose proof (mag_le _ _ _ _ HB) as Hmag. fold mu in Hmag.
    pose proof (fexp_mono _ _ Hmag) as Hfe. rewrite Hc in Hfe.
    destruct (Z.eq_dec eb (fexp prec emax mu)) as [Heq|Hne].
    + rewrite <- Heq in *.
      assert (Z.pos mb < shr_m mrs + 1)%Z by (apply (dyadic_lt_inv _ _ eb); lra).
      apply dyadic_le. lia.
    + assert (Hmu : fexp prec emax mu = (mu - 53)%Z) by (rewrite fexp_eq in *; lia).
      assert (Hlt : (Z.pos (digits2_pos mb) + eb <= mu - 1)%Z).
      { destruct (Z_le_gt_dec (Z.pos (digits2_pos mb) + eb) (mu - 1)); [assumption|].
        exfalso. assert (Z.pos (digits2_pos mb) + eb = mu)%Z by lia.
        rewrite H in Hc. lia. }
      destruct (dyadic_digits mb eb) as [_ HBhi].
      destruct (dyadic_digits p e) as [Hvlo _]. fold mu in Hvlo.
      pose proof (pow2_le _ _ Hlt) as Hbp.
      assert (Hgrid : pow2 (mu - 1) = dyadic (2 ^ 52) (fexp prec emax mu)).
      { rewrite Hmu. unfold dyadic. rewrite <- pow2_IZR, <- pow2_add by lia.
        f_equal. lia. }
      assert (2 ^ 52 < shr_m mrs + 1)%Z
        by (apply (dyadic_lt_inv _ _ (fexp prec emax mu)); lra).
      assert (dyadic (2 ^ 52) (fexp prec emax mu) <= dyadic (shr_m mrs) (fexp prec emax mu))
        by (apply dyadic_le; lia).
      lra.
Qed.

Lemma Zdigits2_pos (p : positive) : Zdigits2 (Z.pos p) = Z.pos (digits2_pos p).
Proof. reflexivity. Qed.

Lemma round_nearest_even_ge (mrs : shr_record) :
  (shr_m mrs <= round_nearest_even (shr_m mrs) (loc_of_shr_record mrs))%Z.
Proof.
  destruct (round_nearest_even_cases mrs) as [H|[H _]]; cbv zeta in H; rewrite H; lia.
Qed.

(** Rounding keeps a value above every double below it. *)
Lemma round_aux_lower (sx : bool) (p mb : positive) (ex eb : Z) (lx : location) :
  canonical mb eb ->
  dyadic (Z.pos mb) eb <= dyadic (Z.pos p) ex ->
  binary_round_aux prec emax sx (Z.pos p) ex lx = S754_infinity sx
  \/ exists m e,
      binary_round_aux prec emax sx (Z.pos p) ex lx = S754_finite sx m e
      /\ dyadic (Z.pos mb) eb <= dyadic (Z.pos m) e.
Proof.
  intros Hb HB. unfold binary_round_aux.
  destruct (shr_fexp_spec (dyadic (Z.pos p) ex) (Z.pos p) ex lx) as [mrs1 [E1 [T1 _]]].
  { lia. }
  { split; [lra|]. rewrite dyadic_plus, dyadic_1. pose proof (pow2_pos ex). lra. }
  rewrite E1. rewrite Zdigits2_pos in *.
  pose proof (trunc_lower _ _ _ _ _ Hb HB T1) as L1.
  set (e1 := Z.max ex (fexp prec emax (Z.pos (digits2_pos p) + ex))) in *.
  pose proof (round_nearest_even_ge mrs1) as Hr.
  set (R1 := round_nearest_even (shr_m mrs1) (loc_of_shr_record mrs1)) in *.
  assert (HB1 : dyadic (Z.pos mb) eb <= dyadic R1 e1).
  { pose proof (dyadic_le _ _ e1 Hr). lra. }
  assert (HR1 : (0 < R1)%Z).
  { apply (dyadic_nonneg_inv _ e1). pose proof (dyadic_pos mb eb). lra. }
  destruct R1 as [|r|r] eqn:ER; try lia.
  destruct (shr_fexp_spec (dyadic (Z.pos r) e1) (Z.pos r) e1 loc_Exact) as [mrs2 [E2 [T2 _]]].
  { lia. }
  { split; [lra|]. rewrite dyadic_plus, dyadic_1. pose proof (pow2_pos e1). lra. }
  rewrite E2. rewrite Zdigits2_pos in *.
  pose proof (trunc_lower _ _ _ _ _ Hb HB1 T2) as L2.
  set (e2 := Z.max e1 (fexp prec emax (Z.pos (digits2_pos r) + e1))) in *.
  assert (Hm2 : (0 < shr_m mrs2)%Z).
  { apply (dyadic_nonneg_inv _ e2). pose proof (dyadic_pos mb eb). lra. }
  destruct (shr_m mrs2) as [|m2|m2]; try lia.
  destruct (e2 <=? emax - prec)%Z; [right; eauto|left; reflexivity].
Qed.

(** Rounding keeps a value below every double above it.  The value [v] is
    known through its integer part [mx] at exponent [ex] and the location
    [lx]; the mantissa is long enough for the format. *)
Lemma round_aux_upper (sx : bool) (mx ex : Z) (lx : location) (v : R)
      (mb : positive) (eb : Z) :
  (0 <= mx)%Z ->
  dyadic mx ex <= v < dyadic (mx + 1) ex ->
  (v = dyadic mx ex -> lx = loc_Exact) ->
  (ex <= fexp prec emax (Zdigits2 mx + ex))%Z ->
  canonical mb eb ->
  v <= dyadic (Z.pos mb) eb ->
  binary_round_aux prec emax sx mx ex lx = S754_zero sx
  \/ exists m e,
      binary_round_aux prec emax sx mx ex lx = S754_finite sx m e
      /\ dyadic (Z.pos m) e <= dyadic (Z.pos mb) eb.
Proof.
  intros Hm Hv Hex Hg Hb HB. unfold binary_round_aux.
  destruct (canonical_spec _ _ Hb) as [Hc [Hmax Hmin]].
  destruct (shr_fexp_spec v mx ex lx Hm Hv) as [mrs1 [E1 [T1 F1]]].
  rewrite E1. specialize (F1 Hex).
  rewrite Z.max_r in * by lia.
  set (e1 := fexp prec emax (Zdigits2 mx + ex)) in *.
  assert (He1 : (e1 <= eb)%Z).
  { subst e1. destruct mx as [|p|p]; [| |lia].
    - cbn [Zdigits2] in *. rewrite fexp_eq in *. lia.
    - rewrite Zdigits2_pos. rewrite <- Hc. apply fexp_mono, mag_le. lra. }
  destruct T1 as [Hm1 [Hlo1 Hhi1]].
  assert (HR : dyadic (round_nearest_even (shr_m mrs1) (loc_of_shr_record mrs1)) e1
               <= dyadic (Z.pos mb) eb
               /\ (0 <= round_nearest_even (shr_m mrs1) (loc_of_shr_record mrs1))%Z).
  { destruct (round_nearest_even_cases mrs1) as [H|[H Hn]]; cbv zeta in H; rewrite H.
    - split; [lra|lia].
    - split; [|lia].
      assert (Hne : v <> dyadic (shr_m mrs1) e1) by (intros Hv'; apply Hn, F1, Hv').
      rewrite (dyadic_grid (Z.pos mb) eb e1 He1) in *.
      assert (shr_m mrs1 < Z.pos mb * 2 ^ (eb - e1))%Z
        by (apply (dyadic_lt_inv _ _ e1); lra).
      apply dyadic_le. lia. }
  set (R1 := round_nearest_even (shr_m mrs1) (loc_of_shr_record mrs1)) in *.
  destruct HR as [HR HR0].
  destruct (shr_fexp_spec (dyadic R1 e1) R1 e1 loc_Exact HR0) as [mrs2 [E2 [T2 _]]].
  { split; [lra|]. rewrite dyadic_plus, dyadic_1. pose proof (pow2_pos e1). lra. }
  rewrite E2.
  destruct T2 as [Hm2 [Hlo2 _]].
  destruct (shr_m mrs2) as [|m2|m2] eqn:Em2; [left; reflexivity| |lia].
  assert (HR1 : (0 < R1)%Z).
  { apply (dyadic_nonneg_inv _ e1).
    pose proof (dyadic_pos m2 (Z.max e1 (fexp prec emax (Zdigits2 R1 + e1)))). lra. }
  destruct R1 as [|r|r] eqn:ER; try lia.
  rewrite Zdigits2_pos in *.
  assert (He2 : (Z.max e1 (fexp prec emax (Z.pos (digits2_pos r) + e1)) <= eb)%Z).
  { apply Z.max_lub; [exact He1|]. rewrite <- Hc. apply fexp_mono, mag_le. exact HR. }
  replace (Z.max e1 (fexp prec emax (Z.pos (digits2_pos r) + e1)) <=? emax - prec)%Z with true.
  - right. eexists _, _. split; [reflexivity|]. lra.
  - symmetry. apply Z.leb_le. change (emax - prec)%Z with 971%Z. lia.
Qed.

(** *** Comparison, alignment, division *)

(** Doubles compare as their values do. *)
Lemma canonical_exp_lt (m1 m2 : positive) (e1 e2 : Z) :
  canonical m1 e1 -> canonical m2 e2 ->
  (e1 < e2)%Z -> dyadic (Z.pos m1) e1 < dyadic (Z.pos m2) e2.
Proof.
  intros H1 H2 Hlt.
  destruct (canonical_spec _ _ H1) as [C1 _]. destruct (canonical_spec _ _ H2) as [C2 _].
  assert (Hmag : (Z.pos (digits2_pos m1) + e1 <= Z.pos (digits2_pos m2) + e2 - 1)%Z).
  { rewrite fexp_eq in *. lia. }
  destruct (dyadic_digits m1 e1) as [_ Hhi]. destruct (dyadic_digits m2 e2) as [Hlo _].
  pose proof (pow2_le _ _ Hmag). lra.
Qed.

Lemma SFleb_of_dyadic (m1 m2 : positive) (e1 e2 : Z) :
  canonical m1 e1 -> canonical m2 e2 ->
  dyadic (Z.pos m1) e1 <= dyadic (Z.pos m2) e2 ->
  SFleb (S754_finite false m1 e1) (S754_finite false m2 e2) = true.
Proof.
  intros H1 H2 Hv. unfold SFleb. cbn [SFcompare].
  change (Pos.compare_cont Eq m1 m2) with (Pos.compare m1 m2).
  destruct (Z.compare_spec e1 e2) as [->|Hlt|Hgt]; [|reflexivity|].
  - destruct (Pos.compare_spec m1 m2) as [->|Hl|Hg]; try reflexivity.
    exfalso. apply dyadic_le_inv in Hv. lia.
  - exfalso. pose proof (canonical_exp_lt _ _ _ _ H2 H1 Hgt). lra.
Qed.

Lemma dyadic_of_SFleb (m1 m2 : positive) (e1 e2 : Z) :
  canonical m1 e1 -> canonical m2 e2 ->
  SFleb (S754_finite false m1 e1) (S754_finite false m2 e2) = true ->
  dyadic (Z.pos m1) e1 <= dyadic (Z.pos m2) e2.
Proof.
  intros H1 H2. unfold SFleb. cbn [SFcompare].
  change (Pos.compare_cont Eq m1 m2) with (Pos.compare m1 m2).
  destruct (Z.compare_spec e1 e2) as [->|Hlt|Hgt]; [| |discriminate].
  - destruct (Pos.compare_spec m1 m2) as [->|Hl|Hg]; try discriminate; intros _.
    + lra.
    + apply dyadic_le. lia.
  - intros _. pose proof (canonical_exp_lt _ _ _ _ H1 H2 Hlt). lra.
Qed.

(** Aligning a mantissa to a smaller exponent keeps the value. *)
Lemma iter_xO (m d : positive) :
  Z.pos (Pos.iter xO m d) = (Z.pos m * 2 ^ Z.pos d)%Z.
Proof.
  induction d as [|d IH] using Pos.peano_ind.
  - cbn [Pos.iter]. lia.
  - rewrite Pos.iter_succ, Pos2Z.inj_xO, IH, Pos2Z.inj_succ, Z.pow_succ_r by lia.
    lia.
Qed.

Lemma shl_align_spec (m : positive) (e e' : Z) :
  snd (shl_align m e e') = Z.min e e'
  /\ dyadic (Z.pos (fst (shl_align m e e'))) (Z.min e e') = dyadic (Z.pos m) e.
Proof.
  unfold shl_align. destruct (e' - e)%Z as [|d|d] eqn:E; cbn [fst snd].
  - rewrite Z.min_l by lia. auto.
  - rewrite Z.min_l by lia. auto.
  - rewrite Z.min_r by lia. split; [reflexivity|].
    rewrite iter_xO, dyadic_shift by lia. f_equal. lia.
Qed.

Lemma mag_eq (p1 p2 : positive) (e1 e2 : Z) :
  dyadic (Z.pos p1) e1 = dyadic (Z.pos p2) e2 ->
  (Z.pos (digits2_pos p1) + e1 = Z.pos (digits2_pos p2) + e2)%Z.
Proof.
  intros H.
  pose proof (mag_le p1 p2 e1 e2 ltac:(rewrite H; apply Rle_refl)).
  pose proof (mag_le p2 p1 e2 e1 ltac:(rewrite H; apply Rle_refl)).
  lia.
Qed.

(** [binary_round] aligns the mantissa to the exponent of the format, then
    rounds. *)
Lemma binary_round_aligned (sx : bool) (m : positive) (e : Z) :
  exists mz ez,
    binary_round prec emax sx m e
    = binary_round_aux prec emax sx (Z.pos mz) ez loc_Exact
    /\ dyadic (Z.pos mz) ez = dyadic (Z.pos m) e
    /\ (ez <= fexp prec emax (Zdigits2 (Z.pos mz) + ez))%Z.
Proof.
  unfold binary_round.
  destruct (shl_align_spec m e (fexp prec emax (Z.pos (digits2_pos m) + e))) as [Hs Hv].
  destruct (shl_align m e (fexp prec emax (Z.pos (digits2_pos m) + e))) as [mz ez].
  cbn [fst snd] in *. subst ez.
  exists mz, (Z.min e (fexp prec emax (Z.pos (digits2_pos m) + e))).
  split; [reflexivity|]. split; [exact Hv|].
  rewrite Zdigits2_pos, (mag_eq _ _ _ _ Hv). lia.
Qed.

Lemma binary_round_lower (sx : bool) (m mb : positive) (e eb : Z) :
  canonical mb eb ->
  dyadic (Z.pos mb) eb <= dyadic (Z.pos m) e ->
  binary_round prec emax sx m e = S754_infinity sx
  \/ exists m' e',
      binary_round prec emax sx m e = S754_finite sx m' e'
      /\ dyadic (Z.pos mb) eb <= dyadic (Z.pos m') e'.
Proof.
  intros Hb HB.
  destruct (binary_round_aligned sx m e) as [mz [ez [-> [Hv _]]]].
  apply round_aux_lower; [exact Hb|]. lra.
Qed.

Lemma binary_round_upper (sx : bool) (m mb : positive) (e eb : Z) :
  canonical mb eb ->
  dyadic (Z.pos m) e <= dyadic (Z.pos mb) eb ->
  binary_round prec emax sx m e = S754_zero sx
  \/ exists m' e',
      binary_round prec emax sx m e = S754_finite sx m' e'
      /\ dyadic (Z.pos m') e' <= dyadic (Z.pos mb) eb.
Proof.
  intros Hb HB.
  destruct (binary_round_aligned sx m e) as [mz [ez [-> [Hv Hg]]]].
  apply (round_aux_upper sx (Z.pos mz) ez loc_Exact (dyadic (Z.pos mz) ez));
    auto; try lia; try lra.
  split; [lra|]. rewrite dyadic_plus, dyadic_1. pose proof (pow2_pos ez). lra.
Qed.

(** The quotient before rounding: its integer part at the chosen exponent,
    exact exactly when the remainder is zero, and long enough for the
    format. *)
Lemma Zdigits2_ge (q t : Z) : (0 <= t)%Z -> (2 ^ t <= q)%Z -> (t + 1 <= Zdigits2 q)%Z.
Proof.
  intros Ht Hq. assert (0 < 2 ^ t)%Z by (apply Z.pow_pos_nonneg; lia).
  destruct q as [|p|p]; try lia. rewrite Zdigits2_pos.
  destruct (digits_bounds p) as [_ Hhi].
  assert (2 ^ t < 2 ^ Z.pos (digits2_pos p))%Z by lia.
  apply Z.pow_lt_mono_r_iff in H0; lia.
Qed.

Lemma Zdigits2_nonneg (q : Z) : (0 <= Zdigits2 q)%Z.
Proof. destruct q; cbn; lia. Qed.

Lemma new_location_0 (n : Z) : new_location n 0 = loc_Exact.
Proof.
  unfold new_location, new_location_even, new_location_odd.
  destruct (Z.even n); reflexivity.
Qed.

Lemma div_core_spec (m1 m2 : positive) (e1 e2 : Z) :
  exists q e' l,
    SFdiv_core_binary prec emax (Z.pos m1) e1 (Z.pos m2) e2 = (q, e', l)
    /\ (0 <= q)%Z
    /\ dyadic q e' <= dyadic (Z.pos m1) e1 / dyadic (Z.pos m2) e2 < dyadic (q + 1) e'
    /\ (dyadic (Z.pos m1) e1 / dyadic (Z.pos m2) e2 = dyadic q e' -> l = loc_Exact)
    /\ (e' <= fexp prec emax (Zdigits2 q + e'))%Z.
Proof.
  unfold SFdiv_core_binary. rewrite !Zdigits2_pos.
  set (d1 := Z.pos (digits2_pos m1)). set (d2 := Z.pos (digits2_pos m2)).
  set (e' := Z.min (fexp prec emax (d1 + e1 - (d2 + e2))) (e1 - e2)).
  set (s := (e1 - e2 - e')%Z).
  assert (Hs : (0 <= s)%Z) by (subst s e'; lia).
  set (m' := match s with
             | 0%Z => Z.pos m1
             | Z.pos _ => Z.shiftl (Z.pos m1) s
             | Z.neg _ => 0%Z
             end).
  assert (Hm' : m' = (Z.pos m1 * 2 ^ s)%Z).
  { subst m'. destruct s as [|p|p] eqn:Es; [rewrite Z.pow_0_r; lia| |lia].
    rewrite Z.shiftl_mul_pow2 by lia. reflexivity. }
  clearbody m'.
  pose proof (Z.div_eucl_eq m' (Z.pos m2) ltac:(lia)) as Hdiv.
  pose proof (Z.mod_pos_bound m' (Z.pos m2) ltac:(lia)) as Hmod.
  unfold Z.modulo in Hmod.
  destruct (Z.div_eucl m' (Z.pos m2)) as [q r].
  exists q, e', (new_location (Z.pos m2) r).
  split; [reflexivity|].
  assert (Hpow : (0 < 2 ^ s)%Z) by (apply Z.pow_pos_nonneg; lia).
  assert (Hq : (0 <= q)%Z) by nia.
  split; [exact Hq|].
  assert (HV : dyadic (Z.pos m1) e1 / dyadic (Z.pos m2) e2
               = IZR m' / IZR (Z.pos m2) * pow2 e').
  { unfold dyadic. rewrite Hm', mult_IZR, <- (pow2_IZR s) by lia.
    replace e1 with (s + e' + e2)%Z at 1 by (subst s; lia).
    rewrite !pow2_add. field.
    pose proof (pow2_pos e2).
    repeat split; try (apply not_0_IZR; lia); lra. }
  rewrite HV. clear HV.
  assert (H2 : 0 < IZR (Z.pos m2)) by (apply IZR_lt; lia).
  assert (Hm'R : IZR m' = IZR (Z.pos m2) * IZR q + IZR r)
    by (rewrite Hdiv, plus_IZR, mult_IZR; reflexivity).
  assert (Hr0 : 0 <= IZR r) by (apply IZR_le; lia).
  assert (Hr1 : IZR r < IZR (Z.pos m2)) by (apply IZR_lt; lia).
  assert (Hrz : IZR r = 0 -> r = 0%Z) by (apply eq_IZR).
  pose proof (pow2_pos e') as He'.
  unfold dyadic. rewrite plus_IZR, Hm'R. clear Hm'R.
  set (Q := IZR q) in *. set (M2 := IZR (Z.pos m2)) in *.
  set (Rr := IZR r) in *. set (b := pow2 e') in *.
  clearbody Q M2 Rr b.
  assert (Hquo : (M2 * Q + Rr) / M2 = Q + Rr / M2) by (field; lra).
  assert (Hfrac0 : 0 <= Rr / M2).
  { apply Rmult_le_pos; [lra|]. apply Rlt_le, Rinv_0_lt_compat. lra. }
  assert (Hfrac1 : Rr / M2 < 1).
  { apply (Rmult_lt_reg_r M2); [lra|].
    unfold Rdiv. rewrite Rmult_assoc, Rinv_l by lra. lra. }
  rewrite Hquo.
  split; [split; nra|].
  split.
  - intros Heq. assert (Hz : Rr / M2 = 0) by nra.
    assert (Rr = 0).
    { unfold Rdiv in Hz. apply Rmult_integral in Hz. destruct Hz as [Hz|Hz]; [exact Hz|].
      pose proof (Rinv_0_lt_compat _ H2). lra. }
    rewrite (Hrz H). apply new_location_0.
  - assert (Hd : (d1 + e1 - (d2 + e2) <= Zdigits2 q + e')%Z).
    { destruct (Z_lt_le_dec (d1 - 1 + s - d2) 0) as [Hneg|Hnn].
      - pose proof (Zdigits2_nonneg q). subst s. lia.
      - assert (2 ^ (d1 - 1 + s - d2) <= q)%Z.
        { destruct (digits_bounds m1) as [Hlo1 _]. destruct (digits_bounds m2) as [_ Hhi2].
          fold d1 in Hlo1. fold d2 in Hhi2.
          assert (Hp : (2 ^ (d1 - 1 + s - d2) * 2 ^ d2 = 2 ^ (d1 - 1) * 2 ^ s)%Z).
          { rewrite <- !Z.pow_add_r by (subst d1 d2; lia). f_equal. lia. }
          assert (0 < 2 ^ (d1 - 1 + s - d2))%Z by (apply Z.pow_pos_nonneg; lia).
          assert (0 < 2 ^ d2)%Z by (apply Z.pow_pos_nonneg; subst d2; lia).
          assert (0 < 2 ^ (d1 - 1))%Z by (apply Z.pow_pos_nonneg; subst d1; lia).
          nia. }
        pose proof (Zdigits2_ge q _ Hnn H). subst s. lia. }
    pose proof (fexp_mono _ _ Hd). subst e'. lia.
Qed.

(** A quotient below a double rounds to at most that double. *)
Lemma SFdiv_upper (s1 s2 : bool) (m1 m2 mb : positive) (e1 e2 eb : Z) :
  canonical mb eb ->
  dyadic (Z.pos m1) e1 / dyadic (Z.pos m2) e2 <= dyadic (Z.pos mb) eb ->
  SF64div (S754_finite s1 m1 e1) (S754_finite s2 m2 e2) = S754_zero (xorb s1 s2)
  \/ exists m e,
      SF64div (S754_finite s1 m1 e1) (S754_finite s2 m2 e2)
      = S754_finite (xorb s1 s2) m e
      /\ dyadic (Z.pos m) e <= dyadic (Z.pos mb) eb.
Proof.
  intros Hb HB. unfold SF64div. cbn [SFdiv].
  destruct (div_core_spec m1 m2 e1 e2) as [q [e' [l [-> [Hq [Hv [Hx Hg]]]]]]].
  apply (round_aux_upper _ q e' l (dyadic (Z.pos m1) e1 / dyadic (Z.pos m2) e2) mb eb);
    auto.
Qed.

(** *** Signs

    Rounding keeps the sign, so sums, products and quotients of numbers
    that are not negative are not negative -- NaN apart. *)

Lemma not_negative_round_aux (m e : Z) (l : location) :
  not_negative (binary_round_aux prec emax false m e l).
Proof.
  unfold binary_round_aux.
  destruct (shr_fexp prec emax m e l) as [mrs e1].
  destruct (shr_fexp prec emax _ e1 loc_Exact) as [mrs2 e2].
  destruct (shr_m mrs2); [exact I| |exact I].
  destruct (Z.leb _ _); exact I.
Qed.

Lemma not_negative_binary_round (m : positive) (e : Z) :
  not_negative (binary_round prec emax false m e).
Proof.
  unfold binary_round. destruct (shl_align m e _) as [mz ez].
  apply not_negative_round_aux.
Qed.

Lemma not_negative_add (x y : spec_float) :
  not_negative x -> not_negative y -> not_negative (SF64add x y).
Proof.
  destruct x as [[|]|[|]| |[|] mx ex], y as [[|]|[|]| |[|] my ey];
    cbn [not_negative]; try contradiction; intros _ _; unfold SF64add;
    cbn [SFadd not_negative]; try exact I.
  cbn [cond_Zopp Z.add binary_normalize]. apply not_negative_binary_round.
Qed.

Lemma not_negative_sub (x y : spec_float) :
  not_negative x -> not_positive y -> not_negative (SF64sub x y).
Proof.
  destruct x as [[|]|[|]| |[|] mx ex], y as [[|]|[|]| |[|] my ey];
    cbn [not_negative not_positive]; try contradiction; intros _ _; unfold SF64sub;
    cbn [SFsub not_negative negb]; try exact I.
  cbn [cond_Zopp Z.sub Z.opp Z.add binary_normalize]. apply not_negative_binary_round.
Qed.

Lemma not_negative_mul (x y : spec_float) :
  not_negative x -> not_negative y -> not_negative (SF64mul x y).
Proof.
  destruct x as [[|]|[|]| |[|] mx ex], y as [[|]|[|]| |[|] my ey];
    cbn [not_negative]; try contradiction; intros _ _; unfold SF64mul;
    cbn [SFmul not_negative xorb]; try exact I.
  apply not_negative_round_aux.
Qed.

(** The divisor must not be a zero: [1 / -0] is [-Infinity]. *)
Lemma not_negative_div (x y : spec_float) :
  not_negative x -> not_negative y -> SFeqb y (S754_zero false) = false ->
  not_negative (SF64div x y).
Proof.
  destruct x as [[|]|[|]| |[|] mx ex], y as [[|]|[|]| |[|] my ey];
    cbn [not_negative]; try contradiction; intros _ _; try discriminate; intros _;
    unfold SF64div; cbn [SFdiv not_negative xorb]; try exact I.
  destruct (SFdiv_core_binary prec emax (Z.pos mx) ex (Z.pos my) ey)
    as [[mz ez] lz].
  apply not_negative_round_aux.
Qed.

Lemma not_negative_of_pos (x : spec_float) :
  SFltb (S754_zero false) x = true -> not_negative x.
Proof.
  destruct x as [[|]|[|]| |[|] mx ex]; cbn; try discriminate; intros _; exact I.
Qed.

Lemma not_positive_of_not_pos (x : spec_float) :
  SFltb (S754_zero false) x = false -> not_positive x.
Proof.
  destruct x as [[|]|[|]| |[|] mx ex]; cbn; try discriminate; intros _; exact I.
Qed.

Lemma not_negative_opp_of_neg (x : spec_float) :
  SFltb x (S754_zero false) = true -> not_negative (SFopp x).
Proof.
  destruct x as [[|]|[|]| |[|] mx ex]; cbn; try discriminate; intros _; exact I.
Qed.

(** *** Sums and differences of positive numbers *)

(** Every double is canonical. *)
Lemma valid_canonical (x : float) (s : bool) (m : positive) (e : Z) :
  Prim2SF x = S754_finite s m e -> canonical m e.
Proof.
  intros H. pose proof (Prim2SF_valid x) as Hv. rewrite H in Hv. exact Hv.
Qed.

Lemma Prim2SF_1 : Prim2SF 1 = S754_finite false 4503599627370496 (-52).
Proof. reflexivity. Qed.

Lemma Prim2SF_100 : Prim2SF 100 = S754_finite false 7036874417766400 (-46).
Proof. reflexivity. Qed.

Lemma dyadic_of_1 : dyadic 4503599627370496 (-52) = 1.
Proof.
  change 4503599627370496%Z with (1 * 2 ^ 52)%Z. rewrite dyadic_shift by lia.
  unfold dyadic. cbn. lra.
Qed.

Lemma dyadic_of_100 : dyadic 7036874417766400 (-46) = 100.
Proof.
  change 7036874417766400%Z with (100 * 2 ^ 46)%Z. rewrite dyadic_shift by lia.
  unfold dyadic. cbn. lra.
Qed.

(** The sum and the difference of two positive numbers, before rounding. *)
Lemma aligned_dyadic (m1 m2 : positive) (e1 e2 : Z) :
  let ez := Z.min e1 e2 in
  dyadic (Z.pos (fst (shl_align m1 e1 ez))) ez = dyadic (Z.pos m1) e1
  /\ dyadic (Z.pos (fst (shl_align m2 e2 ez))) ez = dyadic (Z.pos m2) e2.
Proof.
  intros ez. split.
  - destruct (shl_align_spec m1 e1 ez) as [_ H].
    replace (Z.min e1 ez) with ez in H by (subst ez; lia). exact H.
  - destruct (shl_align_spec m2 e2 ez) as [_ H].
    replace (Z.min e2 ez) with ez in H by (subst ez; lia). exact H.
Qed.

(** A sum above a double rounds to at least that double. *)
Lemma SFadd_pos_lower (m1 m2 mb : positive) (e1 e2 eb : Z) :
  canonical mb eb ->
  dyadic (Z.pos mb) eb <= dyadic (Z.pos m1) e1 + dyadic (Z.pos m2) e2 ->
  SF64add (S754_finite false m1 e1) (S754_finite false m2 e2)
  = S754_infinity false
  \/ exists m e,
      SF64add (S754_finite false m1 e1) (S754_finite false m2 e2)
      = S754_finite false m e
      /\ dyadic (Z.pos mb) eb <= dyadic (Z.pos m) e.
Proof.
  intros Hb HB. unfold SF64add. cbn [SFadd cond_Zopp Z.add binary_normalize].
  destruct (aligned_dyadic m1 m2 e1 e2) as [H1 H2]. cbv zeta in H1, H2.
  apply binary_round_lower; [exact Hb|].
  rewrite Pos2Z.inj_add, dyadic_plus, H1, H2. exact HB.
Qed.

(** A difference below a double rounds to at most that double. *)
Lemma SFsub_pos_upper (m1 m2 mb : positive) (e1 e2 eb : Z) :
  canonical mb eb ->
  dyadic (Z.pos m2) e2 <= dyadic (Z.pos m1) e1 ->
  dyadic (Z.pos m1) e1 <= dyadic (Z.pos mb) eb ->
  SF64sub (S754_finite false m1 e1) (S754_finite false m2 e2)
  = S754_zero false
  \/ exists m e,
      SF64sub (S754_finite false m1 e1) (S754_finite false m2 e2)
      = S754_finite false m e
      /\ dyadic (Z.pos m) e <= dyadic (Z.pos mb) eb.
Proof.
  intros Hb H21 HB. unfold SF64sub. cbn [SFsub cond_Zopp].
  destruct (aligned_dyadic m1 m2 e1 e2) as [H1 H2]. cbv zeta in H1, H2.
  set (ez := Z.min e1 e2) in *.
  set (a := fst (shl_align m1 e1 ez)) in *.
  set (b := fst (shl_align m2 e2 ez)) in *.
  assert (Hd : dyadic (Z.pos a - Z.pos b) ez
               = dyadic (Z.pos m1) e1 - dyadic (Z.pos m2) e2).
  { unfold Z.sub. rewrite dyadic_plus. change (- Z.pos b)%Z with (Z.neg b).
    rewrite dyadic_neg, H1, H2. ring. }
  destruct (Z.pos a - Z.pos b)%Z as [|d|d] eqn:E; cbn [binary_normalize].
  - left. reflexivity.
  - apply binary_round_upper; [exact Hb|]. pose proof (dyadic_pos m2 e2). lra.
  - exfalso. rewrite dyadic_neg in Hd. pose proof (dyadic_pos d ez). lra.
Qed.

(** *** A strict rise has a positive difference *)

(** The least positive double. *)
Lemma canonical_least : canonical 1 (-1074).
Proof. reflexivity. Qed.

Lemma dyadic_ge_least (d : positive) (e : Z) :
  (-1074 <= e)%Z -> dyadic 1 (-1074) <= dyadic (Z.pos d) e.
Proof.
  intros He.
  unfold dyadic. pose proof (pow2_le (-1074) e He). pose proof (pow2_pos (-1074)).
  assert (1 <= IZR (Z.pos d)) by (apply IZR_le; lia).
  change (IZR 1) with 1. nra.
Qed.

(** A difference that is exactly positive rounds to a positive number:
    there is no underflow to zero. *)
Lemma round_pos_is_pos (d : positive) (e : Z) :
  (-1074 <= e)%Z ->
  SFltb (S754_zero false) (binary_round prec emax false d e) = true.
Proof.
  intros He.
  destruct (binary_round_lower false d 1 e (-1074) canonical_least
              (dyadic_ge_least d e He)) as [->|[m [e' [-> _]]]]; reflexivity.
Qed.

Lemma SFltb_dyadic (m1 m2 : positive) (e1 e2 : Z) :
  canonical m1 e1 -> canonical m2 e2 ->
  SFltb (S754_finite false m1 e1) (S754_finite false m2 e2) = true ->
  dyadic (Z.pos m1) e1 < dyadic (Z.pos m2) e2.
Proof.
  intros H1 H2. unfold SFltb. cbn [SFcompare].
  change (Pos.compare_cont Eq m1 m2) with (Pos.compare m1 m2).
  destruct (Z.compare_spec e1 e2) as [->|Hlt|Hgt]; [| |discriminate].
  - destruct (Pos.compare_spec m1 m2) as [->|Hl|Hg]; try discriminate; intros _.
    unfold dyadic. pose proof (pow2_pos e2).
    assert (IZR (Z.pos m1) < IZR (Z.pos m2)) by (apply IZR_lt; lia). nra.
  - intros _. now apply canonical_exp_lt.
Qed.

Lemma aligned_exponent (e1 e2 : Z) :
  (-1074 <= e1)%Z -> (-1074 <= e2)%Z -> (-1074 <= Z.min e1 e2)%Z.
Proof. lia. Qed.

(** b - a is positive when a < b. *)
Lemma SFsub_of_lt (a b : spec_float) :
  valid_binary a = true -> valid_binary b = true ->
  SFltb a b = true -> SFltb (S754_zero false) (SF64sub b a) = true.
Proof.
  intros Va Vb.
  destruct a as [sa|[|]| |[|] ma ea], b as [sb|[|]| |[|] mb eb];
    try discriminate; try reflexivity;
    unfold SF64sub; cbn [SFsub negb cond_Zopp];
    try (destruct sa; try destruct sb; reflexivity);
    try (destruct sb; reflexivity).
  - (* both negative *)
    intros Hlt.
    assert (Hv : dyadic (Z.pos mb) eb < dyadic (Z.pos ma) ea).
    { apply SFltb_dyadic; auto. revert Hlt. unfold SFltb. cbn [SFcompare].
      rewrite (Z.compare_antisym ea eb), (Pos.compare_cont_antisym ma mb Eq).
      destruct (Z.compare ea eb); cbn [CompOpp]; auto. }
    destruct (canonical_spec _ _ Va) as [_ [_ La]].
    destruct (canonical_spec _ _ Vb) as [_ [_ Lb]].
    destruct (aligned_dyadic mb ma eb ea) as [H1 H2]. cbv zeta in H1, H2.
    set (ez := Z.min eb ea) in *.
    set (x := fst (shl_align mb eb ez)) in *.
    set (y := fst (shl_align ma ea ez)) in *.
    assert (Hd : dyadic (- Z.pos x - - Z.pos y) ez
                 = dyadic (Z.pos ma) ea - dyadic (Z.pos mb) eb).
    { replace (- Z.pos x - - Z.pos y)%Z with (Z.pos y + Z.neg x)%Z by lia.
      rewrite dyadic_plus, dyadic_neg, H1, H2. ring. }
    destruct (- Z.pos x - - Z.pos y)%Z as [|d|d] eqn:E; cbn [binary_normalize].
    + exfalso. rewrite dyadic_0 in Hd. lra.
    + apply round_pos_is_pos. subst ez. lia.
    + exfalso. rewrite dyadic_neg in Hd. pose proof (dyadic_pos d ez). lra.
  - (* a negative, b positive *)
    intros _.
    destruct (canonical_spec _ _ Va) as [_ [_ La]].
    destruct (canonical_spec _ _ Vb) as [_ [_ Lb]].
    cbn [Z.sub Z.opp Z.add binary_normalize].
    apply round_pos_is_pos. lia.
  - (* both positive *)
    intros Hlt.
    pose proof (SFltb_dyadic ma mb ea eb Va Vb Hlt) as Hv.
    destruct (canonical_spec _ _ Va) as [_ [_ La]].
    destruct (canonical_spec _ _ Vb) as [_ [_ Lb]].
    destruct (aligned_dyadic mb ma eb ea) as [H1 H2]. cbv zeta in H1, H2.
    set (ez := Z.min eb ea) in *.
    set (x := fst (shl_align mb eb ez)) in *.
    set (y := fst (shl_align ma ea ez)) in *.
    assert (Hd : dyadic (Z.pos x - Z.pos y) ez
                 = dyadic (Z.pos mb) eb - dyadic (Z.pos ma) ea).
    { unfold Z.sub. rewrite dyadic_plus. change (- Z.pos y)%Z with (Z.neg y).
      rewrite dyadic_neg, H1, H2. ring. }
    destruct (Z.pos x - Z.pos y)%Z as [|d|d] eqn:E; cbn [binary_normalize].
    + exfalso. rewrite dyadic_0 in Hd. lra.
    + apply round_pos_is_pos. subst ez. lia.
    + exfalso. rewrite dyadic_neg in Hd. pose proof (dyadic_pos d ez). lra.
Qed.

(** *** Magnitudes through the four operations *)

Lemma at_most_weaken (G G' : R) (x : spec_float) :
  G <= G' -> at_most G x -> at_most G' x.
Proof. destruct x as [s|s| |[|] m e]; cbn; auto. intros. lra. Qed.

Lemma at_most_not_negative (G : R) (x : spec_float) :
  at_most G x -> not_negative x.
Proof. destruct x as [s|[|]| |[|] m e]; cbn; auto; intros; exact I. Qed.

Lemma round_upper_at_most (G : R) (m : positive) (e : Z) :
  is_double G -> dyadic (Z.pos m) e <= G ->
  at_most G (binary_round prec emax false m e).
Proof.
  intros [mb [eb [Hb ->]]] Hv.
  destruct (binary_round_upper false m mb e eb Hb Hv) as [->|[m' [e' [-> H]]]];
    cbn; auto.
Qed.

Lemma round_upper_within (G : R) (s : bool) (m : positive) (e : Z) :
  is_double G -> dyadic (Z.pos m) e <= G ->
  within G (binary_round prec emax s m e).
Proof.
  intros [mb [eb [Hb ->]]] Hv.
  destruct (binary_round_upper s m mb e eb Hb Hv) as [->|[m' [e' [-> H]]]];
    cbn; auto.
Qed.

(** x + c *)
Lemma add_at_most (B Gx Gc : R) (x c : spec_float) :
  is_double B -> at_most Gx x -> at_most Gc c ->
  Gx + Gc <= B -> 0 <= Gx -> 0 <= Gc ->
  at_most B (SF64add x c).
Proof.
  intros HB Hx Hc Hsum Hx0 Hc0.
  destruct x as [sx|sx| |[|] mx ex], c as [sc|sc| |[|] mc ec];
    cbn [at_most] in *; try contradiction; unfold SF64add; cbn [SFadd].
  - destruct sx, sc; exact I.
  - cbn [at_most]. lra.
  - cbn [at_most]. lra.
  - cbn [cond_Zopp Z.add binary_normalize].
    destruct (aligned_dyadic mx mc ex ec) as [H1 H2]. cbv zeta in H1, H2.
    apply round_upper_at_most; [exact HB|].
    rewrite Pos2Z.inj_add, dyadic_plus, H1, H2. lra.
Qed.

(** x - c for c not positive, which is x + |c| *)
Lemma sub_not_positive_at_most (B Gx Gc : R) (x c : spec_float) :
  is_double B -> at_most Gx x -> within Gc c -> not_positive c ->
  Gx + Gc <= B -> 0 <= Gx -> 0 <= Gc ->
  at_most B (SF64sub x c).
Proof.
  intros HB Hx Hc Hnp Hsum Hx0 Hc0.
  destruct x as [sx|sx| |[|] mx ex], c as [sc|sc| |[|] mc ec];
    cbn [at_most within not_positive] in *; try contradiction;
    unfold SF64sub; cbn [SFsub negb].
  - destruct sx, sc; exact I.
  - cbn [at_most]. lra.
  - cbn [at_most]. lra.
  - cbn [cond_Zopp Z.sub Z.opp Z.add binary_normalize].
    destruct (aligned_dyadic mx mc ex ec) as [H1 H2]. cbv zeta in H1, H2.
    apply round_upper_at_most; [exact HB|].
    rewrite Pos2Z.inj_add, dyadic_plus, H1, H2. lra.
Qed.

(** |x - y| for x in [[0, Gx]] and y a positive number *)
Lemma sub_within_const (G Gx : R) (x : spec_float) (my : positive) (ey : Z) :
  is_double G -> at_most Gx x ->
  Gx - dyadic (Z.pos my) ey <= G -> dyadic (Z.pos my) ey <= G ->
  within G (SF64sub x (S754_finite false my ey)).
Proof.
  intros HG Hx H1 H2.
  destruct x as [sx|sx| |[|] mx ex]; cbn [at_most] in *; try contradiction;
    unfold SF64sub; cbn [SFsub negb].
  - cbn [within]. exact H2.
  - cbn [cond_Zopp].
    destruct (aligned_dyadic mx my ex ey) as [E1 E2]. cbv zeta in E1, E2.
    set (ez := Z.min ex ey) in *.
    set (a := fst (shl_align mx ex ez)) in *.
    set (b := fst (shl_align my ey ez)) in *.
    assert (Hd : dyadic (Z.pos a - Z.pos b) ez
                 = dyadic (Z.pos mx) ex - dyadic (Z.pos my) ey).
    { unfold Z.sub. rewrite dyadic_plus. change (- Z.pos b)%Z with (Z.neg b).
      rewrite dyadic_neg, E1, E2. ring. }
    pose proof (dyadic_pos mx ex). pose proof (dyadic_pos my ey).
    destruct (Z.pos a - Z.pos b)%Z as [|d|d] eqn:E; cbn [binary_normalize].
    + exact I.
    + apply round_upper_within; [exact HG|]. lra.
    + apply round_upper_within; [exact HG|]. rewrite dyadic_neg in Hd. lra.
Qed.

(** The difference of two numbers of [[0, G]] has magnitude at most [G]. *)
Lemma sub_within (G : R) (x y : spec_float) :
  is_double G -> at_most G x -> at_most G y -> within G (SF64sub x y).
Proof.
  intros HG Hx Hy.
  destruct y as [sy|sy| |[|] my ey]; cbn [at_most] in Hy; try contradiction.
  - destruct x as [sx|sx| |[|] mx ex]; cbn [at_most] in Hx; try contradiction;
      unfold SF64sub; cbn [SFsub].
    + destruct sx, sy; exact I.
    + exact Hx.
  - pose proof (dyadic_pos my ey). apply (sub_within_const G G); auto; lra.
Qed.

(** The product of two doubles is long enough for the format. *)
Lemma mul_grid (m1 m2 : positive) (e1 e2 : Z) :
  canonical m1 e1 -> canonical m2 e2 ->
  (e1 + e2 <= fexp prec emax (Zdigits2 (Z.pos (m1 * m2)) + (e1 + e2)))%Z.
Proof.
  intros H1 H2.
  destruct (canonical_spec _ _ H1) as [C1 [_ L1]].
  destruct (canonical_spec _ _ H2) as [C2 [_ L2]].
  destruct (digits_bounds m1) as [Hlo1 _]. destruct (digits_bounds m2) as [Hlo2 _].
  set (d1 := Z.pos (digits2_pos m1)) in *. set (d2 := Z.pos (digits2_pos m2)) in *.
  assert (Hd : (d1 + d2 - 1 <= Zdigits2 (Z.pos (m1 * m2)))%Z).
  { replace (d1 + d2 - 1)%Z with ((d1 + d2 - 2) + 1)%Z by lia.
    apply Zdigits2_ge; [subst d1 d2; lia|].
    replace (d1 + d2 - 2)%Z with ((d1 - 1) + (d2 - 1))%Z by lia.
    rewrite Z.pow_add_r by (subst d1 d2; lia).
    rewrite Pos2Z.inj_mul.
    assert (0 < 2 ^ (d1 - 1))%Z by (apply Z.pow_pos_nonneg; subst d1; lia).
    assert (0 < 2 ^ (d2 - 1))%Z by (apply Z.pow_pos_nonneg; subst d2; lia).
    nia. }
  rewrite fexp_eq in *. lia.
Qed.

(** x * y *)
Lemma mul_at_most (B Gx Gy : R) (x y : spec_float) :
  is_double B -> valid_binary x = true -> valid_binary y = true ->
  at_most Gx x -> at_most Gy y -> Gx * Gy <= B -> 0 <= Gx -> 0 <= Gy ->
  at_most B (SF64mul x y).
Proof.
  intros [mb [eb [Hb ->]]] Vx Vy Hx Hy Hprod Hx0 Hy0.
  destruct x as [sx|sx| |[|] mx ex], y as [sy|sy| |[|] my ey];
    cbn [at_most] in *; try contradiction; unfold SF64mul; cbn [SFmul xorb];
    try exact I.
  unfold valid_binary in Vx, Vy. cbn [SpecFloat.valid_binary] in Vx, Vy.
  destruct (round_aux_upper false (Z.pos (mx * my)) (ex + ey) loc_Exact
              (dyadic (Z.pos (mx * my)) (ex + ey)) mb eb) as [->|[m [e [-> H]]]];
    cbn [at_most]; auto; try lia.
  - split; [lra|]. rewrite dyadic_plus, dyadic_1.
    pose proof (pow2_pos (ex + ey)). lra.
  - apply mul_grid; assumption.
  - assert (dyadic (Z.pos (mx * my)) (ex + ey)
            = dyadic (Z.pos mx) ex * dyadic (Z.pos my) ey).
    { unfold dyadic. rewrite Pos2Z.inj_mul, mult_IZR, pow2_add. ring. }
    rewrite H. pose proof (dyadic_pos mx ex). pose proof (dyadic_pos my ey). nra.
Qed.

(** x / y for y a positive number *)
Lemma div_at_most (B Gx c : R) (x : spec_float) (my : positive) (ey : Z) :
  is_double B -> at_most Gx x ->
  dyadic (Z.pos my) ey = c -> 0 < c -> Gx / c <= B ->
  at_most B (SF64div x (S754_finite false my ey)).
Proof.
  intros [mb [eb [Hb ->]]] Hx Hc Hc0 Hq.
  destruct x as [sx|sx| |[|] mx ex]; cbn [at_most] in *; try contradiction.
  - unfold SF64div. cbn. exact I.
  - destruct (SFdiv_upper false false mx my mb ex ey eb Hb) as [->|[m [e [-> H]]]];
      cbn [at_most xorb]; auto.
    rewrite Hc. apply Rle_trans with (2 := Hq).
    unfold Rdiv. apply Rmult_le_compat_r; [|exact Hx].
    apply Rlt_le, Rinv_0_lt_compat. exact Hc0.
Qed.

(** Rounding a mantissa that is not negative never gives NaN. *)
Lemma round_aux_shape (sx : bool) (mx ex : Z) (lx : location) :
  (0 <= mx)%Z ->
  match binary_round_aux prec emax sx mx ex lx with
  | S754_nan => False
  | S754_zero s | S754_infinity s | S754_finite s _ _ => s = sx
  end.
Proof.
  intros Hm. unfold binary_round_aux.
  destruct (shr_fexp_spec (dyadic mx ex) mx ex lx Hm) as [mrs1 [E1 [[Hm1 _] _]]].
  { split; [lra|]. rewrite dyadic_plus, dyadic_1. pose proof (pow2_pos ex). lra. }
  rewrite E1.
  pose proof (round_nearest_even_ge mrs1) as Hr.
  set (R1 := round_nearest_even (shr_m mrs1) (loc_of_shr_record mrs1)) in *.
  set (e1 := Z.max ex (fexp prec emax (Zdigits2 mx + ex))) in *.
  destruct (shr_fexp_spec (dyadic R1 e1) R1 e1 loc_Exact) as [mrs2 [E2 [[Hm2 _] _]]].
  { lia. }
  { split; [lra|]. rewrite dyadic_plus, dyadic_1. pose proof (pow2_pos e1). lra. }
  rewrite E2.
  destruct (shr_m mrs2) as [|m2|m2]; [reflexivity| |lia].
  destruct (Z.leb _ _); reflexivity.
Qed.

(** *** Doubles in a range, through their values *)

Lemma is_double_of_float (b : float) (mb : positive) (eb : Z) :
  Prim2SF b = S754_finite false mb eb -> is_double (dyadic (Z.pos mb) eb).
Proof.
  intros H. exists mb, eb. split; [|reflexivity]. exact (valid_canonical b _ _ _ H).
Qed.

Local Open Scope float_scope.

Lemma at_most_of_range (x b : float) (mb : positive) (eb : Z) :
  Prim2SF b = S754_finite false mb eb ->
  (0 <=? x) && (x <=? b) = true -> at_most (dyadic (Z.pos mb) eb) (Prim2SF x).
Proof.
  intros Hb. rewrite andb_true_iff, !FloatAxioms.leb_spec, Hb.
  change (Prim2SF 0) with (S754_zero false).
  intros [H0 H1]. pose proof (Prim2SF_valid x) as Hv.
  destruct (Prim2SF x) as [s|[|]| |[|] m e]; try discriminate; cbn [at_most]; auto.
  exact (dyadic_of_SFleb m mb e eb Hv (valid_canonical b _ _ _ Hb) H1).
Qed.

Lemma range_of_at_most (x b : float) (mb : positive) (eb : Z) :
  Prim2SF b = S754_finite false mb eb ->
  at_most (dyadic (Z.pos mb) eb) (Prim2SF x) -> (0 <=? x) && (x <=? b) = true.
Proof.
  intros Hb. rewrite !FloatAxioms.leb_spec, Hb.
  change (Prim2SF 0) with (S754_zero false).
  pose proof (Prim2SF_valid x) as Hv.
  destruct (Prim2SF x) as [s|[|]| |[|] m e]; cbn [at_most]; try contradiction; intros H.
  - reflexivity.
  - rewrite (SFleb_of_dyadic m mb e eb Hv (valid_canonical b _ _ _ Hb) H). reflexivity.
Qed.

Local Open Scope R_scope.

Lemma abs_at_most (G : R) (x : spec_float) : within G x -> at_most G (SFabs x).
Proof. destruct x as [s|s| |s m e]; cbn; auto. Qed.

Lemma nan_of_shape (r : float) : Prim2SF r = S754_nan -> is_nan r = true.
Proof.
  intros H. unfold is_nan. rewrite FloatAxioms.eqb_spec, H. reflexivity.
Qed.

Local Close Scope R_scope.
Local Open Scope float_scope.

(** ** Direction thresholds *)

Section Direction.

Variable Math_exp : float -> float.
Variable Math_tanh : float -> float.
Variable Math_log : float -> float.
Variable toFixed1 : float -> string.
Variable toString : nat -> string.

Lemma Basic_direction (e : Engine) (st : AsyncStorage) (symbol : string)
      (duration : nat) (now : float) (currentData : MarketData)
      (indicators : TechnicalIndicators) (features : list float)
      (mlPrediction : float) (ruleBasedSignals : RuleBasedSignals) :
  option_map direction
    (fst (Basic.combineSignals toFixed1 e st symbol duration now currentData
                               indicators features mlPrediction ruleBasedSignals))
  = let combinedConfidence :=
      Basic.combinedConfidence mlPrediction ruleBasedSignals in
    if JS.gtb combinedConfidence 0.6 then Some CALL
    else if combinedConfidence <? 0.4 then Some PUT
    else None.
Proof.
  unfold Basic.combineSignals. cbv zeta.
  destruct (JS.gtb _ 0.6); [reflexivity|].
  destruct (_ <? 0.4); reflexivity.
Qed.

Lemma Enhanced_direction (e : Engine) (st : AsyncStorage) (symbol : string)
      (duration : nat) (now : float) (currentData : MarketData)
      (indicators : TechnicalIndicators) (features : list float)
      (mlPrediction : float) (sentiment : SentimentAnalysis)
      (ruleBasedSignals : RuleBasedSignals)
      (upcomingEvents : list EconomicData) :
  option_map direction
    (fst (Enhanced.combineSignals toFixed1 toString e st symbol duration now
                                  currentData indicators features mlPrediction
                                  sentiment ruleBasedSignals upcomingEvents))
  = let combinedConfidence :=
      Enhanced.combinedConfidence mlPrediction sentiment ruleBasedSignals in
    if JS.gtb combinedConfidence 0.65 then Some CALL
    else if combinedConfidence <? 0.35 then Some PUT
    else None.
Proof.
  unfold Enhanced.combineSignals. cbv zeta.
  destruct (JS.gtb _ 0.65); [reflexivity|].
  destruct (_ <? 0.35); reflexivity.
Qed.

(** The three-way decision on a combined confidence [c] with thresholds
    [hi] and [lo], [lo] not above [hi]. *)
Lemma three_way (hi lo c : float) (out : option TradingSignal) :
  (hi <? lo) = false ->
  option_map direction out
  = (if JS.gtb c hi then Some CALL else if c <? lo then Some PUT else None) ->
  (JS.gtb c hi = true -> option_map direction out = Some CALL)
  /\ ((c <? lo) = true -> option_map direction out = Some PUT)
  /\ (JS.gtb c hi = false -> (c <? lo) = false -> out = None).
Proof.
  intros Hord H. unfold JS.gtb in *. repeat split.
  - intros Hhi. now rewrite H, Hhi.
  - intros Hlo. rewrite H, (flt_between lo hi c Hord Hlo). now rewrite Hlo.
  - intros Hhi Hlo. rewrite Hhi, Hlo in H.
    destruct out; [discriminate|reflexivity].
Qed.

(** C1, as the two revisions of the engine have it.  For every input that
    reaches the combination step (a non-empty history and a current bar;
    in the sentiment revision also a model whose [predict] returns):
    the first revision answers CALL above 0.6, PUT below 0.4 and nothing
    otherwise; the sentiment revision answers CALL above 0.65, PUT below
    0.35 and nothing otherwise.  In both, a combined confidence strictly
    between 0.4 and 0.6 gives no signal. *)
Theorem generateTradingSignal_direction :
  forall (e : Engine) (st : AsyncStorage) (symbol : string) (duration : nat)
         (historicalData : list MarketData) (currentData : MarketData)
         (sentiment : SentimentAnalysis)
         (events1_3d events2_3d events1_1d events2_1d : list EconomicData)
         (now : float),
    historicalData <> [] ->
    let bars := historicalData ++ [currentData] in
    let indicators := calculateTechnicalIndicators Math_log bars in
    let rules := analyzeRuleBasedSignals indicators currentData in
    (let c :=
       Basic.combinedConfidence
         (neuralNetworkPredict Math_exp (extractFeatures bars indicators)
                               (modelWeights e symbol))
         rules in
     let out :=
       fst (Basic.generateTradingSignal Math_exp Math_log toFixed1 e st symbol
                                        duration historicalData
                                        (Some currentData) now) in
     (JS.gtb c 0.6 = true -> option_map direction out = Some CALL)
     /\ ((c <? 0.4) = true -> option_map direction out = Some PUT)
     /\ (JS.gtb c 0.6 = false -> (c <? 0.4) = false -> out = None)
     /\ ((0.4 <? c) = true -> (c <? 0.6) = true -> out = None))
    /\ (forall (mlModel : MLModelTraining) (mlPrediction : float),
           mlModels e symbol = Some mlModel ->
           predict Math_exp Math_tanh mlModel
                   (Enhanced.extractEnhancedFeatures bars indicators now
                      sentiment events1_3d events2_3d)
           = Some mlPrediction ->
           let c := Enhanced.combinedConfidence mlPrediction sentiment rules in
           let out :=
             fst (Enhanced.generateTradingSignal
                    Math_exp Math_tanh Math_log toFixed1 toString e st symbol
                    duration historicalData (Some currentData) sentiment
                    events1_3d events2_3d events1_1d events2_1d now) in
           (JS.gtb c 0.65 = true -> option_map direction out = Some CALL)
           /\ ((c <? 0.35) = true -> option_map direction out = Some PUT)
           /\ (JS.gtb c 0.65 = false -> (c <? 0.35) = false -> out = None)
           /\ ((0.4 <? c) = true -> (c <? 0.6) = true -> out = None)).
Proof.
  intros e st symbol duration historicalData currentData sentiment
         events1_3d events2_3d events1_1d events2_1d now Hne
         bars indicators rules.
  destruct historicalData as [|bar history]; [contradiction|].
  split.
  - intros c out.
    assert (H3 := three_way 0.6 0.4 c out eq_refl).
    destruct H3 as (Hcall & Hput & Hnone).
    { subst out. unfold Basic.generateTradingSignal.
      cbn [length Nat.eqb]. apply Basic_direction. }
    repeat split; auto.
    intros Hlo Hhi. apply Hnone.
    + unfold JS.gtb. now apply flt_asym.
    + now apply flt_asym.
  - intros mlModel mlPrediction Hmodel Hpredict c out.
    assert (H3 := three_way 0.65 0.35 c out eq_refl).
    destruct H3 as (Hcall & Hput & Hnone).
    { subst out. unfold Enhanced.generateTradingSignal.
      cbn [length Nat.eqb]. rewrite Hmodel.
      fold bars. fold indicators. rewrite Hpredict.
      apply Enhanced_direction. }
    repeat split; auto.
    intros Hlo Hhi. apply Hnone.
    + unfold JS.gtb. now apply (flt_between 0.6 0.65 c eq_refl).
    + destruct (c <? 0.35) eqn:E; [|reflexivity].
      rewrite (flt_between 0.35 0.4 c eq_refl E) in Hlo. discriminate.
Qed.

End Direction.

(** With a combined confidence of 0.625 the sentiment revision gives no
    signal, although 0.625 is above 0.6: its CALL threshold is 0.65.  (The
    formatting functions are not called on this path.) *)
Lemma enhanced_no_call_at_0625 :
  let rules := {| confidence := 1; reasoning_of := [] |} in
  let sentiment :=
    {| overallSentiment := -0.5; newsCount := 2;
       socialMediaMentions := 600; fearGreedIndex := 50 |} in
  let indicators := calculateTechnicalIndicators (fun x => x) [] in
  Enhanced.combinedConfidence 0.5 sentiment rules = 0.625
  /\ JS.gtb 0.625 0.6 = true
  /\ fst (Enhanced.combineSignals (fun _ => EmptyString) (fun _ => EmptyString)
            emptyEngine emptyStorage "EURUSD" 1 1700000000000 flatBar
            indicators [] 0.5 sentiment rules [])
     = None.
Proof. vm_compute. repeat split; reflexivity. Qed.

(** The first revision on a two-bar flat history, no weights registered
    for the symbol: the model term is 0.5, both fired rules are bullish,
    the combined confidence is 0.7 and the answer is CALL. *)
Lemma generateTradingSignal_direction_witness :
  [flatBar] <> []
  /\ option_map direction
       (fst (Basic.generateTradingSignal (fun x => x) (fun x => x)
               (fun _ => EmptyString) emptyEngine emptyStorage "EURUSD" 1
               [flatBar] (Some flatBar) 1700000000000))
     = Some CALL.
Proof.
  assert (Hne : [flatBar] <> []) by discriminate.
  split; [exact Hne|].
  refine (proj1 (proj1 (generateTradingSignal_direction
                   (fun x => x) (fun x => x) (fun x => x)
                   (fun _ => EmptyString) (fun _ => EmptyString)
                   emptyEngine emptyStorage "EURUSD" 1 [flatBar] flatBar
                   {| overallSentiment := 0; newsCount := 0;
                      socialMediaMentions := 0; fearGreedIndex := 50 |}
                   [] [] [] [] 1700000000000 Hne)) _).
  vm_compute. reflexivity.
Defined.

(** ** The reported confidence *)

Section ReportedConfidence.

Variable toFixed1 : float -> string.
Variable toString : nat -> string.

(** Every signal either revision emits carries
    [abs(combinedConfidence - 0.5) * 2]. *)
Lemma reported_confidence_formula
      (e : Engine) (st : AsyncStorage) (symbol : string) (duration : nat)
      (now : float) (currentData : MarketData)
      (indicators : TechnicalIndicators) (features : list float)
      (mlPrediction : float) (sentiment : SentimentAnalysis)
      (ruleBasedSignals : RuleBasedSignals)
      (upcomingEvents : list EconomicData) :
  (forall signal,
      fst (Basic.combineSignals toFixed1 e st symbol duration now currentData
             indicators features mlPrediction ruleBasedSignals) = Some signal ->
      sig_confidence signal
      = JS.Math_abs (Basic.combinedConfidence mlPrediction ruleBasedSignals - 0.5)
        * 2)
  /\ (forall signal,
         fst (Enhanced.combineSignals toFixed1 toString e st symbol duration now
                currentData indicators features mlPrediction sentiment
                ruleBasedSignals upcomingEvents) = Some signal ->
         sig_confidence signal
         = JS.Math_abs
             (Enhanced.combinedConfidence mlPrediction sentiment ruleBasedSignals
              - 0.5) * 2).
Proof.
  split; intros signal.
  - unfold Basic.combineSignals. cbv zeta.
    destruct (JS.gtb _ 0.6); [|destruct (_ <? 0.4)]; cbn [fst];
      intros H; inversion H; reflexivity.
  - unfold Enhanced.combineSignals. cbv zeta.
    destruct (JS.gtb _ 0.65); [|destruct (_ <? 0.35)]; cbn [fst];
      intros H; inversion H; reflexivity.
Qed.

(** C2 at a failing input.  Sentiment -0.5, a model prediction of 0.02 and
    a rule score of 0 (one bearish check): the sentiment revision combines
    them to about -0.039, answers PUT and reports a confidence of 1.078,
    which is above 1. *)
Theorem enhanced_confidence_above_one :
  let sentiment :=
    {| overallSentiment := -0.5; newsCount := 2;
       socialMediaMentions := 600; fearGreedIndex := 50 |} in
  let rules :=
    {| confidence := 0;
       reasoning_of := ["RSI overbought (> 70) - bearish signal"%string] |} in
  let out :=
    fst (Enhanced.combineSignals toFixed1 toString emptyEngine emptyStorage
           "EURUSD" 1 1700000000000 flatBar
           (calculateTechnicalIndicators (fun x => x) []) []
           0.02 sentiment rules []) in
  Enhanced.combinedConfidence 0.02 sentiment rules = -0.039000000000000007
  /\ option_map direction out = Some PUT
  /\ option_map sig_confidence out = Some 1.0780000000000001
  /\ (1 <? 1.0780000000000001) = true.
Proof. vm_compute. repeat split; reflexivity. Qed.

End ReportedConfidence.

(** The volatility window is the flat start of the series, where
    [Math.log] is only asked for [log 1]. *)
Lemma volatility_flat_start (Math_log : float -> float) :
  Math_log 1 = 0 ->
  calculateVolatility Math_log (map price (spikeHistory ++ [spikeCurrent])) 20 = 0.
Proof.
  intros Hlog. unfold calculateVolatility.
  change (length (map price (spikeHistory ++ [spikeCurrent])) <? 20)%nat
    with false.
  cbv beta iota.
  match goal with
  | |- context [map ?f (seq 1 ?n)] =>
      assert (Hret : map f (seq 1 n) = repeat 0 20)
  end.
  { change (Nat.min _ _ - 1)%nat with 20%nat.
    cbn [seq map repeat].
    repeat match goal with
           | |- context [Math_log (JS.get ?l ?i / ?y)] =>
               change (JS.get l i / y) with 1
           end.
    rewrite Hlog. reflexivity. }
  cbv zeta. rewrite Hret. vm_compute. reflexivity.
Qed.

(** The same defect from the engine's entry point: on the spike series the
    scorer fires bearish checks only, the registered model predicts
    [1 / (1 + Math.exp(4))], the cached sentiment is -1, and the signal
    comes out as PUT with confidence 1.18. *)
Lemma enhanced_confidence_above_one_end_to_end
      (Math_exp Math_tanh Math_log : float -> float)
      (toFixed1 : float -> string) (toString : nat -> string) :
  Math_log 1 = 0 ->
  Math_exp 4 = 54.598150033144236 ->
  let rules :=
    analyzeRuleBasedSignals
      (calculateTechnicalIndicators Math_log (spikeHistory ++ [spikeCurrent]))
      spikeCurrent in
  let out :=
    fst (Enhanced.generateTradingSignal Math_exp Math_tanh Math_log toFixed1
           toString biasedEngine emptyStorage "EURUSD" 1 spikeHistory
           (Some spikeCurrent)
           {| overallSentiment := -1; newsCount := 2;
              socialMediaMentions := 600; fearGreedIndex := 50 |}
           [] [] [] [] 1700000000000) in
  confidence rules = 0
  /\ option_map direction out = Some PUT
  /\ option_map sig_confidence out = Some 1.1820137900379084.
Proof.
  intros Hlog Hexp rules out. subst rules out.
  unfold Enhanced.generateTradingSignal.
  change (length spikeHistory =? 0)%nat with false.
  change (mlModels biasedEngine "EURUSD") with (Some biasedModel).
  cbv beta iota zeta.
  unfold calculateTechnicalIndicators.
  set (bars := spikeHistory ++ [spikeCurrent]).
  assert (Hb : exists b r, bars = b :: r)
    by (eexists; eexists; vm_compute; reflexivity).
  destruct Hb as (b & r & Hb). rewrite Hb. cbv beta iota. rewrite <- Hb.
  unfold bars. rewrite (volatility_flat_start Math_log Hlog).
  split; [vm_compute; reflexivity|].
  match goal with
  | |- context [predict Math_exp Math_tanh biasedModel ?f] =>
      assert (Hp : predict Math_exp Math_tanh biasedModel f
                   = Some (1 / (1 + Math_exp 4))) by (vm_compute; reflexivity);
      rewrite Hp
  end.
  rewrite Hexp. vm_compute. split; reflexivity.
Qed.

(** The first revision at the two extremes of its inputs: the reported
    confidence is 1 there. *)
Example basic_confidence_extremes :
  JS.Math_abs (Basic.combinedConfidence 1 {| confidence := 1; reasoning_of := [] |}
               - 0.5) * 2 = 1
  /\ JS.Math_abs (Basic.combinedConfidence 0 {| confidence := 0; reasoning_of := [] |}
                  - 0.5) * 2 = 1.
Proof. vm_compute. split; reflexivity. Qed.

(** *** The first revision stays within [[0, 1]]

    Its combination is convex: the doubles nearest 0.6 and 0.4 add up to
    exactly 1, and rounding cannot carry a value across a double.  The
    sentiment revision adds a signed term outside the combination, which
    is what lets it leave the interval. *)

Local Open Scope R_scope.

Lemma Prim2SF_06 : Prim2SF 0.6 = S754_finite false 5404319552844595 (-53).
Proof. reflexivity. Qed.

Lemma Prim2SF_04 : Prim2SF 0.4 = S754_finite false 7205759403792794 (-54).
Proof. reflexivity. Qed.

Lemma Prim2SF_05 : Prim2SF 0.5 = S754_finite false 4503599627370496 (-53).
Proof. reflexivity. Qed.

Lemma Prim2SF_2 : Prim2SF 2 = S754_finite false 4503599627370496 (-51).
Proof. reflexivity. Qed.

Lemma dyadic_of_half : dyadic 4503599627370496 (-53) = 1 / 2.
Proof.
  change 4503599627370496%Z with (1 * 2 ^ 52)%Z. rewrite dyadic_shift by lia.
  unfold dyadic, pow2. simpl. lra.
Qed.

Lemma dyadic_of_2 : dyadic 4503599627370496 (-51) = 2.
Proof.
  change 4503599627370496%Z with (1 * 2 ^ 52)%Z. rewrite dyadic_shift by lia.
  unfold dyadic, pow2. simpl. lra.
Qed.

Lemma weights_sum :
  dyadic 5404319552844595 (-53) + dyadic 7205759403792794 (-54) = 1.
Proof.
  change 7205759403792794%Z with (3602879701896397 * 2 ^ 1)%Z.
  rewrite dyadic_shift by lia. change (-54 + 1)%Z with (-53)%Z.
  rewrite <- dyadic_plus.
  change (5404319552844595 + 3602879701896397)%Z with (1 * 2 ^ 53)%Z.
  rewrite dyadic_shift by lia. unfold dyadic, pow2. simpl. lra.
Qed.

Local Open Scope float_scope.

(** Scores between 0 and 1 give a combined confidence between 0 and 1 and
    a reported confidence between 0 and 1. *)
Lemma Basic_confidence_range (mlPrediction : float) (rules : RuleBasedSignals) :
  (0 <=? mlPrediction) && (mlPrediction <=? 1) = true ->
  (0 <=? confidence rules) && (confidence rules <=? 1) = true ->
  let c := Basic.combinedConfidence mlPrediction rules in
  let reported := JS.Math_abs (c - 0.5) * 2 in
  (0 <=? c) && (c <=? 1) = true
  /\ (0 <=? reported) && (reported <=? 1) = true.
Proof.
  intros Hml Hrule c reported.
  pose proof (at_most_of_range _ _ _ _ Prim2SF_1 Hml) as Bml.
  pose proof (at_most_of_range _ _ _ _ Prim2SF_1 Hrule) as Brule.
  rewrite dyadic_of_1 in Bml, Brule.
  pose proof (dyadic_pos 5404319552844595 (-53)) as H6.
  pose proof (dyadic_pos 7205759403792794 (-54)) as H4.
  pose proof weights_sum as Hsum.
  assert (R1 : is_double 1)
    by (rewrite <- dyadic_of_1; exact (is_double_of_float _ _ _ Prim2SF_1)).
  assert (Bc : at_most 1 (Prim2SF c)).
  { subst c. unfold Basic.combinedConfidence.
    rewrite FloatAxioms.add_spec, !FloatAxioms.mul_spec.
    apply (add_at_most _ (dyadic 5404319552844595 (-53))
             (dyadic 7205759403792794 (-54))); auto; try lra.
    - apply (mul_at_most _ 1 (dyadic 5404319552844595 (-53)));
        auto using Prim2SF_valid; try lra.
      + exact (is_double_of_float _ _ _ Prim2SF_06).
      + rewrite Prim2SF_06. cbn [at_most]. lra.
    - apply (mul_at_most _ 1 (dyadic 7205759403792794 (-54)));
        auto using Prim2SF_valid; try lra.
      + exact (is_double_of_float _ _ _ Prim2SF_04).
      + rewrite Prim2SF_04. cbn [at_most]. lra. }
  split.
  - apply (range_of_at_most _ _ _ _ Prim2SF_1). rewrite dyadic_of_1. exact Bc.
  - apply (range_of_at_most _ _ _ _ Prim2SF_1). rewrite dyadic_of_1.
    subst reported. unfold JS.Math_abs.
    rewrite FloatAxioms.mul_spec.
    apply (mul_at_most _ (1 / 2) 2); auto using Prim2SF_valid; try lra.
    + rewrite abs_spec, FloatAxioms.sub_spec. apply abs_at_most.
      rewrite Prim2SF_05.
      apply (sub_within_const _ 1); auto; rewrite ?dyadic_of_half; try lra.
      rewrite <- dyadic_of_half. exact (is_double_of_float _ _ _ Prim2SF_05).
    + rewrite Prim2SF_2. cbn [at_most]. rewrite dyadic_of_2. lra.
Qed.

Local Close Scope R_scope.
Local Open Scope float_scope.

Lemma normalizeData_length (data : list float) :
  length (normalizeData data) = length data.
Proof.
  unfold normalizeData.
  destruct (_ =? 0); apply length_map.
Qed.


(** ** Special values of doubles

    What subtraction, division and multiplication give on equal operands,
    zeros, infinities and NaN. *)

Lemma SFeqb_shape (a b : spec_float) : SFeqb a b = true -> SFeq_shape a b.
Proof.
  unfold SFeqb.
  destruct a as [sa|sa| |sa ma ea], b as [sb|sb| |sb mb eb];
    cbn [SFcompare]; try discriminate;
    try (destruct sa; discriminate); try (destruct sb; discriminate).
  - constructor.
  - destruct sa, sb; try discriminate; constructor.
  - change (Pos.compare_cont Eq ma mb) with (Pos.compare ma mb).
    destruct sa, sb; try discriminate;
      destruct (Z.compare_spec ea eb); try discriminate;
      destruct (Pos.compare_spec ma mb); try discriminate;
      subst; intros _; constructor.
Qed.

Lemma SFsub_of_equal (a b : spec_float) :
  SFeqb a b = true -> SF_zero_or_nan (SF64sub a b).
Proof.
  intros H. destruct (SFeqb_shape a b H) as [s s'|s|s m e]; unfold SF64sub; cbn [SFsub].
  - right. destruct s, s'; eexists; reflexivity.
  - left. destruct s; reflexivity.
  - right. rewrite Z.sub_diag. eexists; reflexivity.
Qed.

Lemma SFdiv_by_zero_or_nan (n d0 : spec_float) :
  SF_zero_or_nan d0 -> SF_inf_or_nan (SF64div n d0).
Proof.
  intros [->|[s ->]]; unfold SF64div.
  - left. destruct n; reflexivity.
  - destruct n as [sn|sn| |sn mn en]; cbn [SFdiv];
      [left; reflexivity|right; eexists; reflexivity|left; reflexivity
      |right; eexists; reflexivity].
Qed.

Lemma SFdiv_zero_or_nan_by_zero_or_nan (n d0 : spec_float) :
  SF_zero_or_nan n -> SF_zero_or_nan d0 -> SF64div n d0 = S754_nan.
Proof.
  intros [->|[s ->]] [->|[s' ->]]; reflexivity.
Qed.

Lemma SFmul_inf_or_nan_100 (x : spec_float) :
  SF_inf_or_nan x -> SF_inf_or_nan (SF64mul x (Prim2SF 100)).
Proof.
  intros [->|[s ->]].
  - left. reflexivity.
  - right. eexists. vm_compute. reflexivity.
Qed.

Lemma float_is_nan (x : float) : Prim2SF x = S754_nan -> x = nan.
Proof. intros H. apply Prim2SF_inj. rewrite H. reflexivity. Qed.

Lemma float_inf_or_nan (x : float) :
  SF_inf_or_nan (Prim2SF x) -> x = nan \/ x = infinity \/ x = neg_infinity.
Proof.
  intros [H|[s H]].
  - left. now apply float_is_nan.
  - right. destruct s; [right|left]; apply Prim2SF_inj; rewrite H; reflexivity.
Qed.

(** ** The order of doubles, and the bounds [Math.max] and [Math.min] give

    [<=] is transitive and antisymmetric up to [==]; two numbers are always
    comparable; what compares is a number. *)

Lemma SFleb_trans (a b c : spec_float) :
  SFleb a b = true -> SFleb b c = true -> SFleb a c = true.
Proof.
  unfold SFleb.
  destruct a as [sa|sa| |sa ma ea], b as [sb|sb| |sb mb eb],
           c as [sc|sc| |sc mc ec];
    cbn [SFcompare]; try discriminate; try reflexivity;
    change (Pos.compare_cont Eq ?a ?b) with (Pos.compare a b);
    repeat match goal with s : bool |- _ => destruct s end;
    repeat match goal with
           | |- context [Z.compare ?a ?b] => destruct (Z.compare_spec a b)
           | |- context [Pos.compare ?a ?b] => destruct (Pos.compare_spec a b)
           end;
    cbn [CompOpp]; try discriminate; try reflexivity; intros; try lia.
Qed.

Lemma SFleb_antisym (a b : spec_float) :
  SFleb a b = true -> SFleb b a = true -> SFeqb a b = true.
Proof.
  unfold SFleb, SFeqb.
  destruct a as [sa|sa| |sa ma ea], b as [sb|sb| |sb mb eb];
    cbn [SFcompare]; try discriminate; try reflexivity;
    change (Pos.compare_cont Eq ?a ?b) with (Pos.compare a b);
    repeat match goal with s : bool |- _ => destruct s end;
    repeat match goal with
           | |- context [Z.compare ?a ?b] => destruct (Z.compare_spec a b)
           | |- context [Pos.compare ?a ?b] => destruct (Pos.compare_spec a b)
           end;
    cbn [CompOpp]; try discriminate; try reflexivity; intros; try lia.
Qed.

Lemma SFeqb_leb (a b : spec_float) :
  SFeqb a b = true -> SFleb a b = true /\ SFleb b a = true.
Proof.
  unfold SFleb, SFeqb.
  destruct a as [sa|sa| |sa ma ea], b as [sb|sb| |sb mb eb];
    cbn [SFcompare]; try discriminate; try (split; reflexivity);
    change (Pos.compare_cont Eq ?a ?b) with (Pos.compare a b);
    repeat match goal with s : bool |- _ => destruct s end;
    try discriminate; try (split; reflexivity);
    destruct (Z.compare_spec ea eb); try discriminate;
    destruct (Pos.compare_spec ma mb); try discriminate; subst;
    rewrite ?Z.compare_refl, ?Pos.compare_refl; split; reflexivity.
Qed.

Lemma SFltb_leb (a b : spec_float) : SFltb a b = true -> SFleb a b = true.
Proof.
  unfold SFltb, SFleb.
  destruct (SFcompare a b) as [[| |]|]; try discriminate; reflexivity.
Qed.

Lemma SFleb_total (a b : spec_float) :
  SFeqb a a = true -> SFeqb b b = true ->
  SFltb a b = false -> SFleb b a = true.
Proof.
  unfold SFleb, SFeqb, SFltb.
  destruct a as [sa|sa| |sa ma ea], b as [sb|sb| |sb mb eb];
    cbn [SFcompare]; try discriminate; try reflexivity;
    change (Pos.compare_cont Eq ?a ?b) with (Pos.compare a b);
    intros _ _;
    repeat match goal with s : bool |- _ => destruct s end;
    try discriminate; try reflexivity;
    destruct (Z.compare_spec ea eb), (Z.compare_spec eb ea); try lia;
    try discriminate; try reflexivity;
    destruct (Pos.compare_spec ma mb), (Pos.compare_spec mb ma); try lia;
    cbn [CompOpp]; try discriminate; try reflexivity.
Qed.

Lemma SFeqb_refl_number (a : spec_float) :
  a <> S754_nan -> SFeqb a a = true.
Proof.
  unfold SFeqb. destruct a as [sa|sa| |sa ma ea]; cbn [SFcompare];
    try (destruct sa; reflexivity); [congruence|].
  change (Pos.compare_cont Eq ?a ?b) with (Pos.compare a b).
  rewrite Z.compare_refl, Pos.compare_refl. destruct sa; reflexivity.
Qed.

Lemma SFleb_number (a b : spec_float) :
  SFleb a b = true -> SFeqb a a = true /\ SFeqb b b = true.
Proof.
  intros H. split; apply SFeqb_refl_number; intros ->; revert H; unfold SFleb;
    [|destruct a]; cbn [SFcompare]; discriminate.
Qed.

Lemma fle_trans (x y z : float) :
  (x <=? y) = true -> (y <=? z) = true -> (x <=? z) = true.
Proof. rewrite !FloatAxioms.leb_spec. apply SFleb_trans. Qed.

Lemma fle_antisym (x y : float) :
  (x <=? y) = true -> (y <=? x) = true -> (x =? y) = true.
Proof.
  rewrite !FloatAxioms.leb_spec, FloatAxioms.eqb_spec. apply SFleb_antisym.
Qed.

Lemma feq_fle (x y : float) :
  (x =? y) = true -> (x <=? y) = true /\ (y <=? x) = true.
Proof.
  rewrite !FloatAxioms.leb_spec, FloatAxioms.eqb_spec. apply SFeqb_leb.
Qed.

Lemma flt_fle (x y : float) : (x <? y) = true -> (x <=? y) = true.
Proof.
  rewrite FloatAxioms.leb_spec, FloatAxioms.ltb_spec. apply SFltb_leb.
Qed.

Lemma is_nan_false (x : float) : is_nan x = false <-> (x =? x) = true.
Proof. unfold is_nan. destruct (x =? x); cbn; intuition congruence. Qed.

Lemma fle_refl (x : float) : is_nan x = false -> (x <=? x) = true.
Proof. intros H. apply is_nan_false in H. now apply feq_fle. Qed.

Lemma fle_total (x y : float) :
  is_nan x = false -> is_nan y = false ->
  (x <? y) = false -> (y <=? x) = true.
Proof.
  rewrite !is_nan_false, FloatAxioms.leb_spec, FloatAxioms.ltb_spec,
    !FloatAxioms.eqb_spec.
  apply SFleb_total.
Qed.

Lemma fle_number (x y : float) :
  (x <=? y) = true -> is_nan x = false /\ is_nan y = false.
Proof.
  rewrite !is_nan_false, FloatAxioms.leb_spec, !FloatAxioms.eqb_spec.
  apply SFleb_number.
Qed.

(** [Math.max] is an upper bound of its arguments and [Math.min] a lower
    bound, whenever they are numbers. *)
Lemma max2_upper (a x : float) :
  is_nan (JS.max2 a x) = false ->
  (a <=? JS.max2 a x) = true /\ (x <=? JS.max2 a x) = true.
Proof.
  unfold JS.max2.
  destruct (is_nan a) eqn:Ha; [discriminate|].
  destruct (is_nan x) eqn:Hx; [discriminate|]. cbn [orb].
  destruct (x =? a) eqn:E.
  - destruct (feq_fle _ _ E) as [H1 H2].
    destruct (JS.is_neg_zero a); intros _; split; auto using fle_refl.
  - destruct (a <? x) eqn:L; intros _; split;
      auto using fle_refl, flt_fle, fle_total.
Qed.

Lemma min2_lower (a x : float) :
  is_nan (JS.min2 a x) = false ->
  (JS.min2 a x <=? a) = true /\ (JS.min2 a x <=? x) = true.
Proof.
  unfold JS.min2.
  destruct (is_nan a) eqn:Ha; [discriminate|].
  destruct (is_nan x) eqn:Hx; [discriminate|]. cbn [orb].
  destruct (x =? a) eqn:E.
  - destruct (feq_fle _ _ E) as [H1 H2].
    destruct (JS.is_neg_zero x); intros _; split; auto using fle_refl.
  - destruct (x <? a) eqn:L; intros _; split;
      auto using fle_refl, flt_fle, fle_total.
Qed.

Lemma fold_max2_upper (l : list float) :
  forall acc,
    is_nan (fold_left JS.max2 l acc) = false ->
    (acc <=? fold_left JS.max2 l acc) = true
    /\ forall x, In x l -> (x <=? fold_left JS.max2 l acc) = true.
Proof.
  induction l as [|a l IH]; intros acc Hn; cbn [fold_left] in *.
  - split; [now apply fle_refl|intros x []].
  - destruct (IH _ Hn) as [Hm Hl].
    destruct (max2_upper acc a (proj1 (fle_number _ _ Hm))) as [H1 H2].
    split; [eauto using fle_trans|].
    intros x [<-|Hin]; eauto using fle_trans.
Qed.

Lemma fold_min2_lower (l : list float) :
  forall acc,
    is_nan (fold_left JS.min2 l acc) = false ->
    (fold_left JS.min2 l acc <=? acc) = true
    /\ forall x, In x l -> (fold_left JS.min2 l acc <=? x) = true.
Proof.
  induction l as [|a l IH]; intros acc Hn; cbn [fold_left] in *.
  - split; [now apply fle_refl|intros x []].
  - destruct (IH _ Hn) as [Hm Hl].
    destruct (min2_lower acc a (proj2 (fle_number _ _ Hm))) as [H1 H2].
    split; [eauto using fle_trans|].
    intros x [<-|Hin]; eauto using fle_trans.
Qed.

Lemma Math_max_upper (xs : list float) (x : float) :
  is_nan (JS.Math_max xs) = false -> In x xs -> (x <=? JS.Math_max xs) = true.
Proof. intros Hn. now apply fold_max2_upper. Qed.

Lemma Math_min_lower (xs : list float) (x : float) :
  is_nan (JS.Math_min xs) = false -> In x xs -> (JS.Math_min xs <=? x) = true.
Proof. intros Hn. now apply fold_min2_lower. Qed.

(** The last element of an array is in each of its non-empty trailing
    slices. *)
Lemma last_in_slice_last (n : nat) (xs : list float) (x : float) :
  In x (JS.slice_last (S n) (xs ++ [x])).
Proof.
  unfold JS.slice_last. rewrite length_app. cbn [length].
  rewrite skipn_app. apply in_or_app. right.
  replace (length xs + 1 - S n - length xs)%nat with 0%nat by lia.
  now left.
Qed.

(** ** The stochastic oscillator on a window of zero range *)

(** 0/0: when the window has zero range and the close sits on its level,
    the quotient is NaN. *)
Lemma stochastic_on_level (c h l : float) :
  (h =? l) = true -> (c =? l) = true -> (c - l) / (h - l) * 100 = nan.
Proof.
  intros Hh Hc. apply float_is_nan.
  rewrite FloatAxioms.mul_spec, FloatAxioms.div_spec.
  rewrite SFdiv_zero_or_nan_by_zero_or_nan; [reflexivity| |];
    rewrite FloatAxioms.sub_spec; apply SFsub_of_equal;
    now rewrite <- FloatAxioms.eqb_spec.
Qed.

(** With consistent bars, a window of zero range pins the last close to
    its level: close <= high <= highest = lowest <= low <= close. *)
Lemma consistent_close_on_level (marketData : list MarketData) :
  marketData <> [] ->
  Forall consistent marketData ->
  let highestHigh := JS.Math_max (JS.slice_last 14 (map high marketData)) in
  let lowestLow := JS.Math_min (JS.slice_last 14 (map low marketData)) in
  (highestHigh =? lowestLow) = true ->
  (JS.last_elt (map price marketData) =? lowestLow) = true.
Proof.
  intros Hne Hall.
  destruct (exists_last Hne) as [bars [bar ->]].
  assert (Hbar : consistent bar).
  { rewrite Forall_forall in Hall. apply Hall, in_or_app. right. now left. }
  destruct Hbar as [Hlo Hhi].
  cbv zeta. rewrite !map_app. cbn [map].
  set (H := JS.Math_max _). set (L := JS.Math_min _). intros Heq.
  unfold JS.last_elt. rewrite last_last.
  destruct (feq_fle _ _ Heq) as [HL _].
  destruct (fle_number _ _ HL) as [HnH HnL].
  assert (H1 : (high bar <=? H) = true)
    by (apply Math_max_upper; [exact HnH|apply last_in_slice_last]).
  assert (H2 : (L <=? low bar) = true)
    by (apply Math_min_lower; [exact HnL|apply last_in_slice_last]).
  apply fle_antisym; eauto using fle_trans.
Qed.

(** C9, as the engine computes it.  With at least 14 closes and a trailing
    window whose highest high equals its lowest low, the unguarded division
    makes %K (and %D, which is the same number) NaN or an infinity: never a
    value of [[0, 100]], never the neutral 50.  It is NaN whenever the last
    close sits on that level; this is the case of every series of consistent
    bars, the arrays [calculateTechnicalIndicators] passes, and so of a flat
    series. *)
Theorem calculateStochastic_zero_range :
  forall highs lows closes : list float,
    (14 <= length closes)%nat ->
    let highestHigh := JS.Math_max (JS.slice_last 14 highs) in
    let lowestLow := JS.Math_min (JS.slice_last 14 lows) in
    (highestHigh =? lowestLow) = true ->
    let s := calculateStochastic highs lows closes 14 in
    d s = k s
    /\ (k s = nan \/ k s = infinity \/ k s = neg_infinity)
    /\ (0 <=? k s) && (k s <=? 100) = false
    /\ ((JS.last_elt closes =? lowestLow) = true -> k s = nan)
    /\ (forall marketData : list MarketData,
          Forall consistent marketData ->
          highs = map high marketData ->
          lows = map low marketData ->
          closes = map price marketData ->
          k s = nan).
Proof.
  intros highs lows closes Hlen highestHigh lowestLow Heq s.
  assert (Hs : s = {| k := ((JS.last_elt closes - lowestLow)
                            / (highestHigh - lowestLow)) * 100;
                      d := ((JS.last_elt closes - lowestLow)
                            / (highestHigh - lowestLow)) * 100 |}).
  { subst s. unfold calculateStochastic.
    destruct (length closes <? 14)%nat eqn:E; [|reflexivity].
    apply Nat.ltb_lt in E. lia. }
  rewrite Hs. cbn [k d]. clear Hs s.
  set (c := JS.last_elt closes).
  assert (Hden : SF_zero_or_nan (Prim2SF (highestHigh - lowestLow))).
  { rewrite FloatAxioms.sub_spec. apply SFsub_of_equal. now rewrite <- FloatAxioms.eqb_spec. }
  assert (Hk : SF_inf_or_nan
                 (Prim2SF ((c - lowestLow) / (highestHigh - lowestLow) * 100))).
  { rewrite FloatAxioms.mul_spec, FloatAxioms.div_spec. apply SFmul_inf_or_nan_100.
    now apply SFdiv_by_zero_or_nan. }
  apply float_inf_or_nan in Hk.
  split; [reflexivity|]. split; [exact Hk|].
  split; [destruct Hk as [-> | [-> | ->]]; reflexivity|].
  split.
  - intros Hc. now apply stochastic_on_level.
  - intros marketData Hall Hh Hl Hc.
    apply stochastic_on_level; [exact Heq|].
    subst c highestHigh lowestLow. subst highs lows closes.
    apply consistent_close_on_level; [|exact Hall|exact Heq].
    intros ->. cbn in Hlen. lia.
Qed.

(** The flat series: fourteen bars at 1.1 give NaN. *)
Lemma calculateStochastic_zero_range_witness :
  k (calculateStochastic (repeat 1.1 14) (repeat 1.1 14) (repeat 1.1 14) 14) = nan.
Proof.
  assert (Hlen : (14 <= length (repeat 1.1%float 14))%nat)
    by (vm_compute; apply Nat.le_refl).
  assert (Heq : (JS.Math_max (JS.slice_last 14 (repeat 1.1 14))
                 =? JS.Math_min (JS.slice_last 14 (repeat 1.1 14))) = true)
    by (vm_compute; reflexivity).
  refine (proj1 (proj2 (proj2 (proj2
            (calculateStochastic_zero_range
               (repeat 1.1 14) (repeat 1.1 14) (repeat 1.1 14) Hlen Heq)))) _).
  vm_compute. reflexivity.
Defined.

(** Highs and lows all at 1, last close at 2: the window has zero range
    and %K is [+Infinity], which is not NaN. *)
Lemma calculateStochastic_infinite_not_nan :
  let highs := repeat 1 14 in
  let lows := repeat 1 14 in
  let closes := repeat 2 14 in
  (14 <=? length closes)%nat = true
  /\ (JS.Math_max (JS.slice_last 14 highs)
      =? JS.Math_min (JS.slice_last 14 lows)) = true
  /\ k (calculateStochastic highs lows closes 14) = infinity
  /\ is_nan (k (calculateStochastic highs lows closes 14)) = false.
Proof. vm_compute. repeat split; reflexivity. Qed.

(** ** Finite doubles *)

Lemma finite_shape (v : float) : is_finite v = true -> SF_is_finite (Prim2SF v).
Proof.
  unfold is_finite, is_nan, is_infinity.
  rewrite !FloatAxioms.eqb_spec, abs_spec.
  destruct (Prim2SF v) as [s|s| |s m e]; try (intros; constructor).
  - intros H. destruct s; discriminate H.
  - intros H. discriminate H.
Qed.

(** x / x = 1 for a finite non-zero x *)
Lemma SFdiv_self (s : bool) (m : positive) (e : Z) :
  SF64div (S754_finite s m e) (S754_finite s m e) = Prim2SF 1.
Proof.
  unfold SF64div. cbn [SFdiv]. unfold SFdiv_core_binary.
  replace (Zdigits2 (Z.pos m) + e - (Zdigits2 (Z.pos m) + e))%Z with 0%Z by lia.
  rewrite Z.sub_diag.
  change (Z.min (fexp prec emax 0) 0) with (-53)%Z.
  change (0 - -53)%Z with 53%Z. cbv beta iota zeta.
  rewrite (surjective_pairing (Z.div_eucl _ _)).
  change (fst (Z.div_eucl ?a ?b)) with (Z.div a b).
  change (snd (Z.div_eucl ?a ?b)) with (Z.modulo a b).
  rewrite Z.shiftl_mul_pow2 by lia.
  rewrite (Z.mul_comm (Z.pos m)).
  rewrite Z.div_mul, Z.mod_mul by lia.
  replace (new_location (Z.pos m) 0) with loc_Exact
    by (unfold new_location; destruct (Z.even (Z.pos m)); reflexivity).
  rewrite xorb_nilpotent. vm_compute. reflexivity.
Qed.

Lemma SFsub_self_finite (x : spec_float) :
  SF_is_finite x -> SF64sub x x = S754_zero false.
Proof.
  intros [s|s m e]; unfold SF64sub; cbn [SFsub].
  - destruct s; reflexivity.
  - rewrite Z.sub_diag. reflexivity.
Qed.

(** A finite difference has finite operands. *)
Lemma SFsub_finite_inv (a b : spec_float) :
  SF_is_finite (SF64sub a b) -> SF_is_finite a /\ SF_is_finite b.
Proof.
  destruct a as [sa|sa| |sa ma ea], b as [sb|sb| |sb mb eb];
    unfold SF64sub; cbn [SFsub]; intros H;
    try (split; constructor); try (inversion H; fail);
    try (destruct sa, sb; inversion H; fail).
Qed.

Lemma positive_finite_shape (r : float) :
  (0 <? r) = true -> (r <? infinity) = true ->
  exists m e, Prim2SF r = S754_finite false m e.
Proof.
  rewrite !FloatAxioms.ltb_spec.
  change (Prim2SF 0) with (S754_zero false).
  change (Prim2SF infinity) with (S754_infinity false).
  destruct (Prim2SF r) as [s|s| |s m e]; unfold SFltb; cbn [SFcompare];
    try discriminate.
  - destruct s; discriminate.
  - destruct s; [discriminate|]. intros _ _. eauto.
Qed.

Lemma div_self (r : float) :
  (0 <? r) = true -> (r <? infinity) = true -> r / r = 1.
Proof.
  intros H0 Hinf. destruct (positive_finite_shape r H0 Hinf) as (m & e & Hr).
  apply Prim2SF_inj. rewrite div_spec, Hr. apply SFdiv_self.
Qed.

Lemma sub_self (v : float) : SF_is_finite (Prim2SF v) -> v - v = 0.
Proof.
  intros H. apply Prim2SF_inj. rewrite sub_spec.
  now rewrite SFsub_self_finite.
Qed.

Lemma zero_div (r : float) :
  (0 <? r) = true -> (r <? infinity) = true -> 0 / r = 0.
Proof.
  intros H0 Hinf. destruct (positive_finite_shape r H0 Hinf) as (m & e & Hr).
  apply Prim2SF_inj. rewrite div_spec, Hr. reflexivity.
Qed.

Lemma max2_cases (a x : float) :
  JS.max2 a x = nan \/ JS.max2 a x = a \/ JS.max2 a x = x.
Proof.
  unfold JS.max2.
  destruct (is_nan a || is_nan x); [now left|].
  destruct (x =? a); [destruct (JS.is_neg_zero a); auto|].
  destruct (a <? x); auto.
Qed.

Lemma min2_cases (a x : float) :
  JS.min2 a x = nan \/ JS.min2 a x = a \/ JS.min2 a x = x.
Proof.
  unfold JS.min2.
  destruct (is_nan a || is_nan x); [now left|].
  destruct (x =? a); [destruct (JS.is_neg_zero x); auto|].
  destruct (x <? a); auto.
Qed.

Lemma fold_pick_cases (f : float -> float -> float) :
  (forall a x, f a x = nan \/ f a x = a \/ f a x = x) ->
  forall (l : list float) (acc : float),
    fold_left f l acc = nan \/ fold_left f l acc = acc
    \/ In (fold_left f l acc) l.
Proof.
  intros Hf. induction l as [|x l IH]; intros acc; cbn [fold_left].
  - right. left. reflexivity.
  - destruct (IH (f acc x)) as [H|[H|H]].
    + now left.
    + rewrite H. destruct (Hf acc x) as [E|[E|E]]; rewrite E.
      * rewrite <- E, <- H. now left. 
      * right. now left.
      * right. right. now left.
    + right. right. now right.
Qed.

Lemma not_finite_nan : ~ SF_is_finite (Prim2SF nan).
Proof. intros H. inversion H. Qed.
Lemma not_finite_inf : ~ SF_is_finite (Prim2SF infinity).
Proof. intros H. inversion H. Qed.
Lemma not_finite_neg_inf : ~ SF_is_finite (Prim2SF neg_infinity).
Proof. intros H. inversion H. Qed.

Lemma Math_max_in (data : list float) :
  SF_is_finite (Prim2SF (JS.Math_max data)) -> In (JS.Math_max data) data.
Proof.
  intros Hfin. unfold JS.Math_max in *.
  destruct (fold_pick_cases JS.max2 max2_cases data neg_infinity) as [H|[H|H]].
  - rewrite H in Hfin. now apply not_finite_nan in Hfin.
  - rewrite H in Hfin. now apply not_finite_neg_inf in Hfin.
  - exact H.
Qed.

Lemma Math_min_in (data : list float) :
  SF_is_finite (Prim2SF (JS.Math_min data)) -> In (JS.Math_min data) data.
Proof.
  intros Hfin. unfold JS.Math_min in *.
  destruct (fold_pick_cases JS.min2 min2_cases data infinity) as [H|[H|H]].
  - rewrite H in Hfin. now apply not_finite_nan in Hfin.
  - rewrite H in Hfin. now apply not_finite_inf in Hfin.
  - exact H.
Qed.

Lemma finite_not_nan (v : float) : SF_is_finite (Prim2SF v) -> is_nan v = false.
Proof.
  intros H. unfold is_nan. rewrite FloatAxioms.eqb_spec.
  destruct H as [s|s m e]; unfold SFeqb; cbn [SFcompare]; [reflexivity|].
  rewrite Z.compare_refl.
  change (Pos.compare_cont Eq m m) with (Pos.compare m m).
  rewrite Pos.compare_refl. destruct s; reflexivity.
Qed.

Lemma max2_same (v : float) : is_nan v = false -> JS.max2 v v = v.
Proof.
  intros Hn. unfold JS.max2. rewrite Hn. cbn [orb].
  unfold is_nan in Hn. apply negb_false_iff in Hn. rewrite Hn.
  destruct (JS.is_neg_zero v); reflexivity.
Qed.

Lemma min2_same (v : float) : is_nan v = false -> JS.min2 v v = v.
Proof.
  intros Hn. unfold JS.min2. rewrite Hn. cbn [orb].
  unfold is_nan in Hn. apply negb_false_iff in Hn. rewrite Hn.
  destruct (JS.is_neg_zero v); reflexivity.
Qed.

Lemma max2_first (v : float) :
  SF_is_finite (Prim2SF v) -> JS.max2 neg_infinity v = v.
Proof.
  intros H. unfold JS.max2. rewrite (finite_not_nan v H).
  change (is_nan neg_infinity) with false. cbn [orb].
  rewrite FloatAxioms.eqb_spec, FloatAxioms.ltb_spec.
  change (Prim2SF neg_infinity) with (S754_infinity true).
  destruct H as [s|s m e]; reflexivity.
Qed.

Lemma min2_first (v : float) :
  SF_is_finite (Prim2SF v) -> JS.min2 infinity v = v.
Proof.
  intros H. unfold JS.min2. rewrite (finite_not_nan v H).
  change (is_nan infinity) with false. cbn [orb].
  rewrite FloatAxioms.eqb_spec, FloatAxioms.ltb_spec.
  change (Prim2SF infinity) with (S754_infinity false).
  destruct H as [s|s m e]; reflexivity.
Qed.

Lemma fold_same (f : float -> float -> float) (v : float) (l : list float) :
  f v v = v -> Forall (eq v) l -> fold_left f l v = v.
Proof.
  intros Hf. induction 1 as [|x l <- _ IH]; cbn [fold_left]; [reflexivity|].
  now rewrite Hf.
Qed.

Lemma Math_max_all_equal (v : float) (data : list float) :
  data <> [] -> Forall (eq v) data -> SF_is_finite (Prim2SF v) ->
  JS.Math_max data = v.
Proof.
  intros Hne Hall Hfin. destruct Hall as [|x l <- Hl]; [contradiction|].
  unfold JS.Math_max. cbn [fold_left]. rewrite (max2_first v Hfin).
  apply fold_same; [|exact Hl]. apply max2_same. now apply finite_not_nan.
Qed.

Lemma Math_min_all_equal (v : float) (data : list float) :
  data <> [] -> Forall (eq v) data -> SF_is_finite (Prim2SF v) ->
  JS.Math_min data = v.
Proof.
  intros Hne Hall Hfin. destruct Hall as [|x l <- Hl]; [contradiction|].
  unfold JS.Math_min. cbn [fold_left]. rewrite (min2_first v Hfin).
  apply fold_same; [|exact Hl]. apply min2_same. now apply finite_not_nan.
Qed.

Lemma positive_not_zero (r : float) :
  (0 <? r) = true -> (r =? 0) = false.
Proof.
  rewrite FloatAxioms.ltb_spec, FloatAxioms.eqb_spec.
  change (Prim2SF 0) with (S754_zero false).
  destruct (Prim2SF r) as [s|s| |s m e]; unfold SFltb, SFeqb; cbn [SFcompare];
    try discriminate; try reflexivity; destruct s; try discriminate; reflexivity.
Qed.

(** ** Min-max normalisation *)

(** C8, as doubles allow it.  When the range [max - min] is positive and
    finite, the vector contains its maximum and its minimum, the maximum is
    mapped to 1.0 and the minimum to 0.0.  When all elements are one and
    the same finite number, every element is mapped to 0.5. *)
Theorem normalizeData_min_max :
  forall data : list float,
    let min := JS.Math_min data in
    let max := JS.Math_max data in
    let range := max - min in
    ((0 <? range) = true -> (range <? infinity) = true ->
     In max data /\ In min data
     /\ forall i value,
         nth_error data i = Some value ->
         (value = max -> nth_error (normalizeData data) i = Some 1)
         /\ (value = min -> nth_error (normalizeData data) i = Some 0))
    /\ (forall v,
           data <> [] -> Forall (eq v) data -> is_finite v = true ->
           normalizeData data = map (fun _ => 0.5) data).
Proof.
  intros data min max range. split.
  - intros Hpos Hfin.
    destruct (positive_finite_shape range Hpos Hfin) as (m & e & Hr).
    assert (Hops : SF_is_finite (Prim2SF max) /\ SF_is_finite (Prim2SF min)).
    { apply SFsub_finite_inv. change (SF64sub (Prim2SF max) (Prim2SF min))
        with (SFsub prec emax (Prim2SF max) (Prim2SF min)).
      rewrite <- sub_spec. fold range. rewrite Hr. constructor. }
    destruct Hops as [Hmax Hmin].
    split; [now apply Math_max_in|]. split; [now apply Math_min_in|].
    intros i value Hi. unfold normalizeData. fold min max range.
    rewrite (positive_not_zero range Hpos).
    rewrite nth_error_map, Hi. cbn [option_map].
    split; intros ->.
    + fold range. now rewrite div_self.
    + rewrite (sub_self min Hmin). now rewrite zero_div.
  - intros v Hne Hall Hv. apply finite_shape in Hv.
    unfold normalizeData.
    rewrite (Math_max_all_equal v data Hne Hall Hv).
    rewrite (Math_min_all_equal v data Hne Hall Hv).
    rewrite (sub_self v Hv). reflexivity.
Qed.

Lemma normalizeData_min_max_witness :
  normalizeData [3; 1; 2] = [1; 0; 0.5]
  /\ nth_error (normalizeData [3; 1; 2]) 0 = Some 1
  /\ nth_error (normalizeData [3; 1; 2]) 1 = Some 0
  /\ normalizeData [7; 7] = [0.5; 0.5].
Proof.
  pose proof (normalizeData_min_max [3; 1; 2]) as [H _].
  pose proof (normalizeData_min_max [7; 7]) as [_ H7].
  cbv zeta in H, H7.
  specialize (H eq_refl eq_refl). destruct H as (_ & _ & H).
  split; [vm_compute; reflexivity|].
  split; [exact (proj1 (H 0%nat 3 eq_refl) eq_refl)|].
  split; [exact (proj2 (H 1%nat 1 eq_refl) eq_refl)|].
  apply (H7 7); [discriminate|repeat constructor|reflexivity].
Defined.

(** A range that overflows: the maximum of [[1e308; -1e308]] is mapped to
    NaN although [max - min] is positive.  And a vector whose elements are
    all [Infinity] is mapped to NaN, not to 0.5. *)
Lemma normalizeData_overflow :
  let data := [1e308; -1e308] in
  (0 <? JS.Math_max data - JS.Math_min data) = true
  /\ nth_error data 0 = Some (JS.Math_max data)
  /\ nth_error (normalizeData data) 0 = Some nan
  /\ normalizeData [infinity; infinity] = [nan; nan].
Proof. vm_compute. repeat split; reflexivity. Qed.

(** ** Saving and loading a model: the round trip *)

Lemma ToNumber_JSON_number (x : float) :
  json_exact x -> ToNumber (JSON_number x) = x.
Proof. unfold json_exact. now intros ->. Qed.

Lemma parse_stringify_row (row : list float) :
  Forall json_exact row -> map ToNumber (map JSON_number row) = row.
Proof.
  induction 1 as [|x row Hx _ IH]; cbn [map]; [reflexivity|].
  now rewrite ToNumber_JSON_number, IH.
Qed.

Lemma parse_stringify_rows (rows : list (list float)) :
  Forall (Forall json_exact) rows ->
  map (map ToNumber) (map (map JSON_number) rows) = rows.
Proof.
  induction 1 as [|row rows Hrow _ IH]; cbn [map]; [reflexivity|].
  now rewrite parse_stringify_row, IH.
Qed.

Lemma parse_stringify_metrics (t : TrainingMetrics) :
  metrics_exact t -> parse_metrics (stringify_metrics t) = t.
Proof.
  intros (Hl & Ha & Hvl & Hva & Hlr). destruct t.
  unfold parse_metrics, stringify_metrics. cbn in *.
  now rewrite !ToNumber_JSON_number.
Qed.

Lemma parse_stringify_history (h : list TrainingMetrics) :
  Forall metrics_exact h -> map parse_metrics (map stringify_metrics h) = h.
Proof.
  induction 1 as [|t h Ht _ IH]; cbn [map]; [reflexivity|].
  now rewrite parse_stringify_metrics, IH.
Qed.

Lemma parse_stringify_architecture (a : ModelArchitecture) :
  json_exact (learningRate a) ->
  parse_architecture (stringify_architecture a) = a.
Proof.
  intros H. destruct a. unfold parse_architecture, stringify_architecture.
  cbn in *. now rewrite ToNumber_JSON_number.
Qed.

(** C5, for the models JSON can carry.  If every number of the model
    (weights, biases, learning rate, history) is finite and not [-0] and
    the store accepts the write and the read, then [saveModel] followed by
    [loadModel] on a model object of the same symbol reports [true] and
    restores architecture, weights, biases and training history exactly, so
    that [predict] returns what it returned before, on every feature
    vector. *)
Theorem save_load_round_trip :
  forall (Math_exp Math_tanh : float -> float)
         (m target : MLModelTraining) (now : float) (st : AsyncStorage)
         (features : list float),
    storable m ->
    writeFails st = false ->
    readFails st = false ->
    m_symbol target = m_symbol m ->
    let st' := saveModel m now st in
    let loaded := snd (loadModel target st') in
    fst (loadModel target st') = true
    /\ architecture loaded = architecture m
    /\ weights loaded = weights m
    /\ biases loaded = biases m
    /\ trainingHistory loaded = trainingHistory m
    /\ predict Math_exp Math_tanh loaded features
       = predict Math_exp Math_tanh m features.
Proof.
  intros Math_exp Math_tanh m target now st features
         (Hlr & Hw & Hb & Hh) Hwrite Hread Hsym st' loaded.
  assert (Hload : loadModel target st' = (true, m)).
  { subst st'. unfold saveModel, loadModel, setItem, getItem.
    rewrite Hwrite. cbn [readFails items]. rewrite Hread, Hsym.
    rewrite string_eqb_refl. cbn [md_architecture md_weights md_biases
                                    md_trainingHistory].
    rewrite (parse_stringify_architecture _ Hlr),
            (parse_stringify_rows _ Hw), (parse_stringify_rows _ Hb),
            (parse_stringify_history _ Hh).
    destruct m; reflexivity. }
  subst loaded. rewrite Hload. cbn [fst snd]. repeat split; reflexivity.
Qed.

Lemma save_load_round_trip_witness :
  storable smallModel
  /\ weights (snd (loadModel smallModel
                     (saveModel smallModel 1700000000000 emptyStorage)))
     = weights smallModel.
Proof.
  assert (Hs : storable smallModel).
  { unfold storable, metrics_exact, json_exact.
    repeat split; repeat constructor. }
  split; [exact Hs|].
  exact (proj1 (proj2 (proj2
           (save_load_round_trip (fun x => x) (fun x => x)
              smallModel smallModel 1700000000000 emptyStorage [1; 2]
              Hs eq_refl eq_refl eq_refl)))).
Defined.

(** The weight is not restored: it comes back as [null], which counts as 0
    where the NaN was. *)
Lemma save_load_loses_nan :
  let st' := saveModel nanModel 1700000000000 emptyStorage in
  items st' (model_key "EURUSD")
  = Some (BlobModel
            {| md_architecture := stringify_architecture (architecture nanModel);
               md_weights := [[None]]; md_biases := [[Some 0]];
               md_trainingHistory := []; md_timestamp := Some 1700000000000 |})
  /\ fst (loadModel nanModel st') = true
  /\ weights (snd (loadModel nanModel st')) = [[0]]
  /\ weights nanModel = [[nan]]
  /\ (0 =? 0) = true /\ (nan =? nan) = false.
Proof. vm_compute. repeat split; reflexivity. Qed.

(** And the prediction changes: NaN before, 0.5 after (on a runtime whose
    [Math.exp] maps NaN to NaN and a zero to 1, as ECMAScript requires). *)
Lemma save_load_changes_prediction (Math_exp Math_tanh : float -> float) :
  Math_exp nan = nan ->
  Math_exp (-0) = 1 ->
  let loaded :=
    snd (loadModel nanModel (saveModel nanModel 1700000000000 emptyStorage)) in
  predict Math_exp Math_tanh nanModel [1] = Some nan
  /\ predict Math_exp Math_tanh loaded [1] = Some 0.5.
Proof.
  intros Hnan Hzero loaded. split.
  - assert (H : predict Math_exp Math_tanh nanModel [1]
                = Some (1 / (1 + Math_exp nan))) by (vm_compute; reflexivity).
    rewrite H, Hnan. reflexivity.
  - assert (H : predict Math_exp Math_tanh loaded [1]
                = Some (1 / (1 + Math_exp (-0)))) by (vm_compute; reflexivity).
    rewrite H, Hzero. reflexivity.
Qed.

(** ** The relative strength index *)

Lemma calculateRSI_short (prices : list float) :
  (length prices < 15)%nat -> calculateRSI prices 14 = 50.
Proof.
  intros H. unfold calculateRSI.
  replace (length prices <? 14 + 1)%nat with true
    by (symmetry; apply Nat.ltb_lt; lia).
  reflexivity.
Qed.

Lemma calculateRSI_no_loss (prices : list float) :
  (15 <= length prices)%nat ->
  (snd (rsi_averages prices 14) =? 0) = true ->
  calculateRSI prices 14 = 100.
Proof.
  intros H Hz. unfold calculateRSI.
  replace (length prices <? 14 + 1)%nat with false
    by (symmetry; apply Nat.ltb_ge; lia).
  destruct (rsi_averages prices 14) as [avgGain avgLoss]. cbn [snd] in Hz.
  rewrite Hz. reflexivity.
Qed.

(** Each step of a strictly increasing series tests as a rise: the
    difference of two doubles in strict order is positive, it never rounds
    to zero. *)
Lemma flt_sub_pos (a b : float) : (a <? b) = true -> (0 <? b - a) = true.
Proof.
  rewrite !FloatAxioms.ltb_spec, FloatAxioms.sub_spec.
  change (Prim2SF 0) with (S754_zero false).
  apply SFsub_of_lt; apply Prim2SF_valid.
Qed.

Lemma seed_no_loss (prices : list float) (l : list nat) :
  rising prices ->
  Forall (fun i => (1 <= i < length prices)%nat) l ->
  forall acc, snd acc = 0 -> snd (fold_left (rsi_seed_step prices) l acc) = 0.
Proof.
  intros Hr. induction 1 as [|i l Hi _ IH]; intros acc Hacc; cbn [fold_left].
  - exact Hacc.
  - apply IH. destruct acc as [gains losses]. cbn [snd] in Hacc. subst losses.
    unfold rsi_seed_step, JS.gtb. now rewrite (flt_sub_pos _ _ (Hr i Hi)).
Qed.

Lemma smooth_no_loss (prices : list float) (l : list nat) :
  rising prices ->
  Forall (fun i => (1 <= i < length prices)%nat) l ->
  forall acc, snd acc = 0 ->
              snd (fold_left (rsi_smooth_step prices 14) l acc) = 0.
Proof.
  intros Hr. induction 1 as [|i l Hi _ IH]; intros acc Hacc; cbn [fold_left].
  - exact Hacc.
  - apply IH. destruct acc as [avgGain avgLoss]. cbn [snd] in Hacc. subst avgLoss.
    unfold rsi_smooth_step. cbn [snd].
    rewrite (flt_asym _ _ (flt_sub_pos _ _ (Hr i Hi))). vm_compute. reflexivity.
Qed.

Lemma calculateRSI_rising (prices : list float) :
  (15 <= length prices)%nat -> rising prices -> calculateRSI prices 14 = 100.
Proof.
  intros Hlen Hr. apply calculateRSI_no_loss; [exact Hlen|].
  unfold rsi_averages.
  assert (Hseed : snd (fold_left (rsi_seed_step prices) (seq 1 14) (0, 0)) = 0).
  { apply seed_no_loss; [exact Hr| |reflexivity].
    apply Forall_forall. intros i Hi. apply in_seq in Hi. lia. }
  destruct (fold_left (rsi_seed_step prices) (seq 1 14) (0, 0))
    as [gains losses].
  cbn [snd] in Hseed. subst losses.
  rewrite smooth_no_loss; [reflexivity|exact Hr| |].
  - apply Forall_forall. intros i Hi. apply in_seq in Hi. lia.
  - vm_compute. reflexivity.
Qed.

(** *** Constants *)

Local Open Scope R_scope.

Lemma Prim2SF_0 : Prim2SF 0 = S754_zero false.
Proof. reflexivity. Qed.

Lemma Prim2SF_13 : Prim2SF 13 = S754_finite false 7318349394477056 (-49).
Proof. reflexivity. Qed.

Lemma Prim2SF_14 : Prim2SF 14 = S754_finite false 7881299347898368 (-49).
Proof. reflexivity. Qed.

Lemma dyadic_of_13 : dyadic 7318349394477056 (-49) = 13.
Proof.
  change 7318349394477056%Z with (13 * 2 ^ 49)%Z. rewrite dyadic_shift by lia.
  unfold dyadic. cbn. lra.
Qed.

Lemma dyadic_of_14 : dyadic 7881299347898368 (-49) = 14.
Proof.
  change 7881299347898368%Z with (14 * 2 ^ 49)%Z. rewrite dyadic_shift by lia.
  unfold dyadic. cbn. lra.
Qed.

Lemma pow2_succ (k : Z) : pow2 (k + 1) = 2 * pow2 k.
Proof. rewrite pow2_add. change (pow2 1) with (2 * 1). ring. Qed.

(** The powers of two from 2^-1022 to 2^1023 are doubles, and so are 13 and
    14 times 2^1014. *)
Lemma is_double_pow2 (k : Z) : (-1022 <= k <= 1023)%Z -> is_double (pow2 k).
Proof.
  intros Hk. exists 4503599627370496%positive, (k - 52)%Z. split.
  - unfold canonical, SpecFloat.bounded, canonical_mantissa.
    change (Z.pos (digits2_pos 4503599627370496)) with 53%Z.
    rewrite andb_true_iff, Z.eqb_eq, Z.leb_le, fexp_eq.
    change (emax - prec)%Z with 971%Z. lia.
  - change 4503599627370496%Z with (1 * 2 ^ 52)%Z. rewrite dyadic_shift by lia.
    unfold dyadic. replace (k - 52 + 52)%Z with k by lia. lra.
Qed.

Lemma is_double_13 : is_double (13 * pow2 1014).
Proof.
  exists 7318349394477056%positive, 965%Z. split; [reflexivity|].
  change 7318349394477056%Z with (13 * 2 ^ 49)%Z. rewrite dyadic_shift by lia.
  reflexivity.
Qed.

Lemma is_double_14 : is_double (14 * pow2 1014).
Proof.
  exists 7881299347898368%positive, 965%Z. split; [reflexivity|].
  change 7881299347898368%Z with (14 * 2 ^ 49)%Z. rewrite dyadic_shift by lia.
  reflexivity.
Qed.

Local Open Scope float_scope.

(** *** The running averages are never negative

    Gains and losses are sums of magnitudes. *)

Lemma rsi_seed_step_not_negative
      (prices : list float) (acc : float * float) (i : nat) :
  not_negative2 acc -> not_negative2 (rsi_seed_step prices acc i).
Proof.
  destruct acc as [gains losses]. intros [Hg Hl]. cbn [fst snd] in *.
  unfold rsi_seed_step, JS.gtb.
  set (change := JS.get prices i - JS.get prices (i - 1)).
  destruct (0 <? change) eqn:E; rewrite FloatAxioms.ltb_spec, Prim2SF_0 in E;
    split; cbn [fst snd]; try assumption.
  - rewrite FloatAxioms.add_spec.
    apply not_negative_add; [exact Hg|now apply not_negative_of_pos].
  - rewrite FloatAxioms.sub_spec.
    apply not_negative_sub; [exact Hl|now apply not_positive_of_not_pos].
Qed.

Lemma rsi_smooth_step_not_negative
      (prices : list float) (acc : float * float) (i : nat) :
  not_negative2 acc -> not_negative2 (rsi_smooth_step prices 14 acc i).
Proof.
  destruct acc as [avgGain avgLoss]. intros [Hg Hl]. cbn [fst snd] in *.
  unfold rsi_smooth_step, JS.gtb.
  change (JS.ofnat (14 - 1)) with 13. change (JS.ofnat 14) with 14.
  set (change := JS.get prices i - JS.get prices (i - 1)).
  assert (H13 : not_negative (Prim2SF 13)) by exact I.
  assert (H14 : not_negative (Prim2SF 14)) by exact I.
  split; cbn [fst snd];
    rewrite FloatAxioms.div_spec, FloatAxioms.add_spec, FloatAxioms.mul_spec;
    (apply not_negative_div; [|exact H14|reflexivity]);
    (apply not_negative_add; [now apply not_negative_mul|]).
  - destruct (0 <? change) eqn:E; [|exact I].
    rewrite FloatAxioms.ltb_spec, Prim2SF_0 in E. now apply not_negative_of_pos.
  - destruct (change <? 0) eqn:E; [|exact I].
    rewrite FloatAxioms.ltb_spec, Prim2SF_0 in E. rewrite FloatAxioms.opp_spec.
    now apply not_negative_opp_of_neg.
Qed.

Lemma fold_not_negative (step : float * float -> nat -> float * float) :
  (forall acc i, not_negative2 acc -> not_negative2 (step acc i)) ->
  forall (l : list nat) (acc : float * float),
    not_negative2 acc -> not_negative2 (fold_left step l acc).
Proof.
  intros Hstep. induction l as [|i l IH]; intros acc Hacc; cbn [fold_left].
  - exact Hacc.
  - apply IH, Hstep, Hacc.
Qed.

Lemma rsi_averages_not_negative (prices : list float) :
  not_negative2 (rsi_averages prices 14).
Proof.
  unfold rsi_averages.
  pose proof (fold_not_negative (rsi_seed_step prices)
                (rsi_seed_step_not_negative prices) (seq 1 14) (0, 0)) as Hseed.
  destruct (fold_left (rsi_seed_step prices) (seq 1 14) (0, 0))
    as [gains losses].
  destruct Hseed as [Hg Hl]; [split; exact I|]. cbn [fst snd] in *.
  apply fold_not_negative; [apply rsi_smooth_step_not_negative|].
  change (JS.ofnat 14) with 14.
  split; cbn [fst snd]; rewrite FloatAxioms.div_spec; apply not_negative_div;
    auto; try exact I; reflexivity.
Qed.

(** *** The closing formula, [100 - 100 / (1 + rs)] *)

(** 1 + rs, for rs not negative: at least 1, [+Infinity], or NaN. *)
Lemma one_plus_not_negative (rs : float) :
  not_negative (Prim2SF rs) ->
  Prim2SF (1 + rs) = S754_nan
  \/ Prim2SF (1 + rs) = S754_infinity false
  \/ exists m e, Prim2SF (1 + rs) = S754_finite false m e
                 /\ (1 <= dyadic (Z.pos m) e)%R.
Proof.
  intros Hnn. rewrite FloatAxioms.add_spec, Prim2SF_1.
  destruct (Prim2SF rs) as [s|[|]| |[|] m e]; cbn [not_negative] in Hnn;
    try contradiction.
  - right. right. eexists _, _. split; [reflexivity|]. rewrite dyadic_of_1. lra.
  - right. left. reflexivity.
  - left. reflexivity.
  - right.
    destruct (SFadd_pos_lower 4503599627370496 m 4503599627370496 (-52) e (-52))
      as [H|[m' [e' [H Hv]]]].
    + reflexivity.
    + pose proof (dyadic_pos m e). lra.
    + left. exact H.
    + right. exists m', e'. split; [exact H|].
      rewrite dyadic_of_1 in Hv. exact Hv.
Qed.

(** It is NaN only when rs is. *)
Lemma one_plus_number (rs : float) :
  not_negative (Prim2SF rs) -> Prim2SF rs <> S754_nan ->
  Prim2SF (1 + rs) = S754_infinity false
  \/ exists m e, Prim2SF (1 + rs) = S754_finite false m e
                 /\ (1 <= dyadic (Z.pos m) e)%R.
Proof.
  intros Hnn Hn. destruct (one_plus_not_negative rs Hnn) as [H|H]; [|exact H].
  exfalso. revert H. rewrite FloatAxioms.add_spec, Prim2SF_1.
  destruct (Prim2SF rs) as [s|[|]| |[|] m e]; cbn [not_negative] in Hnn;
    try contradiction; try congruence; try discriminate.
  destruct (SFadd_pos_lower 4503599627370496 m 4503599627370496 (-52) e (-52))
    as [H|[m' [e' [H Hv]]]].
  - reflexivity.
  - rewrite dyadic_of_1. pose proof (dyadic_pos m e). lra.
  - rewrite H. discriminate.
  - rewrite H. discriminate.
Qed.

(** 100 / y, for y at least 1 or [+Infinity]: between 0 and 100. *)
Lemma hundred_over (y : float) :
  Prim2SF y = S754_infinity false
  \/ (exists m e, Prim2SF y = S754_finite false m e
                  /\ (1 <= dyadic (Z.pos m) e)%R) ->
  Prim2SF (100 / y) = S754_zero false
  \/ exists m e, Prim2SF (100 / y) = S754_finite false m e
                 /\ (dyadic (Z.pos m) e <= 100)%R.
Proof.
  rewrite FloatAxioms.div_spec, Prim2SF_100. intros [->|[m [e [-> Hv]]]].
  - left. reflexivity.
  - destruct (SFdiv_upper false false 7036874417766400 m 7036874417766400
                (-46) e (-46)) as [H|[m' [e' [H Hv']]]].
    + reflexivity.
    + rewrite dyadic_of_100.
      apply (Rmult_le_reg_r (dyadic (Z.pos m) e)); [lra|].
      unfold Rdiv. rewrite Rmult_assoc, Rinv_l by lra. lra.
    + left. exact H.
    + right. exists m', e'. split; [exact H|].
      rewrite dyadic_of_100 in Hv'. exact Hv'.
Qed.

(** 100 - z, for z between 0 and 100: between 0 and 100. *)
Lemma hundred_minus (z : float) :
  Prim2SF z = S754_zero false
  \/ (exists m e, Prim2SF z = S754_finite false m e
                  /\ (dyadic (Z.pos m) e <= 100)%R) ->
  Prim2SF (100 - z) = S754_zero false
  \/ exists m e, Prim2SF (100 - z) = S754_finite false m e
                 /\ (dyadic (Z.pos m) e <= 100)%R.
Proof.
  rewrite FloatAxioms.sub_spec, Prim2SF_100. intros [->|[m [e [-> Hv]]]].
  - right. eexists _, _. split; [reflexivity|]. rewrite dyadic_of_100. lra.
  - destruct (SFsub_pos_upper 7036874417766400 m 7036874417766400 (-46) e (-46))
      as [H|[m' [e' [H Hv']]]].
    + reflexivity.
    + rewrite dyadic_of_100. exact Hv.
    + lra.
    + left. exact H.
    + right. exists m', e'. split; [exact H|].
      rewrite dyadic_of_100 in Hv'. exact Hv'.
Qed.

Lemma in_range_of_shape (r : float) :
  Prim2SF r = S754_zero false
  \/ (exists m e, Prim2SF r = S754_finite false m e
                  /\ (dyadic (Z.pos m) e <= 100)%R) ->
  (0 <=? r) && (r <=? 100) = true.
Proof.
  intros H. apply (range_of_at_most _ _ _ _ Prim2SF_100).
  rewrite dyadic_of_100.
  destruct H as [->|[m [e [-> Hv]]]]; [exact I|exact Hv].
Qed.

Lemma rsi_formula_range (g l : float) :
  not_negative (Prim2SF g) -> not_negative (Prim2SF l) -> (l =? 0) = false ->
  let r := 100 - 100 / (1 + g / l) in
  is_nan r = true \/ (0 <=? r) && (r <=? 100) = true.
Proof.
  intros Hg Hl Hz r.
  assert (Hrs : not_negative (Prim2SF (g / l))).
  { rewrite FloatAxioms.div_spec. apply not_negative_div; auto.
    rewrite FloatAxioms.eqb_spec in Hz. exact Hz. }
  destruct (one_plus_not_negative _ Hrs) as [Hy|Hy].
  - left. apply nan_of_shape. subst r.
    rewrite FloatAxioms.sub_spec, FloatAxioms.div_spec, Hy. reflexivity.
  - right. apply in_range_of_shape, hundred_minus, hundred_over. exact Hy.
Qed.

(** Whatever the prices, the result is NaN or lies in [[0, 100]]. *)
Lemma calculateRSI_range_or_nan (prices : list float) :
  let r := calculateRSI prices 14 in
  is_nan r = true \/ (0 <=? r) && (r <=? 100) = true.
Proof.
  unfold calculateRSI.
  destruct (length prices <? 14 + 1)%nat; [right; reflexivity|].
  pose proof (rsi_averages_not_negative prices) as Hnn.
  destruct (rsi_averages prices 14) as [avgGain avgLoss].
  destruct Hnn as [Hg Hl]. cbn [fst snd] in *.
  destruct (avgLoss =? 0) eqn:E; [right; reflexivity|].
  now apply rsi_formula_range.
Qed.

(** *** Ordinary prices

    With prices between 0 and 1e300, every change has magnitude below
    2^1000, the fourteen-step sums stay below 2^1014 and so do the smoothed
    averages: nothing overflows, and no NaN comes up. *)

Lemma price_at_most (p : float) :
  ordinary_price p = true -> at_most (pow2 1000) (Prim2SF p).
Proof.
  intros H.
  assert (H1000 : at_most (dyadic 6724873095247260 944) (Prim2SF p))
    by (apply (at_most_of_range p 1e300); [reflexivity|exact H]).
  apply (at_most_weaken (dyadic 6724873095247260 944)); [|exact H1000].
  replace (pow2 1000) with (dyadic (2 ^ 56) 944).
  - apply dyadic_le. lia.
  - replace (2 ^ 56)%Z with (1 * 2 ^ 56)%Z by lia.
    rewrite dyadic_shift by lia. unfold dyadic.
    change (944 + 56)%Z with 1000%Z. lra.
Qed.

Lemma within_pos (G : R) (x : spec_float) :
  within G x -> SFltb (S754_zero false) x = true -> at_most G x.
Proof.
  destruct x as [s|s| |[|] m e]; cbn; auto; discriminate.
Qed.

Lemma within_neg_opp (G : R) (x : spec_float) :
  within G x -> SFltb x (S754_zero false) = true -> at_most G (SFopp x).
Proof.
  destruct x as [s|s| |[|] m e]; cbn; auto; discriminate.
Qed.

(** x / 14 *)
Lemma div14_at_most (G : R) (x : float) :
  is_double G -> (0 <= G)%R ->
  at_most (14 * G) (Prim2SF x) -> at_most G (Prim2SF (x / 14)).
Proof.
  intros HG HG0 Hx. rewrite FloatAxioms.div_spec, Prim2SF_14.
  apply (div_at_most G (14 * G) 14); auto.
  - apply dyadic_of_14.
  - lra.
  - unfold Rdiv. replace (14 * G * / 14)%R with G by (field; lra). lra.
Qed.

(** (avg * 13 + gain) / 14 *)
Lemma smooth_at_most (avg gain : float) :
  at_most (pow2 1014) (Prim2SF avg) -> at_most (pow2 1000) (Prim2SF gain) ->
  at_most (pow2 1014) (Prim2SF ((avg * 13 + gain) / 14)).
Proof.
  intros Ha Hg.
  pose proof (pow2_pos 1014) as H14. pose proof (pow2_pos 1000) as H10.
  pose proof (pow2_le 1000 1014 ltac:(lia)) as Hle.
  apply div14_at_most; [apply is_double_pow2; lia|lra|].
  rewrite FloatAxioms.add_spec.
  apply (add_at_most _ (13 * pow2 1014) (pow2 1000)); auto; try lra.
  - apply is_double_14.
  - rewrite FloatAxioms.mul_spec.
    apply (mul_at_most _ (pow2 1014) 13); auto using Prim2SF_valid; try lra.
    + apply is_double_13.
    + rewrite Prim2SF_13. cbn [at_most]. rewrite dyadic_of_13. lra.
Qed.

Section OrdinaryPrices.

Variable prices : list float.
Hypothesis Hprices : Forall (fun p => ordinary_price p = true) prices.

Lemma get_at_most (i : nat) :
  (i < length prices)%nat -> at_most (pow2 1000) (Prim2SF (JS.get prices i)).
Proof.
  intros Hi. apply price_at_most. unfold JS.get.
  rewrite Forall_forall in Hprices. apply Hprices, nth_In, Hi.
Qed.

Lemma change_within (i : nat) :
  (1 <= i < length prices)%nat ->
  within (pow2 1000) (Prim2SF (JS.get prices i - JS.get prices (i - 1))).
Proof.
  intros Hi. rewrite FloatAxioms.sub_spec.
  apply sub_within; [apply is_double_pow2; lia| |]; apply get_at_most; lia.
Qed.

(** Each step of the first loop at most doubles the bound. *)
Lemma rsi_seed_step_at_most (k : Z) (acc : float * float) (i : nat) :
  (1 <= i < length prices)%nat -> (1000 <= k < 1023)%Z ->
  at_most2 (pow2 k) acc -> at_most2 (pow2 (k + 1)) (rsi_seed_step prices acc i).
Proof.
  intros Hi Hk. destruct acc as [gains losses]. intros [Hg Hl].
  cbn [fst snd] in *. unfold rsi_seed_step, JS.gtb.
  pose proof (change_within i Hi) as Hc.
  set (change := JS.get prices i - JS.get prices (i - 1)) in *.
  pose proof (pow2_pos k) as Hk0. pose proof (pow2_pos 1000) as H10.
  pose proof (pow2_le 1000 k ltac:(lia)) as Hle.
  pose proof (pow2_succ k) as Hd.
  destruct (0 <? change) eqn:E; rewrite FloatAxioms.ltb_spec, Prim2SF_0 in E;
    split; cbn [fst snd].
  - rewrite FloatAxioms.add_spec.
    apply (add_at_most _ (pow2 k) (pow2 1000)); auto; try lra.
    + apply is_double_pow2; lia.
    + now apply within_pos.
  - apply (at_most_weaken (pow2 k)); [lra|exact Hl].
  - apply (at_most_weaken (pow2 k)); [lra|exact Hg].
  - rewrite FloatAxioms.sub_spec.
    apply (sub_not_positive_at_most _ (pow2 k) (pow2 1000)); auto; try lra.
    + apply is_double_pow2; lia.
    + now apply not_positive_of_not_pos.
Qed.

Lemma seed_fold_at_most (l : list nat) :
  Forall (fun i => (1 <= i < length prices)%nat) l ->
  forall (k : Z) (acc : float * float),
    (1000 <= k)%Z -> (k + Z.of_nat (length l) <= 1023)%Z ->
    at_most2 (pow2 k) acc ->
    at_most2 (pow2 (k + Z.of_nat (length l)))
             (fold_left (rsi_seed_step prices) l acc).
Proof.
  induction 1 as [|i l Hi _ IH]; intros k acc Hk Hlen Hacc;
    cbn [fold_left length].
  - rewrite Z.add_0_r. exact Hacc.
  - cbn [length] in Hlen.
    replace (k + Z.of_nat (S (length l)))%Z
      with (k + 1 + Z.of_nat (length l))%Z by lia.
    apply IH; [lia|lia|].
    apply rsi_seed_step_at_most; [exact Hi|lia|exact Hacc].
Qed.

(** Each step of the second loop keeps the bound. *)
Lemma rsi_smooth_step_at_most (acc : float * float) (i : nat) :
  (1 <= i < length prices)%nat ->
  at_most2 (pow2 1014) acc ->
  at_most2 (pow2 1014) (rsi_smooth_step prices 14 acc i).
Proof.
  intros Hi. destruct acc as [avgGain avgLoss]. intros [Hg Hl].
  cbn [fst snd] in *. unfold rsi_smooth_step, JS.gtb.
  change (JS.ofnat (14 - 1)) with 13. change (JS.ofnat 14) with 14.
  pose proof (change_within i Hi) as Hc.
  set (change := JS.get prices i - JS.get prices (i - 1)) in *.
  split; cbn [fst snd]; apply smooth_at_most; auto.
  - destruct (0 <? change) eqn:E; [|exact I].
    rewrite FloatAxioms.ltb_spec, Prim2SF_0 in E. now apply within_pos.
  - destruct (change <? 0) eqn:E; [|exact I].
    rewrite FloatAxioms.ltb_spec, Prim2SF_0 in E. rewrite FloatAxioms.opp_spec.
    now apply within_neg_opp.
Qed.

Lemma smooth_fold_at_most (l : list nat) :
  Forall (fun i => (1 <= i < length prices)%nat) l ->
  forall acc : float * float,
    at_most2 (pow2 1014) acc ->
    at_most2 (pow2 1014) (fold_left (rsi_smooth_step prices 14) l acc).
Proof.
  induction 1 as [|i l Hi _ IH]; intros acc Hacc; cbn [fold_left].
  - exact Hacc.
  - apply IH, rsi_smooth_step_at_most; assumption.
Qed.

Lemma rsi_averages_at_most :
  (15 <= length prices)%nat -> at_most2 (pow2 1014) (rsi_averages prices 14).
Proof.
  intros Hlen. unfold rsi_averages.
  assert (Hseed : at_most2 (pow2 (1000 + Z.of_nat (length (seq 1 14))))
                    (fold_left (rsi_seed_step prices) (seq 1 14) (0, 0))).
  { apply seed_fold_at_most; [|lia|cbn; lia|split; exact I].
    apply Forall_forall. intros i Hi. apply in_seq in Hi. lia. }
  change (1000 + Z.of_nat (length (seq 1 14)))%Z with 1014%Z in Hseed.
  destruct (fold_left (rsi_seed_step prices) (seq 1 14) (0, 0))
    as [gains losses].
  destruct Hseed as [Hg Hl]. cbn [fst snd] in *.
  pose proof (pow2_pos 1014) as H14.
  apply smooth_fold_at_most.
  - apply Forall_forall. intros i Hi. apply in_seq in Hi. lia.
  - change (JS.ofnat 14) with 14.
    split; cbn [fst snd];
      (apply div14_at_most; [apply is_double_pow2; lia|lra|]);
      eapply at_most_weaken; eauto; lra.
Qed.

End OrdinaryPrices.

(** g / l, for g and l zero or positive numbers and l not zero: not
    negative, and not NaN. *)
Lemma quotient_shape (g l : float) (G : R) :
  at_most G (Prim2SF g) -> at_most G (Prim2SF l) -> (l =? 0) = false ->
  not_negative (Prim2SF (g / l)) /\ Prim2SF (g / l) <> S754_nan.
Proof.
  intros Hg Hl Hz. rewrite FloatAxioms.eqb_spec in Hz.
  split.
  - rewrite FloatAxioms.div_spec.
    apply not_negative_div; eauto using at_most_not_negative.
  - rewrite FloatAxioms.div_spec.
    destruct (Prim2SF g) as [sg|sg| |[|] mg eg],
             (Prim2SF l) as [sl|sl| |[|] ml el];
      cbn [at_most] in *; try contradiction; try discriminate;
      unfold SF64div; cbn [SFdiv]; try discriminate.
    destruct (div_core_spec mg ml eg el) as [q [e' [lq [-> [Hq _]]]]].
    pose proof (round_aux_shape (xorb false false) q e' lq Hq) as Hs.
    intros Hnan. rewrite Hnan in Hs. exact Hs.
Qed.

(** For ordinary prices the result lies in [[0, 100]]. *)
Lemma calculateRSI_range (prices : list float) :
  Forall (fun p => ordinary_price p = true) prices ->
  let r := calculateRSI prices 14 in
  (0 <=? r) && (r <=? 100) = true.
Proof.
  intros Hp. unfold calculateRSI.
  destruct (length prices <? 14 + 1)%nat eqn:Hlen; [reflexivity|].
  apply Nat.ltb_ge in Hlen.
  pose proof (rsi_averages_at_most prices Hp ltac:(lia)) as Hb.
  destruct (rsi_averages prices 14) as [avgGain avgLoss].
  destruct Hb as [Hg Hl]. cbn [fst snd] in *.
  destruct (avgLoss =? 0) eqn:E; [reflexivity|].
  destruct (quotient_shape avgGain avgLoss _ Hg Hl E) as [Hnn Hn].
  apply in_range_of_shape, hundred_minus, hundred_over, one_plus_number;
    assumption.
Qed.

Local Close Scope R_scope.
Local Open Scope float_scope.

(** C4, as the engine computes it, on doubles.  With fewer than 15 prices
    the answer is 50.  With at least 15 it is 100 whenever the smoothed
    average loss is 0, in particular on a strictly increasing series.  For ordinary prices -- numbers between 0 and 1e300 -- the result
    lies in [[0, 100]]; whatever the prices, it lies in [[0, 100]] or is
    NaN, and NaN does occur. *)
Theorem calculateRSI_properties :
  (forall prices : list float,
      (length prices < 15)%nat -> calculateRSI prices 14 = 50)
  /\ (forall prices : list float,
         (15 <= length prices)%nat ->
         (snd (rsi_averages prices 14) =? 0) = true ->
         calculateRSI prices 14 = 100)
  /\ (forall prices : list float,
         (15 <= length prices)%nat -> rising prices ->
         calculateRSI prices 14 = 100)
  /\ (forall prices : list float,
         Forall (fun p => ordinary_price p = true) prices ->
         (0 <=? calculateRSI prices 14) && (calculateRSI prices 14 <=? 100)
         = true)
  /\ (forall prices : list float,
         is_nan (calculateRSI prices 14) = true
         \/ (0 <=? calculateRSI prices 14) && (calculateRSI prices 14 <=? 100)
            = true).
Proof.
  split; [exact calculateRSI_short|].
  split; [exact calculateRSI_no_loss|].
  split; [exact calculateRSI_rising|].
  split; [exact calculateRSI_range|exact calculateRSI_range_or_nan].
Qed.

Lemma risingPrices_rising : rising risingPrices.
Proof.
  intros i [H1 H2]. change (length risingPrices) with 16%nat in H2.
  do 16 (destruct i as [|i]; [try lia; vm_compute; reflexivity|]). lia.
Qed.

Lemma calculateRSI_properties_witness :
  calculateRSI [1.1; 1.2; 1.3] 14 = 50
  /\ calculateRSI (map price flat30) 14 = 100
  /\ calculateRSI risingPrices 14 = 100
  /\ (0 <=? calculateRSI mixedPrices 14) && (calculateRSI mixedPrices 14 <=? 100)
     = true.
Proof.
  destruct calculateRSI_properties as (Hshort & Hzero & Hrise & Hrange & _).
  split; [apply Hshort; vm_compute; lia|].
  split; [apply Hzero; [vm_compute; lia|vm_compute; reflexivity]|].
  split; [apply Hrise; [vm_compute; lia|exact risingPrices_rising]|].
  apply Hrange. repeat constructor.
Defined.

(** Degenerate inputs escape the range.  On the swinging series, whose
    prices are finite, gains and losses both overflow to [Infinity], their
    ratio is NaN and so is the RSI.  A NaN among the prices does the
    same. *)
Lemma calculateRSI_nan_on_overflow :
  forallb is_finite swingPrices = true
  /\ calculateRSI swingPrices 14 = nan
  /\ (0 <=? calculateRSI swingPrices 14)
     && (calculateRSI swingPrices 14 <=? 100) = false
  /\ calculateRSI (nan :: risingPrices) 14 = nan.
Proof. vm_compute. repeat split; reflexivity. Qed.

(** * Further properties of the code

    Random numbers.  [Math.random()] is a stream [random : nat -> float]
    of the values it returns, in the order of the calls; the code that
    draws threads the number of calls made so far. *)

(** ** The rule-based scorer *)

(** The signal line is the EMA of the one-element array [[macd]], which is
    [macd] itself. *)
Lemma calculateMACD_signal (prices : list float) :
  signal (calculateMACD prices) = macd (calculateMACD prices).
Proof. reflexivity. Qed.

(** A check adds at most its own reason. *)
Lemma rule_check_reason (bull bear : bool) (bullMsg bearMsg msg : string)
      (acc : float * float * list string) :
  In msg (snd (rule_check bull bear bullMsg bearMsg acc)) ->
  In msg (snd acc) \/ (bull = true /\ msg = bullMsg)
  \/ (bear = true /\ msg = bearMsg).
Proof.
  destruct acc as [[b r] reasons], bull, bear; cbn [rule_check snd];
    rewrite ?in_app_iff; cbn [In]; intuition auto.
Qed.

Lemma scorer_reasoning (indicators : TechnicalIndicators)
      (currentData : MarketData) (s : float * float * list string) :
  reasoning_of
    (let '(bullishSignals, bearishSignals, reasoning) := s in
     let totalSignals := bullishSignals + bearishSignals in
     let confidence :=
       if totalSignals =? 0 then 0.5 else bullishSignals / totalSignals in
     {| confidence := confidence; reasoning_of := reasoning |})
  = snd s.
Proof. destruct s as [[b r] reasons]. reflexivity. Qed.

Lemma scorer_without_macd (indicators : TechnicalIndicators)
      (currentData : MarketData) (msg : string) :
  signal (ti_macd indicators) = macd (ti_macd indicators) ->
  msg = "MACD bullish crossover"%string \/ msg = "MACD bearish crossover"%string ->
  ~ In msg (reasoning_of (analyzeRuleBasedSignals indicators currentData)).
Proof.
  intros Heq Hmsg Hin. unfold analyzeRuleBasedSignals, JS.gtb in Hin.
  rewrite scorer_reasoning in Hin by assumption.
  rewrite Heq, !flt_irrefl in Hin. cbn [andb] in Hin.
  repeat (apply rule_check_reason in Hin;
          destruct Hin as [Hin|[[Hb Hm]|[Hb Hm]]];
          [|try discriminate Hb; destruct Hmsg; subst msg; discriminate Hm ..]).
  exact Hin.
Qed.

(** The MACD check of the scorer is dead: [calculateMACD] returns its
    signal line equal to the MACD line, so neither [macd > signal] nor
    [macd < signal] holds, and no indicator snapshot the engine computes
    ever yields a MACD reason. *)
Theorem macd_check_never_fires :
  forall (Math_log : float -> float) (marketData : list MarketData)
         (currentData : MarketData),
    let indicators := calculateTechnicalIndicators Math_log marketData in
    let r := analyzeRuleBasedSignals indicators currentData in
    signal (ti_macd indicators) = macd (ti_macd indicators)
    /\ ~ In "MACD bullish crossover"%string (reasoning_of r)
    /\ ~ In "MACD bearish crossover"%string (reasoning_of r).
Proof.
  intros Math_log marketData currentData indicators r.
  assert (Heq : signal (ti_macd indicators) = macd (ti_macd indicators)).
  { subst indicators. destruct marketData; reflexivity. }
  split; [exact Heq|].
  split; apply scorer_without_macd; auto.
Qed.

(** Counting one more, up to six. *)
Lemma ofnat_succ (n : nat) : (n < 6)%nat -> JS.ofnat n + 1 = JS.ofnat (S n).
Proof.
  intros H. do 6 (destruct n as [|n]; [reflexivity|]). lia.
Qed.

Lemma count_bullish_app (reasoning : list string) (msg : string) :
  count_bullish (reasoning ++ [msg])
  = (count_bullish reasoning
     + if existsb (String.eqb msg) bullish_reasons then 1 else 0)%nat.
Proof.
  unfold count_bullish. rewrite filter_app, length_app. cbn [filter].
  destruct (existsb (String.eqb msg) bullish_reasons); reflexivity.
Qed.

(** A check keeps the counters in step with the reasons. *)
Lemma rule_check_counted (n : nat) (bull bear : bool) (bullMsg bearMsg : string)
      (acc : float * float * list string) :
  (n < 6)%nat ->
  existsb (String.eqb bullMsg) bullish_reasons = true ->
  existsb (String.eqb bearMsg) bullish_reasons = false ->
  counted n acc -> counted (S n) (rule_check bull bear bullMsg bearMsg acc).
Proof.
  intros Hn Hbull Hbear. destruct acc as [[b r] reasons].
  intros (nb & nr & Hlen & Hle & -> & -> & Hc).
  unfold rule_check. destruct bull; [|destruct bear].
  - exists (S nb), nr. rewrite length_app, count_bullish_app, Hbull, ofnat_succ by lia.
    cbn [length]. repeat split; try lia.
  - exists nb, (S nr). rewrite length_app, count_bullish_app, Hbear, ofnat_succ by lia.
    cbn [length]. repeat split; try lia.
  - exists nb, nr. repeat split; try lia.
Qed.

(** The confidence of the scorer is the share of bullish reasons among the
    reasons it gives, 0.5 when it gives none; there are at most six
    reasons, one per check, and the confidence lies in [[0, 1]] whatever
    the indicators are, NaN included. *)
Theorem analyzeRuleBasedSignals_confidence :
  forall (indicators : TechnicalIndicators) (currentData : MarketData),
    let r := analyzeRuleBasedSignals indicators currentData in
    let total := length (reasoning_of r) in
    (total <= 6)%nat
    /\ confidence r
       = (if (total =? 0)%nat then 0.5
          else JS.ofnat (count_bullish (reasoning_of r)) / JS.ofnat total)
    /\ (0 <=? confidence r) && (confidence r <=? 1) = true.
Proof.
  intros indicators currentData. unfold analyzeRuleBasedSignals.
  set (s := rule_check _ _ "Price near support level - potential bounce" _ _).
  assert (H : counted 6 s).
  { subst s.
    repeat (apply rule_check_counted; [lia|reflexivity|reflexivity|]).
    exists 0%nat, 0%nat. repeat split; lia. }
  clearbody s. revert s H.
  intros [[b r] reasons] (nb & nr & Hlen & Hle & -> & -> & Hc).
  cbv zeta. cbn [confidence reasoning_of]. rewrite Hc, <- Hlen. clear Hc Hlen reasons.
  do 7 (destruct nb as [|nb];
        [do 7 (destruct nr as [|nr];
               [first [lia | vm_compute; repeat split; (reflexivity || lia)]|]);
         lia|]).
  lia.
Qed.

(** ** The layered network of [MLModelTraining] *)

Section ForwardPropagation.

Variable Math_exp : float -> float.
Variable Math_tanh : float -> float.

Let forward := forward_layers Math_exp Math_tanh.

(** The layer loop reads the model through its weights and biases, and
    through the activation function for the activations of the hidden
    layers only; the next layer is fed the weighted sums. *)
Lemma forward_layers_parameters (m1 m2 : MLModelTraining)
      (remaining : list (list float)) :
  weights m1 = weights m2 -> biases m1 = biases m2 ->
  forall (layer : nat) (outputs activations1 activations2 : list (list float)),
    (layer + length remaining = length (weights m1))%nat ->
    (remaining = [] -> last activations1 [] = last activations2 []) ->
    match forward m1 remaining layer outputs activations1,
          forward m2 remaining layer outputs activations2 with
    | None, None => True
    | Some (o1, a1), Some (o2, a2) => o1 = o2 /\ last a1 [] = last a2 []
    | _, _ => False
    end.
Proof.
  intros Hw Hb. unfold forward.
  induction remaining as [|layerWeights remaining IH];
    intros layer outputs a1 a2 Hlen Hlast; cbn [forward_layers].
  - split; [reflexivity|]. apply Hlast. reflexivity.
  - rewrite <- Hb. destruct (nth_error (biases m1) layer) as [layerBiases|]; [|exact I].
    apply IH.
    + cbn [length] in Hlen. lia.
    + intros ->. cbn [length] in Hlen. rewrite <- Hw.
      replace (layer =? length (weights m1) - 1)%nat with true
        by (symmetry; apply Nat.eqb_eq; lia).
      rewrite !last_last. reflexivity.
Qed.

(** The prediction of a model is a function of its weights and biases
    alone.  In particular it does not depend on the activation function of
    the architecture: hidden activations are computed and returned, but the
    next layer reads [outputs[layer]], the sums before activation, and the
    last layer always applies the sigmoid. *)
Theorem predict_ignores_architecture :
  forall (m : MLModelTraining) (symbol' : string)
         (architecture' : ModelArchitecture) (history' : list TrainingMetrics)
         (features : list float),
    predict Math_exp Math_tanh
            {| m_symbol := symbol'; architecture := architecture';
               weights := weights m; biases := biases m;
               trainingHistory := history' |} features
    = predict Math_exp Math_tanh m features.
Proof.
  intros m symbol' architecture' history' features.
  unfold predict, forwardPropagate.
  set (m' := {| m_symbol := symbol'; architecture := architecture';
                weights := weights m; biases := biases m;
                trainingHistory := history' |}).
  pose proof (forward_layers_parameters m' m (weights m) eq_refl eq_refl
                0 [features] [features] [features] eq_refl (fun _ => eq_refl)) as H.
  unfold forward in H. change (weights m') with (weights m).
  destruct (forward_layers Math_exp Math_tanh m' (weights m) 0 [features] [features])
    as [[o1 a1]|];
    destruct (forward_layers Math_exp Math_tanh m (weights m) 0 [features] [features])
    as [[o2 a2]|]; try contradiction; [|reflexivity].
  destruct H as [_ ->]. reflexivity.
Qed.

(** The layer loop throws exactly when it runs out of bias rows; when it
    does not, it adds one row of sums and one of activations per layer,
    each as long as the bias row of its layer. *)
Lemma forward_layers_shape (m : MLModelTraining) (remaining : list (list float)) :
  forall (layer : nat) (outputs activations : list (list float)),
    (layer <= length (biases m))%nat ->
    length outputs = S layer -> length activations = S layer ->
    match forward m remaining layer outputs activations with
    | None => (length (biases m) < layer + length remaining)%nat
    | Some (outputs', activations') =>
        (layer + length remaining <= length (biases m))%nat
        /\ length outputs' = S (layer + length remaining)
        /\ length activations' = S (layer + length remaining)
        /\ firstn (S layer) outputs' = outputs
        /\ firstn (S layer) activations' = activations
        /\ forall i, (layer <= i < layer + length remaining)%nat ->
                     length (nth (S i) outputs' [])
                     = length (nth i (biases m) [])
                     /\ length (nth (S i) activations' [])
                        = length (nth i (biases m) [])
    end.
Proof.
  unfold forward.
  induction remaining as [|layerWeights remaining IH];
    intros layer outputs activations Hle Ho Ha; cbn [forward_layers length].
  - rewrite Nat.add_0_r.
    split; [lia|]. split; [lia|]. split; [lia|].
    split; [rewrite <- Ho; apply firstn_all|].
    split; [rewrite <- Ha; apply firstn_all|]. intros i Hi. lia.
  - destruct (nth_error (biases m) layer) as [layerBiases|] eqn:Eb.
    + assert (Hlt : (layer < length (biases m))%nat)
        by (apply nth_error_Some; congruence).
      match goal with
      | |- context [forward_layers _ _ _ _ _ (outputs ++ [?row]) (activations ++ [?arow])] =>
          set (layerActivation := arow); set (layerOutput := row)
      end.
      specialize (IH (S layer) (outputs ++ [layerOutput])
                     (activations ++ [layerActivation]) Hlt).
      rewrite !length_app in IH. cbn [length] in IH.
      assert (Ho' : (length outputs + 1)%nat = S (S layer)) by lia.
      assert (Ha' : (length activations + 1)%nat = S (S layer)) by lia.
      specialize (IH Ho' Ha').
      destruct (forward_layers Math_exp Math_tanh m remaining (S layer)
                  (outputs ++ [layerOutput]) (activations ++ [layerActivation]))
        as [[outputs' activations']|]; [|lia].
      destruct IH as (H1 & H2 & H3 & H4 & H5 & H6).
      assert (Hrow : length layerOutput = length layerBiases
                     /\ length layerActivation = length layerBiases).
      { subst layerOutput layerActivation. now rewrite !length_map, length_seq. }
      assert (Hnb : nth layer (biases m) [] = layerBiases)
        by (apply nth_error_nth; exact Eb).
      repeat split; try lia.
      * apply (f_equal (firstn (S layer))) in H4.
        rewrite firstn_firstn, Nat.min_l in H4 by lia.
        rewrite H4, firstn_app, firstn_all2 by lia.
        replace (S layer - length outputs)%nat with 0%nat by lia.
        cbn [firstn]. apply app_nil_r.
      * apply (f_equal (firstn (S layer))) in H5.
        rewrite firstn_firstn, Nat.min_l in H5 by lia.
        rewrite H5, firstn_app, firstn_all2 by lia.
        replace (S layer - length activations)%nat with 0%nat by lia.
        cbn [firstn]. apply app_nil_r.
      * destruct (Nat.eq_dec i layer) as [->|Hne]; [|apply H6; lia].
        rewrite Hnb. destruct Hrow as [<- _].
        apply (f_equal (fun l => nth (S layer) l [])) in H4.
        rewrite nth_firstn in H4.
        replace (S layer <? S (S layer))%nat with true in H4
          by (symmetry; apply Nat.ltb_lt; lia).
        rewrite H4, app_nth2 by lia.
        replace (S layer - length outputs)%nat with 0%nat by lia. reflexivity.
      * destruct (Nat.eq_dec i layer) as [->|Hne]; [|apply H6; lia].
        rewrite Hnb. destruct Hrow as [_ <-].
        apply (f_equal (fun l => nth (S layer) l [])) in H5.
        rewrite nth_firstn in H5.
        replace (S layer <? S (S layer))%nat with true in H5
          by (symmetry; apply Nat.ltb_lt; lia).
        rewrite H5, app_nth2 by lia.
        replace (S layer - length activations)%nat with 0%nat by lia. reflexivity.
    + apply nth_error_None in Eb. lia.
Qed.

(** [predict] throws exactly when the model has fewer bias rows than
    weight rows ([this.biases[layer]] is then [undefined] and reading its
    length fails); the sizes of the rows never make it throw.  When
    [forwardPropagate] returns, [outputs] and [activations] hold the input
    followed by one row per layer, each as long as that layer's bias
    row. *)
Theorem predict_throws_iff :
  forall (m : MLModelTraining) (features : list float),
    (predict Math_exp Math_tanh m features = None
     <-> (length (biases m) < length (weights m))%nat)
    /\ (forall outputs activations,
           forwardPropagate Math_exp Math_tanh m features
           = Some (outputs, activations) ->
           length outputs = S (length (weights m))
           /\ length activations = S (length (weights m))
           /\ nth 0 outputs [] = features
           /\ nth 0 activations [] = features
           /\ forall layer, (layer < length (weights m))%nat ->
                            length (nth (S layer) outputs [])
                            = length (nth layer (biases m) [])
                            /\ length (nth (S layer) activations [])
                               = length (nth layer (biases m) [])).
Proof.
  intros m features.
  pose proof (forward_layers_shape m (weights m) 0 [features] [features]
                ltac:(lia) eq_refl eq_refl) as H.
  unfold forward in H. unfold predict, forwardPropagate.
  destruct (forward_layers Math_exp Math_tanh m (weights m) 0 [features] [features])
    as [[outputs' activations']|].
  - destruct H as (H1 & H2 & H3 & H4 & H5 & H6). cbn [Nat.add] in *. split.
    + split; [discriminate|lia].
    + intros outputs activations E. injection E as <- <-.
      repeat split; try assumption.
      * destruct outputs' as [|o rest]; [discriminate|].
        cbn in H4. injection H4 as ->. reflexivity.
      * destruct activations' as [|a rest]; [discriminate|].
        cbn in H5. injection H5 as ->. reflexivity.
      * apply H6. lia.
      * apply H6. lia.
  - split; [split; [intros _; exact H|reflexivity]|]. discriminate.
Qed.

End ForwardPropagation.

(** ** Reads past the end of a weight array *)


Lemma mul_nan_l (x : float) : nan * x = nan.
Proof. apply float_is_nan. rewrite mul_spec. reflexivity. Qed.

Lemma add_nan_r (x : float) : x + nan = nan.
Proof.
  apply float_is_nan. rewrite add_spec. change (Prim2SF nan) with S754_nan.
  destruct (Prim2SF x) as [s|s| |s m e]; reflexivity.
Qed.

Lemma add_nan_l (x : float) : nan + x = nan.
Proof. apply float_is_nan. rewrite add_spec. reflexivity. Qed.

Lemma gt_nan (x : float) : JS.gtb nan x = false.
Proof.
  unfold JS.gtb. rewrite ltb_spec. change (Prim2SF nan) with S754_nan.
  destruct (Prim2SF x) as [s|s| |s m e]; reflexivity.
Qed.

Lemma lt_nan (x : float) : (nan <? x) = false.
Proof. rewrite ltb_spec. reflexivity. Qed.






Section ShortWeights.

Variable Math_exp : float -> float.
Variable Math_tanh : float -> float.

(** ECMAScript fixes [Math.exp(NaN)] to NaN. *)
Hypothesis Math_exp_nan : Math_exp nan = nan.




End ShortWeights.

(** ** Models as the constructor leaves them *)

Lemma initializeWeights_layers_cons (random : nat -> float) (a b : nat)
      (rest : list nat) (drawn : nat) :
  initializeWeights_layers random (a :: b :: rest) drawn
  = let '(weights, biases, drawn') :=
      initializeWeights_layers random (b :: rest) (drawn + a * b) in
    (map (fun j => (random (drawn + j)%nat * 2 - 1)
                   * JS.Math_sqrt (6 / (JS.ofnat a + JS.ofnat b)))
         (seq 0 (a * b)) :: weights,
     repeat 0 b :: biases, drawn').
Proof. reflexivity. Qed.

(** [initializeWeights] gives layer [i] a weight array of
    [layers[i] * layers[i+1]] entries and [layers[i+1]] zero biases, and
    draws one random number per weight. *)
Lemma initializeWeights_layers_shape (random : nat -> float) (layers : list nat) :
  forall drawn,
    let '(weights, biases, drawn') :=
      initializeWeights_layers random layers drawn in
    map (@length float) weights
    = map (fun ab => (fst ab * snd ab)%nat) (combine layers (tl layers))
    /\ biases = map (repeat 0) (tl layers)
    /\ drawn' = (drawn + list_sum (map (@length float) weights))%nat.
Proof.
  induction layers as [|a layers IH]; intros drawn; [cbn; auto|].
  destruct layers as [|b layers]; [cbn; auto|].
  rewrite initializeWeights_layers_cons.
  specialize (IH (drawn + a * b)%nat).
  destruct (initializeWeights_layers random (b :: layers) (drawn + a * b))
    as [[weights biases] drawn'].
  destruct IH as (Hw & Hb & Hd).
  change (tl (a :: b :: layers)) with (b :: layers).
  cbn [map combine fst snd list_sum]. rewrite length_map, length_seq, Hw.
  repeat split.
  - rewrite Hb. reflexivity.
  - rewrite Hd, Hw. unfold list_sum. cbn [fold_right]. lia.
Qed.

Lemma new_MLModelTraining_spec (symbol : string)
      (given : option PartialArchitecture) (random : nat -> float) (drawn : nat) :
  let m := fst (new_MLModelTraining symbol given random drawn) in
  let a := merge_architecture given in
  let layers := inputSize a :: hiddenLayers a ++ [outputSize a] in
  architecture m = a
  /\ m_symbol m = symbol
  /\ map (@length float) (weights m)
     = map (fun ab => (fst ab * snd ab)%nat) (combine layers (tl layers))
  /\ biases m = map (repeat 0) (tl layers)
  /\ trainingHistory m = []
  /\ snd (new_MLModelTraining symbol given random drawn)
     = (drawn + list_sum (map (@length float) (weights m)))%nat.
Proof.
  unfold new_MLModelTraining.
  set (a0 := merge_architecture given).
  pose proof (initializeWeights_layers_shape random
                (inputSize a0 :: hiddenLayers a0 ++ [outputSize a0]) drawn) as H.
  destruct (initializeWeights_layers random
              (inputSize a0 :: hiddenLayers a0 ++ [outputSize a0]) drawn)
    as [[ws bs] drawn'].
  destruct H as (Hw & Hb & Hd). cbn [fst snd]. cbv zeta.
  cbn [architecture m_symbol weights biases trainingHistory].
  repeat split; assumption.
Qed.

Section FreshModels.

Variable Math_exp : float -> float.
Variable Math_tanh : float -> float.

Lemma predict_none_iff (m : MLModelTraining) (features : list float) :
  predict Math_exp Math_tanh m features = None
  <-> (length (biases m) < length (weights m))%nat.
Proof.
  pose proof (forward_layers_shape Math_exp Math_tanh m (weights m) 0
                [features] [features] ltac:(lia) eq_refl eq_refl) as H.
  unfold predict, forwardPropagate.
  destruct (forward_layers Math_exp Math_tanh m (weights m) 0 [features] [features])
    as [[outputs' activations']|].
  - destruct H as (H1 & _). cbn [Nat.add] in H1. split; [discriminate|lia].
  - split; [intros _; exact H|reflexivity].
Qed.

(** A model as [new MLModelTraining(symbol, architecture)] leaves it: the
    defaults fill the fields the caller did not give; there is one weight
    array and one bias row per layer, sized by the architecture, and one
    random number is drawn per weight; the biases are zero and there are no
    metrics yet.  Such a model never makes [predict] throw, whatever the
    length of the feature vector. *)
Theorem new_MLModelTraining_shape :
  forall (symbol : string) (given : option PartialArchitecture)
         (random : nat -> float) (drawn : nat) (features : list float),
    let m := fst (new_MLModelTraining symbol given random drawn) in
    let a := architecture m in
    let layers := inputSize a :: hiddenLayers a ++ [outputSize a] in
    a = merge_architecture given
    /\ m_symbol m = symbol
    /\ map (@length float) (weights m)
       = map (fun ab => (fst ab * snd ab)%nat) (combine layers (tl layers))
    /\ biases m = map (repeat 0) (tl layers)
    /\ length (weights m) = S (length (hiddenLayers a))
    /\ snd (new_MLModelTraining symbol given random drawn)
       = (drawn + list_sum (map (@length float) (weights m)))%nat
    /\ getPerformanceMetrics m = None
    /\ predict Math_exp Math_tanh m features <> None.
Proof.
  intros symbol given random drawn features m a layers.
  destruct (new_MLModelTraining_spec symbol given random drawn)
    as (Ha & Hs & Hw & Hb & Hh & Hd).
  fold m in Ha, Hs, Hw, Hb, Hh, Hd. cbv zeta in Hw, Hb.
  assert (Ea : a = merge_architecture given) by exact Ha.
  rewrite <- Ea in Hw, Hb. fold layers in Hw, Hb.
  assert (Hlen : length (weights m) = S (length (hiddenLayers a))).
  { apply (f_equal (@length nat)) in Hw.
    rewrite !length_map, length_combine in Hw. subst layers.
    cbn [tl length] in Hw. rewrite length_app in Hw. cbn [length] in Hw. lia. }
  repeat split; try assumption.
  - unfold getPerformanceMetrics. now rewrite Hh.
  - intros Hthrow.
    apply predict_none_iff in Hthrow.
    rewrite Hb, length_map in Hthrow. subst layers.
    cbn [tl] in Hthrow. rewrite length_app in Hthrow. cbn [length] in Hthrow. lia.
Qed.

End FreshModels.

(** ** The sentiment revision and the models it builds *)

Section NeverSignals.

Variable Math_exp : float -> float.
Variable Math_tanh : float -> float.
Variable Math_log : float -> float.
Variable toFixed1 : float -> string.
Variable toString : nat -> string.

Hypothesis Math_exp_nan : Math_exp nan = nan.






End NeverSignals.


(** ** Adding and taking away what is not negative

    [x + t] is at least [x] and [x - t] at most [x] when [t] is not
    negative, whatever the sign of [x] and however the result is
    rounded. *)

Local Open Scope R_scope.

Lemma nonneg_number_of_leb (x : float) :
  (0 <=? x)%float = true <-> nonneg_number (Prim2SF x).
Proof.
  rewrite leb_spec. change (Prim2SF 0) with (S754_zero false).
  destruct (Prim2SF x) as [s|[|]| |[|] m e]; cbn; intuition congruence.
Qed.

(** Negative doubles compare against the order of their magnitudes. *)
Lemma SFleb_neg_of_dyadic (m1 m2 : positive) (e1 e2 : Z) :
  canonical m1 e1 -> canonical m2 e2 ->
  dyadic (Z.pos m2) e2 <= dyadic (Z.pos m1) e1 ->
  SFleb (S754_finite true m1 e1) (S754_finite true m2 e2) = true.
Proof.
  intros H1 H2 Hle.
  pose proof (SFleb_of_dyadic m2 m1 e2 e1 H2 H1 Hle) as H.
  revert H. unfold SFleb. cbn [SFcompare].
  change (Pos.compare_cont Eq m2 m1) with (Pos.compare m2 m1).
  change (Pos.compare_cont Eq m1 m2) with (Pos.compare m1 m2).
  destruct (Z.compare_spec e2 e1), (Z.compare_spec e1 e2); try lia;
    try discriminate; try reflexivity.
  destruct (Pos.compare_spec m2 m1), (Pos.compare_spec m1 m2); try lia;
    try discriminate; reflexivity.
Qed.

Lemma SFleb_refl_finite (x : spec_float) : SF_is_finite x -> SFleb x x = true.
Proof.
  intros [s|s m e]; unfold SFleb; cbn [SFcompare]; [reflexivity|].
  rewrite Z.compare_refl, Pos.compare_cont_refl. destruct s; reflexivity.
Qed.

(** The shape of a rounded result: its sign is the sign asked for. *)
Lemma binary_round_shape (s : bool) (m : positive) (e : Z) :
  match binary_round prec emax s m e with
  | S754_nan => False
  | S754_zero s' | S754_infinity s' | S754_finite s' _ _ => s' = s
  end.
Proof.
  destruct (binary_round_aligned s m e) as (mz & ez & -> & _).
  apply round_aux_shape. lia.
Qed.

Lemma nonneg_binary_round (m : positive) (e : Z) :
  nonneg_number (binary_round prec emax false m e).
Proof.
  pose proof (binary_round_shape false m e) as H.
  destruct (binary_round prec emax false m e) as [s|s| |s m' e'];
    cbn; try subst s; auto.
Qed.

Lemma neg_le_nonneg (m : positive) (e : Z) (r : spec_float) :
  nonneg_number r -> SFleb (S754_finite true m e) r = true.
Proof. destruct r as [s|[|]| |[|] m' e']; try contradiction; reflexivity. Qed.

Lemma nonpos_le_pos (m : positive) (e : Z) (r : spec_float) :
  match r with
  | S754_zero _ | S754_finite true _ _ | S754_infinity true => True
  | _ => False
  end ->
  SFleb r (S754_finite false m e) = true.
Proof. destruct r as [s|[|]| |[|] m' e']; try contradiction; reflexivity. Qed.

Lemma binary_round_negative (m : positive) (e : Z) :
  match binary_round prec emax true m e with
  | S754_zero _ | S754_finite true _ _ | S754_infinity true => True
  | _ => False
  end.
Proof.
  pose proof (binary_round_shape true m e) as H.
  destruct (binary_round prec emax true m e) as [s|s| |s m' e'];
    try subst s; auto.
Qed.

Lemma SFadd_nonneg_ge (x t : spec_float) :
  valid_binary x = true -> valid_binary (SF64add x t) = true ->
  SF_is_finite x -> nonneg_number t -> SFleb x (SF64add x t) = true.
Proof.
  intros Vx Vr Hx Ht. unfold SF64add in *.
  destruct t as [st|[|]| |[|] mt et]; try contradiction.
  - (* a zero *)
    destruct Hx as [sx|sx mx ex]; cbn [SFadd].
    + destruct sx, st; reflexivity.
    + apply SFleb_refl_finite. constructor.
  - (* +Infinity *)
    destruct Hx as [sx|[|] mx ex]; reflexivity.
  - (* a positive number *)
    destruct Hx as [sx|[|] mx ex]; cbn [SFadd cond_Zopp] in *.
    + reflexivity.
    + destruct (aligned_dyadic mx mt ex et) as [H1 H2]. cbv zeta in H1, H2.
      set (ez := Z.min ex et) in *.
      set (a := fst (shl_align mx ex ez)) in *.
      set (b := fst (shl_align mt et ez)) in *.
      assert (Hd : dyadic (- Z.pos a + Z.pos b) ez
                   = dyadic (Z.pos mt) et - dyadic (Z.pos mx) ex).
      { rewrite dyadic_plus. change (- Z.pos a)%Z with (Z.neg a).
        rewrite dyadic_neg, H1, H2. ring. }
      destruct (- Z.pos a + Z.pos b)%Z as [|d|d] eqn:E; cbn [binary_normalize] in *.
      * reflexivity.
      * apply neg_le_nonneg, nonneg_binary_round.
      * rewrite dyadic_neg in Hd.
        destruct (binary_round_upper true d mx ez ex Vx) as [E'|(m' & e' & E' & Hle)].
        { pose proof (dyadic_pos mt et). lra. }
        { rewrite E'. reflexivity. }
        rewrite E' in *. apply SFleb_neg_of_dyadic; auto.
    + destruct (SFadd_pos_lower mx mt mx ex et ex Vx) as [E'|(m' & e' & E' & Hle)].
      * pose proof (dyadic_pos mt et). lra.
      * unfold SF64add in E'. cbn [SFadd cond_Zopp] in E'. rewrite E'. reflexivity.
      * unfold SF64add in E'. cbn [SFadd cond_Zopp] in E'. rewrite E' in *.
        apply SFleb_of_dyadic; auto.
Qed.

Lemma SFsub_nonneg_le (x t : spec_float) :
  valid_binary x = true -> valid_binary (SF64sub x t) = true ->
  SF_is_finite x -> nonneg_number t -> SFleb (SF64sub x t) x = true.
Proof.
  intros Vx Vr Hx Ht. unfold SF64sub in *.
  destruct t as [st|[|]| |[|] mt et]; try contradiction.
  - (* a zero *)
    destruct Hx as [sx|sx mx ex]; cbn [SFsub].
    + destruct sx, st; reflexivity.
    + apply SFleb_refl_finite. constructor.
  - (* +Infinity *)
    destruct Hx as [sx|[|] mx ex]; reflexivity.
  - (* a positive number *)
    destruct Hx as [sx|[|] mx ex]; cbn [SFsub cond_Zopp negb] in *.
    + reflexivity.
    + destruct (aligned_dyadic mx mt ex et) as [H1 H2]. cbv zeta in H1, H2.
      set (ez := Z.min ex et) in *.
      set (a := fst (shl_align mx ex ez)) in *.
      set (b := fst (shl_align mt et ez)) in *.
      replace (- Z.pos a - Z.pos b)%Z with (Z.neg (a + b)) in * by lia.
      cbn [binary_normalize] in *.
      destruct (binary_round_lower true (a + b) mx ez ex Vx) as [E'|(m' & e' & E' & Hle)].
      { rewrite Pos2Z.inj_add, dyadic_plus, H1, H2.
        pose proof (dyadic_pos mt et). lra. }
      { rewrite E'. reflexivity. }
      rewrite E' in *. apply SFleb_neg_of_dyadic; auto.
    + destruct (aligned_dyadic mx mt ex et) as [H1 H2]. cbv zeta in H1, H2.
      set (ez := Z.min ex et) in *.
      set (a := fst (shl_align mx ex ez)) in *.
      set (b := fst (shl_align mt et ez)) in *.
      assert (Hd : dyadic (Z.pos a - Z.pos b) ez
                   = dyadic (Z.pos mx) ex - dyadic (Z.pos mt) et).
      { unfold Z.sub. rewrite dyadic_plus. change (- Z.pos b)%Z with (Z.neg b).
        rewrite dyadic_neg, H1, H2. ring. }
      destruct (Z.pos a - Z.pos b)%Z as [|d|d] eqn:E; cbn [binary_normalize] in *.
      * reflexivity.
      * destruct (binary_round_upper false d mx ez ex Vx) as [E'|(m' & e' & E' & Hle)].
        { pose proof (dyadic_pos mt et). lra. }
        { rewrite E'. reflexivity. }
        rewrite E' in *. apply SFleb_of_dyadic; auto.
      * apply nonpos_le_pos, binary_round_negative.
Qed.

Local Open Scope float_scope.

(** Adding a number that is not negative does not take a finite number
    down, and taking it away does not take it up. *)
Lemma add_nonneg_ge (x t : float) :
  is_finite x = true -> (0 <=? t) = true -> (x <=? x + t) = true.
Proof.
  intros Hx Ht. rewrite leb_spec, add_spec.
  apply SFadd_nonneg_ge.
  - apply Prim2SF_valid.
  - rewrite <- add_spec. apply Prim2SF_valid.
  - apply finite_shape, Hx.
  - apply nonneg_number_of_leb, Ht.
Qed.

Lemma sub_nonneg_le (x t : float) :
  is_finite x = true -> (0 <=? t) = true -> (x - t <=? x) = true.
Proof.
  intros Hx Ht. rewrite leb_spec, sub_spec.
  apply SFsub_nonneg_le.
  - apply Prim2SF_valid.
  - rewrite <- sub_spec. apply Prim2SF_valid.
  - apply finite_shape, Hx.
  - apply nonneg_number_of_leb, Ht.
Qed.

(** *** What stays not negative *)

Lemma positive_finite (p : float) :
  (0 <? p) = true -> is_finite p = true ->
  exists m e, Prim2SF p = S754_finite false m e.
Proof.
  intros Hpos Hfin. apply finite_shape in Hfin.
  rewrite ltb_spec in Hpos. change (Prim2SF 0) with (S754_zero false) in Hpos.
  destruct Hfin as [s|[|] m e]; try discriminate. eauto.
Qed.

Lemma round_aux_nonneg (mx ex : Z) (lx : location) :
  (0 <= mx)%Z -> nonneg_number (binary_round_aux prec emax false mx ex lx).
Proof.
  intros Hm. pose proof (round_aux_shape false mx ex lx Hm) as H.
  destruct (binary_round_aux prec emax false mx ex lx) as [s|s| |s m e];
    cbn; try subst s; auto.
Qed.

Lemma SFmul_nonneg_pos (v : spec_float) (m : positive) (e : Z) :
  nonneg_number v -> nonneg_number (SF64mul v (S754_finite false m e)).
Proof.
  unfold SF64mul.
  destruct v as [s|[|]| |[|] mv ev]; try contradiction; intros _; cbn [SFmul xorb].
  - exact I.
  - exact I.
  - apply round_aux_nonneg. lia.
Qed.

Lemma SFadd_nonneg (a b : spec_float) :
  nonneg_number a -> nonneg_number b -> nonneg_number (SF64add a b).
Proof.
  unfold SF64add.
  destruct a as [sa|[|]| |[|] ma ea]; try contradiction;
    destruct b as [sb|[|]| |[|] mb eb]; try contradiction; intros _ _;
    cbn [SFadd cond_Zopp]; try exact I.
  - destruct sa, sb; exact I.
  - rewrite <- Pos2Z.inj_add. cbn [binary_normalize]. apply nonneg_binary_round.
Qed.

Lemma SFdiv_nonneg_pos (v : spec_float) (m : positive) (e : Z) :
  nonneg_number v -> nonneg_number (SF64div v (S754_finite false m e)).
Proof.
  unfold SF64div.
  destruct v as [s|[|]| |[|] mv ev]; try contradiction; intros _; cbn [SFdiv xorb].
  - exact I.
  - exact I.
  - destruct (div_core_spec mv m ev e) as (q & e' & l & -> & Hq & _).
    apply round_aux_nonneg, Hq.
Qed.

Lemma SFsqrt_pos_nonneg (m : positive) (e : Z) :
  nonneg_number (SF64sqrt (S754_finite false m e)).
Proof.
  unfold SF64sqrt. cbn [SFsqrt]. unfold SFsqrt_core_binary.
  match goal with
  | |- context [Z.sqrtrem ?a] => pose proof (Z.sqrtrem_spec a) as Hs;
                                   destruct (Z.sqrtrem a) as [q r]
  end.
  apply round_aux_nonneg.
  match type of Hs with
  | (0 <= ?a)%Z -> _ => assert (Ha : (0 <= a)%Z)
  end.
  { destruct (e - 2 * _)%Z; try lia. apply Z.shiftl_nonneg. lia. }
  specialize (Hs Ha). cbv zeta in Hs. lia.
Qed.

Lemma SFsqrt_nonneg (x : spec_float) :
  nonneg_number x -> nonneg_number (SF64sqrt x).
Proof.
  destruct x as [s|[|]| |[|] m e]; try contradiction; intros _;
    try exact I. apply SFsqrt_pos_nonneg.
Qed.

(** A square root is NaN or not negative. *)
Lemma SFsqrt_shape (x : spec_float) :
  SF64sqrt x = S754_nan \/ nonneg_number (SF64sqrt x).
Proof.
  destruct x as [s|[|]| |[|] m e]; try (left; reflexivity);
    right; apply SFsqrt_nonneg; exact I.
Qed.

Lemma nonneg_not_negative (x : spec_float) : nonneg_number x -> not_negative x.
Proof. destruct x as [s|[|]| |[|] m e]; cbn; auto. Qed.

Lemma not_negative_sqrt (x : spec_float) : not_negative (SF64sqrt x).
Proof.
  destruct (SFsqrt_shape x) as [->|H]; [exact I|]. apply nonneg_not_negative, H.
Qed.

Lemma mul_nonneg_pos (v p : float) :
  (0 <=? v) = true -> (0 <? p) = true -> is_finite p = true ->
  (0 <=? v * p) = true.
Proof.
  intros Hv Hp Hf. destruct (positive_finite p Hp Hf) as (m & e & E).
  apply nonneg_number_of_leb. rewrite mul_spec, E.
  apply SFmul_nonneg_pos, nonneg_number_of_leb, Hv.
Qed.

Lemma add_nonneg (a b : float) :
  (0 <=? a) = true -> (0 <=? b) = true -> (0 <=? a + b) = true.
Proof.
  intros Ha Hb. apply nonneg_number_of_leb. rewrite add_spec.
  apply SFadd_nonneg; apply nonneg_number_of_leb; assumption.
Qed.

Lemma abs_nonneg (s : float) : is_nan s = false -> (0 <=? abs s) = true.
Proof.
  intros Hs. apply nonneg_number_of_leb. rewrite abs_spec.
  destruct (Prim2SF s) as [z|i| |sg m e] eqn:E; try exact I.
  apply float_is_nan in E. subst s. discriminate Hs.
Qed.

Lemma not_negative_ltb (x : float) :
  not_negative (Prim2SF x) <-> (x <? 0) = false.
Proof.
  rewrite ltb_spec. change (Prim2SF 0) with (S754_zero false).
  destruct (Prim2SF x) as [s|[|]| |[|] m e]; cbn; intuition congruence.
Qed.

Lemma nonneg_of_not_negative (x : float) :
  (x <? 0) = false -> is_nan x = false -> (0 <=? x) = true.
Proof. intros H Hn. apply fle_total; auto. Qed.

(** ** Volatility *)

Lemma volatility_not_negative (Math_log : float -> float) (prices : list float)
      (period : nat) :
  (calculateVolatility Math_log prices period <? 0) = false.
Proof.
  unfold calculateVolatility.
  destruct (length prices <? period)%nat; [reflexivity|].
  apply not_negative_ltb. unfold JS.Math_sqrt. rewrite mul_spec, !sqrt_spec.
  apply not_negative_mul; apply not_negative_sqrt.
Qed.

(** The annualised volatility is a square root times [Math.sqrt(252)]:
    whatever [Math.log] returns it is never negative (it may be NaN), and
    it is 0 on fewer prices than the period. *)
Theorem calculateVolatility_not_negative :
  forall (Math_log : float -> float) (prices : list float) (period : nat),
    (calculateVolatility Math_log prices period <? 0) = false
    /\ ((length prices < period)%nat ->
        calculateVolatility Math_log prices period = 0).
Proof.
  intros Math_log prices period. split; [apply volatility_not_negative|].
  intros H. unfold calculateVolatility.
  replace (length prices <? period)%nat with true
    by (symmetry; apply Nat.ltb_lt; exact H).
  reflexivity.
Qed.

Lemma calculateVolatility_not_negative_witness :
  (length [1.1%float; 1.2%float] < 20)%nat
  /\ calculateVolatility (fun x => x) [1.1; 1.2] 20 = 0.
Proof.
  assert (H : (length [1.1%float; 1.2%float] < 20)%nat) by (cbn; lia).
  split; [exact H|].
  exact (proj2 (calculateVolatility_not_negative (fun x => x) [1.1; 1.2] 20) H).
Defined.

(** ** Stop-loss and take-profit *)

Lemma indicators_volatility (Math_log : float -> float)
      (marketData : list MarketData) :
  (volatility (calculateTechnicalIndicators Math_log marketData) <? 0) = false.
Proof.
  destruct marketData; [reflexivity|]. apply volatility_not_negative.
Qed.

Section Stops.

Variable Math_exp : float -> float.
Variable Math_tanh : float -> float.
Variable Math_log : float -> float.
Variable toFixed1 : float -> string.
Variable toString : nat -> string.

(** The risk levels of a signal bracket its entry price.  For a CALL the
    stop-loss is at or below the entry price and the take-profit at or
    above it; for a PUT the other way round.  This holds in both revisions
    for every signal whose entry price is a positive finite number and
    whose volatility is a number -- the volatility is then not negative,
    and so are the adjustments -- and, in the sentiment revision, when the
    sentiment is a number. *)
Theorem stops_bracket_entry :
  (forall e st symbol duration historicalData currentData now signal,
      fst (Basic.generateTradingSignal Math_exp Math_log toFixed1 e st symbol
             duration historicalData currentData now) = Some signal ->
      (0 <? entryPrice signal) = true -> is_finite (entryPrice signal) = true ->
      is_nan (volatility (technicalIndicators signal)) = false ->
      match direction signal with
      | CALL => (stopLoss signal <=? entryPrice signal) = true
                /\ (entryPrice signal <=? takeProfit signal) = true
      | PUT => (takeProfit signal <=? entryPrice signal) = true
               /\ (entryPrice signal <=? stopLoss signal) = true
      end)
  /\ (forall e st symbol duration historicalData currentData sentiment
             events1_3d events2_3d events1_1d events2_1d now signal,
         fst (Enhanced.generateTradingSignal Math_exp Math_tanh Math_log toFixed1
                toString e st symbol duration historicalData currentData
                sentiment events1_3d events2_3d events1_1d events2_1d now)
         = Some signal ->
         (0 <? entryPrice signal) = true -> is_finite (entryPrice signal) = true ->
         is_nan (volatility (technicalIndicators signal)) = false ->
         is_nan (overallSentiment sentiment) = false ->
         match direction signal with
         | CALL => (stopLoss signal <=? entryPrice signal) = true
                   /\ (entryPrice signal <=? takeProfit signal) = true
         | PUT => (takeProfit signal <=? entryPrice signal) = true
                  /\ (entryPrice signal <=? stopLoss signal) = true
         end).
Proof.
  split.
  - intros e st symbol duration historicalData currentData now signal.
    unfold Basic.generateTradingSignal.
    destruct (length historicalData =? 0)%nat; [discriminate|].
    destruct currentData as [currentData|]; [|discriminate].
    set (indicators := calculateTechnicalIndicators Math_log _).
    pose proof (indicators_volatility Math_log (historicalData ++ [currentData]))
      as Hvol. fold indicators in Hvol.
    unfold Basic.combineSignals.
    destruct (JS.gtb _ 0.6); [|destruct (_ <? 0.4); [|discriminate]];
      cbn [fst]; intros E; injection E as <-;
      cbn [entryPrice direction stopLoss takeProfit technicalIndicators];
      intros Hpos Hfin Hnan;
      pose proof (nonneg_of_not_negative _ Hvol Hnan) as Hv;
      assert (Hadj : (0 <=? volatility indicators * price currentData * 0.01) = true)
        by (apply mul_nonneg_pos; [apply mul_nonneg_pos; assumption|reflexivity ..]);
      (split; [apply sub_nonneg_le || apply add_nonneg_ge
              |apply add_nonneg_ge || apply sub_nonneg_le]);
      try assumption;
      apply mul_nonneg_pos; (assumption || reflexivity).
  - intros e st symbol duration historicalData currentData sentiment
           events1_3d events2_3d events1_1d events2_1d now signal.
    unfold Enhanced.generateTradingSignal.
    destruct (length historicalData =? 0)%nat; [discriminate|].
    destruct currentData as [currentData|]; [|discriminate].
    set (indicators := calculateTechnicalIndicators Math_log _).
    pose proof (indicators_volatility Math_log (historicalData ++ [currentData]))
      as Hvol. fold indicators in Hvol.
    destruct (mlModels e symbol) as [mlModel|]; [|discriminate].
    destruct (predict _ _ _ _) as [mlPrediction|]; [|discriminate].
    unfold Enhanced.combineSignals.
    destruct (JS.gtb _ 0.65); [|destruct (_ <? 0.35); [|discriminate]];
      cbn [fst]; intros E; injection E as <-;
      cbn [entryPrice direction stopLoss takeProfit technicalIndicators];
      intros Hpos Hfin Hnan Hsent;
      pose proof (nonneg_of_not_negative _ Hvol Hnan) as Hv;
      assert (Hadj : (0 <=? volatility indicators * price currentData * 0.015) = true)
        by (apply mul_nonneg_pos; [apply mul_nonneg_pos; assumption|reflexivity ..]);
      assert (Hsadj : (0 <=? JS.Math_abs (overallSentiment sentiment)
                             * price currentData * 0.005) = true)
        by (apply mul_nonneg_pos;
            [apply mul_nonneg_pos; [apply abs_nonneg|..]; assumption
            |reflexivity ..]);
      (split; [apply sub_nonneg_le || apply add_nonneg_ge
              |apply add_nonneg_ge || apply sub_nonneg_le]);
      try assumption;
      first [ apply add_nonneg; assumption
            | apply mul_nonneg_pos; (assumption || reflexivity) ].
Qed.

End Stops.

Lemma stops_bracket_entry_witness :
  (exists signal,
      fst (Basic.generateTradingSignal (fun x => x) (fun _ => 0)
             (fun _ => EmptyString) emptyEngine emptyStorage "EURUSD" 1
             [flatBar] (Some flatBar) 1700000000000) = Some signal
      /\ direction signal = CALL
      /\ (stopLoss signal <=? entryPrice signal) = true
      /\ (entryPrice signal <=? takeProfit signal) = true)
  /\ (exists signal,
         fst (Enhanced.generateTradingSignal (fun x => x) (fun x => x)
                (fun _ => 0) (fun _ => EmptyString) (fun _ => EmptyString)
                biasedEngine emptyStorage "EURUSD" 1 spikeHistory
                (Some spikeCurrent)
                {| overallSentiment := -1; newsCount := 2;
                   socialMediaMentions := 600; fearGreedIndex := 50 |}
                [] [] [] [] 1700000000000) = Some signal
         /\ direction signal = PUT
         /\ (takeProfit signal <=? entryPrice signal) = true
         /\ (entryPrice signal <=? stopLoss signal) = true).
Proof.
  destruct (stops_bracket_entry (fun x => x) (fun x => x) (fun _ => 0)
              (fun _ => EmptyString) (fun _ => EmptyString)) as [HB HE].
  split.
  - destruct (fst (Basic.generateTradingSignal (fun x => x) (fun _ => 0)
             (fun _ => EmptyString) emptyEngine emptyStorage "EURUSD" 1
             [flatBar] (Some flatBar) 1700000000000)) as [signal|] eqn:E;
      [|vm_compute in E; discriminate E].
    pose proof E as E'. vm_compute in E'. injection E' as <-.
    eexists. split; [reflexivity|]. split; [reflexivity|].
    exact (HB _ _ _ _ _ _ _ _ E eq_refl eq_refl eq_refl).
  - destruct (fst (Enhanced.generateTradingSignal (fun x => x) (fun x => x)
                (fun _ => 0) (fun _ => EmptyString) (fun _ => EmptyString)
                biasedEngine emptyStorage "EURUSD" 1 spikeHistory
                (Some spikeCurrent)
                {| overallSentiment := -1; newsCount := 2;
                   socialMediaMentions := 600; fearGreedIndex := 50 |}
                [] [] [] [] 1700000000000)) as [signal|] eqn:E;
      [|vm_compute in E; discriminate E].
    pose proof E as E'. vm_compute in E'. injection E' as <-.
    eexists. split; [reflexivity|]. split; [reflexivity|].
    exact (HE _ _ _ _ _ _ _ _ _ _ _ _ _ E eq_refl eq_refl eq_refl eq_refl).
Defined.

(** ** Predictions between 0 and 1 *)

Lemma scorer_confidence_range (indicators : TechnicalIndicators)
      (currentData : MarketData) :
  let c := confidence (analyzeRuleBasedSignals indicators currentData) in
  (0 <=? c) && (c <=? 1) = true.
Proof.
  unfold analyzeRuleBasedSignals.
  set (s := rule_check _ _ "Price near support level - potential bounce" _ _).
  assert (H : counted 6 s).
  { subst s.
    repeat (apply rule_check_counted; [lia|reflexivity|reflexivity|]).
    exists 0%nat, 0%nat. repeat split; lia. }
  clearbody s. revert s H.
  intros [[b r] reasons] (nb & nr & Hlen & Hle & -> & -> & Hc).
  cbv zeta. cbn [confidence]. clear Hc Hlen reasons.
  do 7 (destruct nb as [|nb];
        [do 7 (destruct nr as [|nr]; [first [lia | vm_compute; reflexivity]|]);
         lia|]).
  lia.
Qed.

Section UnitInterval.

Variable Math_exp : float -> float.
Variable Math_tanh : float -> float.

(** [Math.exp] is implementation-approximated, but no implementation
    returns a negative number. *)
Hypothesis Math_exp_not_negative : forall x, (Math_exp x <? 0) = false.

Lemma one_over (y : float) :
  Prim2SF y = S754_infinity false
  \/ (exists m e, Prim2SF y = S754_finite false m e
                  /\ (1 <= dyadic (Z.pos m) e)%R) ->
  (0 <=? 1 / y) && (1 / y <=? 1) = true.
Proof.
  intros H. apply (range_of_at_most _ 1 _ _ Prim2SF_1).
  rewrite div_spec, Prim2SF_1. destruct H as [->|(m & e & -> & Hge)].
  - exact I.
  - apply (div_at_most _ 1%R (dyadic (Z.pos m) e)).
    + rewrite dyadic_of_1. rewrite <- dyadic_of_1.
      exact (is_double_of_float _ _ _ Prim2SF_1).
    + cbn [at_most]. rewrite dyadic_of_1. apply Rle_refl.
    + reflexivity.
    + apply dyadic_pos.
    + rewrite dyadic_of_1.
      apply (Rmult_le_reg_r (dyadic (Z.pos m) e)); [apply dyadic_pos|].
      unfold Rdiv. rewrite Rmult_assoc, Rinv_l, Rmult_1_r, Rmult_1_l; [exact Hge|].
      pose proof (dyadic_pos m e). apply Rgt_not_eq. exact H.
Qed.

(** The sigmoid is NaN or lies in [[0, 1]]. *)
Lemma sigmoid_range (x : float) :
  let s := 1 / (1 + Math_exp (- x)) in
  is_nan s = true \/ (0 <=? s) && (s <=? 1) = true.
Proof.
  intros s. subst s.
  pose proof (proj2 (not_negative_ltb _) (Math_exp_not_negative (- x))) as Hn.
  destruct (one_plus_not_negative _ Hn) as [E|H].
  - left. apply nan_of_shape. rewrite div_spec, E.
    destruct (Prim2SF 1); reflexivity.
  - right. apply one_over, H.
Qed.


(** The last row of activations is the sigmoid of the last row of sums. *)
Lemma forward_layers_last (m : MLModelTraining) (remaining : list (list float)) :
  forall (layer : nat) (outputs activations : list (list float))
         (outputs' activations' : list (list float)),
    remaining <> [] ->
    (layer + length remaining = length (weights m))%nat ->
    forward_layers Math_exp Math_tanh m remaining layer outputs activations
    = Some (outputs', activations') ->
    exists sums,
      last activations' []
      = map (fun sum => activate Math_exp Math_tanh sum "sigmoid") sums.
Proof.
  induction remaining as [|layerWeights remaining IH];
    intros layer outputs activations outputs' activations' Hne Hlen; [congruence|].
  cbn [forward_layers]. cbn [length] in Hlen.
  destruct (nth_error (biases m) layer) as [layerBiases|]; [|discriminate].
  destruct remaining as [|w' remaining'].
  - cbn [forward_layers]. intros E. injection E as <- <-.
    replace (layer =? length (weights m) - 1)%nat with true
      by (symmetry; apply Nat.eqb_eq; cbn [length] in Hlen; lia).
    eexists. rewrite last_last. reflexivity.
  - apply IH; [discriminate|lia].
Qed.

(** Both networks answer NaN or a number in [[0, 1]]: the fallback
    network of the engine (0.5 when it has no weights for the symbol), and
    the layered network of [MLModelTraining] whenever it has at least one
    layer -- whatever the weights, the features and the sizes. *)
Theorem predictions_in_unit_interval :
  (forall (features : list float) (weights : option (list float)),
      let p := neuralNetworkPredict Math_exp features weights in
      is_nan p = true \/ (0 <=? p) && (p <=? 1) = true)
  /\ (forall (m : MLModelTraining) (features : list float) (p : float),
         weights m <> [] ->
         predict Math_exp Math_tanh m features = Some p ->
         is_nan p = true \/ (0 <=? p) && (p <=? 1) = true).
Proof.
  split.
  - intros features [weights|]; [|right; reflexivity].
    unfold neuralNetworkPredict, sigmoid. cbv zeta. apply sigmoid_range.
  - intros m features p Hne. unfold predict, forwardPropagate.
    destruct (forward_layers Math_exp Math_tanh m (weights m) 0 [features] [features])
      as [[outputs' activations']|] eqn:E; [|discriminate].
    intros Hp. injection Hp as <-.
    destruct (forward_layers_last m (weights m) 0 _ _ _ _ Hne eq_refl E)
      as (sums & ->).
    destruct sums as [|sum sums]; [left; reflexivity|].
    cbn [map JS.get nth]. unfold activate. cbn [String.eqb Ascii.eqb Bool.eqb].
    apply sigmoid_range.
Qed.

(** In the first revision the confidence of every emitted signal lies in
    [[0, 1]]: the model term is 0.5, or a sigmoid, which lies in [[0, 1]]
    when it is a number; the rule term lies in [[0, 1]]; and a NaN model
    term gives no signal at all. *)
Theorem basic_signal_confidence_range :
  forall (Math_log : float -> float) (toFixed1 : float -> string)
         (e : Engine) (st : AsyncStorage) (symbol : string) (duration : nat)
         (historicalData : list MarketData) (currentData : option MarketData)
         (now : float) (signal : TradingSignal),
    fst (Basic.generateTradingSignal Math_exp Math_log toFixed1 e st symbol
           duration historicalData currentData now) = Some signal ->
    (0 <=? sig_confidence signal) && (sig_confidence signal <=? 1) = true.
Proof.
  intros Math_log toFixed1 e st symbol duration historicalData currentData now
         signal.
  unfold Basic.generateTradingSignal.
  destruct (length historicalData =? 0)%nat; [discriminate|].
  destruct currentData as [currentData|]; [|discriminate].
  set (indicators := calculateTechnicalIndicators Math_log _).
  set (features := extractFeatures _ _).
  set (mlPrediction := neuralNetworkPredict Math_exp features _).
  pose proof (scorer_confidence_range indicators currentData) as Hrule.
  cbv zeta in Hrule.
  set (rules := analyzeRuleBasedSignals indicators currentData) in *.
  assert (Hml : is_nan mlPrediction = true
                \/ (0 <=? mlPrediction) && (mlPrediction <=? 1) = true).
  { subst mlPrediction.
    destruct (modelWeights e symbol) as [weights|]; [|right; reflexivity].
    unfold neuralNetworkPredict, sigmoid. cbv zeta. apply sigmoid_range. }
  unfold Basic.combineSignals.
  destruct Hml as [Hnan|Hml].
  - assert (E : mlPrediction = nan).
    { apply float_is_nan. unfold is_nan in Hnan.
      rewrite negb_true_iff, eqb_spec in Hnan.
      destruct (Prim2SF mlPrediction) as [s|s| |s m0 e0] eqn:Es; try reflexivity;
        exfalso; revert Hnan; unfold SFeqb; cbn [SFcompare];
        try (destruct s; discriminate).
      rewrite Z.compare_refl, Pos.compare_cont_refl. destruct s; discriminate. }
    unfold Basic.combinedConfidence. rewrite E, mul_nan_l, add_nan_l, gt_nan, lt_nan.
    discriminate.
  - destruct (Basic_confidence_range mlPrediction rules Hml Hrule) as [_ Hrep].
    cbv zeta in Hrep.
    destruct (JS.gtb _ 0.6); [|destruct (_ <? 0.4); [|discriminate]];
      cbn [fst]; intros E; injection E as <-; cbn [sig_confidence]; exact Hrep.
Qed.

End UnitInterval.

Lemma predictions_in_unit_interval_witness :
  smallModel.(weights) <> []
  /\ exists p, predict (fun x => abs x) (fun x => x) smallModel [0.5; 0.25] = Some p
               /\ (is_nan p = true \/ (0 <=? p) && (p <=? 1) = true).
Proof.
  assert (Hne : weights smallModel <> []) by discriminate.
  assert (Hexp : forall x, (abs x <? 0) = false).
  { intros x. apply not_negative_ltb. rewrite abs_spec.
    destruct (Prim2SF x) as [s|s| |s m e]; exact I. }
  split; [exact Hne|].
  destruct (predict (fun x => abs x) (fun x => x) smallModel [0.5; 0.25])
    as [p|] eqn:E; [|vm_compute in E; discriminate E].
  exists p. split; [reflexivity|].
  exact (proj2 (predictions_in_unit_interval (fun x => abs x) (fun x => x) Hexp)
               smallModel [0.5; 0.25] p Hne E).
Defined.

Lemma basic_signal_confidence_range_witness :
  exists signal,
    fst (Basic.generateTradingSignal (fun x => abs x) (fun _ => 0)
           (fun _ => EmptyString) emptyEngine emptyStorage "EURUSD" 1
           [flatBar] (Some flatBar) 1700000000000) = Some signal
    /\ (0 <=? sig_confidence signal) && (sig_confidence signal <=? 1) = true.
Proof.
  assert (Hexp : forall x, (abs x <? 0) = false).
  { intros x. apply not_negative_ltb. rewrite abs_spec.
    destruct (Prim2SF x) as [s|s| |s m e]; exact I. }
  destruct (fst (Basic.generateTradingSignal (fun x => abs x) (fun _ => 0)
           (fun _ => EmptyString) emptyEngine emptyStorage "EURUSD" 1
           [flatBar] (Some flatBar) 1700000000000)) as [signal|] eqn:E;
    [|vm_compute in E; discriminate E].
  exists signal. split; [reflexivity|].
  exact (basic_signal_confidence_range (fun x => abs x) Hexp (fun _ => 0)
           (fun _ => EmptyString) emptyEngine emptyStorage "EURUSD" 1%nat
           [flatBar] (Some flatBar) 1700000000000 signal E).
Defined.

(** ** Feature vectors and training samples *)

(** The sizes of the feature vectors.  The first revision extracts 15
    features.  The sentiment revision returns 18 zeros on an empty history
    and 19 features otherwise (15 technical, 2 sentiment, 2 economic),
    while it builds its models for 18 inputs. *)
Theorem feature_vector_sizes :
  (forall marketData indicators,
      length (extractFeatures marketData indicators) = 15%nat)
  /\ (forall indicators now sentiment upcomingEvents1 upcomingEvents2,
         Enhanced.extractEnhancedFeatures [] indicators now sentiment
                                          upcomingEvents1 upcomingEvents2
         = repeat 0 18)
  /\ (forall bar bars indicators now sentiment upcomingEvents1 upcomingEvents2,
         length (Enhanced.extractEnhancedFeatures (bar :: bars) indicators now
                   sentiment upcomingEvents1 upcomingEvents2) = 19%nat)
  /\ p_inputSize engine_architecture = Some 18%nat.
Proof.
  repeat split.
  - intros [|bar bars] indicators; [reflexivity|].
    unfold extractFeatures. apply normalizeData_length.
  - intros. unfold Enhanced.extractEnhancedFeatures.
    rewrite length_app, normalizeData_length. reflexivity.
Qed.

Lemma flat_map_upto {A : Type} (h : nat -> A) (g : nat -> list A) (k N : nat) :
  (forall i, (i < N)%nat -> g i = if (i <? k)%nat then [h i] else []) ->
  forall n, (n <= N)%nat -> flat_map g (seq 0 n) = map h (seq 0 (Nat.min n k)).
Proof.
  intros Hg. induction n as [|n IH]; intros Hn; [reflexivity|].
  rewrite seq_S, flat_map_app, IH by lia. cbn [flat_map Nat.add].
  rewrite Hg, app_nil_r by lia.
  destruct (n <? k)%nat eqn:E.
  - apply Nat.ltb_lt in E.
    replace (Nat.min (S n) k) with (S (Nat.min n k)) by lia.
    rewrite seq_S, map_app. cbn [map Nat.add].
    replace (Nat.min n k) with n by lia. reflexivity.
  - apply Nat.ltb_ge in E. rewrite app_nil_r.
    replace (Nat.min (S n) k) with (Nat.min n k) by lia. reflexivity.
Qed.

Section TrainingSamples.

Variable Math_tanh : float -> float.

(** [prepareTrainingData] as one sample per index. *)
Lemma prepareTrainingData_map (marketDataHistory : list MarketData)
      (indicatorsHistory : list TechnicalIndicators) :
  exists sample : nat -> TrainingData,
    prepareTrainingData Math_tanh marketDataHistory indicatorsHistory
    = map sample
          (seq 0 (Nat.min (length marketDataHistory - 1) (length indicatorsHistory)))
    /\ forall i currentData nextData,
        (i < length indicatorsHistory)%nat ->
        nth_error marketDataHistory i = Some currentData ->
        nth_error marketDataHistory (S i) = Some nextData ->
        length (td_features (sample i)) = 15%nat
        /\ td_timestamp (sample i) = timestamp currentData
        /\ td_label (sample i)
           = if JS.gtb (price nextData) (price currentData) then 1 else 0.
Proof.
  unfold prepareTrainingData.
  match goal with
  | |- context [flat_map ?g0 _] => set (g := g0)
  end.
  set (dummy := {| td_features := []; td_label := 0; td_timestamp := 0 |}).
  exists (fun i => hd dummy (g i)). split.
  - apply (flat_map_upto _ g _ (length marketDataHistory - 1)); [|lia].
    intros i Hi. subst g. cbv beta.
    destruct (nth_error marketDataHistory i) as [currentData|] eqn:E1;
      [|apply nth_error_None in E1; lia].
    destruct (nth_error marketDataHistory (i + 1)) as [nextData|] eqn:E2;
      [|apply nth_error_None in E2; lia].
    destruct (nth_error indicatorsHistory i) as [indicators|] eqn:E3.
    + replace (i <? length indicatorsHistory)%nat with true; [reflexivity|].
      symmetry. apply Nat.ltb_lt, nth_error_Some. congruence.
    + replace (i <? length indicatorsHistory)%nat with false; [reflexivity|].
      symmetry. apply Nat.ltb_ge, nth_error_None. exact E3.
  - intros i currentData nextData Hi E1 E2. subst g. cbv beta.
    rewrite E1. replace (i + 1)%nat with (S i) by lia. rewrite E2.
    destruct (nth_error indicatorsHistory i) as [indicators|] eqn:E3;
      [|apply nth_error_None in E3; lia].
    cbn [hd td_features td_timestamp td_label length]. repeat split.
Qed.

(** The samples [prepareTrainingData] builds: one per bar that has a
    successor and an indicator snapshot, in the order of the bars; each
    carries 15 features, the timestamp of its bar, and the label 1 when the
    next close is higher and 0 otherwise. *)
Theorem prepareTrainingData_samples :
  forall (marketDataHistory : list MarketData)
         (indicatorsHistory : list TechnicalIndicators),
    let samples := prepareTrainingData Math_tanh marketDataHistory indicatorsHistory in
    length samples
    = Nat.min (length marketDataHistory - 1) (length indicatorsHistory)
    /\ forall i currentData nextData sample,
        nth_error samples i = Some sample ->
        nth_error marketDataHistory i = Some currentData ->
        nth_error marketDataHistory (S i) = Some nextData ->
        length (td_features sample) = 15%nat
        /\ td_timestamp sample = timestamp currentData
        /\ td_label sample
           = if JS.gtb (price nextData) (price currentData) then 1 else 0.
Proof.
  intros md ind samples. subst samples.
  destruct (prepareTrainingData_map md ind) as (sample & -> & Hs).
  rewrite length_map, length_seq. split; [reflexivity|].
  intros i currentData nextData s Hnth E1 E2.
  rewrite nth_error_map, nth_error_seq in Hnth.
  destruct (i <? Nat.min (length md - 1) (length ind))%nat eqn:Hi;
    [|discriminate].
  apply Nat.ltb_lt in Hi. cbn in Hnth. injection Hnth as <-.
  apply Hs; auto. lia.
Qed.

End TrainingSamples.

Lemma prepareTrainingData_samples_witness :
  exists sample,
    nth_error (prepareTrainingData (fun x => x) [flatBar; spikeCurrent; flatBar]
                 (map (fun n => calculateTechnicalIndicators (fun x => x)
                                  (repeat flatBar n)) [1; 2; 3]%nat))
              0 = Some sample
    /\ length (td_features sample) = 15%nat
    /\ td_timestamp sample = 0
    /\ td_label sample = 1.
Proof.
  destruct (nth_error (prepareTrainingData (fun x => x) [flatBar; spikeCurrent; flatBar]
                 (map (fun n => calculateTechnicalIndicators (fun x => x)
                                  (repeat flatBar n)) [1; 2; 3]%nat)) 0)
    as [sample|] eqn:E; [|vm_compute in E; discriminate E].
  exists sample. split; [reflexivity|].
  exact (proj2 (prepareTrainingData_samples (fun x => x)
                  [flatBar; spikeCurrent; flatBar]
                  (map (fun n => calculateTechnicalIndicators (fun x => x)
                                   (repeat flatBar n)) [1; 2; 3]%nat))
               0%nat flatBar spikeCurrent sample E eq_refl eq_refl).
Defined.

Lemma predict_throws_iff_witness :
  predict (fun x => x) (fun x => x)
          {| m_symbol := "EURUSD"; architecture := architecture smallModel;
             weights := weights smallModel; biases := [[0; 0.1]];
             trainingHistory := [] |} [0.5; 0.25] = None
  /\ exists outputs activations,
      forwardPropagate (fun x => x) (fun x => x) smallModel [0.5; 0.25]
      = Some (outputs, activations)
      /\ length outputs = 3%nat /\ length (nth 1 outputs []) = 2%nat.
Proof.
  split.
  - apply (proj1 (predict_throws_iff (fun x => x) (fun x => x) _ [0.5; 0.25])).
    cbn. lia.
  - destruct (forwardPropagate (fun x => x) (fun x => x) smallModel [0.5; 0.25])
      as [[outputs activations]|] eqn:E; [|vm_compute in E; discriminate E].
    exists outputs, activations. split; [reflexivity|].
    destruct (proj2 (predict_throws_iff (fun x => x) (fun x => x) smallModel
                       [0.5; 0.25]) outputs activations E)
      as (H1 & _ & _ & _ & H5).
    split; [exact H1|]. exact (proj1 (H5 0%nat ltac:(cbn; lia))).
Defined.

(** ** What the training loop trains *)

Section TrainingLoop.

Variable Math_log : float -> float.
Variable Math_tanh : float -> float.
Variable fetchHistoricalData : string -> string -> list MarketData.
Variable trainModel :
  MLModelTraining -> list TrainingData -> AsyncStorage ->
  result (list TrainingMetrics) * MLModelTraining * AsyncStorage.

Let loop := train_loop Math_log Math_tanh fetchHistoricalData trainModel.

(** The samples the loop prepares from a year of history. *)
Let samples (historicalData : list MarketData) : list TrainingData :=
  prepareTrainingData Math_tanh (skipn 20 historicalData)
    (map (fun i => calculateTechnicalIndicators Math_log
                     (firstn (i + 1) historicalData))
         (seq 20 (length historicalData - 20))).

Lemma samples_length (historicalData : list MarketData) :
  length (samples historicalData) = (length historicalData - 21)%nat.
Proof.
  unfold samples.
  destruct (prepareTrainingData_map Math_tanh (skipn 20 historicalData)
              (map (fun i => calculateTechnicalIndicators Math_log
                               (firstn (i + 1) historicalData))
                   (seq 20 (length historicalData - 20)))) as (sample & -> & _).
  rewrite length_map, length_seq, length_skipn, length_map, length_seq. lia.
Qed.

Lemma train_loop_no_data (symbols : list string) :
  (forall s, In s symbols ->
             (length (fetchHistoricalData (s ++ "=X") "1y") < 100)%nat) ->
  forall results e st, loop symbols results e st = (None, results, e, st).
Proof.
  unfold loop. induction symbols as [|sym rest IH]; intros Hs results e st;
    [reflexivity|].
  cbn [train_loop].
  replace (length (fetchHistoricalData (sym ++ "=X") "1y") <? 100)%nat with true
    by (symmetry; apply Nat.ltb_lt, Hs; left; reflexivity).
  apply IH. intros s Hin. apply Hs. right. exact Hin.
Qed.

(** What one round of the training loop does with a symbol.  With fewer
    than 100 bars of history, or without a model, the symbol is skipped and
    nothing changes.  With [n >= 100] bars there are [n - 20] indicator
    snapshots and [n - 21] samples, which is more than 50: the guard on the
    number of samples never holds a model back, the model is trained, and
    an exception from training leaves the loop.  When every symbol asked
    for lacks data, [trainModels] returns no results and changes neither
    the engine nor the store. *)
Theorem trainModels_trains_or_skips :
  forall (sym : string) (rest : list string)
         (results : list (string * list TrainingMetrics))
         (e : Engine) (st : AsyncStorage),
    let historicalData := fetchHistoricalData (sym ++ "=X") "1y" in
    let n := length historicalData in
    ((n < 100)%nat \/ mlModels e sym = None ->
     loop (sym :: rest) results e st = loop rest results e st)
    /\ ((100 <= n)%nat ->
        forall mlModel, mlModels e sym = Some mlModel ->
          length (samples historicalData) = (n - 21)%nat
          /\ loop (sym :: rest) results e st
             = match trainModel mlModel (samples historicalData) st with
               | (Ok metrics, mlModel', st') =>
                   loop rest (results ++ [(sym, metrics)])
                        (set_mlModel e sym mlModel') st'
               | (Throw err, mlModel', st') =>
                   (Some err, results, set_mlModel e sym mlModel', st')
               end)
    /\ (forall symbol,
           isTraining e = false ->
           (forall s, (length (fetchHistoricalData (s ++ "=X") "1y") < 100)%nat) ->
           trainModels Math_log Math_tanh fetchHistoricalData trainModel e st symbol
           = (Ok [], (e, st))).
Proof.
  intros sym rest results e st historicalData n. repeat split.
  - intros [Hn|Hm]; unfold loop; cbn [train_loop]; fold historicalData.
    + replace (length historicalData <? 100)%nat with true
        by (symmetry; apply Nat.ltb_lt; exact Hn).
      reflexivity.
    + destruct (length historicalData <? 100)%nat; [reflexivity|].
      rewrite Hm. reflexivity.
  - apply samples_length.
  - unfold loop. cbn [train_loop]. fold historicalData.
    replace (length historicalData <? 100)%nat with false
      by (symmetry; apply Nat.ltb_ge; exact H).
    rewrite H0. fold (samples historicalData).
    replace (50 <? length (samples historicalData))%nat with true; [reflexivity|].
    symmetry. apply Nat.ltb_lt. rewrite samples_length. fold n. lia.
  - intros symbol Hflag Hdata. unfold trainModels. rewrite Hflag.
    fold loop. rewrite train_loop_no_data by (intros; apply Hdata).
    destruct e as [mw ml hp tr]. cbn in Hflag. subst tr. reflexivity.
Qed.

End TrainingLoop.

Lemma trainModels_trains_or_skips_witness :
  let fetch := fun (_ _ : string) => repeat flatBar 120 in
  let train :=
    fun (m : MLModelTraining) (_ : list TrainingData) (st : AsyncStorage) =>
      (Ok (trainingHistory smallModel), m, st) in
  train_loop (fun x => x) (fun x => x) fetch train
             ["EURJPY"; "EURUSD"]%string [] biasedEngine emptyStorage
  = train_loop (fun x => x) (fun x => x) fetch train
               ["EURUSD"]%string [] biasedEngine emptyStorage
  /\ trainModels (fun x => x) (fun x => x) (fun _ _ => repeat flatBar 99) train
                 biasedEngine emptyStorage None
     = (Ok [], (biasedEngine, emptyStorage)).
Proof.
  intros fetch train. split.
  - refine (proj1 (trainModels_trains_or_skips (fun x => x) (fun x => x) fetch train
                     "EURJPY"%string ["EURUSD"%string] [] biasedEngine emptyStorage)
                  _).
    right. reflexivity.
  - refine (proj2 (proj2 (trainModels_trains_or_skips
                     (fun x => x) (fun x => x) (fun _ _ => repeat flatBar 99) train
                     "EURJPY"%string [] [] biasedEngine emptyStorage))
                  None eq_refl _).
    intros s. vm_compute. lia.
Defined.

(** ** Outcomes are never resolved *)

Lemma predictions_key_eqb (s s' : string) :
  String.eqb (predictions_key s) (predictions_key s') = String.eqb s s'.
Proof. reflexivity. Qed.

Lemma setItem_spec (key : string) (blob : Blob) (st st' : AsyncStorage) :
  setItem key blob st = Ok st' ->
  writeFails st = false
  /\ st' = {| items := fun k' => if String.eqb k' key then Some blob
                                 else items st k';
              readFails := readFails st;
              writeFails := writeFails st |}.
Proof.
  unfold setItem. destruct (writeFails st); [discriminate|].
  intros H. injection H as <-. split; reflexivity.
Qed.

(** A write keeps the logs unresolved when what it writes is no log or an
    unresolved one. *)
Lemma unresolved_setItem (key : string) (blob : Blob) (st st' : AsyncStorage) :
  unresolved_logs st ->
  (forall log, blob = BlobPredictions log ->
               Forall (fun p => actualOutcome p = None) log) ->
  setItem key blob st = Ok st' ->
  unresolved_logs st'.
Proof.
  intros Hst Hblob Hset symbol.
  apply setItem_spec in Hset. destruct Hset as [_ ->].
  specialize (Hst symbol). unfold stored_log in *. cbn [items].
  destruct (String.eqb (predictions_key symbol) key); [|exact Hst].
  destruct blob as [md|log|]; try constructor.
  apply Hblob. reflexivity.
Qed.

Lemma unresolved_of_items (st : AsyncStorage) (symbol : string)
      (log : list StoredPrediction) :
  unresolved_logs st ->
  items st (predictions_key symbol) = Some (BlobPredictions log) ->
  Forall (fun p => actualOutcome p = None) log.
Proof.
  intros Hst Hitem. specialize (Hst symbol). unfold stored_log in Hst.
  now rewrite Hitem in Hst.
Qed.

Lemma Forall_slice_last {A : Type} (P : A -> Prop) (n : nat) (xs : list A) :
  Forall P xs -> Forall P (JS.slice_last n xs).
Proof.
  intros H. unfold JS.slice_last. destruct n; [exact H|].
  apply Forall_forall. intros x Hx. rewrite Forall_forall in H. apply H.
  rewrite <- (firstn_skipn (length xs - S n) xs). apply in_or_app. now right.
Qed.

Lemma Forall_filter {A : Type} (P : A -> Prop) (f : A -> bool) (xs : list A) :
  Forall P xs -> Forall P (filter f xs).
Proof.
  intros H. apply Forall_forall. intros x Hx. rewrite Forall_forall in H.
  apply H. apply filter_In in Hx. tauto.
Qed.

Lemma storePrediction_unresolved (e : Engine) (st : AsyncStorage)
      (symbol : string) (signal : TradingSignal) (features : list float) :
  unresolved_logs st ->
  unresolved_logs (snd (storePrediction e st symbol signal features)).
Proof.
  intros Hst. unfold storePrediction, storePrediction_try, getItem.
  destruct (readFails st); [exact Hst|].
  assert (Hnew : forall old,
             Forall (fun p => actualOutcome p = None) old ->
             forall kept,
               kept = (let predictions :=
                         old ++ [ {| sp_timestamp := JSON_number (sig_timestamp signal);
                                     sp_prediction := direction signal;
                                     sp_confidence := JSON_number (sig_confidence signal);
                                     sp_features := map JSON_number features;
                                     actualOutcome := None |} ] in
                       if (1000 <? length predictions)%nat
                       then JS.slice_last 1000 predictions else predictions) ->
               Forall (fun p => actualOutcome p = None) kept).
  { intros old Hold kept ->. cbv zeta.
    match goal with |- context [old ++ [?x]] =>
      assert (Happ : Forall (fun p => actualOutcome p = None) (old ++ [x]))
        by (apply Forall_app; split; [exact Hold|repeat constructor])
    end.
    destruct (1000 <? _)%nat; [apply Forall_slice_last|]; exact Happ. }
  destruct (items st (predictions_key symbol)) as [[md|log|]|] eqn:Hitem;
    cbn [parse_predictions]; try exact Hst.
  - match goal with |- context [setItem ?k ?b st] =>
      destruct (setItem k b st) as [st'|err] eqn:Hset; [|exact Hst]
    end.
    cbn [snd]. eapply unresolved_setItem; [exact Hst| |exact Hset].
    intros log' Hlog'. injection Hlog' as <-.
    apply (Hnew log); [|reflexivity]. eapply unresolved_of_items; eauto.
  - match goal with |- context [setItem ?k ?b st] =>
      destruct (setItem k b st) as [st'|err] eqn:Hset; [|exact Hst]
    end.
    cbn [snd]. eapply unresolved_setItem; [exact Hst| |exact Hset].
    intros log' Hlog'. injection Hlog' as <-.
    apply (Hnew []); [constructor|reflexivity].
Qed.

Lemma saveCachedData_unresolved (st : AsyncStorage) :
  unresolved_logs st -> unresolved_logs (saveCachedData st).
Proof.
  intros Hst. unfold saveCachedData.
  destruct (setItem _ BlobOther st) as [st1|] eqn:H1; [|exact Hst].
  assert (Hst1 : unresolved_logs st1)
    by (eapply unresolved_setItem; [exact Hst| |exact H1]; discriminate).
  destruct (setItem _ BlobOther st1) as [st2|] eqn:H2; [|exact Hst1].
  assert (Hst2 : unresolved_logs st2)
    by (eapply unresolved_setItem; [exact Hst1| |exact H2]; discriminate).
  destruct (setItem _ BlobOther st2) as [st3|] eqn:H3; [|exact Hst2].
  eapply unresolved_setItem; [exact Hst2| |exact H3]; discriminate.
Qed.

Lemma cleanOldPredictions_unresolved (symbols : list string) (days : float)
      (now : string -> float) :
  forall st, unresolved_logs st ->
             unresolved_logs (cleanOldPredictions symbols days now st).
Proof.
  induction symbols as [|symbol rest IH]; intros st Hst; [exact Hst|].
  cbn [cleanOldPredictions]. unfold getItem.
  destruct (readFails st); [exact Hst|].
  destruct (items st (predictions_key symbol)) as [[md|log|]|] eqn:Hitem;
    cbn [parse_predictions]; try exact Hst; [|apply IH; exact Hst].
  match goal with |- context [setItem ?k ?b st] =>
    destruct (setItem k b st) as [st'|err] eqn:Hset; [|exact Hst]
  end.
  apply IH. eapply unresolved_setItem; [exact Hst| |exact Hset].
  intros log' Hlog'. injection Hlog' as <-.
  apply Forall_filter. eapply unresolved_of_items; eauto.
Qed.

Lemma saveModel_unresolved (m : MLModelTraining) (now : float)
      (st : AsyncStorage) :
  unresolved_logs st -> unresolved_logs (saveModel m now st).
Proof.
  intros Hst. unfold saveModel.
  match goal with |- context [setItem ?k ?b st] =>
    destruct (setItem k b st) as [st'|err] eqn:Hset; [|exact Hst]
  end.
  eapply unresolved_setItem; [exact Hst| |exact Hset]. discriminate.
Qed.

Lemma engine_step_unresolved (st st' : AsyncStorage) :
  engine_step st st' -> unresolved_logs st -> unresolved_logs st'.
Proof.
  intros Hstep Hst. destruct Hstep.
  - apply storePrediction_unresolved, Hst.
  - unfold Basic.generateTradingSignal.
    destruct (length historicalData =? 0)%nat; [exact Hst|].
    destruct currentData as [currentData|]; [|exact Hst].
    unfold Basic.combineSignals.
    destruct (JS.gtb _ 0.6); [apply storePrediction_unresolved, Hst|].
    destruct (_ <? 0.4); [apply storePrediction_unresolved, Hst|exact Hst].
  - unfold Enhanced.generateTradingSignal.
    destruct (length historicalData =? 0)%nat; [exact Hst|].
    destruct currentData as [currentData|]; [|exact Hst].
    destruct (mlModels e symbol) as [mlModel|]; [|exact Hst].
    destruct (predict _ _ _ _) as [mlPrediction|]; [|exact Hst].
    unfold Enhanced.combineSignals.
    destruct (JS.gtb _ 0.65); [apply storePrediction_unresolved, Hst|].
    destruct (_ <? 0.35); [apply storePrediction_unresolved, Hst|exact Hst].
  - apply cleanOldPredictions_unresolved, saveCachedData_unresolved, Hst.
  - apply saveModel_unresolved, Hst.
  - exact Hst.
Qed.

Lemma evaluateModel_zero_of_unresolved (st : AsyncStorage) (symbol : string) :
  Forall (fun p => actualOutcome p = None) (stored_log st symbol) ->
  evaluateModel st symbol = zeroMetrics.
Proof.
  intros Hall.
  unfold evaluateModel, evaluateModel_try, getItem.
  unfold stored_log in Hall.
  destruct (readFails st); [reflexivity|].
  destruct (items st (predictions_key symbol)) as [[md|log|]|];
    cbn [parse_predictions]; try reflexivity.
  destruct (length log =? 0)%nat; [reflexivity|].
  rewrite (filter_unresolved log Hall). reflexivity.
Qed.

(** Nothing in the engine resolves an outcome: [storePrediction] logs
    every prediction with [actualOutcome] unset, and neither the signal
    generators, nor the cleaning, nor the saving of a model set it.  So
    from a store without resolved outcomes (an empty one, for instance),
    after any number of these operations, with the store failing or not
    in between, [evaluateModel] still returns the all-zero record for
    every symbol. *)
Theorem evaluateModel_always_zero :
  forall st st' : AsyncStorage,
    unresolved_logs st ->
    engine_run st st' ->
    unresolved_logs st'
    /\ forall symbol, evaluateModel st' symbol = zeroMetrics.
Proof.
  intros st st' Hst Hrun.
  assert (H : unresolved_logs st').
  { induction Hrun as [|st st' st'' _ IH Hstep]; [exact Hst|].
    eapply engine_step_unresolved; [exact Hstep|]. apply IH, Hst. }
  split; [exact H|].
  intros symbol. apply evaluateModel_zero_of_unresolved, H.
Qed.

Lemma evaluateModel_always_zero_witness :
  evaluateModel
    (cleanOldData 30 (fun _ => 1700000000000)
       (snd (storePrediction emptyEngine emptyStorage "EURUSD"
                             sampleSignal [0.25%float])))
    "EURUSD"
  = zeroMetrics.
Proof.
  refine (proj2 (evaluateModel_always_zero emptyStorage _ _ _) "EURUSD"%string).
  - intros symbol. constructor.
  - eapply run_step; [eapply run_step; [apply run_done|]|].
    + apply (step_storePrediction emptyEngine emptyStorage "EURUSD"%string
                                  sampleSignal [0.25%float]).
    + apply step_cleanOldData.
Defined.

(** ** Cleaning the prediction logs *)

Lemma model_key_not_predictions (s s' : string) :
  String.eqb (model_key s) (predictions_key s') = false.
Proof. reflexivity. Qed.

Lemma saveCachedData_spec (st : AsyncStorage) :
  readFails (saveCachedData st) = readFails st
  /\ writeFails (saveCachedData st) = writeFails st
  /\ (forall symbol, items (saveCachedData st) (predictions_key symbol)
                     = items st (predictions_key symbol))
  /\ (forall symbol, items (saveCachedData st) (model_key symbol)
                     = items st (model_key symbol)).
Proof.
  unfold saveCachedData, setItem.
  destruct (writeFails st) eqn:Hw; [repeat split; auto|].
  repeat (cbn [writeFails readFails items]; rewrite ?Hw).
  repeat split; auto.
Qed.

Lemma saveCachedData_stored_log (st : AsyncStorage) (symbol : string) :
  stored_log (saveCachedData st) symbol = stored_log st symbol.
Proof.
  unfold stored_log.
  now rewrite (proj1 (proj2 (proj2 (saveCachedData_spec st)))).
Qed.

Lemma saveCachedData_stores (st : AsyncStorage) (symbol : string) :
  stores (saveCachedData st) symbol = stores st symbol.
Proof.
  unfold stores.
  destruct (saveCachedData_spec st) as (-> & -> & -> & _). reflexivity.
Qed.

Lemma stored_log_update (st : AsyncStorage) (sym symbol : string)
      (log : list StoredPrediction) (r w : bool) :
  stored_log {| items := fun k' => if String.eqb k' (predictions_key sym)
                                   then Some (BlobPredictions log)
                                   else items st k';
                readFails := r; writeFails := w |} symbol
  = if String.eqb symbol sym then log else stored_log st symbol.
Proof.
  unfold stored_log. cbn [items]. rewrite predictions_key_eqb.
  destruct (String.eqb symbol sym); reflexivity.
Qed.

Lemma sub_nan_r (x : float) : x - nan = nan.
Proof.
  apply float_is_nan. rewrite sub_spec. change (Prim2SF nan) with S754_nan.
  destruct (Prim2SF x) as [s|s| |s m e]; reflexivity.
Qed.

Section Cleaning.

Variable days : float.
Variable now : string -> float.

(** [p.timestamp > cutoffTime] for the log of [symbol]. *)
Let recent (symbol : string) (p : StoredPrediction) : bool :=
  JS.gtb (ToNumber (sp_timestamp p))
         (now symbol - days * 24 * 60 * 60 * 1000).

Lemma cleanOldPredictions_shrinks (symbols : list string) :
  forall st symbol p,
    In p (stored_log (cleanOldPredictions symbols days now st) symbol) ->
    In p (stored_log st symbol).
Proof.
  induction symbols as [|sym rest IH]; intros st symbol p; [auto|].
  cbn [cleanOldPredictions]. unfold getItem.
  destruct (readFails st); [auto|].
  destruct (items st (predictions_key sym)) as [[md|log|]|] eqn:Hitem;
    cbn [parse_predictions]; auto.
  unfold setItem. destruct (writeFails st); [auto|].
  intros Hin. apply IH in Hin. revert Hin.
  unfold stored_log. cbn [items]. rewrite predictions_key_eqb.
  destruct (String.eqb symbol sym) eqn:Heq; [|auto].
  apply String.eqb_eq in Heq. subst sym. rewrite Hitem.
  intros Hin. apply filter_In in Hin. tauto.
Qed.

Lemma cleanOldPredictions_models (symbols : list string) :
  forall st symbol,
    items (cleanOldPredictions symbols days now st) (model_key symbol)
    = items st (model_key symbol).
Proof.
  induction symbols as [|sym rest IH]; intros st symbol; [auto|].
  cbn [cleanOldPredictions]. unfold getItem.
  destruct (readFails st); [auto|].
  destruct (items st (predictions_key sym)) as [[md|log|]|] eqn:Hitem;
    cbn [parse_predictions]; auto.
  unfold setItem. destruct (writeFails st); [auto|].
  rewrite IH. cbn [items]. now rewrite model_key_not_predictions.
Qed.

Lemma cleanOldPredictions_filters (symbols : list string) :
  NoDup symbols ->
  forall st,
    (forall symbol, In symbol symbols -> stores st symbol = true) ->
    forall symbol,
      stored_log (cleanOldPredictions symbols days now st) symbol
      = if existsb (String.eqb symbol) symbols
        then filter (recent symbol) (stored_log st symbol)
        else stored_log st symbol.
Proof.
  induction 1 as [|sym rest Hnotin Hnodup IH]; intros st Hstores symbol;
    [reflexivity|].
  pose proof (Hstores sym (or_introl eq_refl)) as Hsym.
  unfold stores in Hsym.
  destruct (readFails st) eqn:Hr; [discriminate|].
  destruct (writeFails st) eqn:Hw; [discriminate|].
  cbn [negb andb] in Hsym.
  cbn [cleanOldPredictions existsb]. unfold getItem. rewrite Hr.
  destruct (items st (predictions_key sym)) as [[md|log|]|] eqn:Hitem;
    try discriminate; cbn [parse_predictions].
  - unfold setItem. rewrite Hw.
    rewrite IH.
    + rewrite stored_log_update.
      destruct (String.eqb symbol sym) eqn:Heq.
      * apply String.eqb_eq in Heq. subst sym. cbn [orb].
        replace (existsb (String.eqb symbol) rest) with false.
        -- unfold stored_log. rewrite Hitem. reflexivity.
        -- symmetry. apply not_true_is_false. intros Hex.
           apply existsb_exists in Hex. destruct Hex as (s & Hs & Hss).
           apply String.eqb_eq in Hss. subst s. contradiction.
      * cbn [orb]. reflexivity.
    + intros s Hs. pose proof (Hstores s (or_intror Hs)) as Hst.
      unfold stores in *. cbn [readFails writeFails items].
      rewrite Hr, Hw in *. cbn [negb andb] in *. rewrite predictions_key_eqb.
      destruct (String.eqb s sym); [reflexivity|exact Hst].
  - rewrite IH by (intros s Hs; apply Hstores; right; exact Hs).
    destruct (String.eqb symbol sym) eqn:Heq; [|reflexivity].
    apply String.eqb_eq in Heq. subst sym. cbn [orb].
    unfold stored_log. rewrite Hitem.
    destruct (existsb (String.eqb symbol) rest); reflexivity.
Qed.

(** [cleanOldData] only removes predictions: whatever the state of the
    store, every entry left in a log was there before, and no stored model
    is touched.  When the store works and the keys of the supported
    symbols hold logs, the log of each supported symbol is filtered to
    the entries younger than the cutoff, a [null] timestamp counting as
    time 0, and the logs of other symbols stay as they are; with [days]
    not a number no entry passes the filter and these logs come out
    empty. *)
Theorem cleanOldData_keeps_recent :
  forall st : AsyncStorage,
    let st' := cleanOldData days now st in
    (forall symbol p,
        In p (stored_log st' symbol) -> In p (stored_log st symbol))
    /\ (forall symbol,
           items st' (model_key symbol) = items st (model_key symbol))
    /\ ((forall symbol, In symbol getSupportedSymbols ->
                        stores st symbol = true) ->
        forall symbol,
          stored_log st' symbol
          = (if existsb (String.eqb symbol) getSupportedSymbols
             then filter (recent symbol) (stored_log st symbol)
             else stored_log st symbol)
          /\ (is_nan days = true -> In symbol getSupportedSymbols ->
              stored_log st' symbol = [])).
Proof.
  intros st st'. subst st'. unfold cleanOldData. repeat split.
  - intros symbol p Hin. apply cleanOldPredictions_shrinks in Hin.
    now rewrite saveCachedData_stored_log in Hin.
  - intros symbol. rewrite cleanOldPredictions_models.
    apply (saveCachedData_spec st).
  - rewrite cleanOldPredictions_filters.
    + now rewrite saveCachedData_stored_log.
    + repeat constructor; cbn; intuition discriminate.
    + intros s Hs. rewrite saveCachedData_stores. auto.
  - intros Hnan Hin. rewrite cleanOldPredictions_filters.
    + replace (existsb (String.eqb symbol) getSupportedSymbols) with true
        by (symmetry; apply existsb_exists; exists symbol; split;
            [exact Hin|apply String.eqb_refl]).
      assert (Hd : days = nan).
      { apply float_is_nan. revert Hnan. unfold is_nan. rewrite eqb_spec.
        destruct (Prim2SF days) as [s|s| |s m e]; try reflexivity;
          cbn; try discriminate.
        - destruct s; discriminate.
        - rewrite Z.compare_refl, Pos.compare_cont_refl. destruct s; discriminate. }
      induction (stored_log (saveCachedData st) symbol) as [|p l IHl];
        [reflexivity|].
      cbn [filter]. unfold recent at 1. rewrite Hd.
      rewrite !mul_nan_l, sub_nan_r. unfold JS.gtb. rewrite lt_nan.
      exact IHl.
    + repeat constructor; cbn; intuition discriminate.
    + intros s Hs. rewrite saveCachedData_stores. auto.
Qed.

End Cleaning.

Lemma cleanOldData_keeps_recent_witness :
  (forall symbol, In symbol getSupportedSymbols ->
                  stores pendingStorage symbol = true)
  /\ stored_log (cleanOldData 30 (fun _ => 1700000000000) pendingStorage)
                "EURUSD"
     = filter (fun p => JS.gtb (ToNumber (sp_timestamp p))
                               (1700000000000 - 30 * 24 * 60 * 60 * 1000))
              (stored_log pendingStorage "EURUSD").
Proof.
  assert (H : forall symbol, In symbol getSupportedSymbols ->
                             stores pendingStorage symbol = true).
  { intros symbol [<-|[<-|[<-|[]]]]; reflexivity. }
  split; [exact H|].
  exact (proj1 (proj2 (proj2 (cleanOldData_keeps_recent
                                30 (fun _ => 1700000000000) pendingStorage))
                      H "EURUSD"%string)).
Defined.

(** ** The metrics of [evaluateModel] *)

(** [correct] and [profitable] are counted together. *)
Lemma tally_correct_profitable (log : list StoredPrediction) :
  forall correct truePositives falsePositives falseNegatives,
    let '(correct', _, _, _, profitable') :=
      fold_left tally log
                (correct, truePositives, falsePositives, falseNegatives, correct) in
    correct' = profitable'.
Proof.
  induction log as [|p log IH]; intros c tp fp fn; [reflexivity|].
  cbn [fold_left]. unfold tally at 2.
  destruct (wasCorrect p);
    destruct (sp_prediction p); destruct (actualOutcome p) as [[|]|]; apply IH.
Qed.

Lemma or_else_not_nan (x : float) : is_nan (JS.or_else x 0) = false.
Proof.
  unfold JS.or_else. destruct (x =? 0); [reflexivity|]. cbn [orb].
  destruct (is_nan x) eqn:H; [reflexivity|exact H].
Qed.

(** [evaluateModel] never throws, and its record has this shape whatever is
    stored: the win rate is the accuracy, both being the same count over
    the same total; the total is the number of logged predictions with a
    resolved outcome (0 when the log cannot be read); precision, recall and
    F1 score are never NaN, an undefined ratio being reported as 0. *)
Theorem evaluateModel_metrics :
  forall (st : AsyncStorage) (symbol : string),
    let m := evaluateModel st symbol in
    let resolved :=
      filter (fun p => match actualOutcome p with
                       | Some _ => true
                       | None => false
                       end) (stored_log st symbol) in
    winRate m = mm_accuracy m
    /\ totalTrades m
       = (if readFails st then 0 else JS.ofnat (length resolved))
    /\ is_nan (precision m) = false
    /\ is_nan (recall m) = false
    /\ is_nan (f1Score m) = false.
Proof.
  intros st symbol. cbv zeta.
  unfold evaluateModel, evaluateModel_try, getItem, stored_log.
  destruct (readFails st); [repeat split|].
  destruct (items st (predictions_key symbol)) as [[md|log|]|];
    cbn [parse_predictions]; try solve [repeat split].
  destruct (length log =? 0)%nat eqn:Hlen.
  { apply Nat.eqb_eq in Hlen. destruct log; [repeat split|discriminate]. }
  cbv zeta. set (completed := filter _ log).
  destruct (length completed =? 0)%nat eqn:Hc.
  { apply Nat.eqb_eq in Hc. rewrite Hc. repeat split. }
  pose proof (tally_correct_profitable completed 0 0 0 0) as Hinv.
  destruct (fold_left tally completed (0, 0, 0, 0, 0))
    as [[[[correct truePositives] falsePositives] falseNegatives] profitable].
  subst profitable.
  cbn [winRate mm_accuracy totalTrades precision recall f1Score].
  repeat split; apply or_else_not_nan.
Qed.

(** ** Saving and loading: what comes back, and what is left alone *)

Lemma model_key_eqb (s s' : string) :
  String.eqb (model_key s) (model_key s') = String.eqb s s'.
Proof. reflexivity. Qed.

Lemma predictions_key_not_model (s s' : string) :
  String.eqb (predictions_key s) (model_key s') = false.
Proof. reflexivity. Qed.

Lemma loadModel_saveModel (m target : MLModelTraining) (now : float)
      (st : AsyncStorage) :
  writeFails st = false ->
  readFails st = false ->
  m_symbol target = m_symbol m ->
  loadModel target (saveModel m now st) = (true, reloaded (m_symbol target) m).
Proof.
  intros Hwrite Hread Hsym.
  unfold saveModel, loadModel, setItem, getItem.
  rewrite Hwrite. cbn [readFails items]. rewrite Hread, Hsym.
  rewrite string_eqb_refl. reflexivity.
Qed.

Lemma json_exact_parsed (x : float) : json_exact (ToNumber (JSON_number x)).
Proof.
  unfold json_exact.
  destruct (JSON_number x) as [v|] eqn:H; cbn [ToNumber]; [|reflexivity].
  unfold JSON_number in H.
  destruct (is_finite x) eqn:Hfin; [injection H as <-|discriminate].
  destruct (x =? 0) eqn:Hz; [reflexivity|].
  unfold JSON_number. now rewrite Hfin, Hz.
Qed.

Lemma rows_exact_parsed (rows : list (list float)) :
  Forall (Forall json_exact) (map (map ToNumber) (map (map JSON_number) rows)).
Proof.
  rewrite map_map. apply Forall_map, Forall_forall. intros row _.
  rewrite map_map. apply Forall_map, Forall_forall. intros x _.
  apply json_exact_parsed.
Qed.

Lemma storable_reloaded (symbol : string) (m : MLModelTraining) :
  storable (reloaded symbol m).
Proof.
  unfold storable, reloaded.
  cbn [architecture weights biases trainingHistory].
  repeat split.
  - apply json_exact_parsed.
  - apply rows_exact_parsed.
  - apply rows_exact_parsed.
  - rewrite map_map. apply Forall_map, Forall_forall. intros t _.
    unfold metrics_exact, parse_metrics, stringify_metrics.
    cbn [loss accuracy validationLoss validationAccuracy tm_learningRate
         sm_loss sm_accuracy sm_validationLoss sm_validationAccuracy
         sm_learningRate].
    repeat split; apply json_exact_parsed.
Qed.

Lemma reloaded_storable (symbol : string) (m : MLModelTraining) :
  storable m ->
  reloaded symbol m
  = {| m_symbol := symbol; architecture := architecture m;
       weights := weights m; biases := biases m;
       trainingHistory := trainingHistory m |}.
Proof.
  intros (Hlr & Hw & Hb & Hh). unfold reloaded.
  now rewrite (parse_stringify_architecture _ Hlr),
              (parse_stringify_rows _ Hw), (parse_stringify_rows _ Hb),
              (parse_stringify_history _ Hh).
Qed.

(** Whatever the numbers of a model are, NaN and infinities included, the
    model that comes back from the store is one that JSON carries
    unchanged.  Saving and loading it again, at any time and in any
    working store, gives exactly the same model: what one round trip may
    lose, it loses the first time. *)
Theorem save_load_idempotent :
  forall (m target : MLModelTraining) (now : float) (st : AsyncStorage),
    writeFails st = false ->
    readFails st = false ->
    m_symbol target = m_symbol m ->
    let loaded := snd (loadModel target (saveModel m now st)) in
    storable loaded
    /\ forall (now' : float) (st' : AsyncStorage),
        writeFails st' = false ->
        readFails st' = false ->
        loadModel target (saveModel loaded now' st') = (true, loaded).
Proof.
  intros m target now st Hwrite Hread Hsym loaded.
  subst loaded. rewrite (loadModel_saveModel m target now st Hwrite Hread Hsym).
  cbn [snd]. split; [apply storable_reloaded|].
  intros now' st' Hwrite' Hread'.
  rewrite (loadModel_saveModel (reloaded (m_symbol target) m) target now' st'
                                Hwrite' Hread' eq_refl).
  rewrite (reloaded_storable _ _ (storable_reloaded _ _)). reflexivity.
Qed.

Lemma save_load_idempotent_witness :
  let loaded :=
    snd (loadModel nanModel (saveModel nanModel 1700000000000 emptyStorage)) in
  storable loaded
  /\ loadModel nanModel (saveModel loaded 1700000000001 emptyStorage)
     = (true, loaded).
Proof.
  intros loaded.
  destruct (save_load_idempotent nanModel nanModel 1700000000000 emptyStorage
                                 eq_refl eq_refl eq_refl) as [Hs Hagain].
  split; [exact Hs|].
  exact (Hagain 1700000000001 emptyStorage eq_refl eq_refl).
Defined.

(** Models of different symbols do not interfere, and neither do models
    and prediction logs: saving a model changes what [loadModel] returns
    for its own symbol only and leaves every prediction log as it is;
    storing a prediction changes no stored model.  A store that rejects
    the write is left unchanged by [saveModel], and [loadModel] from a
    store that rejects the read, or holds nothing under the key, reports
    [false] and leaves the model object as it was. *)
Theorem models_and_logs_are_separate :
  forall (m target : MLModelTraining) (now : float) (st : AsyncStorage)
         (e : Engine) (symbol : string) (signal : TradingSignal)
         (features : list float),
    (m_symbol target <> m_symbol m ->
     loadModel target (saveModel m now st) = loadModel target st)
    /\ stored_log (saveModel m now st) symbol = stored_log st symbol
    /\ loadModel target (snd (storePrediction e st symbol signal features))
       = loadModel target st
    /\ (writeFails st = true -> saveModel m now st = st)
    /\ (readFails st = true \/ items st (model_key (m_symbol target)) = None ->
        loadModel target st = (false, target)).
Proof.
  intros m target now st e symbol signal features. repeat split.
  - intros Hne. unfold saveModel, setItem.
    destruct (writeFails st); [reflexivity|].
    unfold loadModel, getItem. cbn [readFails items].
    rewrite model_key_eqb.
    replace (String.eqb (m_symbol target) (m_symbol m)) with false;
      [reflexivity|].
    symmetry. apply String.eqb_neq. exact Hne.
  - unfold saveModel, setItem. destruct (writeFails st); [reflexivity|].
    unfold stored_log. cbn [items]. now rewrite predictions_key_not_model.
  - unfold storePrediction, storePrediction_try, getItem.
    destruct (readFails st) eqn:Hr; [reflexivity|].
    destruct (parse_predictions _) as [predictions|err]; [|reflexivity].
    unfold setItem. destruct (writeFails st); [reflexivity|].
    cbn [snd]. unfold loadModel, getItem. cbn [readFails items].
    rewrite Hr. now rewrite model_key_not_predictions.
  - intros Hw. unfold saveModel, setItem. now rewrite Hw.
  - intros [Hr|Hnone]; unfold loadModel, getItem.
    + now rewrite Hr.
    + rewrite Hnone. destruct (readFails st); reflexivity.
Qed.

Lemma models_and_logs_are_separate_witness :
  loadModel smallModel
            (saveModel {| m_symbol := "USDCHF";
                          architecture := architecture nanModel;
                          weights := weights nanModel;
                          biases := biases nanModel;
                          trainingHistory := [] |}
                       1700000000000 emptyStorage)
  = loadModel smallModel emptyStorage
  /\ loadModel smallModel emptyStorage = (false, smallModel).
Proof.
  split.
  - refine (proj1 (models_and_logs_are_separate _ smallModel 1700000000000
                     emptyStorage emptyEngine "EURUSD"%string sampleSignal []) _).
    cbn. discriminate.
  - refine (proj2 (proj2 (proj2 (proj2 (models_and_logs_are_separate
              nanModel smallModel 1700000000000 emptyStorage emptyEngine
              "EURUSD"%string sampleSignal [])))) _).
    right. reflexivity.
Defined.

(** ** A restart restores the stored models *)

(** What [initializeMLModels] puts in the engine for a supported symbol:
    the model object it built, after [loadModel] has run on it. *)
Lemma initializeMLModels_loads (e0 : Engine) (st : AsyncStorage)
      (random : nat -> float) (drawn : nat) (s : string) :
  In s getSupportedSymbols ->
  exists d,
    mlModels (fst (initializeMLModels e0 st random drawn)) s
    = Some (snd (loadModel
                   (fst (new_MLModelTraining s (Some engine_architecture)
                                             random d)) st)).
Proof.
  unfold initializeMLModels, getSupportedSymbols. cbn [fold_left].
  destruct (new_MLModelTraining "EURUSD" (Some engine_architecture) random drawn)
    as [m1 d1] eqn:E1.
  destruct (loadModel m1 st) as [b1 m1'] eqn:L1.
  destruct (new_MLModelTraining "EURJPY" (Some engine_architecture) random d1)
    as [m2 d2] eqn:E2.
  destruct (loadModel m2 st) as [b2 m2'] eqn:L2.
  destruct (new_MLModelTraining "USDCHF" (Some engine_architecture) random d2)
    as [m3 d3] eqn:E3.
  destruct (loadModel m3 st) as [b3 m3'] eqn:L3.
  cbn [fst set_mlModel mlModels].
  intros [<-|[<-|[<-|[]]]].
  - exists drawn. rewrite E1. cbn [fst]. rewrite L1. reflexivity.
  - exists d1. rewrite E2. cbn [fst]. rewrite L2. reflexivity.
  - exists d2. rewrite E3. cbn [fst]. rewrite L3. reflexivity.
Qed.

(** A model saved for a supported symbol is the model the engine works
    with after it has been constructed again: [initializeMLModels] builds
    a fresh 18-input network and [loadModel] replaces its architecture,
    weights, biases and history by the stored ones, exactly when JSON
    carries the model's numbers unchanged. *)
Theorem initializeMLModels_restores :
  forall (e0 : Engine) (st0 : AsyncStorage) (random : nat -> float)
         (drawn : nat) (m : MLModelTraining) (now : float),
    In (m_symbol m) getSupportedSymbols ->
    storable m ->
    writeFails st0 = false ->
    readFails st0 = false ->
    let st := saveModel m now st0 in
    let e := fst (initializeMLModels e0 st random drawn) in
    mlModels e (m_symbol m) = Some m.
Proof.
  intros e0 st0 random drawn m now Hin Hs Hwrite Hread st e.
  destruct (initializeMLModels_loads e0 st random drawn (m_symbol m) Hin)
    as (d & Hm).
  subst e. rewrite Hm. f_equal.
  destruct (new_MLModelTraining_spec (m_symbol m) (Some engine_architecture)
                                     random d) as (_ & Hsym & _).
  subst st. rewrite (loadModel_saveModel m _ now st0 Hwrite Hread Hsym).
  cbn [snd]. rewrite (reloaded_storable _ _ Hs), Hsym.
  destruct m; reflexivity.
Qed.

Lemma initializeMLModels_restores_witness :
  storable smallModel
  /\ mlModels
       (fst (initializeMLModels
               emptyEngine (saveModel smallModel 1700000000000 emptyStorage)
               (fun _ => 0.5) 0))
       "EURUSD"
     = Some smallModel.
Proof.
  assert (Hs : storable smallModel).
  { unfold storable, metrics_exact, json_exact.
    repeat split; repeat constructor. }
  split; [exact Hs|].
  refine (initializeMLModels_restores emptyEngine emptyStorage (fun _ => 0.5) 0
            smallModel 1700000000000 _ Hs eq_refl eq_refl).
  left. reflexivity.
Defined.

(** ** Bollinger bands *)

(** The bands never cross.  Whenever the middle band is a finite number and
    the width factor is not negative, the lower band is at most the middle
    band and the middle band at most the upper one -- unless the deviation
    overflowed or is undefined, in which case both outer bands are NaN. *)
Theorem bollinger_bands_ordered :
  forall (prices : list float) (period : nat) (stdDev : float),
    (stdDev <? 0) = false ->
    let b := calculateBollingerBands prices period stdDev in
    is_finite (middle b) = true ->
    (is_nan (upper b) = true /\ is_nan (lower b) = true)
    \/ ((lower b <=? middle b) = true /\ (middle b <=? upper b) = true).
Proof.
  intros prices period stdDev Hdev. unfold calculateBollingerBands.
  destruct (length prices <? period)%nat.
  - cbn [middle upper lower]. intros Hfin. right.
    assert (Hn : is_nan (JS.last_elt prices) = false)
      by (apply finite_not_nan, finite_shape, Hfin).
    split; apply fle_refl, Hn.
  - cbv zeta. cbn [middle upper lower].
    set (sma := JS.sum_by _ _ / _).
    set (t := JS.Math_sqrt _ * stdDev).
    intros Hfin.
    assert (Ht : (t <? 0) = false).
    { apply not_negative_ltb. subst t. unfold JS.Math_sqrt.
      rewrite mul_spec, sqrt_spec.
      apply not_negative_mul; [apply not_negative_sqrt|].
      apply not_negative_ltb, Hdev. }
    destruct (is_nan t) eqn:Hnan.
    + left. assert (E : t = nan).
      { apply float_is_nan. revert Hnan. unfold is_nan. rewrite eqb_spec.
        destruct (Prim2SF t) as [s|s| |s m e]; try reflexivity;
          cbn; try discriminate.
        - destruct s; discriminate.
        - rewrite Z.compare_refl, Pos.compare_cont_refl. destruct s; discriminate. }
      rewrite E, add_nan_r, sub_nan_r. split; reflexivity.
    + right. pose proof (nonneg_of_not_negative t Ht Hnan) as H0.
      split; [apply sub_nonneg_le|apply add_nonneg_ge]; assumption.
Qed.

Lemma bollinger_bands_ordered_witness :
  let b := calculateBollingerBands (map price flat30) 20 2 in
  (is_nan (upper b) = true /\ is_nan (lower b) = true)
  \/ ((lower b <=? middle b) = true /\ (middle b <=? upper b) = true).
Proof.
  exact (bollinger_bands_ordered (map price flat30) 20 2 eq_refl eq_refl).
Defined.

(** ** Support and resistance *)

Lemma max2_number (a x : float) :
  is_nan a = false -> is_nan x = false -> is_nan (JS.max2 a x) = false.
Proof.
  intros Ha Hx. unfold JS.max2. rewrite Ha, Hx. cbn [orb].
  destruct (x =? a); [destruct (JS.is_neg_zero a)|destruct (a <? x)]; assumption.
Qed.

Lemma min2_number (a x : float) :
  is_nan a = false -> is_nan x = false -> is_nan (JS.min2 a x) = false.
Proof.
  intros Ha Hx. unfold JS.min2. rewrite Ha, Hx. cbn [orb].
  destruct (x =? a); [destruct (JS.is_neg_zero x)|destruct (x <? a)]; assumption.
Qed.

Lemma fold_number (f : float -> float -> float) :
  (forall a x, is_nan a = false -> is_nan x = false -> is_nan (f a x) = false) ->
  forall (l : list float) (acc : float),
    is_nan acc = false ->
    Forall (fun x => is_nan x = false) l ->
    is_nan (fold_left f l acc) = false.
Proof.
  intros Hf. induction l as [|x l IH]; intros acc Hacc Hl; [exact Hacc|].
  inversion Hl; subst. cbn [fold_left]. apply IH; auto.
Qed.

Lemma slice_last_map {A B : Type} (f : A -> B) (n : nat) (xs : list A) :
  JS.slice_last n (map f xs) = map f (JS.slice_last n xs).
Proof.
  unfold JS.slice_last. destruct n; [reflexivity|].
  now rewrite length_map, skipn_map.
Qed.

Lemma slice_last_incl {A : Type} (n : nat) (xs : list A) (x : A) :
  In x (JS.slice_last n xs) -> In x xs.
Proof.
  unfold JS.slice_last. destruct n; [auto|].
  intros H. rewrite <- (firstn_skipn (length xs - S n) xs).
  apply in_or_app. now right.
Qed.

Lemma last_in_slice_last_gen {A : Type} (n : nat) (xs : list A) (x : A) :
  In x (JS.slice_last (S n) (xs ++ [x])).
Proof.
  unfold JS.slice_last. rewrite length_app. cbn [length].
  rewrite skipn_app. apply in_or_app. right.
  replace (length xs + 1 - S n - length xs)%nat with 0%nat by lia.
  now left.
Qed.

Lemma or_else_le (a b : float) :
  (a <=? b) = true -> (JS.or_else a 0 <=? JS.or_else b 0) = true.
Proof.
  intros Hab. destruct (fle_number _ _ Hab) as [Ha Hb].
  unfold JS.or_else. rewrite Ha, Hb, !orb_false_r.
  destruct (a =? 0) eqn:Ea, (b =? 0) eqn:Eb.
  - reflexivity.
  - apply feq_fle in Ea. destruct Ea as [_ Ea]. eapply fle_trans; eauto.
  - apply feq_fle in Eb. destruct Eb as [Eb _]. eapply fle_trans; eauto.
  - exact Hab.
Qed.

(** Support never lies above resistance when no bar has its low above its
    high; and on 20 bars or more, support is at most the low, and
    resistance at least the high, of each of the last 20 bars. *)
Theorem support_below_resistance :
  forall (Math_log : float -> float) (marketData : list MarketData),
    Forall (fun bar => (low bar <=? high bar) = true) marketData ->
    let i := calculateTechnicalIndicators Math_log marketData in
    (support i <=? resistance i) = true
    /\ ((20 <= length marketData)%nat ->
        forall bar, In bar (JS.slice_last 20 marketData) ->
                    (support i <=? low bar) = true
                    /\ (high bar <=? resistance i) = true).
Proof.
  intros Math_log marketData Hall.
  destruct marketData as [|b0 rest] eqn:Hmd.
  { cbn. split; [reflexivity|]. intros H. inversion H. }
  rewrite <- Hmd in *. assert (Hne : marketData <> []) by (subst; discriminate).
  clear Hmd b0 rest.
  assert (Hi : forall i, i = calculateTechnicalIndicators Math_log marketData ->
             support i = sr_support (calculateSupportResistance
                                       (map high marketData) (map low marketData) 20)
             /\ resistance i = sr_resistance (calculateSupportResistance
                                       (map high marketData) (map low marketData) 20)).
  { intros i ->. destruct marketData; [contradiction|]. split; reflexivity. }
  intros i. destruct (Hi i eq_refl) as [-> ->]. clear Hi i.
  unfold calculateSupportResistance. rewrite !length_map, orb_diag.
  destruct (exists_last Hne) as [bars [bar Hbars]].
  assert (Hbar : (low bar <=? high bar) = true).
  { rewrite Forall_forall in Hall. apply Hall. subst. apply in_or_app.
    right. now left. }
  destruct (length marketData <? 20)%nat eqn:Hlen.
  - cbn [sr_support sr_resistance]. split.
    + subst marketData. rewrite !map_app. cbn [map]. unfold JS.last_elt.
      rewrite !last_last. apply or_else_le, Hbar.
    + apply Nat.ltb_lt in Hlen. lia.
  - cbn [sr_support sr_resistance]. rewrite !slice_last_map.
    set (window := JS.slice_last 20 marketData).
    assert (Hwin : forall w, In w window -> (low w <=? high w) = true).
    { intros w Hw. rewrite Forall_forall in Hall. apply Hall.
      eapply slice_last_incl, Hw. }
    assert (Hmin : is_nan (JS.Math_min (map low window)) = false).
    { apply fold_number; [apply min2_number|reflexivity|].
      apply Forall_forall. intros x Hx. apply in_map_iff in Hx.
      destruct Hx as (w & <- & Hw). apply (fle_number _ _ (Hwin w Hw)). }
    assert (Hmax : is_nan (JS.Math_max (map high window)) = false).
    { apply fold_number; [apply max2_number|reflexivity|].
      apply Forall_forall. intros x Hx. apply in_map_iff in Hx.
      destruct Hx as (w & <- & Hw). apply (fle_number _ _ (Hwin w Hw)). }
    assert (Hbounds : forall w, In w window ->
               (JS.Math_min (map low window) <=? low w) = true
               /\ (high w <=? JS.Math_max (map high window)) = true).
    { intros w Hw. split.
      - apply Math_min_lower; [exact Hmin|]. apply in_map, Hw.
      - apply Math_max_upper; [exact Hmax|]. apply in_map, Hw. }
    split; [|intros _; exact Hbounds].
    assert (Hin : In bar window).
    { subst window marketData. apply last_in_slice_last_gen. }
    destruct (Hbounds bar Hin) as [H1 H2].
    eapply fle_trans; [exact H1|]. eapply fle_trans; [exact Hbar|exact H2].
Qed.

Lemma support_below_resistance_witness :
  let i := calculateTechnicalIndicators (fun x => x) flat30 in
  (support i <=? resistance i) = true.
Proof.
  refine (proj1 (support_below_resistance (fun x => x) flat30 _)).
  apply Forall_forall. intros bar Hbar. apply repeat_spec in Hbar.
  subst bar. reflexivity.
Defined.

(** ** The weight of the economic calendar *)

Lemma max_with_zero_not_negative (y : float) :
  not_negative (Prim2SF (JS.Math_max [0; y])).
Proof.
  unfold JS.Math_max. cbn [fold_left].
  change (JS.max2 neg_infinity 0) with 0%float.
  unfold JS.max2. change (is_nan 0) with false. cbn [orb].
  destruct (is_nan y); [exact I|].
  destruct (y =? 0) eqn:Hz.
  - change (JS.is_neg_zero 0) with false. cbv iota. exact I.
  - destruct (0 <? y) eqn:Hpos; [|exact I].
    apply not_negative_of_pos. change (S754_zero false) with (Prim2SF 0).
    now rewrite <- ltb_spec.
Qed.

(** The economic impact is never negative, whatever the events and their
    timestamps are: each event adds its weight (1, 2 or 3) times a time
    weight that is cut off at 0, so the two economic features of the
    network are never negative either. *)
Theorem calculateEconomicImpact_not_negative :
  forall (now : float) (events : list EconomicData),
    (Enhanced.calculateEconomicImpact now events <? 0) = false
    /\ (Enhanced.calculateEconomicImpact now events / 10 <? 0) = false.
Proof.
  intros now events.
  assert (H : not_negative (Prim2SF (Enhanced.calculateEconomicImpact now events))).
  { unfold Enhanced.calculateEconomicImpact.
    assert (H0 : not_negative (Prim2SF 0)) by exact I.
    revert H0. generalize 0%float at 1 3 as total.
    induction events as [|event events IH]; intros total Htotal; [exact Htotal|].
    cbn [fold_left]. apply IH.
    rewrite add_spec. apply not_negative_add; [exact Htotal|].
    rewrite mul_spec. apply not_negative_mul.
    - destruct (impact event); exact I.
    - apply max_with_zero_not_negative. }
  split; apply not_negative_ltb; [exact H|].
  rewrite div_spec. apply not_negative_div; [exact H|exact I|reflexivity].
Qed.

(** ** The fallback network of the first revision *)

Lemma initializeModels_spec (e : Engine) (random : nat -> float) (drawn : nat) :
  exists w1 w2 w3 : list float,
    length w1 = 545%nat /\ length w2 = 545%nat /\ length w3 = 545%nat
    /\ fst (initializeModels e random drawn)
       = set_modelWeights
           (set_modelWeights (set_modelWeights e "EURUSD=X" w1) "EURJPY=X" w2)
           "USDCHF=X" w3
    /\ snd (initializeModels e random drawn) = (drawn + 3 * 545)%nat.
Proof.
  unfold initializeModels, symbols. cbn [fold_left fst snd].
  do 3 eexists. split; [|split; [|split; [|split; [reflexivity|lia]]]];
    rewrite !length_app, !length_map, !length_seq; reflexivity.
Qed.

(** [initializeModels] stores its weights under the Yahoo tickers
    (["EURUSD=X"], ...), 545 numbers each, and under no other name.  The
    names [getSupportedSymbols] hands out have the ["=X"] removed, so for
    each of them [neuralNetworkPredict] finds no weights and answers 0.5:
    a signal requested under such a name is decided by the rule-based
    scorer alone, the network contributing the constant 0.3. *)
Theorem initializeModels_keys :
  forall (e : Engine) (random : nat -> float) (drawn : nat),
    (forall s, modelWeights e s = None) ->
    let e' := fst (initializeModels e random drawn) in
    (forall s, In s symbols ->
               exists w, modelWeights e' s = Some w /\ length w = 545%nat)
    /\ (forall s, ~ In s symbols -> modelWeights e' s = None)
    /\ (forall s, In s getSupportedSymbols ->
          modelWeights e' s = None
          /\ forall (Math_exp Math_log : float -> float)
                    (toFixed1 : float -> string) (st : AsyncStorage)
                    (duration : nat) (historicalData : list MarketData)
                    (currentData : MarketData) (now : float),
              historicalData <> [] ->
              let indicators :=
                calculateTechnicalIndicators Math_log
                                             (historicalData ++ [currentData]) in
              Basic.generateTradingSignal Math_exp Math_log toFixed1 e' st s
                                          duration historicalData
                                          (Some currentData) now
              = Basic.combineSignals toFixed1 e' st s duration now currentData
                  indicators
                  (extractFeatures (historicalData ++ [currentData]) indicators)
                  0.5 (analyzeRuleBasedSignals indicators currentData)).
Proof.
  intros e random drawn Hempty e'.
  destruct (initializeModels_spec e random drawn)
    as (w1 & w2 & w3 & L1 & L2 & L3 & He & _).
  subst e'. rewrite He. clear He.
  assert (Hsupp : forall s, In s getSupportedSymbols ->
            modelWeights
              (set_modelWeights
                 (set_modelWeights (set_modelWeights e "EURUSD=X" w1)
                                   "EURJPY=X" w2) "USDCHF=X" w3) s = None).
  { intros s [<-|[<-|[<-|[]]]]; cbn; apply Hempty. }
  repeat split.
  - intros s [<-|[<-|[<-|[]]]]; cbn; eauto.
  - intros s Hs. cbn [set_modelWeights modelWeights].
    destruct (String.eqb_spec s "USDCHF=X") as [->|_];
      [exfalso; apply Hs; cbn; auto|].
    destruct (String.eqb_spec s "EURJPY=X") as [->|_];
      [exfalso; apply Hs; cbn; auto|].
    destruct (String.eqb_spec s "EURUSD=X") as [->|_];
      [exfalso; apply Hs; cbn; auto|].
    apply Hempty.
  - apply Hsupp, H.
  - intros Math_exp Math_log toFixed1 st duration historicalData currentData
           now Hne indicators.
    unfold Basic.generateTradingSignal.
    destruct historicalData as [|b rest]; [contradiction|].
    cbn [length Nat.eqb]. rewrite (Hsupp s H). reflexivity.
Qed.

Lemma initializeModels_keys_witness :
  let e' := fst (initializeModels emptyEngine (fun _ => 0.75) 0) in
  modelWeights e' "EURUSD" = None
  /\ exists w, modelWeights e' "EURUSD=X" = Some w /\ length w = 545%nat.
Proof.
  intros e'.
  destruct (initializeModels_keys emptyEngine (fun _ => 0.75) 0
                                  (fun _ => eq_refl)) as (Hkeys & _ & Hsupp).
  split.
  - exact (proj1 (Hsupp "EURUSD"%string (or_introl eq_refl))).
  - exact (Hkeys "EURUSD=X"%string (or_introl eq_refl)).
Defined.

Local Open Scope R_scope.

(** ** Rounding to nearest is monotone *)

Lemma shr_1_located (v : R) (mrs : shr_record) (e : Z) :
  located v mrs e -> located v (shr_1 mrs) (e + 1).
Proof.
  intros [T L]. split; [apply shr_1_truncates, T|].
  destruct mrs as [m r s]. unfold truncates, dyadic in *.
  cbn [shr_m shr_r shr_s] in *.
  destruct T as [Hm [Hlo Hhi]]. pose proof (pow2_pos e) as Hb.
  rewrite plus_IZR in Hhi. rewrite pow2_add. change (pow2 1) with (2 * 1).
  set (b := pow2 e) in *. clearbody b.
  destruct m as [|p|p]; [| |lia].
  - destruct r, s; cbn [shr_1 shr_m shr_r shr_s orb]; try lra.
  - destruct p as [p|p|];
      [rewrite (IZR_xI p) in *|rewrite (IZR_xO p) in *|];
      destruct r, s; cbn [shr_1 shr_m shr_r shr_s orb]; lra.
Qed.

Lemma iter_shr_1_located (v : R) (p : positive) :
  forall (mrs : shr_record) (e : Z),
    located v mrs e ->
    located v (SpecFloat.iter_pos shr_1 p mrs) (e + Z.pos p).
Proof.
  induction p as [p IH|p IH|]; intros mrs e H; cbn [SpecFloat.iter_pos].
  - replace (e + Z.pos p~1)%Z with (e + 1 + Z.pos p + Z.pos p)%Z by lia.
    apply IH, IH, shr_1_located, H.
  - replace (e + Z.pos p~0)%Z with (e + Z.pos p + Z.pos p)%Z by lia.
    apply IH, IH, H.
  - apply shr_1_located, H.
Qed.

(** Shifting an exact value to the exponent of the format. *)
Lemma shr_fexp_located (m e : Z) :
  (0 <= m)%Z ->
  let e' := Z.max e (fexp prec emax (Zdigits2 m + e)) in
  exists mrs',
    shr_fexp prec emax m e loc_Exact = (mrs', e')
    /\ located (dyadic m e) mrs' e'.
Proof.
  intros Hm e'. unfold shr_fexp, shr.
  assert (H0 : located (dyadic m e) (shr_record_of_loc m loc_Exact) e).
  { split; [|reflexivity]. split; [exact Hm|]. cbn [shr_record_of_loc shr_m].
    split; [lra|]. rewrite dyadic_plus, dyadic_1. pose proof (pow2_pos e). lra. }
  destruct (fexp prec emax (Zdigits2 m + e) - e)%Z as [|p|p] eqn:En.
  - exists (shr_record_of_loc m loc_Exact). replace e' with e by lia. auto.
  - exists (SpecFloat.iter_pos shr_1 p (shr_record_of_loc m loc_Exact)).
    replace e' with (e + Z.pos p)%Z by lia.
    split; [reflexivity|]. apply iter_shr_1_located, H0.
  - exists (shr_record_of_loc m loc_Exact). replace e' with e by lia. auto.
Qed.

(** On one grid, the smaller value gets the smaller mantissa. *)
Lemma round_nearest_even_mono (u v : R) (mu mv : shr_record) (e : Z) :
  located u mu e -> located v mv e -> u <= v ->
  (round_nearest_even (shr_m mu) (loc_of_shr_record mu)
   <= round_nearest_even (shr_m mv) (loc_of_shr_record mv))%Z.
Proof.
  intros [Tu Lu] [Tv Lv] Huv.
  pose proof (round_nearest_even_cases mu) as Cu.
  pose proof (round_nearest_even_ge mv) as Cv. cbv zeta in Cu.
  destruct mu as [m1 r1 s1], mv as [m2 r2 s2].
  unfold truncates in *. cbn [shr_m shr_r shr_s] in *.
  destruct Tu as [Hm1 [Hlo1 Hhi1]], Tv as [Hm2 [Hlo2 Hhi2]].
  assert (Hle : (m1 <= m2)%Z).
  { assert (m1 < m2 + 1)%Z by (apply (dyadic_lt_inv _ _ e); lra). lia. }
  destruct (Z.eq_dec m1 m2) as [->|Hne].
  - clear Cu Cv. unfold dyadic in *. rewrite plus_IZR in *.
    pose proof (pow2_pos e) as Hb. set (b := pow2 e) in *. clearbody b.
    destruct r1, s1, r2, s2;
      cbn [round_nearest_even loc_of_shr_record];
      try destruct (Z.even m2); try lia; exfalso; lra.
  - destruct Cu as [->|[-> _]]; lia.
Qed.

Lemma round_nearest_even_le (mrs : shr_record) :
  (round_nearest_even (shr_m mrs) (loc_of_shr_record mrs) <= shr_m mrs + 1)%Z.
Proof.
  destruct (round_nearest_even_cases mrs) as [H|[H _]]; cbv zeta in H; rewrite H; lia.
Qed.

Lemma pow2_on_grid (M e : Z) : (e <= M)%Z -> pow2 M = dyadic (2 ^ (M - e)) e.
Proof.
  intros H. unfold dyadic. rewrite <- pow2_IZR, <- pow2_add by lia.
  f_equal. lia.
Qed.

(** The first stage of rounding: the rounded mantissas are in the order of
    the values, also when the two values are on different grids. *)
Lemma first_stage_mono (m1 m2 : positive) (e1 e2 : Z)
      (mrs1 mrs2 : shr_record) :
  let M1 := (Zdigits2 (Z.pos m1) + e1)%Z in
  let M2 := (Zdigits2 (Z.pos m2) + e2)%Z in
  dyadic (Z.pos m1) e1 <= dyadic (Z.pos m2) e2 ->
  located (dyadic (Z.pos m1) e1) mrs1 (fexp prec emax M1) ->
  located (dyadic (Z.pos m2) e2) mrs2 (fexp prec emax M2) ->
  dyadic (round_nearest_even (shr_m mrs1) (loc_of_shr_record mrs1))
         (fexp prec emax M1)
  <= dyadic (round_nearest_even (shr_m mrs2) (loc_of_shr_record mrs2))
            (fexp prec emax M2).
Proof.
  intros M1 M2 Hle L1 L2.
  assert (HM : (M1 <= M2)%Z) by (apply mag_le, Hle).
  pose proof (fexp_mono _ _ HM) as Hf.
  destruct (Z.eq_dec (fexp prec emax M1) (fexp prec emax M2)) as [Heq|Hne].
  - rewrite Heq in *. apply dyadic_le.
    apply (round_nearest_even_mono _ _ _ _ _ L1 L2 Hle).
  - assert (Hlt : (fexp prec emax M1 < fexp prec emax M2)%Z) by lia.
    clear Hne Hf.
    set (f1 := fexp prec emax M1) in *. set (f2 := fexp prec emax M2) in *.
    destruct L1 as [[Hm1 [Hlo1 Hhi1]] _], L2 as [[Hm2 [Hlo2 Hhi2]] _].
    pose proof (round_nearest_even_le mrs1) as HR1.
    pose proof (round_nearest_even_ge mrs2) as HR2.
    destruct (dyadic_digits m1 e1) as [_ Hu].
    destruct (dyadic_digits m2 e2) as [Hv _].
    rewrite <- Zdigits2_pos in Hu, Hv. fold M1 in Hu. fold M2 in Hv.
    assert (Hf2 : f2 = (M2 - 53)%Z /\ (M1 <= M2 - 1)%Z).
    { pose proof (fexp_eq M1) as E1. pose proof (fexp_eq M2) as E2.
      fold f1 in E1. fold f2 in E2. lia. }
    destruct Hf2 as [Hf2 HM12].
    (* the upper value is at least 2^(M2 - 1) *)
    assert (Hlow : pow2 (M2 - 1) <= dyadic (shr_m mrs2) f2).
    { rewrite (pow2_on_grid (M2 - 1) f2) by lia.
      apply dyadic_le.
      assert (2 ^ (M2 - 1 - f2) < shr_m mrs2 + 1)%Z.
      { apply (dyadic_lt_inv _ _ f2).
        rewrite <- (pow2_on_grid (M2 - 1) f2) by lia. lra. }
      lia. }
    (* the lower one is at most 2^(max M1 f1) *)
    assert (Hupp : dyadic (shr_m mrs1 + 1) f1 <= pow2 (Z.max M1 f1)).
    { destruct (Z_le_gt_dec f1 M1) as [Hge|Hgt].
      - rewrite Z.max_l by lia. rewrite (pow2_on_grid M1 f1) by lia.
        apply dyadic_le.
        assert (shr_m mrs1 < 2 ^ (M1 - f1))%Z.
        { apply (dyadic_lt_inv _ _ f1).
          rewrite <- (pow2_on_grid M1 f1) by lia. lra. }
        lia.
      - rewrite Z.max_r by lia.
        assert (shr_m mrs1 < 1)%Z.
        { apply (dyadic_lt_inv _ _ f1). rewrite dyadic_1.
          pose proof (pow2_lt M1 f1 ltac:(lia)). lra. }
        replace (shr_m mrs1 + 1)%Z with 1%Z by lia. rewrite dyadic_1. lra. }
    assert (Hpow : pow2 (Z.max M1 f1) <= pow2 (M2 - 1)) by (apply pow2_le; lia).
    pose proof (dyadic_le _ _ f1 HR1). pose proof (dyadic_le _ _ f2 HR2). lra.
Qed.

(** Rounding to nearest keeps the order of two positive values. *)
Lemma round_aux_mono (m1 m2 : positive) (e1 e2 : Z) :
  (e1 <= fexp prec emax (Zdigits2 (Z.pos m1) + e1))%Z ->
  (e2 <= fexp prec emax (Zdigits2 (Z.pos m2) + e2))%Z ->
  dyadic (Z.pos m1) e1 <= dyadic (Z.pos m2) e2 ->
  valid_binary (binary_round_aux prec emax false (Z.pos m1) e1 loc_Exact) = true ->
  valid_binary (binary_round_aux prec emax false (Z.pos m2) e2 loc_Exact) = true ->
  SFleb (binary_round_aux prec emax false (Z.pos m1) e1 loc_Exact)
        (binary_round_aux prec emax false (Z.pos m2) e2 loc_Exact) = true.
Proof.
  intros G1 G2 Hle. unfold binary_round_aux.
  destruct (shr_fexp_located (Z.pos m1) e1) as (mrs1 & E1 & L1); [lia|].
  destruct (shr_fexp_located (Z.pos m2) e2) as (mrs2 & E2 & L2); [lia|].
  rewrite E1, E2. clear E1 E2.
  rewrite (Z.max_r _ _ G1) in *. rewrite (Z.max_r _ _ G2) in *.
  pose proof (first_stage_mono m1 m2 e1 e2 mrs1 mrs2 Hle L1 L2) as HA.
  cbv zeta in HA.
  assert (Hf : (fexp prec emax (Zdigits2 (Z.pos m1) + e1)
                <= fexp prec emax (Zdigits2 (Z.pos m2) + e2))%Z)
    by (apply fexp_mono, mag_le, Hle).
  assert (Hf1 : (-1074 <= fexp prec emax (Zdigits2 (Z.pos m1) + e1))%Z)
    by (rewrite fexp_eq; lia).
  set (f1 := fexp prec emax (Zdigits2 (Z.pos m1) + e1)) in *.
  set (f2 := fexp prec emax (Zdigits2 (Z.pos m2) + e2)) in *.
  pose proof (round_nearest_even_ge mrs1) as HR1.
  pose proof (round_nearest_even_ge mrs2) as HR2.
  destruct L1 as [[Hm1 _] _], L2 as [[Hm2 _] _].
  set (R1 := round_nearest_even (shr_m mrs1) (loc_of_shr_record mrs1)) in *.
  set (R2 := round_nearest_even (shr_m mrs2) (loc_of_shr_record mrs2)) in *.
  assert (H1 : (0 <= R1)%Z) by lia. assert (H2 : (0 <= R2)%Z) by lia.
  clearbody R1 R2 f1 f2. clear HR1 HR2 Hm1 Hm2 G1 G2 Hle mrs1 mrs2.
  destruct (shr_fexp_spec (dyadic R1 f1) R1 f1 loc_Exact H1) as (mrsa & Ea & Ta & _).
  { split; [lra|]. rewrite dyadic_plus, dyadic_1. pose proof (pow2_pos f1). lra. }
  destruct (shr_fexp_spec (dyadic R2 f2) R2 f2 loc_Exact H2) as (mrsb & Eb & Tb & _).
  { split; [lra|]. rewrite dyadic_plus, dyadic_1. pose proof (pow2_pos f2). lra. }
  rewrite Ea, Eb. clear Ea Eb.
  destruct Ta as [Hma [Hloa Hhia]], Tb as [Hmb [Hlob Hhib]].
  destruct R1 as [|p1|p1]; [| |lia].
  { (* the lower value rounds to zero *)
    assert (shr_m mrsa = 0%Z) as ->.
    { rewrite dyadic_0 in Hloa. rewrite <- (dyadic_0 (Z.max f1 (fexp prec emax (Zdigits2 0 + f1)))) in Hloa.
      apply dyadic_le_inv in Hloa. lia. }
    intros _ _. destruct (shr_m mrsb); [reflexivity| |lia].
    destruct (Z.leb _ _); reflexivity. }
  assert (HR2 : (0 < R2)%Z).
  { apply (dyadic_nonneg_inv _ f2). pose proof (dyadic_pos p1 f1). lra. }
  destruct R2 as [|p2|p2]; try lia.
  pose proof (trunc_lower p1 1 f1 (-1074) mrsa canonical_least
                          (dyadic_ge_least p1 f1 Hf1) (conj Hma (conj Hloa Hhia))) as La.
  pose proof (trunc_lower p2 1 f2 (-1074) mrsb canonical_least
                          (dyadic_ge_least p2 f2 ltac:(lia)) (conj Hmb (conj Hlob Hhib))) as Lb.
  cbv zeta in La, Lb.
  change (Z.pos (digits2_pos p1)) with (Zdigits2 (Z.pos p1)) in La.
  change (Z.pos (digits2_pos p2)) with (Zdigits2 (Z.pos p2)) in Lb.
  assert (He : (Z.max f1 (fexp prec emax (Zdigits2 (Z.pos p1) + f1))
                <= Z.max f2 (fexp prec emax (Zdigits2 (Z.pos p2) + f2)))%Z).
  { pose proof (fexp_mono _ _ (mag_le p1 p2 f1 f2 HA)).
    rewrite !Zdigits2_pos. lia. }
  set (ea := Z.max f1 (fexp prec emax (Zdigits2 (Z.pos p1) + f1))) in *.
  set (eb := Z.max f2 (fexp prec emax (Zdigits2 (Z.pos p2) + f2))) in *.
  assert (Hpa : (0 < shr_m mrsa)%Z).
  { apply (dyadic_nonneg_inv _ ea). pose proof (dyadic_pos 1 (-1074)). lra. }
  assert (Hpb : (0 < shr_m mrsb)%Z).
  { apply (dyadic_nonneg_inv _ eb). pose proof (dyadic_pos 1 (-1074)). lra. }
  destruct (shr_m mrsa) as [|ma|ma] eqn:Ema; try lia.
  destruct (shr_m mrsb) as [|mb|mb] eqn:Emb; try lia.
  destruct (ea <=? emax - prec)%Z eqn:Oa, (eb <=? emax - prec)%Z eqn:Ob;
    intros Va Vb; try reflexivity.
  - (* both finite *)
    apply SFleb_of_dyadic; [exact Va|exact Vb|].
    assert (Hb : dyadic (Z.pos ma) ea <= dyadic (Z.pos p2) f2) by lra.
    pose proof (trunc_lower p2 ma f2 ea mrsb Va Hb) as L. cbv zeta in L.
    change (Z.pos (digits2_pos p2)) with (Zdigits2 (Z.pos p2)) in L.
    fold eb in L. rewrite Emb in L. apply L.
    unfold truncates. rewrite Emb. exact (conj Hmb (conj Hlob Hhib)).
  - (* the lower one overflows, the upper one cannot be finite *)
    apply Z.leb_le in Ob. apply Z.leb_gt in Oa. lia.
Qed.

Lemma binary_round_mono (m1 m2 : positive) (e1 e2 : Z) :
  dyadic (Z.pos m1) e1 <= dyadic (Z.pos m2) e2 ->
  valid_binary (binary_round prec emax false m1 e1) = true ->
  valid_binary (binary_round prec emax false m2 e2) = true ->
  SFleb (binary_round prec emax false m1 e1)
        (binary_round prec emax false m2 e2) = true.
Proof.
  intros Hle.
  destruct (binary_round_aligned false m1 e1) as (mz1 & ez1 & -> & Hv1 & G1).
  destruct (binary_round_aligned false m2 e2) as (mz2 & ez2 & -> & Hv2 & G2).
  apply round_aux_mono; auto. lra.
Qed.

(** *** Subtraction keeps the order *)

Lemma dyadic_minus (a b e : Z) : dyadic (a - b) e = dyadic a e - dyadic b e.
Proof. unfold dyadic. rewrite minus_IZR. ring. Qed.

(** Finite doubles compare as their values do. *)
Lemma value_le_of_SFleb (x y : spec_float) :
  valid_binary x = true -> valid_binary y = true ->
  SF_is_finite x -> SF_is_finite y ->
  SFleb x y = true -> value_of x <= value_of y.
Proof.
  intros Vx Vy Hx Hy H.
  destruct Hx as [sx|sx mx ex], Hy as [sy|sy my ey]; cbn [value_of].
  - lra.
  - destruct sy; [discriminate H|]. pose proof (dyadic_pos my ey). lra.
  - destruct sx; [|discriminate H]. pose proof (dyadic_pos mx ex). lra.
  - pose proof (dyadic_pos mx ex). pose proof (dyadic_pos my ey).
    destruct sx, sy; try lra; try discriminate H.
    + assert (H' : SFleb (S754_finite false my ey) (S754_finite false mx ex) = true).
      { revert H. unfold SFleb. cbn [SFcompare].
        change (Pos.compare_cont Eq my mx) with (Pos.compare my mx).
        change (Pos.compare_cont Eq mx my) with (Pos.compare mx my).
        destruct (Z.compare_spec ey ex), (Z.compare_spec ex ey); try lia;
          try discriminate; try reflexivity.
        destruct (Pos.compare_spec my mx), (Pos.compare_spec mx my); try lia;
          try discriminate; reflexivity. }
      pose proof (dyadic_of_SFleb _ _ _ _ Vy Vx H'). lra.
    + exact (dyadic_of_SFleb _ _ _ _ Vx Vy H).
Qed.

(** The difference of two finite doubles, the first at least the second:
    a zero, the rounding of the exact difference, or (when one of them is
    a zero) the exact difference itself. *)
Lemma SFsub_nonneg_repr (x y : spec_float) :
  valid_binary x = true -> valid_binary y = true ->
  SF_is_finite x -> SF_is_finite y ->
  value_of y <= value_of x ->
  ((exists s, SF64sub x y = S754_zero s) /\ value_of x - value_of y = 0)
  \/ (exists m e,
         value_of x - value_of y = dyadic (Z.pos m) e
         /\ SF64sub x y = binary_round prec emax false m e)
  \/ (exists m e,
         canonical m e
         /\ value_of x - value_of y = dyadic (Z.pos m) e
         /\ SF64sub x y = S754_finite false m e).
Proof.
  intros Vx Vy Hx Hy Hle. unfold SF64sub.
  destruct Hx as [sx|sx mx ex], Hy as [sy|sy my ey]; cbn [SFsub value_of] in *.
  - left. split; [|lra]. destruct sx, sy; cbn; eexists; reflexivity.
  - right. right. destruct sy.
    + exists my, ey. cbn [negb]. repeat split; [exact Vy|lra].
    + pose proof (dyadic_pos my ey). lra.
  - right. right. destruct sx.
    + pose proof (dyadic_pos mx ex). lra.
    + exists mx, ex. repeat split; [exact Vx|lra].
  - destruct (aligned_dyadic mx my ex ey) as [H1 H2]. cbv zeta in H1, H2.
    set (ez := Z.min ex ey) in *.
    set (a := fst (shl_align mx ex ez)) in *.
    set (b := fst (shl_align my ey ez)) in *.
    assert (Hd : dyadic (cond_Zopp sx (Z.pos a) - cond_Zopp sy (Z.pos b)) ez
                 = (if sx then - dyadic (Z.pos mx) ex else dyadic (Z.pos mx) ex)
                   - (if sy then - dyadic (Z.pos my) ey else dyadic (Z.pos my) ey)).
    { rewrite dyadic_minus. destruct sx, sy; cbn [cond_Zopp Z.opp];
        rewrite ?dyadic_neg, H1, H2; reflexivity. }
    destruct (cond_Zopp sx (Z.pos a) - cond_Zopp sy (Z.pos b))%Z as [|d|d] eqn:E;
      cbn [binary_normalize].
    + left. split; [eauto|]. rewrite dyadic_0 in Hd. destruct sx, sy; lra.
    + right. left. exists d, ez. split; [|reflexivity]. destruct sx, sy; lra.
    + exfalso. rewrite dyadic_neg in Hd. pose proof (dyadic_pos d ez).
      destruct sx, sy; lra.
Qed.

Lemma SFsub_mono (x1 x2 y : spec_float) :
  valid_binary x1 = true -> valid_binary x2 = true -> valid_binary y = true ->
  SF_is_finite x1 -> SF_is_finite x2 -> SF_is_finite y ->
  value_of y <= value_of x1 -> value_of x1 <= value_of x2 ->
  valid_binary (SF64sub x1 y) = true -> valid_binary (SF64sub x2 y) = true ->
  SFleb (SF64sub x1 y) (SF64sub x2 y) = true.
Proof.
  intros V1 V2 Vy F1 F2 Fy Hy H12.
  destruct (SFsub_nonneg_repr x1 y V1 Vy F1 Fy Hy)
    as [[[s1 ->] D1]|[(m1 & e1 & D1 & ->)|(m1 & e1 & C1 & D1 & ->)]];
  destruct (SFsub_nonneg_repr x2 y V2 Vy F2 Fy ltac:(lra))
    as [[[s2 ->] D2]|[(m2 & e2 & D2 & ->)|(m2 & e2 & C2 & D2 & ->)]];
  intros R1 R2;
  try pose proof (dyadic_pos m1 e1); try pose proof (dyadic_pos m2 e2);
  try (exfalso; lra).
  - destruct s1, s2; reflexivity.
  - pose proof (binary_round_shape false m2 e2) as S.
    destruct (binary_round prec emax false m2 e2) as [s|s| |s m e];
      try contradiction; subst s; destruct s1; reflexivity.
  - destruct s1; reflexivity.
  - apply binary_round_mono; [lra|exact R1|exact R2].
  - destruct (binary_round_upper false m1 m2 e1 e2 C2 ltac:(lra))
      as [E|(m & e & E & Hle)]; rewrite E in *; [reflexivity|].
    apply SFleb_of_dyadic; auto.
  - destruct (binary_round_lower false m2 m1 e2 e1 C1 ltac:(lra))
      as [E|(m & e & E & Hle)]; rewrite E in *; [reflexivity|].
    apply SFleb_of_dyadic; auto.
  - apply SFleb_of_dyadic; auto. lra.
Qed.

Local Close Scope R_scope.
Local Open Scope float_scope.

(** Subtracting one and the same number keeps the order of two numbers
    that are not below it. *)
Lemma sub_mono (a b c : float) :
  SF_is_finite (Prim2SF a) -> SF_is_finite (Prim2SF b) ->
  SF_is_finite (Prim2SF c) ->
  (c <=? a) = true -> (a <=? b) = true -> (a - c <=? b - c) = true.
Proof.
  intros Fa Fb Fc Hca Hab.
  rewrite leb_spec in *. rewrite !sub_spec.
  apply SFsub_mono; try apply Prim2SF_valid; auto.
  - apply value_le_of_SFleb; auto; apply Prim2SF_valid.
  - apply value_le_of_SFleb; auto; apply Prim2SF_valid.
  - rewrite <- sub_spec. apply Prim2SF_valid.
  - rewrite <- sub_spec. apply Prim2SF_valid.
Qed.

(** ** Ratios of differences *)

Lemma div_nan_r (x : float) : x / nan = nan.
Proof.
  apply float_is_nan. rewrite div_spec. change (Prim2SF nan) with S754_nan.
  destruct (Prim2SF x) as [s|s| |s m e]; reflexivity.
Qed.

Lemma zero_between (x hi : float) (s : bool) :
  Prim2SF x = S754_zero s -> (0 <? hi) = true -> nan_or_between 0 hi x.
Proof.
  intros Hx Hhi. right. apply flt_fle in Hhi.
  rewrite andb_true_iff, !leb_spec in *. rewrite Hx.
  change (Prim2SF 0) with (S754_zero false) in *.
  split; [destruct s; reflexivity|].
  destruct (Prim2SF hi) as [sh|sh| |sh mh eh]; destruct s; exact Hhi.
Qed.

(** A number between two finite numbers is finite. *)
Lemma finite_between (lo v hi : float) :
  SF_is_finite (Prim2SF lo) -> SF_is_finite (Prim2SF hi) ->
  (lo <=? v) = true -> (v <=? hi) = true -> SF_is_finite (Prim2SF v).
Proof.
  rewrite !leb_spec. intros Hlo Hhi H1 H2.
  destruct (Prim2SF v) as [s|[|]| |s m e]; try constructor.
  - destruct Hlo as [sl|[|] ml el]; discriminate H1.
  - destruct Hhi as [sh|[|] mh eh]; discriminate H2.
  - destruct Hlo as [sl|[|] ml el]; discriminate H1.
Qed.

Lemma is_nan_eq (x : float) : is_nan x = true -> x = nan.
Proof.
  intros H. apply float_is_nan. revert H. unfold is_nan. rewrite eqb_spec.
  destruct (Prim2SF x) as [s|s| |s m e]; try reflexivity; cbn; try discriminate.
  - destruct s; discriminate.
  - rewrite Z.compare_refl, Pos.compare_cont_refl. destruct s; discriminate.
Qed.

Lemma sub_nan_l (x : float) : nan - x = nan.
Proof. apply float_is_nan. rewrite sub_spec. reflexivity. Qed.

(** [(v - lo) / (hi - lo)] for [lo <= v <= hi]: a number of [[0, 1]], or
    NaN (when the range is zero, overflows or is undefined). *)
Lemma ratio_range (v lo hi : float) :
  (lo <=? v) = true -> (v <=? hi) = true ->
  nan_or_between 0 1 ((v - lo) / (hi - lo)).
Proof.
  intros Hlo Hhi.
  assert (Hfinite : SF_is_finite (Prim2SF (hi - lo)) ->
                    (0 <=? v - lo) = true /\ (v - lo <=? hi - lo) = true).
  { intros Hr.
    assert (Hfin : SF_is_finite (Prim2SF hi) /\ SF_is_finite (Prim2SF lo)).
    { apply SFsub_finite_inv.
      change (SF64sub (Prim2SF hi) (Prim2SF lo))
        with (SFsub prec emax (Prim2SF hi) (Prim2SF lo)).
      rewrite <- sub_spec. exact Hr. }
    destruct Hfin as [Fhi Flo].
    pose proof (finite_between lo v hi Flo Fhi Hlo Hhi) as Fv.
    split; [|apply sub_mono; auto].
    rewrite <- (sub_self lo Flo). apply sub_mono; auto.
    apply fle_refl, finite_not_nan, Flo. }
  destruct (Prim2SF (hi - lo)) as [s|s| |s m e] eqn:Er.
  - (* a zero range: 0/0 *)
    destruct (Hfinite ltac:(constructor)) as [H0 H1].
    left. apply nan_of_shape. rewrite div_spec, Er.
    rewrite leb_spec in H0, H1. rewrite Er in H1.
    change (Prim2SF 0) with (S754_zero false) in H0.
    destruct (Prim2SF (v - lo)) as [sa|[|]| |[|] ma ea]; try reflexivity;
      try discriminate H0; try discriminate H1.
  - (* an infinite range *)
    destruct (Prim2SF ((v - lo) / (hi - lo))) as [sx|sx| |sx mx ex] eqn:Ex.
    + eapply zero_between; [exact Ex|reflexivity].
    + exfalso. rewrite div_spec, Er in Ex.
      destruct (Prim2SF (v - lo)) as [sa|sa| |sa ma ea]; discriminate Ex.
    + left. apply nan_of_shape, Ex.
    + exfalso. rewrite div_spec, Er in Ex.
      destruct (Prim2SF (v - lo)) as [sa|sa| |sa ma ea]; discriminate Ex.
  - (* an undefined range *)
    left. apply float_is_nan in Er. rewrite Er, div_nan_r. reflexivity.
  - (* a finite range *)
    destruct (Hfinite ltac:(constructor)) as [H0 H1].
    assert (Hs : s = false).
    { pose proof (fle_trans _ _ _ H0 H1) as H. rewrite leb_spec, Er in H.
      destruct s; [discriminate H|reflexivity]. }
    subst s. right.
    apply (range_of_at_most _ 1 _ _ Prim2SF_1). rewrite dyadic_of_1.
    rewrite div_spec, Er.
    apply (div_at_most 1 (dyadic (Z.pos m) e) (dyadic (Z.pos m) e)).
    + rewrite <- dyadic_of_1. apply (is_double_of_float 1), Prim2SF_1.
    + apply (at_most_of_range _ (hi - lo) _ _ Er). now rewrite H0, H1.
    + reflexivity.
    + apply dyadic_pos.
    + pose proof (dyadic_pos m e). unfold Rdiv. rewrite Rinv_r; lra.
Qed.

(** ** Normalised features *)

Lemma normalizeData_element (data : list float) (x : float) :
  In x (normalizeData data) -> nan_or_between 0 1 x.
Proof.
  unfold normalizeData.
  destruct (JS.Math_max data - JS.Math_min data =? 0).
  - intros H. apply in_map_iff in H. destruct H as (value & <- & _).
    right. reflexivity.
  - intros H. apply in_map_iff in H. destruct H as (value & <- & Hin).
    destruct (is_nan (JS.Math_min data)) eqn:Nmin.
    { left. rewrite (is_nan_eq _ Nmin), !sub_nan_r, div_nan_r. reflexivity. }
    destruct (is_nan (JS.Math_max data)) eqn:Nmax.
    { left. rewrite (is_nan_eq _ Nmax), sub_nan_l, div_nan_r. reflexivity. }
    apply ratio_range.
    + apply Math_min_lower; assumption.
    + apply Math_max_upper; assumption.
Qed.

Lemma in_firstn {A : Type} (n : nat) (l : list A) (x : A) :
  In x (firstn n l) -> In x l.
Proof.
  intros H. rewrite <- (firstn_skipn n l). apply in_or_app. now left.
Qed.

(** Whatever the numbers are, every element of a normalised vector is a
    number of [[0, 1]] or NaN.  So is every feature of [extractFeatures],
    and each of the 15 technical features of [extractEnhancedFeatures]. *)
Theorem normalizeData_range :
  forall (data : list float) (marketData : list MarketData)
         (indicators : TechnicalIndicators) (now : float)
         (sentiment : SentimentAnalysis)
         (upcomingEvents1 upcomingEvents2 : list EconomicData),
    Forall (nan_or_between 0 1) (normalizeData data)
    /\ Forall (nan_or_between 0 1) (extractFeatures marketData indicators)
    /\ Forall (nan_or_between 0 1)
              (firstn 15 (Enhanced.extractEnhancedFeatures
                            marketData indicators now sentiment
                            upcomingEvents1 upcomingEvents2)).
Proof.
  intros data marketData indicators now sentiment ev1 ev2.
  split; [apply Forall_forall; apply normalizeData_element|].
  split.
  - unfold extractFeatures. destruct marketData as [|b rest].
    + apply Forall_forall. intros x Hx. apply repeat_spec in Hx. subst x.
      right. reflexivity.
    + apply Forall_forall. apply normalizeData_element.
  - unfold Enhanced.extractEnhancedFeatures. destruct marketData as [|b rest].
    + apply Forall_forall. intros x Hx. apply in_firstn, repeat_spec in Hx.
      subst x. right. reflexivity.
    + cbv zeta. rewrite firstn_app, normalizeData_length.
      set (technical := normalizeData _).
      cbn [length Nat.sub]. rewrite firstn_O, app_nil_r.
      apply Forall_forall. intros x Hx. apply in_firstn in Hx.
      revert Hx. apply normalizeData_element.
Qed.

(** ** The stochastic oscillator *)

Lemma times_100_range (q : float) :
  nan_or_between 0 1 q -> nan_or_between 0 100 (q * 100).
Proof.
  intros [Hn|Hq].
  - left. rewrite (is_nan_eq _ Hn), mul_nan_l. reflexivity.
  - right. apply (range_of_at_most _ 100 _ _ Prim2SF_100).
    rewrite dyadic_of_100, mul_spec.
    apply (mul_at_most 100 1 100); try apply Prim2SF_valid; try lra.
    + rewrite <- dyadic_of_100. apply (is_double_of_float 100), Prim2SF_100.
    + rewrite <- dyadic_of_1. apply (at_most_of_range _ 1 _ _ Prim2SF_1), Hq.
    + rewrite Prim2SF_100. cbn [at_most]. rewrite dyadic_of_100. lra.
Qed.

(** On consistent bars (low <= close <= high) %K is a number of
    [[0, 100]] or NaN, never anything else, and %D is the same number: the
    last close lies between the lowest low and the highest high of the
    window, and neither the subtractions nor the division nor the
    multiplication by 100 can carry the result across 0 or 100.  NaN is
    what a window of zero range, or an overflowing one, gives. *)
Theorem calculateStochastic_range :
  forall (Math_log : float -> float) (marketData : list MarketData),
    Forall consistent marketData ->
    let s := stochastic (calculateTechnicalIndicators Math_log marketData) in
    nan_or_between 0 100 (k s) /\ d s = k s.
Proof.
  intros Math_log marketData Hall.
  destruct marketData as [|b0 rest] eqn:Hmd.
  { cbn. split; [right|]; reflexivity. }
  rewrite <- Hmd in *. assert (Hne : marketData <> []) by (subst; discriminate).
  assert (Hs : stochastic (calculateTechnicalIndicators Math_log marketData)
               = calculateStochastic (map high marketData) (map low marketData)
                                     (map price marketData) 14).
  { subst marketData. reflexivity. }
  clear Hmd b0 rest. intros s. subst s. rewrite Hs. clear Hs.
  unfold calculateStochastic.
  destruct (length (map price marketData) <? 14)%nat.
  { cbn. split; [right|]; reflexivity. }
  cbv zeta. cbn [k d]. split; [|reflexivity].
  apply times_100_range.
  destruct (exists_last Hne) as [bars [bar Hbars]].
  assert (Hbar : consistent bar).
  { rewrite Forall_forall in Hall. apply Hall. subst. apply in_or_app.
    right. now left. }
  destruct Hbar as [Hlo Hhi].
  rewrite !slice_last_map.
  set (window := JS.slice_last 14 marketData).
  assert (Hwin : forall w, In w window -> consistent w).
  { intros w Hw. rewrite Forall_forall in Hall. apply Hall.
    eapply slice_last_incl, Hw. }
  assert (Hmin : is_nan (JS.Math_min (map low window)) = false).
  { apply fold_number; [apply min2_number|reflexivity|].
    apply Forall_forall. intros x Hx. apply in_map_iff in Hx.
    destruct Hx as (w & <- & Hw). apply (fle_number _ _ (proj1 (Hwin w Hw))). }
  assert (Hmax : is_nan (JS.Math_max (map high window)) = false).
  { apply fold_number; [apply max2_number|reflexivity|].
    apply Forall_forall. intros x Hx. apply in_map_iff in Hx.
    destruct Hx as (w & <- & Hw). apply (fle_number _ _ (proj2 (Hwin w Hw))). }
  assert (Hin : In bar window).
  { subst window marketData. apply last_in_slice_last_gen. }
  assert (Hc : JS.last_elt (map price marketData) = price bar).
  { subst marketData. rewrite map_app. cbn [map]. unfold JS.last_elt.
    apply last_last. }
  rewrite Hc. apply ratio_range.
  - eapply fle_trans; [|exact Hlo].
    apply Math_min_lower; [exact Hmin|]. apply in_map, Hin.
  - eapply fle_trans; [exact Hhi|].
    apply Math_max_upper; [exact Hmax|]. apply in_map, Hin.
Qed.

Lemma calculateStochastic_range_witness :
  let s := stochastic (calculateTechnicalIndicators (fun x => x) flat30) in
  nan_or_between 0 100 (k s) /\ d s = k s.
Proof.
  refine (calculateStochastic_range (fun x => x) flat30 _).
  apply Forall_forall. intros bar Hbar. apply repeat_spec in Hbar.
  subst bar. split; reflexivity.
Defined.

(** ** Every signal is logged, and nothing else is *)


Section Logging.

Variable Math_exp : float -> float.
Variable Math_tanh : float -> float.
Variable Math_log : float -> float.
Variable toFixed1 : float -> string.
Variable toString : nat -> string.


End Logging.

(** ** Training touches the requested models only *)

Section TrainingFrame.

Variable Math_log : float -> float.
Variable Math_tanh : float -> float.
Variable fetchHistoricalData : string -> string -> list MarketData.
Variable trainModel :
  MLModelTraining -> list TrainingData -> AsyncStorage ->
  result (list TrainingMetrics) * MLModelTraining * AsyncStorage.

Let loop := train_loop Math_log Math_tanh fetchHistoricalData trainModel.

Lemma set_mlModel_other (e : Engine) (sym s : string) (m : MLModelTraining) :
  s <> sym -> mlModels (set_mlModel e sym m) s = mlModels e s.
Proof.
  intros Hne. cbn [set_mlModel mlModels].
  destruct (String.eqb_spec s sym); [contradiction|reflexivity].
Qed.

Lemma train_loop_frame (symbols : list string) :
  NoDup symbols ->
  forall results e st,
    (forall x, In x (map fst results) -> ~ In x symbols) ->
    NoDup (map fst results) ->
    let r := loop symbols results e st in
    let results' := snd (fst (fst r)) in
    let e' := snd (fst r) in
    (forall s, ~ In s symbols -> mlModels e' s = mlModels e s)
    /\ modelWeights e' = modelWeights e
    /\ historicalPredictions e' = historicalPredictions e
    /\ (forall x, In x (map fst results') ->
                  In x (map fst results) \/ In x symbols)
    /\ NoDup (map fst results').
Proof.
  unfold loop.
  induction 1 as [|sym rest Hnotin Hnodup IH]; intros results e st Hfresh Hres.
  { cbn. repeat split; auto. }
  assert (Hskip :
    let r := train_loop Math_log Math_tanh fetchHistoricalData trainModel
                        rest results e st in
    (forall s, ~ In s (sym :: rest) -> mlModels (snd (fst r)) s = mlModels e s)
    /\ modelWeights (snd (fst r)) = modelWeights e
    /\ historicalPredictions (snd (fst r)) = historicalPredictions e
    /\ (forall x, In x (map fst (snd (fst (fst r)))) ->
                  In x (map fst results) \/ In x (sym :: rest))
    /\ NoDup (map fst (snd (fst (fst r))))).
  { destruct (IH results e st) as (H1 & H2 & H3 & H4 & H5); auto.
    { intros x Hx Hin. apply (Hfresh x Hx). now right. }
    cbv zeta. repeat split; auto.
    - intros s Hs. apply H1. intros Hin. apply Hs. now right.
    - intros x Hx. destruct (H4 x Hx); [now left|right; now right]. }
  cbn [train_loop].
  destruct (length (fetchHistoricalData (sym ++ "=X") "1y") <? 100)%nat;
    [exact Hskip|].
  destruct (mlModels e sym) as [mlModel|]; [|exact Hskip].
  match goal with |- context [(50 <? ?n)%nat] => destruct (50 <? n)%nat end;
    [|exact Hskip].
  match goal with |- context [trainModel ?a ?b ?c] =>
    destruct (trainModel a b c) as [[[metrics|err] mlModel'] st']
  end.
  - destruct (IH (results ++ [(sym, metrics)]) (set_mlModel e sym mlModel') st')
      as (H1 & H2 & H3 & H4 & H5).
    { intros x Hx Hin. rewrite map_app in Hx. apply in_app_or in Hx.
      destruct Hx as [Hx|[<-|[]]]; [|contradiction].
      apply (Hfresh x Hx). now right. }
    { rewrite map_app. cbn [map fst].
      apply NoDup_app; [exact Hres|repeat constructor; intros []|].
      intros x Hx [<-|[]]. apply (Hfresh _ Hx). now left. }
    cbv zeta. repeat split; auto.
    + intros s Hs. rewrite H1 by (intros Hin; apply Hs; now right).
      apply set_mlModel_other. intros ->. apply Hs. now left.
    + intros x Hx. destruct (H4 x Hx) as [Hin|Hin]; [|right; now right].
      rewrite map_app in Hin. apply in_app_or in Hin.
      destruct Hin as [Hin|[<-|[]]]; [now left|right; now left].
  - cbn [fst snd]. repeat split; auto.
    + intros s Hs. apply set_mlModel_other. intros ->. apply Hs. now left.
Qed.

(** [trainModels] changes no model but those of the symbols it was asked
    to train (the given symbol, or all supported ones), and nothing else
    in the engine; each result it returns belongs to one of these symbols,
    and no symbol has two results. *)
Theorem trainModels_only_requested :
  forall (e : Engine) (st : AsyncStorage) (symbol : option string),
    let requested :=
      match symbol with
      | Some s => if String.eqb s "" then getSupportedSymbols else [s]
      | None => getSupportedSymbols
      end in
    let r := trainModels Math_log Math_tanh fetchHistoricalData trainModel
                         e st symbol in
    let e' := fst (snd r) in
    (forall s, ~ In s requested -> mlModels e' s = mlModels e s)
    /\ modelWeights e' = modelWeights e
    /\ historicalPredictions e' = historicalPredictions e
    /\ forall results,
        fst r = Ok results ->
        (forall s metrics, In (s, metrics) results -> In s requested)
        /\ NoDup (map fst results)
        /\ (length results <= length requested)%nat.
Proof.
  intros e st symbol requested r e'. subst r e'. unfold trainModels.
  destruct (isTraining e); [repeat split; auto; discriminate|].
  fold requested.
  assert (Hnd : NoDup requested).
  { assert (NoDup getSupportedSymbols)
      by (repeat constructor; cbn; intuition discriminate).
    subst requested. destruct symbol as [s|]; [|assumption].
    destruct (String.eqb s ""); [assumption|repeat constructor; intros []]. }
  pose proof (train_loop_frame requested Hnd [] (set_isTraining e true) st
                               ltac:(intros x []) ltac:(constructor)) as H.
  cbv zeta in H. unfold loop in H.
  destruct (train_loop Math_log Math_tanh fetchHistoricalData trainModel
                       requested [] (set_isTraining e true) st)
    as [[[thrown results] e1] st1].
  cbn [fst snd] in *. destruct H as (H1 & H2 & H3 & H4 & H5).
  split; [exact H1|]. split; [exact H2|]. split; [exact H3|].
  intros results0 Heq. injection Heq as <-.
  assert (Hin : forall x, In x (map fst results) -> In x requested).
  { intros x Hx. destruct (H4 x Hx) as [[]|Hs]. exact Hs. }
  split; [|split; [exact H5|]].
  - intros s metrics Hsm. apply Hin. apply in_map_iff.
    exists (s, metrics). split; [reflexivity|exact Hsm].
  - rewrite <- (length_map fst results).
    apply NoDup_incl_length; [exact H5|exact Hin].
Qed.

End TrainingFrame.

(** ** One log per symbol *)

(** The prediction logs of different symbols do not interfere: storing a
    prediction for one symbol changes neither the stored log nor the copy
    in memory of any other symbol, nor what [evaluateModel] returns for
    it. *)
Theorem prediction_logs_are_per_symbol :
  forall (e : Engine) (st : AsyncStorage) (symbol other : string)
         (signal : TradingSignal) (features : list float),
    other <> symbol ->
    let r := storePrediction e st symbol signal features in
    stored_log (snd r) other = stored_log st other
    /\ historicalPredictions (fst r) other = historicalPredictions e other
    /\ evaluateModel (snd r) other = evaluateModel st other.
Proof.
  intros e st symbol other signal features Hne r. subst r.
  assert (Hkey : String.eqb (predictions_key other) (predictions_key symbol)
                 = false).
  { rewrite predictions_key_eqb. apply String.eqb_neq, Hne. }
  unfold storePrediction, storePrediction_try, getItem.
  destruct (readFails st) eqn:Hr; [repeat split|].
  destruct (parse_predictions _) as [predictions|err]; [|repeat split].
  unfold setItem. destruct (writeFails st); [repeat split|].
  cbn [fst snd]. repeat split.
  - unfold stored_log. cbn [items]. now rewrite Hkey.
  - cbn [set_historicalPredictions historicalPredictions].
    destruct (String.eqb_spec other symbol); [contradiction|reflexivity].
  - unfold evaluateModel, evaluateModel_try, getItem. cbn [readFails items].
    now rewrite Hr, Hkey.
Qed.

Lemma prediction_logs_are_per_symbol_witness :
  let r := storePrediction emptyEngine pendingStorage "EURJPY" sampleSignal [] in
  stored_log (snd r) "EURUSD" = stored_log pendingStorage "EURUSD"
  /\ historicalPredictions (fst r) "EURUSD" = None
  /\ evaluateModel (snd r) "EURUSD" = evaluateModel pendingStorage "EURUSD".
Proof.
  refine (prediction_logs_are_per_symbol emptyEngine pendingStorage
            "EURJPY"%string "EURUSD"%string sampleSignal [] _).
  discriminate.
Defined.

(** ** Without sentiment, the two revisions weigh alike *)

Lemma add_neg_zero (x : float) : x + (- 0) = x.
Proof.
  apply Prim2SF_inj. rewrite add_spec.
  change (Prim2SF (- 0)) with (S754_zero true).
  destruct (Prim2SF x) as [[|]|s| |s m e]; reflexivity.
Qed.

Section NeutralSentiment.

Variable toFixed1 : float -> string.
Variable toString : nat -> string.

(** With a neutral sentiment -- an [overallSentiment] of 0, which is also
    what the data collector reports when it fails -- the combined
    confidence of the sentiment revision is the one of the first revision:
    0.6 times the network plus 0.4 times the rules.  The two revisions then
    differ in their thresholds only (0.65 and 0.35 instead of 0.6 and
    0.4), so whenever the sentiment revision decides on a direction, the
    first revision decides on the same direction from the same prediction
    and rules. *)
Theorem neutral_sentiment_confidence :
  forall (mlPrediction : float) (sentiment : SentimentAnalysis)
         (ruleBasedSignals : RuleBasedSignals),
    overallSentiment sentiment = 0 ->
    Enhanced.combinedConfidence mlPrediction sentiment ruleBasedSignals
    = Basic.combinedConfidence mlPrediction ruleBasedSignals
    /\ forall (e : Engine) (st : AsyncStorage) (symbol : string)
              (duration : nat) (now : float) (currentData : MarketData)
              (indicators : TechnicalIndicators)
              (features features' : list float)
              (upcomingEvents : list EconomicData) (d : Direction),
        option_map direction
          (fst (Enhanced.combineSignals
                  toFixed1 toString e st symbol duration now currentData
                  indicators features mlPrediction sentiment ruleBasedSignals
                  upcomingEvents)) = Some d ->
        option_map direction
          (fst (Basic.combineSignals
                  toFixed1 e st symbol duration now currentData indicators
                  features' mlPrediction ruleBasedSignals)) = Some d.
Proof.
  intros ml sentiment rules Hs.
  assert (Heq : Enhanced.combinedConfidence ml sentiment rules
                = Basic.combinedConfidence ml rules).
  { unfold Enhanced.combinedConfidence, Basic.combinedConfidence. rewrite Hs.
    cbv zeta.
    change (JS.Math_abs 0 * 0.1) with 0.
    change (0.6 - 0) with 0.6. change (JS.gtb 0 0) with false. cbv iota.
    apply add_neg_zero. }
  split; [exact Heq|].
  intros e st symbol duration now currentData indicators features features'
         upcomingEvents d.
  rewrite Enhanced_direction, Basic_direction. cbv zeta. rewrite Heq.
  set (c := Basic.combinedConfidence ml rules). unfold JS.gtb.
  destruct (0.65 <? c) eqn:Hcall.
  - intros Hd.
    replace (0.6 <? c) with true; [exact Hd|].
    symmetry. apply (flt_trans 0.6 0.65 c); [reflexivity|exact Hcall].
  - destruct (c <? 0.35) eqn:Hput; [|discriminate].
    intros Hd.
    replace (0.6 <? c) with false.
    + replace (c <? 0.4) with true; [exact Hd|].
      symmetry. apply (flt_trans c 0.35 0.4); [exact Hput|reflexivity].
    + symmetry. apply not_true_is_false. intros Hgt.
      pose proof (flt_trans 0.6 c 0.35 Hgt Hput) as H. discriminate H.
Qed.

End NeutralSentiment.

Lemma neutral_sentiment_confidence_witness :
  Enhanced.combinedConfidence
    0.75 {| overallSentiment := 0; newsCount := 0; socialMediaMentions := 0;
            fearGreedIndex := 50 |}
    {| confidence := 0.5; reasoning_of := [] |}
  = Basic.combinedConfidence 0.75 {| confidence := 0.5; reasoning_of := [] |}.
Proof.
  exact (proj1 (neutral_sentiment_confidence
                  (fun _ => EmptyString) (fun _ => EmptyString)
                  0.75 {| overallSentiment := 0; newsCount := 0;
                          socialMediaMentions := 0; fearGreedIndex := 50 |}
                  {| confidence := 0.5; reasoning_of := [] |} eq_refl)).
Defined.
